(* ===== verification/_CoqProject ===== *)
-Q . S2P
Prelude.v
PyValue.v
PyStr.v
Uuid.v
Regex.v
IPAddr.v
DestinationPolicy.v
Socks.v
NormalizerConfig.v
NormalizerStreams.v
NormalizerAssoc.v
Json.v
DeadmanConfig.v
DeadmanPulse.v
DeadmanDelivery.v
AwgProfile.v
IPNet.v
Base64.v
AwgContract.v
TransportIdentity.v
EchConfig.v
Url.v
TransportProfiles.v
TransportAdmission.v
ListenerContract.v
FirewallRules.v
ListenerAudit.v
FleetPlan.v
FleetJournal.v
FleetRotation.v
ListenerCollisions.v
WatchdogBudget.v
DiskGuard.v
DeviceBinding.v
DeviceCredentials.v
DeviceIssue.v
DevicePublication.v
DeviceLifecycle.v
DeviceInspect.v
LivenessConfig.v
LivenessReport.v
LivenessDecision.v
LivenessStreak.v
LivenessSurvivors.v
SilencePolicy.v
SilenceJournal.v
SilenceGateway.v
