(* ===== verification/Prelude.v ===== *)
(** * The verification library of the vpn-deploy control plane

    The program deploys and runs a small VPN service: Ansible and Terraform build
    the nodes, and Python decides what may be deployed, what a node may forward,
    when a node is replaced and when somebody is told.  This library models the
    Python parts that decide, as pure functions over the data they decide on,
    state machines over the files they keep, and step relations where the outside
    world (a crash, a peer, a clock) may come in between.

    ** The parts and how they interact

    - Data shared by all parts.  [PyValue] is the decoded JSON or YAML value with
      Python's equality, truth and dictionaries, [PyStr] strings and decimal
      digits, [Regex] regular expressions by derivatives, [Json] JSON output,
      [IPAddr] and [IPNet] the [ipaddress] module, [Base64] and [Url] the parts of
      [base64] and [urllib.parse] in use.  This file holds the exceptions ([res]),
      stateful code that may raise ([eff]), and the lemmas and tactics of both.
    - Egress of a node.  [DestinationPolicy] ([transport_destination_policy.py])
      says which addresses a client may reach; [Socks] ([transport_socks.py]) is
      the SOCKS5 codec; [NormalizerConfig], [NormalizerStreams] and
      [NormalizerAssoc] ([transport_egress_normalizer.py]) are the gateway built on
      both: its configuration, its handshake and byte relay, its port pools,
      connection races and UDP associations.
    - What may be deployed.  [AwgProfile], [AwgContract], [TransportIdentity],
      [EchConfig], [TransportProfiles] and [TransportAdmission]
      ([transport_semantics.py]) are the admission of the transport secrets: wire
      profiles, addresses and keys of AmneziaWG, identities and credentials, the
      ECH list, origins and port hopping, and their composition.
      [ListenerCollisions] ([check-listener-collisions.py]) refuses two owners of a
      port before the deployment; [ListenerContract], [FirewallRules] and
      [ListenerAudit] ([verify-public-listeners.py]) audit the live firewall and
      sockets of a node after it.
    - Liveness.  [LivenessConfig], [LivenessReport], [LivenessDecision] and
      [LivenessStreak] ([protocol-liveness.py], with [probe_deadline] of
      [liveness_generation.py] and [verify_report_binding] of
      [disposable_liveness_executor.py]) admit the reports of the sentinels, aggregate them
      into a decision and count its confirmations; [LivenessSurvivors]
      ([fleet_rotation_liveness.py]) turns reports into the set of healthy nodes.
    - Fleet rotation.  [FleetPlan], [FleetJournal] and [FleetRotation]
      ([fleet_rotation.py]) replace the nodes of an approved plan one by one behind
      a durable journal, each behind the gate that [LivenessSurvivors] feeds.
    - Dead-man receiver.  [DeadmanConfig], [DeadmanPulse] and [DeadmanDelivery]
      ([observability-deadman.py]) accept signed pulses, and keep incidents and
      their notifications in two files across crashes.
    - Silence gateway.  [SilencePolicy], [SilenceJournal] and [SilenceGateway]
      ([observability-silence-gateway.py], with [Uuid] for its identifiers) let
      authenticated operators silence alerts in their own scope: the admission of a
      request, the journal of what each owner silenced, and the HTTP authority over
      both.
    - Watchdog and disk.  [WatchdogBudget] ([vpn-watchdog-state.py]): the counters
      that bound the watchdog's restarts and alerts, and their file; [DiskGuard]
      ([observability-disk-guard.py]): the reserve of the monitoring disk and the
      latch that keeps its receiver off.
    - Devices.  [DeviceBinding] ([awg_device_binding.py]) ties a device to its one
      AmneziaWG peer and allocates its address; [DeviceCredentials] and
      [DeviceIssue] ([device_lifecycle_credentials.py]) discover, revoke and issue
      its credentials across the fleet, behind the admission of
      [TransportAdmission] and the registry diagnostics of [DeviceBinding].
      [DevicePublication] reads the snapshots of the publishers
      ([device_migration.py] and its helper files); [DeviceInspect]
      ([device_lifecycle.py]) is the review an operator approves, and
      [DeviceLifecycle] (the same file) carries a prepared issue, refresh or revocation
      through the documents, the nodes and the publishers, resumably, against an
      outside that may change or fail between any two calls.

    ** Definitions and the code

    A function keeps its name where Rocq allows it, and its branches and their
    order; what it raises is a value of [exn] (class and message), and an [except]
    clause is [try_except].  A dictionary is an association list in insertion
    order, a set a [gset] or a list without order, a mutable object that is passed
    through a loop is its state.  Integers are unbounded in Python and are [Z];
    the widths of the wire formats (ports, prefixes, 16 and 32 bit fields) are
    explicit bounds or byte lists.  A [str] is its UTF-8 encoding.

    ** What the theorems show

    - No effect is lost or doubled by a crash: [recovery_never_lost],
      [disk_always_readable], [pulse_not_replayed], [reserve_sends_due] (dead-man
      receiver); [publication_atomic], [rotations_once], [plan_progress] (fleet);
      [budget_atomic], [budget_always_readable], [budget_text_iff] (watchdog);
      [refusal_sticks], [guard_protects] (disk guard).
    - Nothing is forwarded or accepted that the policy does not allow:
      [allows_true_iff], [handle_authenticated], [gateway_handshake],
      [association_confined], [held_ports_exclusive], [pulse_authentic],
      [authentication_iff]; and bytes arrive unchanged: [relay_faithful],
      [relay_drained], [frame_exact], [datagram_round_trip].
    - Checks decide what they are for: [verify_exact], [clean_run_admits],
      [collector_confined], [rules_complete], [collisions_exact] (listeners);
      [awg_addresses], [awg_identities], [awg_profile_iff], [ech_config_iff],
      [hopping_matches_exact], [cohort_identities], [transport_complete]
      (transports); [validated_pools] (normalizer).
    - A node is replaced on evidence only: [report_admitted],
      [report_check_total], [evaluation_exact], [streak_confirmed],
      [gate_witnessed], [rotations_gated].
    - Operators silence only their own alerts, and the journal survives:
      [requests_authorised], [replies_truthful], [gateway_restarts],
      [append_atomic], [expiry_exact], [validate_silence_exact].
    - A device has what it was issued and loses all of it: [issue_complete],
      [revoke_complete], [registry_recovers], [allocate_lowest].  Its lifecycle
      overwrites nothing it did not review, acts in order behind its fences,
      completes on evidence and never loses progress: [publications_admitted],
      [effects_ordered], [run_confirmed], [progress_durable]; and what was approved
      is what was reviewed: [inspect_clears].

    ** Where the code does less than one may expect

    The statements are bounded by what the code does, and an example shows each
    bound.  The verifier ends with an uncaught exception on some rulesets
    ([interface_set_crashes]) and the check of a report on some reports
    ([report_check_total]).  A met quorum rotates whatever the other sentinels
    answer ([rotates_despite_error]), although the documents say that an unclear
    report inhibits rotation.  A port is lost when its socket cannot be created
    ([socket_loses_port]).  The reserved host of an IPv6 network is admitted for a
    device under a scope identifier of its own ([sample_scoped_reserved]).  The
    latch of the disk guard holds its own state directory only
    ([sample_elsewhere]).  A rerun takes the phase of a complete operation back
    ([sample_reopened]).  Enrolment can make a list that discovery then refuses
    ([issue_over_capacity]), and revocation leaves the name of a device in an Xray
    cohort when discovery finds nothing else of it.

    ** Bounds and fuel

    Recursion is structural wherever the data is.  [to_digits] runs with
    [digits_fuel], one more than the binary logarithm, which [digits_fuel_enough]
    shows to be enough; the frame and request loops are bounded by the byte limit
    of the code ([frame_exact], [bounded_reads_total]); the attempt loops by the
    configured number of attempts ([telegram_bounded]); the signature and ECH
    parsers run with the length of their input, which bounds their steps
    ([signature_size_iff], [ech_config_iff]).

    The clock of the silence gateway counts ticks of 2^-22 seconds, which every
    [time.time()] of the present is a multiple of; [strptime] is written out for
    the one format in use.

    ** Parameters

    What the code takes from elsewhere is an argument: SHA-256, HMAC and X25519,
    the JSON and YAML decoders and ISO 8601 parsing, IDNA and NFKC tables, the
    decimal digits and the white space of Unicode outside ASCII, [str] and [int]
    of values the code does not expect, the text of [nft], [ss], the answers of
    sockets, resolvers, sentinels, operators and scripts.  A hypothesis on one of
    them states what its documentation says, and is instantiated by a witness.

    ** Not modelled

    Reading and writing files with owner and mode checks, starting processes,
    threads and servers, signals, argument parsing and printing; the admission and
    running of a liveness executor ([load_bound_executor]); the JSON Schema validator
    and everything the schemas alone decide; the rendering of client payloads and
    what needs it ([prepare] and [_render] of the device lifecycle, the device
    migration); Ansible, Terraform, cloud-init, Go and
    shell code and the Jinja templates.  The remaining Python is of two kinds:
    controllers whose content is the commands they run on hosts (acceptance
    harnesses, staging, Tailnet promotion, runtime releases), and the repository's
    own task tooling; both are listed, with the reason, in the manifest. *)

From stdpp Require Export base tactics list strings gmap.
From Stdlib Require Export ZArith Lia.

#[global] Open Scope Z_scope.

(** ** Python exceptions and results

    An exception is its class and its (categorical) message; [catches] is the
    part of the class hierarchy that the modelled [except] clauses rely on. *)

Inductive pyclass :=
| ValueError | UnicodeError | JSONDecodeError | AddressValueError
| PolicyError | WireError | NormalizerError | DatasetUnavailable
| TypeError | KeyError | AttributeError | IndexError | AssertionError
| OverflowError | OSError | NeedMore | DeadmanError | RotationError
| BinasciiError | StopIteration | YAMLError | RecursionError | SystemExit
| ConfigError | GenerationError | InspectionError | GatewayError
| BindingError | MigrationRefused.

#[global] Instance pyclass_eq_dec : EqDecision pyclass.
Proof. solve_decision. Defined.

Record exn := Exn { exn_class : pyclass; exn_msg : string }.

#[global] Instance exn_eq_dec : EqDecision exn.
Proof. solve_decision. Defined.

(** [catches c d]: an [except c] clause catches an exception of class [d]. *)
Definition catches (c d : pyclass) : bool :=
  bool_decide (c = d) ||
  match c, d with
  | ValueError,
    (UnicodeError | JSONDecodeError | AddressValueError | PolicyError
     | WireError | NormalizerError | DatasetUnavailable | BinasciiError | ConfigError | GatewayError
     | BindingError | MigrationRefused) => true
  | _, _ => false
  end.

Definition caught (cs : list pyclass) (e : exn) : bool :=
  existsb (fun c => catches c (exn_class e)) cs.

Inductive res (A : Type) :=
| Ok (a : A)
| Raise (e : exn).
Arguments Ok {A} a.
Arguments Raise {A} e.

Declare Scope py_scope.
Delimit Scope py_scope with py.
#[global] Open Scope py_scope.

Definition res_bind {A B} (m : res A) (k : A -> res B) : res B :=
  match m with Ok a => k a | Raise e => Raise e end.

Definition raise_if (b : bool) (e : exn) : res unit :=
  if b then Raise e else Ok tt.

Notation "'let*' x ':=' m 'in' k" := (res_bind m (fun x => k))
  (at level 10, x name, m at level 100, k at level 200,
   format "'[v' 'let*'  x  ':='  m  'in' '/' k ']'") : py_scope.
Notation "'let*' ' p ':=' m 'in' k" := (res_bind m (fun p => k))
  (at level 10, p strict pattern, m at level 100, k at level 200) : py_scope.
Notation "m ;;; k" := (res_bind m (fun _ => k))
  (at level 100, right associativity) : py_scope.

(** [try m except cs: h] *)
Definition try_except {A} (m : res A) (cs : list pyclass) (h : exn -> res A) : res A :=
  match m with
  | Ok a => Ok a
  | Raise e => if caught cs e then h e else Raise e
  end.

Fixpoint mapM_res {A B} (f : A -> res B) (l : list A) : res (list B) :=
  match l with
  | [] => Ok []
  | x :: l => let* y := f x in let* ys := mapM_res f l in Ok (y :: ys)
  end.

(** [for x in l: acc = f(acc, x)] with exceptions. *)
Fixpoint foldM_res {A S} (f : S -> A -> res S) (l : list A) (s : S) : res S :=
  match l with
  | [] => Ok s
  | x :: l => let* s := f s x in foldM_res f l s
  end.

Definition is_ok {A} (m : res A) : bool :=
  match m with Ok _ => true | Raise _ => false end.

Definition of_option {A} (o : option A) (e : exn) : res A :=
  match o with Some a => Ok a | None => Raise e end.

(** *** Inversion lemmas and the tactics built on them *)

Lemma res_bind_Ok {A B} (m : res A) (k : A -> res B) r :
  res_bind m k = Ok r <-> exists a, m = Ok a /\ k a = Ok r.
Proof.
  destruct m as [a|e]; simpl.
  - split; [by exists a | by intros (? & [= ->] & ?)].
  - by split; [|intros (? & ? & ?)].
Qed.

Lemma res_bind_Raise {A B} (m : res A) (k : A -> res B) e :
  res_bind m k = Raise e <-> m = Raise e \/ exists a, m = Ok a /\ k a = Raise e.
Proof.
  destruct m as [a|e']; simpl.
  - split; [by right; exists a | by intros [?|(? & [= ->] & ?)]].
  - split; [by intros [= ->]; left | by intros [[= ->]|(? & ? & ?)]].
Qed.

Lemma Ok_inj {A} (a b : A) : Ok a = Ok b -> a = b.
Proof. by intros [=]. Qed.

Lemma raise_if_Ok b e u : raise_if b e = Ok u <-> b = false.
Proof. by destruct b, u. Qed.

Lemma raise_if_seq_Ok {A} b e (k : res A) r :
  (raise_if b e ;;; k) = Ok r <-> b = false /\ k = Ok r.
Proof. destruct b; simpl; [split; [done|by intros []] | split; [done|by intros []]]. Qed.

Lemma try_except_Ok {A} (m : res A) cs h r :
  try_except m cs h = Ok r <->
  m = Ok r \/ exists e, m = Raise e /\ caught cs e = true /\ h e = Ok r.
Proof.
  destruct m as [a|e]; simpl.
  - split; [by left | by intros [?|(? & ? & ?)]].
  - destruct (caught cs e) eqn:Hc; split.
    + intros ?. right. by exists e.
    + by intros [?|(e' & [= <-] & _ & ?)].
    + done.
    + intros [?|(e' & [= <-] & ? & _)]; congruence.
Qed.

(** An [except] clause whose handler always raises does not create results. *)
Lemma try_raise_Ok {A} (m : res A) cs h r :
  (forall e, exists e', h e = Raise e') ->
  try_except m cs h = Ok r <-> m = Ok r.
Proof.
  intros Hh. rewrite try_except_Ok. split; [|by left].
  intros [?|(e & _ & _ & He)]; [done|]. destruct (Hh e); congruence.
Qed.

Lemma of_option_Ok {A} (o : option A) e r : of_option o e = Ok r <-> o = Some r.
Proof. destruct o; simpl; split; congruence. Qed.

Lemma mapM_res_Ok {A B} (f : A -> res B) l k :
  mapM_res f l = Ok k <-> Forall2 (fun x y => f x = Ok y) l k.
Proof.
  revert k. induction l as [|x l IH]; intros k; simpl.
  - split; [intros [= <-]; constructor | inversion 1; done].
  - rewrite res_bind_Ok. split.
    + intros (y & Hy & (ys & Hys & [= <-])%res_bind_Ok).
      constructor; [done|]. by apply IH.
    + inversion 1 as [|? y ? ys Hy Hys]; subst. exists y. split; [done|].
      apply res_bind_Ok. exists ys. by split; [apply IH|].
Qed.

Lemma foldM_res_ind {A S} (P : list A -> S -> Prop) (f : S -> A -> res S) l s r :
  P [] s ->
  (forall done_ x s s', P done_ s -> f s x = Ok s' -> P (done_ ++ [x]) s') ->
  foldM_res f l s = Ok r -> P l r.
Proof.
  intros H0 Hstep. change l with ([] ++ l) at 2. revert H0.
  generalize (@nil A) as d. revert s.
  induction l as [|x l IH]; intros s d Hd; simpl.
  - intros [= <-]. by rewrite app_nil_r.
  - intros (s' & Hs & Hf)%res_bind_Ok.
    replace (d ++ x :: l) with ((d ++ [x]) ++ l) by (by rewrite <-app_assoc).
    eapply IH; [by eapply Hstep | done].
Qed.

(** [res_inv H]: decompose [H : m = Ok r] through binds, guards and [if]s. *)
Ltac res_step H :=
  lazymatch type of H with
  | (raise_if _ _ ;;; _) = Ok _ =>
      let Hg := fresh "Hg" in
      apply raise_if_seq_Ok in H as [Hg H]
  | res_bind _ _ = Ok _ =>
      let a := fresh "a" in let Ha := fresh "Ha" in
      apply res_bind_Ok in H as (a & Ha & H)
  | Ok _ = Ok _ => apply Ok_inj in H
  | Raise _ = Ok _ => discriminate H
  | of_option _ _ = Ok _ => apply of_option_Ok in H
  | raise_if _ _ = Ok _ => apply raise_if_Ok in H
  | (if ?b then _ else _) = Ok _ =>
      let Hb := fresh "Hb" in destruct b eqn:Hb
  end.
Ltac res_inv H := repeat (res_step H; try discriminate).

(** ** Boolean reflection *)

Ltac bprop_step :=
  match goal with
  | H : _ && _ = true |- _ => apply andb_true_iff in H as [? ?]
  | H : _ || _ = false |- _ => apply orb_false_iff in H as [? ?]
  | H : negb _ = true |- _ => apply negb_true_iff in H
  | H : negb _ = false |- _ => apply negb_false_iff in H
  | H : Z.leb _ _ = true |- _ => apply Z.leb_le in H
  | H : Z.leb _ _ = false |- _ => apply Z.leb_gt in H
  | H : Z.ltb _ _ = true |- _ => apply Z.ltb_lt in H
  | H : Z.ltb _ _ = false |- _ => apply Z.ltb_ge in H
  | H : Z.eqb _ _ = true |- _ => apply Z.eqb_eq in H
  | H : Z.eqb _ _ = false |- _ => apply Z.eqb_neq in H
  | H : Nat.eqb _ _ = true |- _ => apply Nat.eqb_eq in H
  | H : Nat.eqb _ _ = false |- _ => apply Nat.eqb_neq in H
  | H : Nat.ltb _ _ = true |- _ => apply Nat.ltb_lt in H
  | H : Nat.ltb _ _ = false |- _ => apply Nat.ltb_ge in H
  | H : Nat.leb _ _ = true |- _ => apply Nat.leb_le in H
  | H : Nat.leb _ _ = false |- _ => apply Nat.leb_gt in H
  | H : bool_decide _ = true |- _ => apply bool_decide_eq_true in H
  | H : bool_decide _ = false |- _ => apply bool_decide_eq_false in H
  end.
(** [bprop]: turn every boolean hypothesis into the proposition it decides. *)
Ltac bprop := repeat bprop_step.

Lemma existsb_false {A} (f : A -> bool) l :
  existsb f l = false <-> Forall (fun x => f x = false) l.
Proof.
  induction l as [|x l IH]; simpl; [split; auto|].
  rewrite orb_false_iff, IH, Forall_cons. done.
Qed.

Lemma existsb_true {A} (f : A -> bool) l :
  existsb f l = true <-> Exists (fun x => f x = true) l.
Proof.
  induction l as [|x l IH]; simpl; [by rewrite Exists_nil|].
  rewrite orb_true_iff, IH, Exists_cons. done.
Qed.

Lemma forallb_true {A} (f : A -> bool) l :
  forallb f l = true <-> Forall (fun x => f x = true) l.
Proof.
  induction l as [|x l IH]; simpl; [split; auto|].
  rewrite andb_true_iff, IH, Forall_cons. done.
Qed.

(** ** Stateful code that may raise

    [eff S A]: a computation over a state [S] that returns or raises, keeping
    the state it reached.  The binds are stdpp's ([x ← m; k], [m ;; k]). *)

Definition eff (S A : Type) : Type := S -> res A * S.

#[global] Instance eff_ret S : MRet (eff S) := fun A a s => (Ok a, s).
#[global] Instance eff_bind S : MBind (eff S) := fun A B k m s =>
  match m s with
  | (Ok a, s) => k a s
  | (Raise e, s) => (Raise e, s)
  end.

Definition eff_lift {S A} (m : res A) : eff S A := fun s => (m, s).
Definition eff_get {S} : eff S S := fun s => (Ok s, s).
Definition eff_put {S} (t : S) : eff S unit := fun _ => (Ok tt, t).
Definition eff_modify {S} (f : S -> S) : eff S unit := fun s => (Ok tt, f s).
(** [try: m except cs: h] *)
Definition eff_try {S A} (m : eff S A) (cs : list pyclass) (h : exn -> eff S A) : eff S A :=
  fun s => match m s with
  | (Ok a, s) => (Ok a, s)
  | (Raise e, s) => if caught cs e then h e s else (Raise e, s)
  end.
(** [try: m finally: f], for a [finally] block that does not raise. *)
Definition eff_finally {S A} (m : eff S A) (f : S -> S) : eff S A :=
  fun s => let '(r, s) := m s in (r, f s).

Lemma eff_bind_Ok {S A B} (m : eff S A) (k : A -> eff S B) s r t :
  (m ≫= k) s = (Ok r, t) <-> exists a u, m s = (Ok a, u) /\ k a u = (Ok r, t).
Proof.
  unfold mbind, eff_bind. destruct (m s) as [[a|e] u]; split.
  - intros H. by exists a, u.
  - by intros (? & ? & [= <- <-] & ?).
  - done.
  - by intros (? & ? & ? & ?).
Qed.

(** *** Assertions over stateful code

    [holds P m Q]: from a state in [P], [m] ends (by returning or raising) with
    an outcome and a state in [Q]. *)
Definition holds {S A} (P : S -> Prop) (m : eff S A) (Q : res A -> S -> Prop) : Prop :=
  forall s, P s -> Q (m s).1 (m s).2.

Section Holds.
Context {S : Type}.
Implicit Types P : S -> Prop.

Lemma holds_conseq {A} P P' (m : eff S A) (Q Q' : res A -> S -> Prop) :
  holds P m Q -> (forall s, P' s -> P s) -> (forall r s, Q r s -> Q' r s) -> holds P' m Q'.
Proof. intros Hm HP HQ s Hs. by apply HQ, Hm, HP. Qed.

Lemma holds_ret {A} P (a : A) (Q : res A -> S -> Prop) :
  (forall s, P s -> Q (Ok a) s) -> holds P (mret a) Q.
Proof. intros H s Hs. by apply H. Qed.

Lemma holds_lift {A} P (r : res A) (Q : res A -> S -> Prop) :
  (forall s, P s -> Q r s) -> holds P (eff_lift r) Q.
Proof. intros H s Hs. by apply H. Qed.

(** The middle assertion holds of results; exceptions must satisfy the last. *)
Lemma holds_bind {A B} P (m : eff S A) (k : A -> eff S B) (R : A -> S -> Prop) (Q : res B -> S -> Prop) :
  holds P m (fun r s => match r with Ok a => R a s | Raise e => Q (Raise e) s end) ->
  (forall a, holds (R a) (k a) Q) -> holds P (m ≫= k) Q.
Proof.
  intros Hm Hk s Hs. specialize (Hm s Hs). unfold mbind, eff_bind.
  destruct (m s) as [[a|e] t]; simpl in *; [by apply Hk|done].
Qed.

Lemma holds_try {A} P (m : eff S A) cs (h : exn -> eff S A) (Q : res A -> S -> Prop) (R : exn -> S -> Prop) :
  holds P m (fun r s => match r with
    | Ok a => Q (Ok a) s
    | Raise e => if caught cs e then R e s else Q (Raise e) s
    end) ->
  (forall e, caught cs e = true -> holds (R e) (h e) Q) -> holds P (eff_try m cs h) Q.
Proof.
  intros Hm Hh s Hs. specialize (Hm s Hs). unfold eff_try.
  destruct (m s) as [[a|e] t]; simpl in *; [done|]. destruct (caught cs e) eqn:Hc; [by apply Hh|done].
Qed.

Lemma holds_lift_bind {A B} P (r : res A) (k : A -> eff S B) (Q : res B -> S -> Prop) :
  (forall a, r = Ok a -> holds P (k a) Q) -> (forall e s, r = Raise e -> P s -> Q (Raise e) s) ->
  holds P (eff_lift r ≫= k) Q.
Proof. intros Hk He s Hs. unfold mbind, eff_bind, eff_lift. destruct r as [a|e]; [by apply Hk|by apply He]. Qed.

Lemma holds_get_bind {B} P (k : S -> eff S B) (Q : res B -> S -> Prop) :
  (forall s, P s -> Q (k s s).1 (k s s).2) -> holds P (eff_get ≫= k) Q.
Proof. intros Hk s Hs. by apply Hk. Qed.

(** Code that keeps an invariant, however it ends. *)
Definition preserves {A} P (m : eff S A) : Prop := holds P m (fun _ => P).

Lemma preserves_ret {A} P (a : A) : preserves P (mret a).
Proof. by apply holds_ret. Qed.
Lemma preserves_lift {A} P (r : res A) : preserves P (eff_lift r).
Proof. by apply holds_lift. Qed.
Lemma preserves_get P : preserves P eff_get.
Proof. by intros s. Qed.

Lemma preserves_bind {A B} P (m : eff S A) (k : A -> eff S B) :
  preserves P m -> (forall a, preserves P (k a)) -> preserves P (m ≫= k).
Proof. intros Hm Hk. apply (holds_bind _ _ _ (fun _ => P)); [|done]. intros s Hs. specialize (Hm s Hs). by destruct (m s) as [[]]. Qed.

Lemma preserves_lift_bind {A B} P (r : res A) (k : A -> eff S B) :
  (forall a, r = Ok a -> preserves P (k a)) -> preserves P (eff_lift r ≫= k).
Proof. intros Hk. by apply holds_lift_bind. Qed.

Lemma preserves_try {A} P (m : eff S A) cs (h : exn -> eff S A) :
  preserves P m -> (forall e, preserves P (h e)) -> preserves P (eff_try m cs h).
Proof.
  intros Hm Hh. apply (holds_try _ _ _ _ _ (fun _ => P)); [|intros e _; apply Hh]. intros s Hs. specialize (Hm s Hs).
  destruct (m s) as [[a|e] t]; simpl in *; [done|]. by destruct (caught cs e).
Qed.

Lemma preserves_run {A} P (m : eff S A) s r t : preserves P m -> P s -> m s = (r, t) -> P t.
Proof. intros Hm Hs H. specialize (Hm s Hs). by rewrite H in Hm. Qed.
End Holds.

Create HintDb preserves.
#[export] Hint Resolve preserves_ret preserves_lift preserves_get : preserves.
(** Walk through a program, leaving its own operations. *)
Ltac preserves_step :=
  match goal with
  | |- preserves _ (mbind _ (eff_lift _)) => apply preserves_lift_bind; intros ? ?
  | |- preserves _ (mbind _ _) => apply preserves_bind; [|intros ?]
  | |- preserves _ (eff_try _ _ _) => apply preserves_try; [|intros ?]
  | |- preserves _ (if ?b then _ else _) => destruct b
  | |- preserves _ (match ?x with _ => _ end) => destruct x
  | |- preserves _ _ => solve [eauto with preserves]
  end.
Ltac preserves := repeat preserves_step.

(** Follow [H : (m ≫= k) s = (r, t)] into [m]'s result and into its
    exception. *)
Lemma eff_bind_cases {S A B} (m : eff S A) (k : A -> eff S B) s r t :
  (m ≫= k) s = (r, t) ->
  (exists a u, m s = (Ok a, u) /\ k a u = (r, t)) \/ (exists e, m s = (Raise e, t) /\ r = Raise e).
Proof.
  unfold mbind, eff_bind. destruct (m s) as [[a|e] u]; [eauto|]. intros [= <- <-]. eauto.
Qed.

Lemma eff_lift_cases {S A B} (m : res A) (k : A -> eff S B) s r t :
  (eff_lift m ≫= k) s = (r, t) -> (exists a, m = Ok a /\ k a s = (r, t)) \/ (exists e, m = Raise e /\ r = Raise e /\ t = s).
Proof. unfold mbind, eff_bind, eff_lift. destruct m as [a|e]; [eauto|]. intros [= <- <-]. eauto. Qed.

Lemma filter_all {A} (P : A -> Prop) `{!forall x, Decision (P x)} (l : list A) :
  Forall P l -> filter P l = l.
Proof. induction 1 as [|x l Hx _ IH]; [done|]. by rewrite filter_cons_True, IH. Qed.

(** Removing the entry with key [c] from a list with distinct keys. *)
Lemma filter_out_perm {K A} `{!EqDecision K} (l : list (K * A)) c a :
  NoDup l.*1 -> (c, a) ∈ l -> l.*1 ≡ₚ c :: (filter (fun x => x.1 <> c) l).*1.
Proof.
  induction l as [|[c' a'] l IH]; [by intros _ ?%not_elem_of_nil|]. csimpl.
  intros [Hc Hn]%NoDup_cons Hin. apply elem_of_cons in Hin as [[= -> ->]|Hin].
  - rewrite filter_cons_False by (simpl; tauto). constructor. rewrite filter_all; [done|].
    apply Forall_forall. intros [c0 a0] Hin Heq. simpl in Heq. subst c0.
    apply Hc, list_elem_of_fmap. by exists (c', a0).
  - rewrite filter_cons_True.
    + csimpl. rewrite (IH Hn Hin). by constructor.
    + simpl. intros ->. apply Hc, list_elem_of_fmap. by exists (c, a).
Qed.

Lemma Forall_filter_keep {A} (P Q : A -> Prop) `{!forall x, Decision (Q x)} (l : list A) :
  Forall P l -> Forall P (filter Q l).
Proof. rewrite !Forall_forall. intros HP x [_ Hx]%list_elem_of_filter. by apply HP. Qed.

(** ** Folds whose steps only ever add diagnostics

    [clean] holds of a state without diagnostics.  When a step never removes
    one, a clean result means that every step was clean. *)
Lemma foldl_clean {A S} (clean : S -> Prop) (f : S -> A -> S) (l : list A) (s : S) :
  (forall x s, clean (f s x) -> clean s) -> clean (foldl f s l) -> clean s.
Proof. intros Hf. revert s. induction l as [|x l IH]; intros s; simpl; eauto. Qed.

Lemma foldl_clean_ind {A S} (clean : S -> Prop) (Inv : list A -> S -> Prop) (f : S -> A -> S) (l : list A) (s : S) :
  (forall x s, clean (f s x) -> clean s) ->
  (forall d x s, Inv d s -> clean (f s x) -> Inv (d ++ [x]) (f s x)) ->
  clean (foldl f s l) -> Inv [] s -> Inv l (foldl f s l).
Proof.
  intros Hf Hstep. change l with ([] ++ l) at 2. generalize (@nil A) as d. revert s.
  induction l as [|x l IH]; intros s d Hc Hd; simpl in *; [by rewrite app_nil_r|].
  replace (d ++ x :: l) with ((d ++ [x]) ++ l) by (by rewrite <-app_assoc).
  apply IH; [done|]. apply Hstep; [done|]. by eapply foldl_clean.
Qed.

Lemma ForallOrdPairs_perm {A} (R : A -> A -> Prop) `{!Symmetric R} l k :
  l ≡ₚ k -> ForallOrdPairs R l -> ForallOrdPairs R k.
Proof.
  induction 1 as [|x l k Hp IH|x y l|? ? ? ? ? ? ?]; [done| | |auto].
  - inversion 1; subst. constructor; [|auto]. by rewrite <-Hp.
  - inversion 1 as [|? ? Hx Hl]; subst. inversion Hl as [|? ? Hy Hl']; subst.
    apply Forall_cons in Hx as [Hxy Hx]. constructor; [constructor; [by symmetry|done]|]. by constructor.
Qed.

(** A fold that reports, and that remembers the keys it has seen so as to report
    a second use: without reports every item was fine and no key occurs twice. *)
Lemma foldl_distinct {A D K} (key : A -> option K) (ok : A -> Prop)
    (step : list D * list K -> A -> list D * list K) (l : list A) (e : list D) :
  (forall e ids x e' ids', step (e, ids) x = (e', ids') -> e' = [] ->
     e = [] /\ ok x /\ match key x with Some k => k ∉ ids /\ ids' = k :: ids | None => ids' = ids end) ->
  (foldl step (e, []) l).1 = [] -> e = [] /\ Forall ok l /\ NoDup (omap key l).
Proof.
  intros Hstep Hclean.
  assert (forall x s, (step s x).1 = [] -> s.1 = []) as Hmono.
  { intros x [e0 ids] H. destruct (step (e0, ids) x) as [e' ids'] eqn:Hs. by apply Hstep in Hs as [? _]. }
  split; [by apply (foldl_clean (fun s : list D * list K => s.1 = [])) in Hclean|].
  apply (foldl_clean_ind (fun s => s.1 = [])
    (fun d s => s.1 = [] -> (Forall ok d /\ NoDup (omap key d)) /\ forall k, k ∈ s.2 <-> k ∈ omap key d)
    step l (e, []) Hmono); [|done| |done].
  - intros d x [e0 ids] IH Hc _. destruct (step (e0, ids) x) as [e' ids'] eqn:Hs.
    apply Hstep in Hs as (-> & Hok & Hk); [|done]. destruct (IH eq_refl) as [[Hd Hn] Hids].
    rewrite omap_app. csimpl. destruct (key x) as [k|].
    + destruct Hk as [Hk ->]. split; [split|].
      * apply Forall_app_2; [done|by apply Forall_singleton].
      * apply NoDup_app. split_and!; [done| |by apply NoDup_singleton].
        intros y Hy ->%list_elem_of_singleton. by apply Hk, Hids.
      * intros y. cbn. rewrite elem_of_cons, elem_of_app, Hids, list_elem_of_singleton. tauto.
    + subst. rewrite app_nil_r. split; [split; [apply Forall_app_2; [done|by apply Forall_singleton]|done]|done].
  - intros _. split; [split; constructor|done].
Qed.

(** ** Lists of diagnostics and ordered pairs *)

(** [if b: errors.append(m)] *)
Definition flag (b : bool) (m : string) : list string := if b then [m] else [].

Lemma flag_nil b m : flag b m = [] <-> b = false.
Proof. by destruct b. Qed.

Lemma mjoin_fmap_nil {A B} (f : A -> list B) l : mjoin (f <$> l) = [] <-> Forall (fun x => f x = []) l.
Proof.
  induction l as [|x l IH]; [by split; [constructor|]|].
  change (mjoin (f <$> x :: l)) with (f x ++ mjoin (f <$> l)). by rewrite Forall_cons, <-IH, app_nil.
Qed.

Lemma ForallOrdPairs_app {A} (R : A -> A -> Prop) l k :
  ForallOrdPairs R (l ++ k) <-> ForallOrdPairs R l /\ ForallOrdPairs R k /\ Forall (fun x => Forall (R x) k) l.
Proof.
  induction l as [|x l IH]; simpl.
  - split; [intros H; split_and!; [constructor|done|constructor]|by intros (_ & ? & _)].
  - split.
    + inversion 1 as [|? ? Hx Hl]; subst. apply IH in Hl as (? & ? & ?). apply Forall_app in Hx as [? ?].
      split_and!; [by constructor|done|by constructor].
    + intros (Hl & Hk & Hc). inversion Hl; subst. apply Forall_cons in Hc as [? ?].
      constructor; [by apply Forall_app|by apply IH].
Qed.

(** Two elements of a list share a key exactly when some key has two elements. *)
Lemma ForallOrdPairs_key {A K} `{!EqDecision K} (key : A -> K) (P : K -> Prop) l :
  ForallOrdPairs (fun x y => key x = key y -> P (key x)) l <->
  forall k, (1 < length (filter (fun x => key x = k) l))%nat -> P k.
Proof.
  induction l as [|x l IH].
  - split; [intros _ k; simpl; lia|constructor].
  - split.
    + inversion 1 as [|? ? Hx Hl]; subst. intros k. rewrite filter_cons. case_decide as Hk; [|by apply IH].
      destruct (filter _ l) as [|y f] eqn:Hf; [simpl; lia|]. intros _.
      assert (y ∈ filter (fun z => key z = k) l) as Hy by (rewrite Hf; left).
      apply list_elem_of_filter in Hy as [Hky Hy]. rewrite <-Hk. eapply Forall_forall in Hx; [|exact Hy].
      apply Hx. congruence.
    + intros H. constructor.
      * apply Forall_forall. intros y Hy Hxy. apply H. rewrite filter_cons_True by done. simpl.
        assert (y ∈ filter (fun z => key z = key x) l) as Hf by (by apply list_elem_of_filter).
        destruct (filter _ l); [by apply not_elem_of_nil in Hf|simpl; lia].
      * apply IH. intros k Hk. apply H. rewrite filter_cons. case_decide; simpl; lia.
Qed.
