(* ===== verification/PyValue.v ===== *)
(** * Python values

    The dynamically typed data the validators receive (decoded JSON or YAML
    with string keys): [value], Python equality [==] with its int/bool/float
    coercions, dictionary access with the exceptions it raises, and the
    [isinstance]/[type] tests.  A [str] is represented by its UTF-8 encoding. *)

From S2P Require Import Prelude.

(** A finite binary64 number is [m * 2^e]; [json.loads] also admits the
    infinities and NaN. *)
Inductive pyfloat :=
| FFin (m e : Z)
| FInf (neg : bool)
| FNan.

Inductive value :=
| VNone
| VBool (b : bool)
| VInt (z : Z)
| VFloat (f : pyfloat)
| VStr (s : string)
| VList (l : list value)
| VDict (d : list (string * value)).

(** ** Dictionaries: association lists in insertion order *)

Fixpoint dget {A} (k : string) (d : list (string * A)) : option A :=
  match d with
  | [] => None
  | (k', v) :: d => if decide (k = k') then Some v else dget k d
  end.

(** [d[k] = v]: in place when the key exists, appended otherwise. *)
Fixpoint dset {A} (k : string) (v : A) (d : list (string * A)) : list (string * A) :=
  match d with
  | [] => [(k, v)]
  | (k', v') :: d => if decide (k = k') then (k', v) :: d else (k', v') :: dset k v d
  end.

Definition keys {A} (d : list (string * A)) : list string := d.*1.

(** [{**a, **b}] *)
Definition dmerge {A} (a b : list (string * A)) : list (string * A) :=
  foldl (fun acc kv => dset kv.1 kv.2 acc) a b.

Definition mem (k : string) (l : list string) : bool := bool_decide (k ∈ l).
Definition subset (l k : list string) : bool := forallb (fun x => mem x k) l.
(** [set(l) == set(k)] for lists of strings *)
Definition same_set (l k : list string) : bool := subset l k && subset k l.

(** [k in d] *)
Definition has_key {A} (k : string) (d : list (string * A)) : bool := mem k (keys d).

Lemma mem_true k l : mem k l = true <-> k ∈ l.
Proof. apply bool_decide_eq_true. Qed.
Lemma mem_false k l : mem k l = false <-> k ∉ l.
Proof. apply bool_decide_eq_false. Qed.

Lemma subset_true l k : subset l k = true <-> forall x, x ∈ l -> x ∈ k.
Proof.
  unfold subset. rewrite forallb_true, Forall_forall.
  by setoid_rewrite mem_true.
Qed.

Lemma same_set_true l k : same_set l k = true <-> forall x, x ∈ l <-> x ∈ k.
Proof.
  unfold same_set. rewrite andb_true_iff, !subset_true. split; [|by intros H; split; intros; apply H].
  intros [H1 H2] x. split; auto.
Qed.

Lemma dget_dset {A} k k' (v : A) d :
  dget k (dset k' v d) = if decide (k = k') then Some v else dget k d.
Proof.
  induction d as [|[k0 v0] d IH]; simpl; [done|].
  repeat (case_decide; simplify_eq/=); congruence.
Qed.

Lemma dset_fresh {A} k (v : A) d : k ∉ keys d -> dset k v d = (d ++ [(k, v)])%list.
Proof.
  induction d as [|[k' v'] d IH]; [done|]. unfold keys in *. cbn. intros [Hk Hd]%not_elem_of_cons.
  by rewrite decide_False, IH.
Qed.

Lemma keys_dset_present {A} k (v w : A) d : dget k d = Some w -> keys (dset k v d) = keys d.
Proof.
  unfold keys. induction d as [|[k' v'] d IH]; [done|]. cbn [dget dset]. case_decide as Hk; [done|]. intros Hw. csimpl. by rewrite IH.
Qed.

Lemma elem_of_dset {A} k k' (v v' : A) d : (k, v) ∈ dset k' v' d -> (k = k' /\ v = v') \/ (k, v) ∈ d.
Proof.
  induction d as [|[k0 v0] d IH]; cbn [dset]; [intros [[= -> ->]|[]%not_elem_of_nil]%elem_of_cons; by left|].
  case_decide as Hk; intros [[= -> ->]|Hin]%elem_of_cons.
  - by left.
  - right. by right.
  - right. by left.
  - destruct (IH Hin) as [?|?]; [by left|]. right. by right.
Qed.

Lemma dget_Some_elem {A} k (v : A) d : dget k d = Some v -> (k, v) ∈ d.
Proof.
  induction d as [|[k' v'] d IH]; simpl; [done|].
  case_decide; [intros [= ->]; subst; left | intros; right; auto].
Qed.

Lemma dget_is_Some {A} k (d : list (string * A)) : is_Some (dget k d) <-> k ∈ keys d.
Proof.
  unfold keys. induction d as [|[k' v'] d IH]; simpl.
  - split; [by intros [] | by intros ?%not_elem_of_nil].
  - rewrite elem_of_cons. case_decide; [split; eauto|]. rewrite IH. tauto.
Qed.

Lemma dget_nodup {A} k (v : A) d : NoDup (keys d) -> (k, v) ∈ d -> dget k d = Some v.
Proof.
  unfold keys. induction d as [|[k' v'] d IH]; simpl; [by intros _ ?%not_elem_of_nil|].
  intros [Hk Hd]%NoDup_cons [[= -> ->]|Hin]%elem_of_cons.
  - by rewrite decide_True.
  - rewrite decide_False; [auto|]. intros ->. apply Hk.
    apply list_elem_of_fmap. by exists (k', v).
Qed.

(** ** Numbers and equality *)

(** Numbers as [m * 2^e]; [None] for non-numbers and non-finite floats. *)
Definition fin_num (v : value) : option (Z * Z) :=
  match v with
  | VBool b => Some (if b then 1 else 0, 0)
  | VInt z => Some (z, 0)
  | VFloat (FFin m e) => Some (m, e)
  | _ => None
  end.

(** Compare [m1 * 2^e1] with [m2 * 2^e2] exactly, as Python does. *)
Definition num_compare (a b : Z * Z) : comparison :=
  let e := Z.min a.2 b.2 in
  Z.compare (a.1 * 2 ^ (a.2 - e)) (b.1 * 2 ^ (b.2 - e)).

Definition num_eqb (a b : Z * Z) : bool :=
  match num_compare a b with Eq => true | _ => false end.

Fixpoint py_eq (v w : value) {struct v} : bool :=
  match v, w with
  | VNone, VNone => true
  | VStr s, VStr t => bool_decide (s = t)
  | VFloat (FInf a), VFloat (FInf b) => Bool.eqb a b
  | VList l, VList k =>
      (fix go (l k : list value) : bool :=
         match l, k with
         | [], [] => true
         | x :: l, y :: k => py_eq x y && go l k
         | _, _ => false
         end) l k
  | VDict d, VDict e =>
      Nat.eqb (length d) (length e) &&
      (fix go (d : list (string * value)) : bool :=
         match d with
         | [] => true
         | (k, x) :: d =>
             match dget k e with Some y => py_eq x y | None => false end && go d
         end) d
  | _, _ =>
      match fin_num v, fin_num w with
      | Some a, Some b => num_eqb a b
      | _, _ => false
      end
  end.

Lemma num_compare_int a b : num_compare (a, 0) (b, 0) = Z.compare a b.
Proof. unfold num_compare; simpl. by rewrite !Z.mul_1_r. Qed.

Lemma num_eqb_int a b : num_eqb (a, 0) (b, 0) = Z.eqb a b.
Proof.
  unfold num_eqb. rewrite num_compare_int. symmetry. apply Z.eqb_compare.
Qed.

Lemma py_eq_str v s : py_eq v (VStr s) = true <-> v = VStr s.
Proof.
  destruct v as [| | |[| |]|t|l|d]; simpl; try done.
  split; [intros ?%bool_decide_eq_true; by subst | intros [= ->]; by apply bool_decide_eq_true].
Qed.

Lemma py_eq_int z n : py_eq (VInt z) (VInt n) = Z.eqb z n.
Proof. apply num_eqb_int. Qed.

(** ** Type tests *)

Definition is_str (v : value) : bool := match v with VStr _ => true | _ => false end.
Definition is_dict (v : value) : bool := match v with VDict _ => true | _ => false end.
Definition is_list (v : value) : bool := match v with VList _ => true | _ => false end.
Definition is_bool (v : value) : bool := match v with VBool _ => true | _ => false end.
Definition is_none (v : value) : bool := match v with VNone => true | _ => false end.
(** [type(v) is int] *)
Definition type_is_int (v : value) : bool := match v with VInt _ => true | _ => false end.
(** [isinstance(v, int)]: a [bool] is an [int]. *)
Definition is_int (v : value) : bool :=
  match v with VInt _ | VBool _ => true | _ => false end.

(** The number a value of type [int] (or [bool]) denotes. *)
Definition int_of (v : value) : Z :=
  match v with VInt z => z | VBool b => if b then 1 else 0 | _ => 0 end.
Definition str_of (v : value) : string :=
  match v with VStr s => s | _ => "" end.
Definition list_of (v : value) : list value :=
  match v with VList l => l | _ => [] end.
Definition dict_of (v : value) : list (string * value) :=
  match v with VDict d => d | _ => [] end.
Definition bool_of (v : value) : bool :=
  match v with VBool b => b | _ => false end.

(** [bool(v)] *)
Definition truthy (v : value) : bool :=
  match v with
  | VNone => false
  | VBool b => b
  | VInt z => negb (z =? 0)
  | VFloat (FFin m _) => negb (m =? 0)
  | VFloat _ => true
  | VStr s => negb (bool_decide (s = ""%string))
  | VList l => match l with [] => false | _ => true end
  | VDict d => match d with [] => false | _ => true end
  end.

(** A value usable as a dict key or set element. *)
Definition hashable (v : value) : bool :=
  match v with VList _ | VDict _ => false | _ => true end.

(** ** Access with exceptions *)

(** [v[k]] for a string key. *)
Definition index (v : value) (k : string) : res value :=
  match v with
  | VDict d => of_option (dget k d) (Exn KeyError k)
  | _ => Raise (Exn TypeError "subscript")
  end.

(** [v.get(k)]; a non-mapping has no such attribute. *)
Definition get (v : value) (k : string) : res value :=
  match v with
  | VDict d => Ok (default VNone (dget k d))
  | _ => Raise (Exn AttributeError "get")
  end.

(** [v.get(k, dflt)] *)
Definition get_or (v : value) (k : string) (dflt : value) : res value :=
  match v with
  | VDict d => Ok (default dflt (dget k d))
  | _ => Raise (Exn AttributeError "get")
  end.

(** [a.get(k)] and [a[k]] once [a] is known to be a dict (and to have [k]). *)
Definition field (d : list (string * value)) (k : string) : value :=
  default VNone (dget k d).

(** [d.get(k, dflt)] *)
Definition get_default (d : list (string * value)) (k : string) (dflt : value) : value := default dflt (dget k d).

(** [len(set(l))]: a set of values; unhashable elements raise [TypeError]. *)
Fixpoint py_dedup (l : list value) : list value :=
  match l with
  | [] => []
  | x :: l => if existsb (py_eq x) l then py_dedup l else x :: py_dedup l
  end.

Definition py_set (l : list value) : res (list value) :=
  if forallb hashable l then Ok (py_dedup l) else Raise (Exn TypeError "unhashable").

(** [v in {…}]: testing membership of a set hashes the value. *)
Definition in_set (v : value) (l : list value) : res bool :=
  if hashable v then Ok (existsb (py_eq v) l) else Raise (Exn TypeError "unhashable").

Definition all_distinct (l : list value) : bool :=
  Nat.eqb (length (py_dedup l)) (length l).

Fixpoint nodup_str (l : list string) : bool :=
  match l with [] => true | x :: l => negb (mem x l) && nodup_str l end.

Lemma nodup_str_true l : nodup_str l = true <-> NoDup l.
Proof.
  induction l as [|x l IH]; simpl; [split; auto using NoDup_nil_2|].
  by rewrite andb_true_iff, negb_true_iff, mem_false, IH, NoDup_cons.
Qed.

Lemma py_dedup_length l : (length (py_dedup l) <= length l)%nat.
Proof. induction l as [|x l IH]; simpl; [lia|]. destruct (existsb _ _); simpl; lia. Qed.

Lemma all_distinct_cons x l :
  all_distinct (x :: l) = true <-> existsb (py_eq x) l = false /\ all_distinct l = true.
Proof.
  unfold all_distinct. simpl. pose proof (py_dedup_length l).
  destruct (existsb (py_eq x) l); simpl; rewrite !Nat.eqb_eq.
  - split; [lia | by intros []].
  - split; [intros; split; [done|lia] | intros []; lia].
Qed.

(** On strings, distinctness as values is distinctness. *)
Lemma all_distinct_strs (l : list string) :
  all_distinct (VStr <$> l) = true <-> NoDup l.
Proof.
  induction l as [|x l IH]; [by split; auto using NoDup_nil_2|].
  rewrite fmap_cons, all_distinct_cons, IH, NoDup_cons.
  apply and_iff_compat_r. rewrite existsb_false, Forall_fmap, Forall_forall. split.
  - intros H Hx. specialize (H _ Hx). simpl in H. by rewrite bool_decide_eq_false in H.
  - intros H y Hy. simpl. rewrite bool_decide_eq_false. by intros ->.
Qed.

Lemma all_distinct_ints (l : list Z) :
  all_distinct (VInt <$> l) = true <-> NoDup l.
Proof.
  induction l as [|x l IH]; [by split; auto using NoDup_nil_2|].
  rewrite fmap_cons, all_distinct_cons, IH, NoDup_cons.
  apply and_iff_compat_r. rewrite existsb_false, Forall_fmap, Forall_forall. split.
  - intros H Hx. specialize (H _ Hx). unfold compose in H. rewrite py_eq_int in H. lia.
  - intros H y Hy. unfold compose. rewrite py_eq_int. apply Z.eqb_neq. by intros ->.
Qed.

Lemma type_is_int_true v : type_is_int v = true <-> exists z, v = VInt z.
Proof. destruct v; simpl; split; try done; try (by intros [? ?]); eauto. Qed.
Lemma is_str_true v : is_str v = true <-> exists s, v = VStr s.
Proof. destruct v; simpl; split; try done; try (by intros [? ?]); eauto. Qed.
Lemma is_dict_true v : is_dict v = true <-> exists d, v = VDict d.
Proof. destruct v; simpl; split; try done; try (by intros [? ?]); eauto. Qed.
Lemma is_list_true v : is_list v = true <-> exists l, v = VList l.
Proof. destruct v; simpl; split; try done; try (by intros [? ?]); eauto. Qed.

Lemma forallb_is_str l : forallb is_str l = true -> l = VStr <$> (str_of <$> l).
Proof.
  induction l as [|v l IH]; [done|]. simpl. intros [Hv Hl]%andb_true_iff.
  apply is_str_true in Hv as [s ->]. csimpl. f_equal. auto.
Qed.
