(* ===== verification/PyStr.v ===== *)
(** * Python strings and byte strings

    A [str] is its UTF-8 encoding, held in a [string]; a [bytes] object is a
    [list Z] of values below 256.  The functions are the [str]/[bytes] methods
    the source calls; white space and case are those of the ASCII range. *)

From S2P Require Import Prelude PyValue.
From Stdlib Require Export Ascii.

(** ** Characters *)

Definition ord (c : ascii) : Z := Z.of_N (N_of_ascii c).
Definition chr (z : Z) : ascii := ascii_of_N (Z.to_N z).

Lemma ord_range c : 0 <= ord c < 256.
Proof.
  unfold ord. pose proof (N_ascii_bounded c). lia.
Qed.

Lemma chr_ord c : chr (ord c) = c.
Proof. unfold chr, ord. rewrite N2Z.id. apply ascii_N_embedding. Qed.

Lemma ord_chr z : 0 <= z < 256 -> ord (chr z) = z.
Proof. intros ?. unfold chr, ord. rewrite N_ascii_embedding; lia. Qed.

Lemma ord_inj a b : ord a = ord b -> a = b.
Proof. intros H. by rewrite <-(chr_ord a), H, chr_ord. Qed.

Definition between (a b : Z) (c : ascii) : bool := (a <=? ord c) && (ord c <=? b).
Definition is_digit (c : ascii) : bool := between 48 57 c.
Definition is_lower (c : ascii) : bool := between 97 122 c.
Definition is_upper (c : ascii) : bool := between 65 90 c.
Definition is_alpha (c : ascii) : bool := is_lower c || is_upper c.
Definition is_alnum (c : ascii) : bool := is_alpha c || is_digit c.
Definition is_hex_lower (c : ascii) : bool := is_digit c || between 97 102 c.
Definition is_hex (c : ascii) : bool := is_hex_lower c || between 65 70 c.
(** ASCII white space of [str.isspace]. *)
Definition is_space (c : ascii) : bool := between 9 13 c || between 28 32 c.
Definition one_of (s : string) (c : ascii) : bool := bool_decide (c ∈ String.list_ascii_of_string s).

(** ** Conversions *)

Notation chars := String.list_ascii_of_string (only parsing).
Definition of_chars (l : list ascii) : string := String.string_of_list_ascii l.

Lemma chars_of_chars l : chars (of_chars l) = l.
Proof. induction l as [|c l IH]; simpl; [done|]. f_equal. apply IH. Qed.
Lemma of_chars_chars s : of_chars (chars s) = s.
Proof. induction s as [|c s IH]; simpl; [done|]. f_equal. apply IH. Qed.
Lemma chars_inj s t : chars s = chars t -> s = t.
Proof. intros H. by rewrite <-(of_chars_chars s), H, of_chars_chars. Qed.

Definition all_chars (f : ascii -> bool) (s : string) : bool := forallb f (chars s).
Definition any_char (f : ascii -> bool) (s : string) : bool := existsb f (chars s).

Definition is_ascii (s : string) : bool := all_chars (fun c => ord c <? 128) s.

(** [len(s)]: the code points of the encoding, i.e. its non-continuation bytes. *)
Definition is_cont (c : ascii) : bool := between 128 191 c.
Definition py_len (s : string) : Z :=
  Z.of_nat (length (filter (fun c => is_cont c = false) (chars s))).

Lemma py_len_ascii s : is_ascii s = true -> py_len s = Z.of_nat (length (chars s)).
Proof.
  unfold is_ascii, all_chars, py_len. rewrite forallb_true. intros H. f_equal.
  induction (chars s) as [|c l IH]; [done|].
  apply Forall_cons in H as [Hc Hl]. rewrite filter_cons_True; simpl; [by rewrite IH|].
  unfold is_cont, between. apply andb_false_iff. left. bprop. apply Z.leb_gt. lia.
Qed.

(** [s.encode("ascii")] *)
Definition encode_ascii (s : string) : res (list Z) :=
  if is_ascii s then Ok (ord <$> chars s) else Raise (Exn UnicodeError "ascii").

Definition is_byte (b : Z) : bool := (0 <=? b) && (b <? 256).
Definition bytes_wf (l : list Z) : Prop := Forall (fun b => 0 <= b < 256) l.

Lemma ord_bytes_wf (l : list ascii) : bytes_wf (ord <$> l).
Proof. apply Forall_fmap, Forall_true. intros c. apply ord_range. Qed.

Lemma chr_ord_map (l : list ascii) : chr <$> (ord <$> l) = l.
Proof. induction l as [|c l IH]; [done|]. csimpl. by rewrite chr_ord, IH. Qed.

Lemma ord_chr_map (l : list Z) : bytes_wf l -> ord <$> (chr <$> l) = l.
Proof.
  induction 1 as [|b l Hb Hl IH]; [done|]. csimpl. by rewrite ord_chr, IH.
Qed.

(** ** Predicates and cutting *)

Fixpoint prefix_of (p l : list ascii) : bool :=
  match p, l with
  | [], _ => true
  | c :: p, d :: l => bool_decide (c = d) && prefix_of p l
  | _, [] => false
  end.

Definition startswith (s p : string) : bool := prefix_of (chars p) (chars s).
Definition endswith (s p : string) : bool := prefix_of (rev (chars p)) (rev (chars s)).
Definition contains_char (c : ascii) (s : string) : bool := bool_decide (c ∈ chars s).

(** [s.split(c)] for a one-character separator. *)
Fixpoint split_chars (c : ascii) (l : list ascii) : list (list ascii) :=
  match l with
  | [] => [[]]
  | d :: l =>
      if decide (d = c) then [] :: split_chars c l
      else match split_chars c l with
           | p :: ps => (d :: p) :: ps
           | [] => [[d]]
           end
  end.

(** [c.join(parts)] *)
Fixpoint join_chars (c : ascii) (l : list (list ascii)) : list ascii :=
  match l with
  | [] => []
  | [p] => p
  | p :: l => p ++ c :: join_chars c l
  end.

Definition split (c : ascii) (s : string) : list string := of_chars <$> split_chars c (chars s).
Definition join (c : ascii) (l : list string) : string := of_chars (join_chars c (String.list_ascii_of_string <$> l)).

Lemma split_chars_nonempty c l : split_chars c l <> [].
Proof. induction l as [|d l IH]; simpl; [done|]. case_decide; [done|]. by destruct (split_chars c l). Qed.

Lemma split_chars_none c p : c ∉ p -> split_chars c p = [p].
Proof.
  induction p as [|d p IH]; simpl; [done|].
  intros [Hd Hp]%not_elem_of_cons. rewrite decide_False by congruence. by rewrite IH.
Qed.

Lemma split_chars_app c p l : c ∉ p -> split_chars c (p ++ c :: l) = p :: split_chars c l.
Proof.
  induction p as [|d p IH]; simpl; intros Hp; [by rewrite decide_True|].
  apply not_elem_of_cons in Hp as [Hd Hp]. rewrite decide_False by congruence. by rewrite IH.
Qed.

(** Splitting a join of separator-free parts gives the parts back. *)
Lemma split_join_chars c l :
  l <> [] -> Forall (fun p => c ∉ p) l -> split_chars c (join_chars c l) = l.
Proof.
  induction l as [|p l IH]; [done|]. intros _ [Hp Hl]%Forall_cons.
  destruct l as [|q l]; simpl; [by apply split_chars_none|].
  rewrite split_chars_app by done. f_equal. by apply IH.
Qed.

(** [s.partition(c)] as (head, found, tail) *)
Fixpoint partition_chars (c : ascii) (l : list ascii) : list ascii * bool * list ascii :=
  match l with
  | [] => ([], false, [])
  | d :: l =>
      if decide (d = c) then ([], true, l)
      else let '(h, b, t) := partition_chars c l in (d :: h, b, t)
  end.

Fixpoint drop_while (f : ascii -> bool) (l : list ascii) : list ascii :=
  match l with
  | [] => []
  | c :: l' => if f c then drop_while f l' else l
  end.

(** [s.rstrip(chars)] and [s.strip()] *)
Definition rstrip (f : ascii -> bool) (s : string) : string :=
  of_chars (rev (drop_while f (rev (chars s)))).
Definition strip (f : ascii -> bool) (s : string) : string :=
  rstrip f (of_chars (drop_while f (chars s))).

Definition lower_char (c : ascii) : ascii := if is_upper c then chr (ord c + 32) else c.
(** [s.lower()] on ASCII text. *)
Definition lower (s : string) : string := of_chars (lower_char <$> chars s).

(** ** Lines and words *)

Definition LF : ascii := chr 10.
Definition CR : ascii := chr 13.
(** The line boundaries of [str.splitlines] of one byte; three more are written in
    two or three bytes of UTF-8. *)
Definition is_break (c : ascii) : bool := between 10 12 c || between 28 30 c.
Fixpoint splitlines_from (line l : list ascii) : list (list ascii) :=
  match l with
  | [] => if bool_decide (line = []) then [] else [line]
  | c :: l1 =>
      if is_break c then line :: splitlines_from [] l1 else
      match l1 with
      | d :: l2 =>
          if bool_decide (c = CR) && bool_decide (d = LF) then line :: splitlines_from [] l2
          else if bool_decide (c = CR) then line :: splitlines_from [] l1
          else if bool_decide ([ord c; ord d] = [194; 133]) then line :: splitlines_from [] l2
          else match l2 with
          | e :: l3 =>
              if bool_decide ([ord c; ord d] = [226; 128]) && between 168 169 e then line :: splitlines_from [] l3
              else splitlines_from (line ++ [c]) l1
          | [] => splitlines_from (line ++ [c]) l1
          end
      | [] => if bool_decide (c = CR) then [line] else [line ++ [c]]
      end
  end%list.
Definition splitlines (s : string) : list (list ascii) := splitlines_from [] (chars s).

(** [s.split()] on ASCII text *)
Fixpoint words_from (word l : list ascii) : list (list ascii) :=
  match l with
  | [] => if bool_decide (word = []) then [] else [word]
  | c :: l =>
      if is_space c then (if bool_decide (word = []) then words_from [] l else word :: words_from [] l)
      else words_from (word ++ [c])%list l
  end.
Definition words (s : string) : list string := of_chars <$> words_from [] (chars s).

(** ** Decimal and hexadecimal integers *)

Definition digit_val (c : ascii) : Z :=
  if is_digit c then ord c - 48
  else if between 97 102 c then ord c - 87
  else if between 65 70 c then ord c - 55 else 0.

Definition digits_val (base : Z) (l : list ascii) : Z :=
  foldl (fun acc c => base * acc + digit_val c) 0 l.

Definition digit_char (z : Z) : ascii := if z <? 10 then chr (z + 48) else chr (z + 87).

(** Most significant digit first; [fuel] digits at most. *)
Fixpoint to_digits (fuel : nat) (base z : Z) (acc : list ascii) : list ascii :=
  match fuel with
  | O => acc
  | S fuel =>
      let acc := digit_char (z mod base) :: acc in
      if z <? base then acc else to_digits fuel base (z / base) acc
  end.

Definition digits_fuel (z : Z) : nat := S (Z.to_nat (Z.log2 z)).

(** [str(z)] and ['%x' % z] for natural numbers; [str] of a negative adds the sign. *)
Definition dec_chars (z : Z) : list ascii := to_digits (digits_fuel z) 10 z [].
Definition hex_chars (z : Z) : list ascii := to_digits (digits_fuel z) 16 z [].
Definition str_of_Z (z : Z) : string :=
  of_chars (if z <? 0 then "-"%char :: dec_chars (- z) else dec_chars z).

Lemma digit_val_char z : 0 <= z < 16 -> digit_val (digit_char z) = z.
Proof.
  intros Hz. assert (z ∈ seqZ 0 16) as Hin by (apply elem_of_seqZ; lia).
  clear Hz. revert z Hin. apply Forall_forall.
  repeat (constructor; [reflexivity|]). constructor.
Qed.

Lemma digit_char_hex z : 0 <= z < 16 -> is_hex_lower (digit_char z) = true.
Proof.
  intros Hz. assert (z ∈ seqZ 0 16) as Hin by (apply elem_of_seqZ; lia).
  clear Hz. revert z Hin. apply Forall_forall.
  repeat (constructor; [reflexivity|]). constructor.
Qed.

Lemma digit_char_digit z : 0 <= z < 10 -> is_digit (digit_char z) = true.
Proof.
  intros Hz. assert (z ∈ seqZ 0 10) as Hin by (apply elem_of_seqZ; lia).
  clear Hz. revert z Hin. apply Forall_forall.
  repeat (constructor; [reflexivity|]). constructor.
Qed.

Lemma digit_val_nonneg c : 0 <= digit_val c.
Proof. unfold digit_val, is_digit, between. repeat case_match; bprop; lia. Qed.

Lemma digits_val_nonneg base l : 0 <= base -> 0 <= digits_val base l.
Proof.
  intros Hb. unfold digits_val. induction l as [|c l IH] using rev_ind; simpl; [lia|].
  rewrite foldl_app. simpl. pose proof (digit_val_nonneg c). nia.
Qed.

Section Digits.
Context (base : Z) (Hbase : 1 < base <= 16).

Lemma digits_val_app l k :
  digits_val base (l ++ k) = digits_val base l * base ^ Z.of_nat (length k) + digits_val base k.
Proof.
  unfold digits_val. rewrite foldl_app. generalize (foldl (fun acc c => base * acc + digit_val c) 0 l).
  induction k as [|c k IH] using rev_ind; intros a; simpl; [lia|].
  rewrite !foldl_app, length_app. simpl. rewrite IH.
  replace (Z.of_nat (length k + 1)) with (Z.succ (Z.of_nat (length k))) by lia.
  rewrite Z.pow_succ_r by lia. lia.
Qed.

Lemma to_digits_acc fuel z acc : to_digits fuel base z acc = to_digits fuel base z [] ++ acc.
Proof.
  revert z acc. induction fuel as [|fuel IH]; intros z acc; simpl; [done|].
  destruct (z <? base); [done|]. rewrite IH, (IH _ [_]), <-app_assoc. done.
Qed.

(** Enough fuel: [z < 2 ^ fuel]. *)
Lemma digits_val_to_digits fuel z :
  0 <= z < 2 ^ Z.of_nat fuel -> digits_val base (to_digits fuel base z []) = z.
Proof.
  revert z. induction fuel as [|fuel IH]; intros z Hz; simpl.
  - change (2 ^ Z.of_nat 0) with 1 in Hz. unfold digits_val. simpl. lia.
  - assert (0 <= z mod base < base) by (apply Z.mod_pos_bound; lia).
    destruct (Z.ltb_spec z base).
    + unfold digits_val. simpl. rewrite digit_val_char by lia.
      rewrite Z.mod_small by lia. lia.
    + rewrite to_digits_acc, digits_val_app, IH.
      * unfold digits_val. simpl length. simpl foldl. rewrite digit_val_char by lia.
        pose proof (Z.div_mod z base). lia.
      * split; [apply Z.div_pos; lia|]. apply Z.div_lt_upper_bound; [lia|].
        rewrite Nat2Z.inj_succ, Z.pow_succ_r in Hz by lia. nia.
Qed.

Lemma to_digits_forall (f : ascii -> bool) fuel z :
  0 <= z -> (forall d, 0 <= d < base -> f (digit_char d) = true) ->
  Forall (fun c => f c = true) (to_digits fuel base z []).
Proof.
  intros Hz Hf. revert z Hz. induction fuel as [|fuel IH]; intros z Hz; simpl; [constructor|].
  assert (0 <= z mod base < base) by (apply Z.mod_pos_bound; lia).
  destruct (z <? base); [by constructor; [apply Hf|]|].
  rewrite to_digits_acc. apply Forall_app; split; [apply IH, Z.div_pos; lia|].
  by constructor; [apply Hf|].
Qed.

Lemma to_digits_nonempty fuel z : to_digits (S fuel) base z [] <> [].
Proof.
  simpl. destruct (z <? base); [done|]. rewrite to_digits_acc.
  by destruct (to_digits fuel base (z / base) []).
Qed.

(** A number below [base ^ n] prints with at most [n] digits. *)
Lemma to_digits_length fuel z (n : nat) :
  (0 < n)%nat -> 0 <= z < base ^ Z.of_nat n -> (length (to_digits fuel base z []) <= n)%nat.
Proof.
  revert z n. induction fuel as [|fuel IH]; intros z n Hn Hz; simpl; [lia|].
  destruct (Z.ltb_spec z base); [simpl; lia|].
  rewrite to_digits_acc, length_app. simpl.
  destruct n as [|[|n]]; [lia| |].
  - change (Z.of_nat 1) with 1 in Hz. rewrite Z.pow_1_r in Hz. lia.
  - assert (length (to_digits fuel base (z / base) []) <= S n)%nat; [|lia].
    apply IH; [lia|]. split; [apply Z.div_pos; lia|].
    apply Z.div_lt_upper_bound; [lia|].
    rewrite (Nat2Z.inj_succ (S n)), Z.pow_succ_r in Hz by lia. lia.
Qed.

(** Only zero prints with a leading zero. *)
Lemma to_digits_head fuel z :
  0 < z < 2 ^ Z.of_nat fuel -> exists c l, to_digits fuel base z [] = c :: l /\ digit_val c <> 0.
Proof.
  revert z. induction fuel as [|fuel IH]; intros z Hz; simpl.
  - change (2 ^ Z.of_nat 0) with 1 in Hz. lia.
  - destruct (Z.ltb_spec z base).
    + eexists _, _. split; [done|]. rewrite Z.mod_small by lia. rewrite digit_val_char; lia.
    + destruct (IH (z / base)) as (c & l & Hl & Hc).
      * split; [apply Z.div_str_pos; lia|]. apply Z.div_lt_upper_bound; [lia|].
        rewrite Nat2Z.inj_succ, Z.pow_succ_r in Hz by lia. nia.
      * rewrite to_digits_acc, Hl. by eexists _, _.
Qed.
End Digits.

Lemma digits_fuel_enough z : 0 <= z -> 0 <= z < 2 ^ Z.of_nat (digits_fuel z).
Proof.
  intros Hz. unfold digits_fuel. rewrite Nat2Z.inj_succ, Z2Nat.id by apply Z.log2_nonneg.
  destruct (Z.eq_dec z 0) as [->|]; [done|].
  pose proof (Z.log2_spec z). lia.
Qed.

Lemma dec_chars_val z : 0 <= z -> digits_val 10 (dec_chars z) = z.
Proof. intros. apply digits_val_to_digits; [lia|]. by apply digits_fuel_enough. Qed.
Lemma hex_chars_val z : 0 <= z -> digits_val 16 (hex_chars z) = z.
Proof. intros. apply digits_val_to_digits; [lia|]. by apply digits_fuel_enough. Qed.

Lemma dec_chars_digits z : 0 <= z -> Forall (fun c => is_digit c = true) (dec_chars z).
Proof. intros. apply to_digits_forall; [lia|done|]. intros. by apply digit_char_digit. Qed.
Lemma hex_chars_hex z : 0 <= z -> Forall (fun c => is_hex_lower c = true) (hex_chars z).
Proof. intros. apply to_digits_forall; [lia|done|]. intros. by apply digit_char_hex. Qed.

Lemma dec_chars_nonempty z : dec_chars z <> [].
Proof. apply to_digits_nonempty. Qed.
Lemma hex_chars_nonempty z : hex_chars z <> [].
Proof. apply to_digits_nonempty. Qed.

Lemma dec_chars_inj a b : 0 <= a -> 0 <= b -> dec_chars a = dec_chars b -> a = b.
Proof. intros Ha Hb H. by rewrite <-(dec_chars_val a), H, dec_chars_val. Qed.

#[export] Hint Resolve dec_chars_digits hex_chars_hex dec_chars_nonempty hex_chars_nonempty
  ord_range : pystr.

(** ** Canonical decimals *)

Lemma digit_char_val c : is_digit c = true -> digit_char (digit_val c) = c.
Proof.
  unfold digit_val. intros Hc. rewrite Hc. unfold is_digit, between in Hc. bprop.
  unfold digit_char. destruct (Z.ltb_spec (ord c - 48) 10); [|lia].
  replace (ord c - 48 + 48) with (ord c) by lia. apply chr_ord.
Qed.

Lemma digits_val_snoc base l c : digits_val base (l ++ [c]) = base * digits_val base l + digit_val c.
Proof. unfold digits_val. by rewrite foldl_app. Qed.

Lemma digit_val_digit c : is_digit c = true -> 0 <= digit_val c < 10.
Proof. unfold digit_val. intros Hc. rewrite Hc. unfold is_digit, between in Hc. bprop. lia. Qed.

Lemma digits_val_head_pos c l :
  digit_val c <> 0 -> Forall (fun c => is_digit c = true) (c :: l) -> 0 < digits_val 10 (c :: l).
Proof.
  intros Hc Hd. induction l as [|d l IH] using rev_ind.
  - apply Forall_cons in Hd as [Hd _]. pose proof (digit_val_digit c Hd). unfold digits_val. simpl. lia.
  - rewrite app_comm_cons in *. apply Forall_app in Hd as [Hl Hd%Forall_cons]. destruct Hd as [Hd _].
    rewrite digits_val_snoc. pose proof (digit_val_digit d Hd). specialize (IH Hl). lia.
Qed.

(** A digit string is canonical: zero, or without a leading zero. *)
Definition canonical_digits (l : list ascii) : Prop :=
  Forall (fun c => is_digit c = true) l /\
  (l = ["0"%char] \/ exists c k, l = c :: k /\ digit_val c <> 0).

Lemma to_digits_canonical fuel l :
  canonical_digits l -> digits_val 10 l < 2 ^ Z.of_nat fuel ->
  (0 < fuel)%nat -> to_digits fuel 10 (digits_val 10 l) [] = l.
Proof.
  revert fuel. induction l as [|c l IH] using rev_ind; intros fuel [Hd Hcan] Hf Hpos.
  { destruct Hcan as [|(? & ? & ? & _)]; done. }
  apply Forall_app in Hd as [Hl Hc%Forall_cons]. destruct Hc as [Hc _].
  pose proof (digit_val_digit c Hc) as Hr. rewrite digits_val_snoc in *.
  pose proof (digits_val_nonneg 10 l ltac:(lia)) as Hn.
  destruct fuel as [|fuel]; [lia|]. cbn [to_digits].
  assert ((10 * digits_val 10 l + digit_val c) mod 10 = digit_val c) as Hmod.
  { rewrite Z.add_comm, Z.mul_comm, Z.mod_add, Z.mod_small; lia. }
  assert ((10 * digits_val 10 l + digit_val c) / 10 = digits_val 10 l) as Hdiv.
  { rewrite Z.add_comm, Z.mul_comm, Z.div_add, Z.div_small; lia. }
  rewrite Hmod, Hdiv, digit_char_val by done.
  destruct l as [|d l].
  - change (digits_val 10 []) with 0. destruct (Z.ltb_spec (10 * 0 + digit_val c) 10); [done|lia].
  - assert (digit_val d <> 0) as Hd0.
    { destruct Hcan as [Hz|(c0 & k & Heq & Hc0)]; [|simpl in Heq; injection Heq as Heq _; congruence].
      destruct l; discriminate Hz. }
    pose proof (digits_val_head_pos d l Hd0 Hl) as Hp.
    destruct (Z.ltb_spec (10 * digits_val 10 (d :: l) + digit_val c) 10); [lia|].
    rewrite to_digits_acc by lia. rewrite IH; [done| | |].
    + split; [done|]. right. eauto.
    + rewrite Nat2Z.inj_succ, Z.pow_succ_r in Hf by lia. lia.
    + destruct fuel; [|lia]. change (2 ^ Z.of_nat 1) with 2 in Hf. lia.
Qed.

Lemma dec_chars_digits_val l : canonical_digits l -> dec_chars (digits_val 10 l) = l.
Proof.
  intros Hl. unfold dec_chars. apply to_digits_canonical; [done| |unfold digits_fuel; lia].
  apply digits_fuel_enough, digits_val_nonneg. lia.
Qed.

Lemma dec_chars_canonical z : 0 <= z -> canonical_digits (dec_chars z).
Proof.
  intros Hz. split; [by apply dec_chars_digits|].
  destruct (Z.eq_dec z 0) as [->|Hne]; [by left|]. right.
  destruct (to_digits_head 10 ltac:(lia) (digits_fuel z) z) as (c & l & Hl & Hc).
  - pose proof (digits_fuel_enough z Hz). lia.
  - exists c, l. by split.
Qed.

(** ** Ordering: code points compare as the bytes of their encodings *)

Definition str_le (s t : string) : Prop := String.leb s t = true.
#[export] Instance str_le_dec : RelDecision str_le.
Proof. intros s t. unfold str_le. apply _. Defined.
#[export] Instance str_le_total : Total str_le.
Proof. intros s t. unfold str_le. destruct (String.leb_total s t) as [?|?]; auto. Qed.

Lemma ascii_compare_ord a b : Ascii.compare a b = Z.compare (ord a) (ord b).
Proof. unfold Ascii.compare, ord. by rewrite N2Z.inj_compare. Qed.

#[export] Instance str_le_trans : Transitive str_le.
Proof.
  intros s. unfold str_le, String.leb. induction s as [|a s IH]; intros [|b t] [|c u]; simpl; try done.
  rewrite !ascii_compare_ord.
  destruct (Z.compare_spec (ord a) (ord b)), (Z.compare_spec (ord b) (ord c)), (Z.compare_spec (ord a) (ord c));
    try done; try lia. apply IH.
Qed.

(** ** Splitting and joining *)

Lemma chars_app s t : chars (s +:+ t) = chars s ++ chars t.
Proof. induction s as [|c s IH]; simpl; [done|]. by rewrite IH. Qed.

Lemma join_split_chars c l : join_chars c (split_chars c l) = l.
Proof.
  induction l as [|d l IH]; [done|]. simpl. pose proof (split_chars_nonempty c l) as Hn.
  case_decide as Hd; [subst d|]; destruct (split_chars c l) as [|p ps]; try done.
  - simpl in *. by rewrite IH.
  - destruct ps; simpl in *; by rewrite <-IH.
Qed.

(** A decimal without a leading zero. *)
Definition positive_digits (l : list ascii) : bool :=
  match l with c :: l => between 49 57 c && forallb is_digit l | [] => false end.

Lemma positive_digits_iff l :
  positive_digits l = true <-> exists z, 0 < z /\ l = dec_chars z.
Proof.
  split.
  - destruct l as [|c l]; [done|]. simpl. unfold between. intros [[Hc1 Hc2]%andb_true_iff Hl]%andb_true_iff.
    bprop. assert (is_digit c = true) as Hc by (unfold is_digit, between; lia).
    apply forallb_true in Hl. assert (digit_val c <> 0) as Hv by (unfold digit_val; rewrite Hc; lia).
    exists (digits_val 10 (c :: l)). split.
    { apply digits_val_head_pos; [done|]. by constructor. }
    symmetry. apply dec_chars_digits_val. split; [by constructor|]. right. eauto.
  - intros (z & Hz & ->). destruct (dec_chars_canonical z ltac:(lia)) as [Hd Hcan].
    destruct (dec_chars z) as [|c l] eqn:Hl; [by apply dec_chars_nonempty in Hl|].
    apply Forall_cons in Hd as [Hc Hd]. simpl. apply andb_true_iff. split; [|by apply forallb_true].
    assert (digit_val c <> 0) as Hv.
    { destruct Hcan as [[= -> ->]|(c' & k & [= <- <-] & Hv)]; [|done].
      pose proof (dec_chars_val z ltac:(lia)) as Hval. rewrite Hl in Hval. by subst z. }
    unfold digit_val in Hv. rewrite Hc in Hv. unfold is_digit, between in *. lia.
Qed.

Lemma chars_str_of_Z z : 0 <= z -> chars (str_of_Z z) = dec_chars z.
Proof. intros Hz. unfold str_of_Z. destruct (Z.ltb_spec z 0); [lia|]. apply chars_of_chars. Qed.
