(* ===== verification/Uuid.v ===== *)
(** * UUIDs

    [str(UUID(s))] of the [uuid] module on a [str]: the spellings it accepts and
    the canonical one it prints.  [int(x, 16)] outside ASCII is a parameter. *)

From S2P Require Import Prelude PyValue PyStr.
#[local] Open Scope Z_scope.

(** [s.replace(pat, "")]; [skip] characters of a match are still to be dropped. *)
Fixpoint remove_all (pat : list ascii) (skip : nat) (l : list ascii) : list ascii :=
  match l with
  | [] => []
  | c :: l' =>
      match skip with
      | S skip => remove_all pat skip l'
      | O => if prefix_of pat l then remove_all pat (length pat - 1) l' else c :: remove_all pat 0 l'
      end
  end.

(** Hexadecimal digits with single underscores between them. *)
Fixpoint hex_run (l : list ascii) (acc : list ascii) : option (list ascii) :=
  match l with
  | [] => None
  | c :: l =>
      if is_hex c then
        match l with
        | [] => Some (acc ++ [c])
        | "_"%char :: l => hex_run l (acc ++ [c])
        | _ => hex_run l (acc ++ [c])
        end
      else None
  end.

Definition hex_prefix (l : list ascii) : list ascii :=
  match l with
  | "0"%char :: c :: l' =>
      if one_of "xX" c then match l' with "_"%char :: l' => l' | _ => l' end else l
  | _ => l
  end.

Definition sign_of (l : list ascii) : Z * list ascii :=
  match l with
  | "-"%char :: l => (-1, l)
  | "+"%char :: l => (1, l)
  | _ => (1, l)
  end.

(** [int(s, 16)] of an ASCII string. *)
Definition int16 (l : list ascii) : option Z :=
  let '(sign, l) := sign_of (chars (strip is_space (of_chars l))) in
  ds ← hex_run (hex_prefix l) []; Some (sign * digits_val 16 ds).

(** The last [n] hexadecimal digits of [z]. *)
Fixpoint fixed_hex (n : nat) (z : Z) : list ascii :=
  match n with O => [] | S n => fixed_hex n (z / 16) ++ [digit_char (z mod 16)] end.

(** [8-4-4-4-12] *)
Definition dashed (l : list ascii) : list ascii :=
  take 8 l ++ "-"%char :: take 4 (drop 8 l) ++ "-"%char :: take 4 (drop 12 l) ++ "-"%char ::
  take 4 (drop 16 l) ++ "-"%char :: drop 20 l.
Definition uuid_text (z : Z) : string := of_chars (dashed (fixed_hex 32 z)).

Section Uuid.
Context (unicode_int16 : string -> option Z).

(** What is left of the argument: without [urn:], [uuid:], braces and dashes. *)
Definition uuid_digits (s : string) : list ascii :=
  filter (fun c => c <> "-"%char)
    (chars (strip (one_of "{}") (of_chars (remove_all (chars "uuid:") 0 (remove_all (chars "urn:") 0 (chars s)))))).

(** [str(UUID(s))]; [None] is the [ValueError]. *)
Definition uuid_str (s : string) : option string :=
  let l := uuid_digits s in
  if negb (py_len (of_chars l) =? 32) then None else
  z ← (if forallb (fun c => ord c <? 128) l then int16 l else unicode_int16 (of_chars l));
  if (0 <=? z) && (z <? 2 ^ 128) then Some (uuid_text z) else None.
End Uuid.

Example uuid_ex1 :
  uuid_str (fun _ => None) "{0123456789ABCDEF0123456789abcdef}" = Some "01234567-89ab-cdef-0123-456789abcdef"%string.
Proof. vm_compute. reflexivity. Qed.
Example uuid_ex2 : uuid_str (fun _ => None) "urn:uuid:01234567-89ab-cdef-0123-456789abcde" = None.
Proof. vm_compute. reflexivity. Qed.

(** ** The canonical spelling is read back *)

Lemma fixed_hex_length n z : length (fixed_hex n z) = n.
Proof. revert z. induction n as [|n IH]; intros z; [done|]. cbn [fixed_hex]. rewrite length_app, IH. simpl. lia. Qed.

Lemma fixed_hex_digits n z : Forall (fun c => is_hex_lower c = true) (fixed_hex n z).
Proof.
  revert z. induction n as [|n IH]; intros z; [constructor|]. cbn [fixed_hex]. apply Forall_app_2; [done|].
  apply Forall_singleton, digit_char_hex. apply Z.mod_pos_bound. lia.
Qed.

Lemma fixed_hex_val n z : 0 <= z -> digits_val 16 (fixed_hex n z) = z mod 16 ^ Z.of_nat n.
Proof.
  revert z. induction n as [|n IH]; intros z Hz; [by rewrite Z.mod_1_r|].
  cbn [fixed_hex]. rewrite digits_val_snoc, IH by (apply Z.div_pos; lia).
  rewrite digit_val_char by (apply Z.mod_pos_bound; lia).
  rewrite Nat2Z.inj_succ, Z.pow_succ_r by lia. rewrite (Z.rem_mul_r z 16) by lia. lia.
Qed.

Lemma remove_all_none pat c l : head pat = Some c -> c ∉ l -> remove_all pat 0 l = l.
Proof.
  destruct pat as [|d pat]; [done|]. intros [= ->]. induction l as [|e l IH]; [done|]. intros Hc. cbn [remove_all].
  assert (prefix_of (c :: pat) (e :: l) = false) as ->.
  { cbn [prefix_of]. apply andb_false_iff. left. apply bool_decide_eq_false. set_solver. }
  rewrite IH; [done|set_solver].
Qed.

Lemma drop_while_none f l : Forall (fun c => f c = false) l -> drop_while f l = l.
Proof. destruct 1 as [|c l Hc _]; [done|]. cbn [drop_while]. by rewrite Hc. Qed.

Lemma strip_none f l : Forall (fun c => f c = false) l -> chars (strip f (of_chars l)) = l.
Proof.
  intros H. unfold strip, rstrip. rewrite !chars_of_chars, (drop_while_none f l H), drop_while_none.
  - apply rev_involutive.
  - by apply Forall_rev.
Qed.

Lemma hex_run_plain l acc : l <> [] -> Forall (fun c => is_hex_lower c = true) l -> hex_run l acc = Some (acc ++ l).
Proof.
  revert acc. induction l as [|c l IH]; intros acc Hne Hl; [done|]. apply Forall_cons in Hl as [Hc Hl]. cbn [hex_run].
  unfold is_hex. rewrite Hc. cbn [orb]. destruct l as [|d l]; [done|].
  assert (hex_run (d :: l) (acc ++ [c]) = Some (acc ++ c :: d :: l)) as H.
  { rewrite IH by done. by rewrite <-app_assoc. }
  apply Forall_cons in Hl as [Hd _]. destruct d as [[] [] [] [] [] [] [] []]; try exact H; done.
Qed.

Definition hex_or_dash (c : ascii) : bool := is_hex_lower c || bool_decide (c = "-"%char).

Lemma hex_plain c : is_hex_lower c = true -> c <> "-"%char /\ is_space c = false /\ ord c < 128 /\ is_cont c = false.
Proof.
  unfold is_hex_lower, is_digit, is_space, is_cont, between. intros H. split; [|lia].
  intros ->. vm_compute in H. discriminate.
Qed.

Lemma hex_or_dash_plain c : hex_or_dash c = true -> c <> "u"%char /\ one_of "{}" c = false.
Proof.
  intros H. split; [intros ->; vm_compute in H; discriminate|]. unfold one_of. apply bool_decide_eq_false. intros Hc.
  repeat (apply elem_of_cons in Hc as [->|Hc]; [vm_compute in H; discriminate|]). by apply not_elem_of_nil in Hc.
Qed.

Lemma dashed_chars l : Forall (fun c => is_hex_lower c = true) l -> Forall (fun c => hex_or_dash c = true) (dashed l).
Proof.
  intros Hl. assert (Forall (fun c => hex_or_dash c = true) l) as Hh.
  { eapply Forall_impl; [exact Hl|]. intros c Hc. unfold hex_or_dash. by rewrite Hc. }
  unfold dashed. repeat first [apply Forall_app_2 | apply Forall_cons_2 | apply Forall_take | apply Forall_drop | done].
Qed.

Lemma dashed_filter l :
  Forall (fun c => is_hex_lower c = true) l -> filter (fun c => c <> "-"%char) (dashed l) = l.
Proof.
  intros Hl.
  assert (forall k, Forall (fun c => is_hex_lower c = true) k -> filter (fun c => c <> "-"%char) k = k) as Hk.
  { intros k Hk. apply filter_all. eapply Forall_impl; [exact Hk|]. intros c Hc. by apply hex_plain in Hc as []. }
  unfold dashed. repeat (rewrite filter_app || rewrite filter_cons_False by tauto).
  rewrite !Hk by auto using Forall_take, Forall_drop.
  change 20%nat with (16 + 4)%nat. change 16%nat with (12 + 4)%nat. change 12%nat with (8 + 4)%nat.
  by rewrite <-!drop_drop, !take_drop.
Qed.

Lemma uuid_text_digits z : uuid_digits (uuid_text z) = fixed_hex 32 z.
Proof.
  pose proof (fixed_hex_digits 32 z) as Hd. pose proof (dashed_chars _ Hd) as Hc.
  unfold uuid_digits, uuid_text. rewrite chars_of_chars.
  assert ("u"%char ∉ dashed (fixed_hex 32 z)) as Hu.
  { intros Hin. rewrite Forall_forall in Hc. by apply Hc, hex_or_dash_plain in Hin as []. }
  rewrite (remove_all_none (chars "urn:") "u"%char _ eq_refl Hu), (remove_all_none (chars "uuid:") "u"%char _ eq_refl Hu).
  rewrite strip_none; [by apply dashed_filter|].
  eapply Forall_impl; [exact Hc|]. intros c H. by apply hex_or_dash_plain.
Qed.

Lemma int16_plain l : l <> [] -> Forall (fun c => is_hex_lower c = true) l -> int16 l = Some (digits_val 16 l).
Proof.
  intros Hne Hl. unfold int16. rewrite strip_none.
  2: { eapply Forall_impl; [exact Hl|]. intros c Hc. by apply hex_plain in Hc as (_ & ? & _). }
  assert (sign_of l = (1, l)) as ->.
  { destruct l as [|c l]; [done|]. apply Forall_cons in Hl as [Hc _].
    destruct c as [[] [] [] [] [] [] [] []]; vm_compute in Hc; try discriminate Hc; reflexivity. }
  assert (hex_prefix l = l) as ->.
  { destruct l as [|c [|d l]]; [done|by destruct c as [[] [] [] [] [] [] [] []]|].
    apply Forall_cons in Hl as [_ [Hd _]%Forall_cons].
    assert (one_of "xX" d = false) as Hx.
    { unfold one_of. apply bool_decide_eq_false. intros Hx.
      repeat (apply elem_of_cons in Hx as [->|Hx]; [vm_compute in Hd; discriminate|]). by apply not_elem_of_nil in Hx. }
    unfold hex_prefix. rewrite Hx. by destruct c as [[] [] [] [] [] [] [] []]. }
  rewrite hex_run_plain by done. simpl. by rewrite Z.mul_1_l.
Qed.

(** What [str(UUID(s))] prints is what it prints of itself. *)
Lemma uuid_str_canonical ui s t : uuid_str ui s = Some t -> uuid_str ui t = Some t.
Proof.
  unfold uuid_str at 1. destruct (negb _); [done|]. intros (z & _ & H)%bind_Some.
  destruct ((0 <=? z) && (z <? 2 ^ 128)) eqn:Hz; [|done]. injection H as <-. bprop.
  pose proof (fixed_hex_digits 32 z) as Hd. unfold uuid_str. rewrite uuid_text_digits.
  assert (py_len (of_chars (fixed_hex 32 z)) =? 32 = true) as ->.
  { unfold py_len. rewrite chars_of_chars, filter_all, fixed_hex_length; [done|].
    eapply Forall_impl; [exact Hd|]. intros c Hc. by apply hex_plain in Hc as (_ & _ & _ & ?). }
  assert (forallb (fun c => ord c <? 128) (fixed_hex 32 z) = true) as ->.
  { apply forallb_true. eapply Forall_impl; [exact Hd|]. intros c Hc. apply hex_plain in Hc as (_ & _ & ? & _). lia. }
  simpl negb. rewrite int16_plain; [|by intros Hn%(f_equal length); rewrite fixed_hex_length in Hn|done].
  rewrite fixed_hex_val by lia. simpl. rewrite Z.mod_small by lia.
  destruct (Z.leb_spec 0 z), (Z.ltb_spec z (2 ^ 128)); simpl; try lia; done.
Qed.
