(* ===== verification/Regex.v ===== *)
(** * Regular expressions

    The fragment of Python's [re] the source uses, matched by derivatives:
    [fullmatch] decides the language [lang], so a pattern is transcribed and
    its meaning is a theorem. *)

From S2P Require Import Prelude PyStr.

Inductive re :=
| RNone                                (* no string *)
| REps
| RCls (f : ascii -> bool)             (* one character of a class *)
| RCat (r s : re)
| RAlt (r s : re)
| RRep (r : re) (m n : nat)            (* [r{m,n}] *)
| RStar (r : re).

Definition RChr (c : ascii) : re := RCls (fun d => bool_decide (c = d)).
Fixpoint RLit_chars (l : list ascii) : re :=
  match l with [] => REps | [c] => RChr c | c :: l => RCat (RChr c) (RLit_chars l) end.
Definition RLit (s : string) : re := RLit_chars (chars s).
Definition RPlus (r : re) : re := RCat r (RStar r).
Definition ROpt (r : re) : re := RAlt r REps.
(** [[cls]{m,n}] *)
Definition RClsRep (f : ascii -> bool) (m n : nat) : re := RRep (RCls f) m n.

(** ** Language *)

Section Lang.
Variable P : list ascii -> Prop.
Inductive iter_lang : nat -> list ascii -> Prop :=
| iter_0 : iter_lang 0 []
| iter_S k u v : P u -> iter_lang k v -> iter_lang (S k) (u ++ v).
End Lang.

Fixpoint lang (r : re) : list ascii -> Prop :=
  match r with
  | RNone => fun _ => False
  | REps => fun l => l = []
  | RCls f => fun l => exists c, l = [c] /\ f c = true
  | RCat r s => fun l => exists u v, l = u ++ v /\ lang r u /\ lang s v
  | RAlt r s => fun l => lang r l \/ lang s l
  | RRep r m n => fun l => exists k, (m <= k <= n)%nat /\ iter_lang (lang r) k l
  | RStar r => fun l => exists k, iter_lang (lang r) k l
  end.

(** ** Matching *)

Fixpoint nullable (r : re) : bool :=
  match r with
  | RNone | RCls _ => false
  | REps | RStar _ => true
  | RCat r s => nullable r && nullable s
  | RAlt r s => nullable r || nullable s
  | RRep r m n => Nat.leb m n && (Nat.eqb m 0 || nullable r)
  end.

Definition mkCat (r s : re) : re :=
  match r with RNone => RNone | REps => s | _ => RCat r s end.
Definition mkAlt (r s : re) : re :=
  match r, s with RNone, s => s | r, RNone => r | _, _ => RAlt r s end.

Fixpoint deriv (c : ascii) (r : re) : re :=
  match r with
  | RNone | REps => RNone
  | RCls f => if f c then REps else RNone
  | RCat r s =>
      if nullable r then mkAlt (mkCat (deriv c r) s) (deriv c s) else mkCat (deriv c r) s
  | RAlt r s => mkAlt (deriv c r) (deriv c s)
  | RRep r m n =>
      match n with
      | O => RNone
      | S n' => if Nat.leb m n then mkCat (deriv c r) (RRep r (pred m) n') else RNone
      end
  | RStar r => mkCat (deriv c r) (RStar r)
  end.

Fixpoint match_chars (r : re) (l : list ascii) : bool :=
  match l with [] => nullable r | c :: l => match_chars (deriv c r) l end.

(** [re.fullmatch(r, s) is not None] *)
Definition fullmatch (r : re) (s : string) : bool := match_chars r (chars s).

(** ** Correctness *)

Lemma lang_mkCat r s l : lang (mkCat r s) l <-> lang (RCat r s) l.
Proof.
  destruct r; try done.
  - split; [done|]. by intros (? & ? & ? & [] & ?).
  - simpl. split; [intros; by exists [], l | by intros (? & ? & -> & -> & ?)].
Qed.

Lemma lang_mkAlt r s l : lang (mkAlt r s) l <-> lang r l \/ lang s l.
Proof. destruct r, s; simpl; tauto. Qed.

Lemma iter_nil (P : list ascii -> Prop) k : iter_lang P k [] <-> k = 0%nat \/ P [].
Proof.
  split.
  - inversion 1 as [|k' u v Hu Hv Hk He]; [by left|].
    right. by apply app_eq_nil in He as [-> ->].
  - destruct k as [|k]; [constructor|]. intros [|HP]; [done|].
    induction k as [|k IH]; apply (iter_S P _ [] []); try done. constructor.
Qed.

Lemma nullable_lang r : nullable r = true <-> lang r [].
Proof.
  induction r as [| | |r1 IH1 r2 IH2|r1 IH1 r2 IH2|r IH m n|r IH]; simpl.
  - done.
  - done.
  - by split; [|intros (? & ? & ?)].
  - rewrite andb_true_iff, IH1, IH2. split; [by intros []; exists [], []|].
    by intros (? & ? & [-> ->]%eq_sym%app_eq_nil & ? & ?).
  - by rewrite orb_true_iff, IH1, IH2.
  - rewrite andb_true_iff, orb_true_iff, IH, Nat.leb_le, Nat.eqb_eq. split.
    + intros [? [->|?]]; [exists 0%nat | exists m]; rewrite iter_nil; auto with lia.
    + intros (k & ? & [->|?]%iter_nil); split; auto with lia.
  - split; [|done]. intros _. exists 0%nat. constructor.
Qed.

(** Peel the iteration that consumes the first character; the empty iterations
    before it become padding. *)
Lemma iter_cons (P : list ascii -> Prop) k c l :
  iter_lang P k (c :: l) <->
  exists j u v, l = u ++ v /\ (j < k)%nat /\ P (c :: u) /\ iter_lang P j v /\
    (S j = k \/ P []).
Proof.
  split.
  - intros H. remember (c :: l) as w eqn:Hw. revert c l Hw.
    induction H as [|k u v Hu Hv IH]; intros c l Hw; [done|].
    destruct u as [|d u]; simpl in Hw.
    + destruct (IH c l Hw) as (j & u & v' & ? & ? & ? & ? & ?).
      exists j, u, v'. split_and!; auto with lia.
    + injection Hw as -> <-. exists k, u, v. split_and!; auto.
  - intros (j & u & v & -> & Hj & Hu & Hv & Hpad).
    change (c :: u ++ v) with ((c :: u) ++ v).
    destruct Hpad as [<-|Hn]; [by constructor|].
    destruct k as [|k]; [lia|]. constructor; [done|].
    assert (exists d, k = (d + j)%nat) as [d ->] by (exists (k - j)%nat; lia).
    clear Hj. induction d as [|d IH]; [done|]. by apply (iter_S P _ [] v).
Qed.

Lemma deriv_lang c r l : lang (deriv c r) l <-> lang r (c :: l).
Proof.
  revert l. induction r as [| |f|r1 IH1 r2 IH2|r1 IH1 r2 IH2|r IH m n|r IH]; intros l; simpl.
  - done.
  - by split.
  - destruct (f c) eqn:Hf; simpl.
    + split; [intros ->; by exists c | by intros (? & [= <- ->] & ?)].
    + split; [done|]. intros (? & [= <- ->] & ?). congruence.
  - assert (lang (RCat (deriv c r1) r2) l <->
            exists u v, l = u ++ v /\ lang r1 (c :: u) /\ lang r2 v) as Hc.
    { simpl. by setoid_rewrite IH1. }
    destruct (nullable r1) eqn:Hn.
    + rewrite lang_mkAlt, lang_mkCat, Hc, IH2. apply nullable_lang in Hn. split.
      * intros [(u & v & -> & ? & ?)|?]; [by exists (c :: u), v | by exists [], (c :: l)].
      * intros ([|d u] & v & He & ? & ?); simpl in He; [subst; by right|].
        injection He as <- ->. left. by exists u, v.
    + rewrite lang_mkCat, Hc. split.
      * intros (u & v & -> & ? & ?). by exists (c :: u), v.
      * intros ([|d u] & v & He & Hu & ?); simpl in He.
        { apply nullable_lang in Hu. congruence. }
        injection He as <- ->. by exists u, v.
  - by rewrite lang_mkAlt, IH1, IH2.
  - destruct n as [|n].
    { simpl. split; [done|]. intros (k & ? & (j & ? & ? & _ & ? & _)%iter_cons). lia. }
    destruct (Nat.leb_spec m (S n)).
    + rewrite lang_mkCat. simpl. setoid_rewrite IH. split.
      * intros (u & v & -> & Hu & k & Hk & Hv). exists (S k). split; [lia|].
        apply iter_cons. exists k, u, v. split_and!; auto.
      * intros (k & Hk & (j & u & v & -> & Hj & Hu & Hv & Hpad)%iter_cons).
        exists u, v. split_and!; [done|done|].
        destruct Hpad as [<-|Hn]; [exists j; auto with lia|].
        exists (pred k). split; [lia|].
        assert (exists d, pred k = (d + j)%nat) as [d ->] by (exists (pred k - j)%nat; lia).
        clear -Hv Hn. induction d as [|d IHd]; [done|]. by apply (iter_S _ _ [] v).
    + split; [done|]. intros (k & ? & _). lia.
  - rewrite lang_mkCat. simpl. setoid_rewrite IH. split.
    + intros (u & v & -> & Hu & k & Hv). exists (S k).
      apply iter_cons. exists k, u, v. split_and!; auto.
    + intros (k & (j & u & v & -> & ? & Hu & Hv & _)%iter_cons).
      exists u, v. split_and!; [done|done|]. by exists j.
Qed.

Theorem match_chars_lang r l : match_chars r l = true <-> lang r l.
Proof.
  revert r. induction l as [|c l IH]; intros r; simpl; [apply nullable_lang|].
  by rewrite IH, deriv_lang.
Qed.

(** ** The common shapes *)

Lemma iter_cls f k l :
  iter_lang (lang (RCls f)) k l <-> length l = k /\ Forall (fun c => f c = true) l.
Proof.
  split.
  - induction 1 as [|k u v (c & -> & Hc) Hv [<- IH]]; [by split|]. simpl. auto.
  - intros [<- H]. induction H as [|c l Hc Hl IH]; [constructor|].
    apply (iter_S _ _ [c] l); [by exists c | done].
Qed.

Lemma lang_cls_rep f m n l :
  lang (RClsRep f m n) l <->
  (m <= length l <= n)%nat /\ Forall (fun c => f c = true) l.
Proof.
  unfold RClsRep. cbn [lang]. setoid_rewrite iter_cls. split.
  - by intros (k & ? & <- & ?).
  - intros []. by exists (length l).
Qed.

Lemma lang_cls_star f l : lang (RStar (RCls f)) l <-> Forall (fun c => f c = true) l.
Proof.
  cbn [lang]. setoid_rewrite iter_cls. split; [by intros (? & <- & ?)|by exists (length l)].
Qed.

(** [re.fullmatch("[cls]{m,n}", s)] *)
Lemma fullmatch_cls_rep f m n s :
  fullmatch (RClsRep f m n) s = true <->
  (m <= length (chars s) <= n)%nat /\ Forall (fun c => f c = true) (chars s).
Proof. unfold fullmatch. rewrite match_chars_lang. apply lang_cls_rep. Qed.

(** A match of a pattern whose classes are all within [P] only has characters
    of [P]; used to show that an admitted string is, e.g., ASCII. *)
Fixpoint within (P : ascii -> Prop) (r : re) : Prop :=
  match r with
  | RNone | REps => True
  | RCls f => forall c, f c = true -> P c
  | RCat r s | RAlt r s => within P r /\ within P s
  | RRep r _ _ | RStar r => within P r
  end.

Lemma iter_forall P (L : list ascii -> Prop) k l :
  (forall u, L u -> Forall P u) -> iter_lang L k l -> Forall P l.
Proof. intros HL. induction 1; [constructor|]. apply Forall_app. split; auto. Qed.

Lemma lang_within P r l : within P r -> lang r l -> Forall P l.
Proof.
  revert l. induction r as [| |f|r1 IH1 r2 IH2|r1 IH1 r2 IH2|r IH m n|r IH]; intros l; simpl.
  - done.
  - by intros _ ->.
  - intros Hf (c & -> & ?). auto.
  - intros [] (u & v & -> & ? & ?). apply Forall_app. split; auto.
  - intros [? ?] [?|?]; [by apply IH1 | by apply IH2].
  - intros ? (k & _ & Hk). eapply iter_forall; [|exact Hk]. auto.
  - intros ? (k & Hk). eapply iter_forall; [|exact Hk]. auto.
Qed.

Lemma fullmatch_within P r s : within P r -> fullmatch r s = true -> Forall P (chars s).
Proof. intros Hw Hm%match_chars_lang. by eapply lang_within. Qed.
