(* ===== verification/IPAddr.v ===== *)
(** * IP addresses

    The part of Python 3.12's [ipaddress] module the source uses: parsing and
    printing of IPv4 and IPv6 addresses (zero compression, embedded IPv4
    suffixes, scope identifiers), networks and the private/global registries.
    [ip_str_parse] is the round trip the SOCKS codec and the policy rely on. *)

From S2P Require Import Prelude PyValue PyStr.

Inductive ipver := V4 | V6.
#[global] Instance ipver_eq_dec : EqDecision ipver.
Proof. solve_decision. Defined.

Record ipaddr := IP { ip_ver : ipver; ip_int : Z; ip_scope : option string }.
#[global] Instance ipaddr_eq_dec : EqDecision ipaddr.
Proof. solve_decision. Defined.

Definition ip_width (v : ipver) : Z := match v with V4 => 32 | V6 => 128 end.
Definition ver_num (v : ipver) : Z := match v with V4 => 4 | V6 => 6 end.

Definition ip_wf (a : ipaddr) : Prop :=
  0 <= ip_int a < 2 ^ ip_width (ip_ver a) /\ (ip_ver a = V4 -> ip_scope a = None).

Definition dot : ascii := "."%char.
Definition colon : ascii := ":"%char.

(** ** IPv4 *)

Definition parse_octet (l : list ascii) : option Z :=
  match l with
  | [] => None
  | c :: _ =>
      if negb (forallb is_digit l) then None
      else if Nat.ltb 3 (length l) then None
      else if negb (bool_decide (l = ["0"%char])) && bool_decide (c = "0"%char) then None
      else let v := digits_val 10 l in if 255 <? v then None else Some v
  end.

Definition parse_ipv4_chars (l : list ascii) : option Z :=
  match split_chars dot l with
  | [a; b; c; d] =>
      a ← parse_octet a; b ← parse_octet b; c ← parse_octet c; d ← parse_octet d;
      Some (((a * 256 + b) * 256 + c) * 256 + d)
  | _ => None
  end.

Definition octets (z : Z) : list Z :=
  [z / 256 / 256 / 256; z / 256 / 256 mod 256; z / 256 mod 256; z mod 256].

Definition ipv4_chars (z : Z) : list ascii := join_chars dot (dec_chars <$> octets z).

(** ** IPv6 *)

Definition parse_hextet (l : list ascii) : option Z :=
  if negb (forallb is_hex l) then None
  else if Nat.ltb 4 (length l) then None
  else match l with [] => None | _ => Some (digits_val 16 l) end.

Definition parse_hextets (acc : option Z) (l : list (list ascii)) : option Z :=
  foldl (fun acc p => a ← acc; h ← parse_hextet p; Some (a * 65536 + h)) acc l.

(** Interior positions with an empty part: where ["::"] skips zeros. *)
Definition skip_indices (parts : list (list ascii)) : list nat :=
  filter (fun i => parts !! i = Some []) (seq 1 (length parts - 2)).

Definition is_empty {A} (o : option (list A)) : bool :=
  match o with Some [] => true | _ => false end.

(** The parts with an IPv4 suffix replaced by two hextets. *)
Definition expand_suffix (parts : list (list ascii)) : option (list (list ascii)) :=
  match last parts with
  | Some p =>
      if bool_decide (dot ∈ p) then
        z ← parse_ipv4_chars p;
        Some (take (length parts - 1) parts ++ [hex_chars (z / 65536); hex_chars (z mod 65536)])
      else Some parts
  | None => Some parts
  end.

Definition parse_ipv6_parts (parts : list (list ascii)) : option Z :=
  let n := length parts in
  if Nat.ltb 9 n then None else
  match skip_indices parts with
  | _ :: _ :: _ => None
  | [k] =>
      let hi := if is_empty (parts !! 0%nat) then (k - 1)%nat else k in
      let lo := if is_empty (last parts) then (n - k - 2)%nat else (n - k - 1)%nat in
      if is_empty (parts !! 0%nat) && negb (Nat.eqb hi 0) then None
      else if is_empty (last parts) && negb (Nat.eqb lo 0) then None
      else if Nat.ltb 7 (hi + lo) then None
      else
        h ← parse_hextets (Some 0) (take hi parts);
        parse_hextets (Some (h * 65536 ^ Z.of_nat (8 - (hi + lo)))) (drop (n - lo) parts)
  | [] =>
      if negb (Nat.eqb n 8) then None
      else if is_empty (parts !! 0%nat) then None
      else if is_empty (last parts) then None
      else parse_hextets (Some 0) parts
  end.

Definition parse_ipv6_chars (l : list ascii) : option Z :=
  match l with
  | [] => None
  | _ =>
      let parts := split_chars colon l in
      if Nat.ltb (length parts) 3 then None
      else parts ← expand_suffix parts; parse_ipv6_parts parts
  end.

Fixpoint hextets_of (n : nat) (z : Z) : list Z :=
  match n with O => [] | S n => hextets_of n (z / 65536) ++ [z mod 65536] end.

(** The loop of [_compress_hextets]: best run so far and current run. *)
Record runs := Runs { best_start : nat; best_len : nat; cur_start : nat; cur_len : nat }.

Definition zero_part : list ascii := ["0"%char].

Definition run_step (st : nat * runs) (h : list ascii) : nat * runs :=
  let '(i, r) := st in
  if bool_decide (h = zero_part) then
    let start := if Nat.eqb (cur_len r) 0 then i else cur_start r in
    let len := S (cur_len r) in
    if Nat.ltb (best_len r) len then (S i, Runs start len start len)
    else (S i, Runs (best_start r) (best_len r) start len)
  else (S i, Runs (best_start r) (best_len r) 0 0).

Definition longest_run (l : list (list ascii)) : runs :=
  (foldl run_step (0%nat, Runs 0 0 0 0) l).2.

Definition compress_hextets (l : list (list ascii)) : list (list ascii) :=
  let r := longest_run l in
  if Nat.ltb 1 (best_len r) then
    let e := (best_start r + best_len r)%nat in
    (if Nat.eqb (best_start r) 0 then [[]] else take (best_start r) l)
      ++ [[]] ++ (if Nat.eqb e (length l) then [[]] else drop e l)
  else l.

Definition ipv6_chars (z : Z) : list ascii :=
  join_chars colon (compress_hextets (hex_chars <$> hextets_of 8 z)).

(** ** Addresses *)

(** [IPv6Address(s)]: scope identifier after the first ["%"]. *)
Definition parse_ipv6 (s : string) : option ipaddr :=
  if contains_char "/" s then None else
  let '(addr, sep, scope) := partition_chars "%"%char (chars s) in
  if sep && (bool_decide (scope = []) || bool_decide ("%"%char ∈ scope)) then None
  else z ← parse_ipv6_chars addr;
       Some (IP V6 z (if sep then Some (of_chars scope) else None)).

Definition parse_ipv4 (s : string) : option ipaddr :=
  if contains_char "/" s then None
  else z ← parse_ipv4_chars (chars s); Some (IP V4 z None).

(** [ipaddress.ip_address(s)]; [None] is the [ValueError]. *)
Definition ip_address (s : string) : option ipaddr :=
  match parse_ipv4 s with Some a => Some a | None => parse_ipv6 s end.

(** [str(address)] *)
Definition ip_str (a : ipaddr) : string :=
  match ip_ver a with
  | V4 => of_chars (ipv4_chars (ip_int a))
  | V6 => of_chars (ipv6_chars (ip_int a)
            ++ match ip_scope a with Some s => "%"%char :: chars s | None => [] end)
  end.

(** [address.ipv4_mapped] *)
Definition ipv4_mapped (a : ipaddr) : option ipaddr :=
  match ip_ver a with
  | V6 => if ip_int a / 2 ^ 32 =? 65535 then Some (IP V4 (ip_int a mod 2 ^ 32) None) else None
  | V4 => None
  end.

(** ** Networks *)

Record ipnet := Net { net_ver : ipver; net_base : Z; net_len : Z }.

Definition mk4 (a b c d : Z) : Z := ((a * 256 + b) * 256 + c) * 256 + d.

Definition netmask (v : ipver) (len : Z) : Z :=
  Z.lxor (Z.ones (ip_width v)) (Z.ones (ip_width v - len)).

(** [address in network] (same version; the caller compares versions first). *)
Definition in_net (n : ipnet) (a : ipaddr) : bool :=
  bool_decide (ip_ver a = net_ver n)
  && (Z.land (ip_int a) (netmask (net_ver n) (net_len n)) =? net_base n).

Definition net4 (a b c d len : Z) : ipnet := Net V4 (mk4 a b c d) len.
(** An IPv6 network given by its leading hextets. *)
Definition net6 (l : list Z) (len : Z) : ipnet :=
  Net V6 (foldl (fun acc h => acc * 65536 + h) 0 l * 65536 ^ Z.of_nat (8 - length l)) len.

Definition private4 : list ipnet :=
  [net4 0 0 0 0 8; net4 10 0 0 0 8; net4 127 0 0 0 8; net4 169 254 0 0 16;
   net4 172 16 0 0 12; net4 192 0 0 0 24; net4 192 0 0 170 31; net4 192 0 2 0 24;
   net4 192 168 0 0 16; net4 198 18 0 0 15; net4 198 51 100 0 24;
   net4 203 0 113 0 24; net4 240 0 0 0 4; net4 255 255 255 255 32].
Definition private4_exceptions : list ipnet := [net4 192 0 0 9 32; net4 192 0 0 10 32].
Definition private6 : list ipnet :=
  [net6 [0;0;0;0;0;0;0;1] 128; net6 [0] 128; net6 [0;0;0;0;0;65535] 96;
   net6 [0x64;0xff9b;1] 48; net6 [0x100] 64; net6 [0x2001] 23; net6 [0x2001;0xdb8] 32;
   net6 [0x2002] 16; net6 [0xfc00] 7; net6 [0xfe80] 10].
Definition private6_exceptions : list ipnet :=
  [net6 [0x2001;1;0;0;0;0;0;1] 128; net6 [0x2001;1;0;0;0;0;0;2] 128;
   net6 [0x2001;3] 32; net6 [0x2001;4;0x112] 48; net6 [0x2001;0x20] 28; net6 [0x2001;0x30] 28].

Definition in_any (l : list ipnet) (a : ipaddr) : bool := existsb (fun n => in_net n a) l.

Definition is_private4 (a : ipaddr) : bool :=
  in_any private4 a && negb (in_any private4_exceptions a).
Definition is_private (a : ipaddr) : bool :=
  match ip_ver a with
  | V4 => is_private4 a
  | V6 => match ipv4_mapped a with
          | Some m => is_private4 m
          | None => in_any private6 a && negb (in_any private6_exceptions a)
          end
  end.
Definition is_global (a : ipaddr) : bool :=
  match ip_ver a with
  | V4 => negb (in_net (net4 100 64 0 0 10) a) && negb (is_private4 a)
  | V6 => match ipv4_mapped a with
          | Some m => negb (in_net (net4 100 64 0 0 10) m) && negb (is_private4 m)
          | None => negb (in_any private6 a && negb (in_any private6_exceptions a))
          end
  end.
(** The remaining predicates look through an IPv4-mapped address. *)
Definition effective (a : ipaddr) : ipaddr := default a (ipv4_mapped a).
Definition is_loopback (a : ipaddr) : bool :=
  match ip_ver a with
  | V4 => in_net (net4 127 0 0 0 8) a
  | V6 => match ipv4_mapped a with
          | Some m => in_net (net4 127 0 0 0 8) m
          | None => ip_int a =? 1
          end
  end.
Definition is_unspecified (a : ipaddr) : bool :=
  match ip_ver a with
  | V4 => ip_int a =? 0
  | V6 => match ipv4_mapped a with Some m => ip_int m =? 0 | None => ip_int a =? 0 end
  end.
Definition is_multicast (a : ipaddr) : bool :=
  match ip_ver a with
  | V4 => in_net (net4 224 0 0 0 4) a
  | V6 => match ipv4_mapped a with
          | Some m => in_net (net4 224 0 0 0 4) m
          | None => in_net (net6 [0xff00] 8) a
          end
  end.
Definition is_link_local (a : ipaddr) : bool :=
  match ip_ver a with
  | V4 => in_net (net4 169 254 0 0 16) a
  | V6 => match ipv4_mapped a with
          | Some m => in_net (net4 169 254 0 0 16) m
          | None => in_net (net6 [0xfe80] 10) a
          end
  end.

Example parse_ex1 : ip_int <$> ip_address "::ffff:10.0.0.1" = Some 0xffff0a000001.
Proof. vm_compute. reflexivity. Qed.
Example parse_ex2 : ip_str <$> ip_address "2001:DB8:0:0:1:0:0:1" = Some "2001:db8::1:0:0:1"%string.
Proof. vm_compute. reflexivity. Qed.
Example parse_ex3 : ip_address "010.0.0.1" = None.
Proof. vm_compute. reflexivity. Qed.
Example parse_ex4 : ip_str <$> ip_address "fe80::1%eth0" = Some "fe80::1%eth0"%string.
Proof. vm_compute. reflexivity. Qed.
Example parse_ex5 : ip_str <$> ip_address "1::" = Some "1::"%string /\ ip_address "1:::2" = None
  /\ ip_str <$> ip_address "::" = Some "::"%string.
Proof. vm_compute. auto. Qed.

(** ** The textual round trip *)

Lemma parse_octet_dec z : 0 <= z < 256 -> parse_octet (dec_chars z) = Some z.
Proof.
  intros Hz. assert (z ∈ seqZ 0 256) as Hin by (apply elem_of_seqZ; lia).
  clear Hz. revert z Hin. apply Forall_forall.
  repeat (constructor; [vm_compute; reflexivity|]). constructor.
Qed.

Lemma dec_chars_not_in c z : is_digit c = false -> 0 <= z -> c ∉ dec_chars z.
Proof.
  intros Hc Hz Hin. pose proof (dec_chars_digits z Hz) as Hd.
  rewrite Forall_forall in Hd. rewrite (Hd _ Hin) in Hc. done.
Qed.

Lemma hex_chars_not_in c z : is_hex_lower c = false -> 0 <= z -> c ∉ hex_chars z.
Proof.
  intros Hc Hz Hin. pose proof (hex_chars_hex z Hz) as Hd.
  rewrite Forall_forall in Hd. rewrite (Hd _ Hin) in Hc. done.
Qed.

Lemma octets_range z : 0 <= z < 2 ^ 32 -> Forall (fun o => 0 <= o < 256) (octets z).
Proof.
  intros Hz. change (2 ^ 32) with 4294967296 in Hz.
  repeat (constructor; [Z.to_euclidean_division_equations; lia|]). constructor.
Qed.

Lemma octets_join z :
  ((z / 256 / 256 / 256 * 256 + z / 256 / 256 mod 256) * 256 + z / 256 mod 256) * 256 + z mod 256 = z.
Proof. Z.to_euclidean_division_equations. lia. Qed.

Lemma ipv4_chars_split z :
  0 <= z < 2 ^ 32 -> split_chars dot (ipv4_chars z) = dec_chars <$> octets z.
Proof.
  intros Hz. apply split_join_chars; [done|]. apply Forall_fmap.
  eapply Forall_impl; [by apply octets_range|]. intros o Ho. simpl in *.
  apply dec_chars_not_in; [done|lia].
Qed.

Lemma parse_ipv4_chars_print z : 0 <= z < 2 ^ 32 -> parse_ipv4_chars (ipv4_chars z) = Some z.
Proof.
  intros Hz. unfold parse_ipv4_chars. rewrite ipv4_chars_split by done.
  pose proof (octets_range z Hz) as Ho. unfold octets in *. cbn [fmap list_fmap].
  repeat (apply Forall_cons in Ho as [? Ho]). rewrite !parse_octet_dec by done. simpl.
  f_equal. apply octets_join.
Qed.

Lemma hex_chars_length z : 0 <= z < 65536 -> (length (hex_chars z) <= 4)%nat.
Proof.
  intros. apply to_digits_length; [lia|lia|]. by change (16 ^ Z.of_nat 4) with 65536.
Qed.

Lemma is_hex_lower_hex c : is_hex_lower c = true -> is_hex c = true.
Proof. unfold is_hex. by intros ->. Qed.

Lemma parse_hextet_hex z : 0 <= z < 65536 -> parse_hextet (hex_chars z) = Some z.
Proof.
  intros Hz. unfold parse_hextet.
  rewrite (proj2 (forallb_true _ _)).
  2:{ eapply Forall_impl; [apply hex_chars_hex; lia|]. apply is_hex_lower_hex. }
  pose proof (hex_chars_length z Hz). destruct (Nat.ltb_spec 4 (length (hex_chars z))); [lia|].
  simpl. pose proof (hex_chars_nonempty z). pose proof (hex_chars_val z).
  destruct (hex_chars z); [done|]. f_equal. lia.
Qed.

Lemma hextets_of_range n z : Forall (fun h => 0 <= h < 65536) (hextets_of n z).
Proof.
  revert z. induction n as [|n IH]; intros z; simpl; [constructor|].
  apply Forall_app; split; [done|]. constructor; [apply Z.mod_pos_bound; lia | constructor].
Qed.

Lemma hextets_of_length n z : length (hextets_of n z) = n.
Proof. revert z. induction n as [|n IH]; intros z; simpl; [done|]. rewrite length_app, IH. simpl. lia. Qed.

(** The value of a list of hextets, and of the parse of their printed form. *)
Definition hex_val (acc : Z) (l : list Z) : Z := foldl (fun a h => a * 65536 + h) acc l.

Lemma hex_val_app a l k : hex_val a (l ++ k) = hex_val (hex_val a l) k.
Proof. apply foldl_app. Qed.

Lemma hex_val_zeros a n : hex_val a (replicate n 0) = a * 65536 ^ Z.of_nat n.
Proof.
  unfold hex_val. revert a. induction n as [|n IH]; intros a; cbn [replicate foldl].
  - change (65536 ^ Z.of_nat 0) with 1. lia.
  - rewrite IH, Nat2Z.inj_succ, Z.pow_succ_r by lia. lia.
Qed.

Lemma hextets_of_val n z : 0 <= z < 65536 ^ Z.of_nat n -> hex_val 0 (hextets_of n z) = z.
Proof.
  revert z. induction n as [|n IH]; intros z Hz; simpl.
  - change (65536 ^ Z.of_nat 0) with 1 in Hz. unfold hex_val. simpl. lia.
  - rewrite hex_val_app, IH.
    + unfold hex_val. simpl. pose proof (Z.div_mod z 65536). lia.
    + rewrite Nat2Z.inj_succ, Z.pow_succ_r in Hz by lia.
      split; [apply Z.div_pos; lia | apply Z.div_lt_upper_bound; lia].
Qed.

Lemma parse_hextets_print a l :
  Forall (fun h => 0 <= h < 65536) l ->
  parse_hextets (Some a) (hex_chars <$> l) = Some (hex_val a l).
Proof.
  unfold parse_hextets, hex_val. intros Hl. revert a.
  induction Hl as [|h l Hh Hl IH]; intros a; [done|]. csimpl.
  rewrite parse_hextet_hex by done. simpl. apply IH.
Qed.

(** *** The zero-run search finds a run *)

Definition is_run (l : list (list ascii)) (start len : nat) : Prop :=
  forall j, (start <= j < start + len)%nat -> l !! j = Some zero_part.

Definition runs_ok (l : list (list ascii)) (st : nat * runs) : Prop :=
  let '(i, r) := st in
  i = length l /\ (best_start r + best_len r <= i)%nat /\ is_run l (best_start r) (best_len r) /\
  (cur_len r = 0%nat \/ (cur_start r + cur_len r)%nat = i) /\ is_run l (cur_start r) (cur_len r).

Lemma is_run_snoc l h start len : (start + len <= length l)%nat ->
  is_run l start len -> is_run (l ++ [h]) start len.
Proof. intros Hle Hr j Hj. rewrite lookup_app_l by lia. by apply Hr. Qed.

Lemma runs_ok_step l st h : runs_ok l st -> runs_ok (l ++ [h]) (run_step st h).
Proof.
  destruct st as [i [bs bl cs cl]]. unfold runs_ok; simpl.
  intros (-> & Hb & Hbr & Hc & Hcr).
  assert (is_run (l ++ [h]) bs bl) as Hbr' by by apply is_run_snoc.
  case_bool_decide as Hh; [|simpl; rewrite length_app; simpl; split_and!; auto with lia;
    intros j Hj; lia].
  set (s := if Nat.eqb cl 0 then length l else cs).
  assert (s + cl = length l)%nat as Hs by (unfold s; destruct (Nat.eqb_spec cl 0); lia).
  assert (is_run (l ++ [h]) s (S cl)) as Hsr.
  { intros j Hj. destruct (decide (j = length l)) as [->|].
    - rewrite lookup_app_r, Nat.sub_diag by lia. by subst h.
    - rewrite lookup_app_l by lia. unfold s in *. destruct (Nat.eqb_spec cl 0); [lia|].
      apply Hcr. lia. }
  destruct (Nat.ltb_spec bl (S cl)); simpl; rewrite length_app; simpl; split_and!; auto; lia.
Qed.

Lemma longest_run_ok l : is_run l (best_start (longest_run l)) (best_len (longest_run l))
  /\ (best_start (longest_run l) + best_len (longest_run l) <= length l)%nat.
Proof.
  assert (runs_ok l (foldl run_step (0%nat, Runs 0 0 0 0) l)) as H.
  { induction l as [|h l IH] using rev_ind.
    - simpl. split_and!; auto; intros j Hj; lia.
    - rewrite foldl_app. by apply runs_ok_step. }
  unfold longest_run. destruct (foldl run_step _ l) as [i r]; simpl in *.
  destruct H as (-> & ? & ? & _). done.
Qed.

(** A run splits the list around [n] zeros. *)
Lemma run_split l s n : is_run l s n -> (s + n <= length l)%nat ->
  l = take s l ++ replicate n zero_part ++ drop (s + n) l.
Proof.
  intros Hr Hle. apply list_eq. intros j.
  destruct (decide (j < s)%nat).
  { rewrite lookup_app_l by (rewrite length_take; lia). by rewrite lookup_take_lt. }
  rewrite lookup_app_r by (rewrite length_take; lia). rewrite length_take_le by lia.
  destruct (decide (j < s + n)%nat).
  { rewrite lookup_app_l by (rewrite length_replicate; lia).
    rewrite lookup_replicate_2 by lia. apply Hr. lia. }
  rewrite lookup_app_r by (rewrite length_replicate; lia).
  rewrite length_replicate, lookup_drop. f_equal. lia.
Qed.

(** *** Parsing a compressed form *)

Lemma filter_none {A} (P : A -> Prop) `{!forall x, Decision (P x)} l :
  Forall (fun x => ~ P x) l -> filter P l = [].
Proof.
  induction 1 as [|x l Hx Hl IH]; [done|]. by rewrite filter_cons_False.
Qed.

Lemma seq_in (a b x : nat) : In x (seq a b) -> (a <= x < a + b)%nat.
Proof. by rewrite in_seq. Qed.

Lemma skip_indices_one pre post :
  pre <> [] -> post <> [] -> Forall (fun p => p <> []) (drop 1 pre) ->
  Forall (fun p => p <> []) (take (length post - 1) post) ->
  skip_indices (pre ++ [] :: post) = [length pre].
Proof.
  intros Hpre Hpost Hp Hq. unfold skip_indices. rewrite length_app. simpl length.
  destruct pre as [|x pre]; [done|]. destruct post as [|y post]; [done|]. simpl length.
  replace (S (length pre) + S (S (length post)) - 2)%nat with (length pre + (1 + length post))%nat by lia.
  rewrite !seq_app, !filter_app. simpl seq.
  rewrite (filter_none _ (seq 1 (length pre))), (filter_none _ (seq _ (length post))).
  - simpl. rewrite filter_cons_True; [done|].
    rewrite app_comm_cons, lookup_app_r by (simpl; lia). simpl length. by rewrite Nat.sub_diag.
  - apply Forall_forall. intros i Hi%list_elem_of_In%seq_in.
    rewrite lookup_app_r by (simpl; lia). simpl length.
    replace (i - S (length pre))%nat with (S (i - S (S (length pre)))) by lia.
    change (([] :: y :: post) !! S (i - S (S (length pre)))) with ((y :: post) !! (i - S (S (length pre)))%nat).
    intros Hl. rewrite Forall_lookup in Hq. simpl in Hq. rewrite Nat.sub_0_r in Hq.
    eapply (Hq (i - S (S (length pre)))%nat []); [|done]. rewrite lookup_take_lt by lia. done.
  - apply Forall_forall. intros i Hi%list_elem_of_In%seq_in. intros Hl.
    rewrite lookup_app_l in Hl by (simpl; lia). rewrite Forall_lookup in Hp.
    eapply (Hp (i - 1)%nat []); [|done]. rewrite lookup_drop.
    by replace (1 + (i - 1))%nat with i by lia.
Qed.

Lemma skip_indices_none parts :
  Forall (fun p => p <> []) parts -> skip_indices parts = [].
Proof.
  intros H. apply filter_none, Forall_forall. intros i _ Hi.
  rewrite Forall_lookup in H. by eapply H.
Qed.

Lemma hex_parts_nonempty (l : list Z) : Forall (fun p => p <> []) (hex_chars <$> l).
Proof. apply Forall_fmap, Forall_true. intros z. apply hex_chars_nonempty. Qed.

Lemma is_empty_head l : Forall (fun p => p <> @nil ascii) l -> is_empty (l !! 0%nat) = false.
Proof. by destruct 1 as [|[] ? ?]. Qed.
Lemma is_empty_last l : Forall (fun p => p <> @nil ascii) l -> is_empty (last l) = false.
Proof.
  intros H. destruct (last l) as [[|]|] eqn:Hl; try done.
  apply last_Some_elem_of in Hl. rewrite Forall_forall in H. by apply H in Hl.
Qed.

(** The compressed printed form of [u ++ 0^n ++ v] parses to its value. *)
Lemma parse_compressed (u v : list Z) n :
  (2 <= n)%nat -> (length u + n + length v = 8)%nat ->
  Forall (fun h => 0 <= h < 65536) u -> Forall (fun h => 0 <= h < 65536) v ->
  parse_ipv6_parts
    ((if decide (u = []) then [[]] else hex_chars <$> u) ++ [] ::
     (if decide (v = []) then [[]] else hex_chars <$> v))
  = Some (hex_val 0 (u ++ replicate n 0 ++ v)).
Proof.
  intros Hn Hlen Hu Hv.
  set (pre := if decide (u = []) then [[]] else hex_chars <$> u).
  set (post := if decide (v = []) then [[]] else hex_chars <$> v).
  assert (skip_indices (pre ++ [] :: post) = [length pre]) as Hskip.
  { apply skip_indices_one; unfold pre, post.
    - destruct (decide (u = [])); [done|]. by destruct u.
    - destruct (decide (v = [])); [done|]. by destruct v.
    - destruct (decide (u = [])); [constructor|]. apply Forall_drop, hex_parts_nonempty.
    - destruct (decide (v = [])); [constructor|]. apply Forall_take, hex_parts_nonempty. }
  assert (is_empty ((pre ++ [] :: post) !! 0%nat) = bool_decide (u = [])) as Hhd.
  { unfold pre. destruct (decide (u = [])) as [->|Hne]; [done|].
    rewrite bool_decide_false by done. destruct u as [|h u]; [done|]. csimpl.
    pose proof (hex_chars_nonempty h). by destruct (hex_chars h). }
  assert (is_empty (last (pre ++ [] :: post)) = bool_decide (v = [])) as Hlast.
  { unfold post. destruct (decide (v = [])) as [->|Hne]; [by rewrite last_app|].
    rewrite bool_decide_false by done. destruct v as [|h v]; [done|].
    rewrite last_app_cons. change (is_empty (last (hex_chars <$> h :: v)) = false).
    apply is_empty_last, hex_parts_nonempty. }
  assert (length pre = if decide (u = []) then 1%nat else length u) as Hlp.
  { unfold pre. destruct (decide (u = [])); [done|]. by rewrite length_fmap. }
  assert (length post = if decide (v = []) then 1%nat else length v) as Hlq.
  { unfold post. destruct (decide (v = [])); [done|]. by rewrite length_fmap. }
  assert ((if is_empty ((pre ++ [] :: post) !! 0%nat) then (length pre - 1)%nat else length pre)
          = length u) as Hhi.
  { rewrite Hhd, Hlp. destruct (decide (u = [])) as [->|]; [done | by rewrite bool_decide_false]. }
  assert ((if is_empty (last (pre ++ [] :: post))
           then (length (pre ++ [] :: post) - length pre - 2)%nat
           else (length (pre ++ [] :: post) - length pre - 1)%nat) = length v) as Hlo.
  { rewrite Hlast, length_app. simpl length. rewrite Hlq.
    destruct (decide (v = [])) as [->|]; [simpl; lia | rewrite bool_decide_false by done; lia]. }
  assert (take (length u) (pre ++ [] :: post) = hex_chars <$> u) as Htake.
  { unfold pre. destruct (decide (u = [])) as [->|]; [done|]. by rewrite take_app_length' by by rewrite length_fmap. }
  assert (drop (length (pre ++ [] :: post) - length v) (pre ++ [] :: post) = hex_chars <$> v) as Hdrop.
  { unfold post. rewrite length_app. simpl length. destruct (decide (v = [])) as [->|].
    - simpl. rewrite drop_ge; [done|]. rewrite length_app. simpl. lia.
    - rewrite length_fmap. replace (length pre + S (length v) - length v)%nat with (length (pre ++ [[]])) by (rewrite length_app; simpl; lia).
      change ([] :: (hex_chars <$> v)) with ([[]] ++ (hex_chars <$> v)). rewrite app_assoc.
      by rewrite drop_app_length. }
  assert (length (pre ++ [] :: post) <= 9)%nat as Hn9.
  { rewrite length_app. simpl. rewrite Hlp, Hlq.
    destruct (decide (u = [])) as [->|], (decide (v = [])) as [->|]; simpl in *; lia. }
  unfold parse_ipv6_parts. rewrite Hskip. cbv zeta. rewrite Hhi, Hlo, Htake, Hdrop.
  destruct (Nat.ltb_spec 9 (length (pre ++ [] :: post))); [lia|].
  rewrite Hhd, Hlast.
  replace (bool_decide (u = []) && negb (length u =? 0)%nat) with false
    by (destruct u; by case_bool_decide).
  replace (bool_decide (v = []) && negb (length v =? 0)%nat) with false
    by (destruct v; by case_bool_decide).
  destruct (Nat.ltb_spec 7 (length u + length v)); [lia|].
  rewrite parse_hextets_print by done. simpl. rewrite parse_hextets_print by done.
  rewrite !hex_val_app, hex_val_zeros. do 2 f_equal. f_equal. f_equal. lia.
Qed.

Lemma hex_chars_zero h : 0 <= h -> hex_chars h = zero_part -> h = 0.
Proof. intros Hh He. rewrite <-(hex_chars_val h), He by done. reflexivity. Qed.

Lemma fmap_zero_run (l : list Z) s n :
  Forall (fun h => 0 <= h < 65536) l ->
  is_run (hex_chars <$> l) s n -> (s + n <= length l)%nat ->
  l = take s l ++ replicate n 0 ++ drop (s + n) l.
Proof.
  intros Hl Hr Hle. apply list_eq. intros j.
  destruct (decide (j < s)%nat).
  { rewrite lookup_app_l by (rewrite length_take; lia). by rewrite lookup_take_lt. }
  rewrite lookup_app_r by (rewrite length_take; lia). rewrite length_take_le by lia.
  destruct (decide (j < s + n)%nat).
  { rewrite lookup_app_l by (rewrite length_replicate; lia).
    rewrite lookup_replicate_2 by lia. specialize (Hr j ltac:(lia)).
    rewrite list_lookup_fmap in Hr. destruct (l !! j) as [h|] eqn:Hj; [|done].
    simpl in Hr. injection Hr as Hr. rewrite Forall_lookup in Hl. specialize (Hl _ _ Hj).
    by rewrite (hex_chars_zero h) by (done || lia). }
  rewrite lookup_app_r by (rewrite length_replicate; lia).
  rewrite length_replicate, lookup_drop. f_equal. lia.
Qed.

Lemma compress_shape (l : list Z) s n :
  best_start (longest_run (hex_chars <$> l)) = s ->
  best_len (longest_run (hex_chars <$> l)) = n -> (1 < n)%nat -> (s + n <= length l)%nat ->
  compress_hextets (hex_chars <$> l) =
    (if decide (take s l = []) then [[]] else hex_chars <$> take s l) ++ [] ::
    (if decide (drop (s + n) l = []) then [[]] else hex_chars <$> drop (s + n) l).
Proof.
  intros Hs Hn Hlt Hle. unfold compress_hextets. rewrite Hs, Hn, length_fmap.
  destruct (Nat.ltb_spec 1 n); [|lia]. simpl app at 2. f_equal; [|f_equal].
  - destruct (Nat.eqb_spec s 0) as [->|]; [done|].
    rewrite decide_False; [by rewrite fmap_take|]. destruct l; simpl in *; [lia|]. by destruct s.
  - destruct (Nat.eqb_spec (s + n) (length l)) as [He|].
    + rewrite decide_True; [done|]. apply drop_ge. lia.
    + rewrite decide_False; [by rewrite fmap_drop|]. intros Hd%(f_equal length).
      rewrite length_drop in Hd. simpl in Hd. lia.
Qed.

Lemma compress_no_colon (l : list Z) :
  Forall (fun h => 0 <= h < 65536) l -> Forall (fun p => colon ∉ p) (compress_hextets (hex_chars <$> l)).
Proof.
  intros Hl. assert (Forall (fun p => colon ∉ p) (hex_chars <$> l)) as Hp.
  { apply Forall_fmap. eapply Forall_impl; [done|]. intros h ?; simpl in *. apply hex_chars_not_in; [done|lia]. }
  assert (colon ∉ @nil ascii) by apply not_elem_of_nil.
  unfold compress_hextets. destruct (Nat.ltb 1 _); [|done].
  repeat apply Forall_app_2.
  - destruct (Nat.eqb _ 0); [by repeat constructor | by apply Forall_take].
  - by repeat constructor.
  - destruct (Nat.eqb _ _); [by repeat constructor | by apply Forall_drop].
Qed.

Lemma compress_parts_ok (l : list Z) :
  length l = 8%nat -> Forall (fun h => 0 <= h < 65536) l ->
  let parts := compress_hextets (hex_chars <$> l) in
  (3 <= length parts)%nat /\ expand_suffix parts = Some parts /\
  parse_ipv6_parts parts = Some (hex_val 0 l).
Proof.
  intros Hlen Hl parts.
  pose proof (longest_run_ok (hex_chars <$> l)) as [Hrun Hle]. rewrite length_fmap in Hle.
  assert (Forall (fun p => dot ∉ p) parts) as Hdot.
  { assert (Forall (fun p => dot ∉ p) (hex_chars <$> l)) as Hp.
    { apply Forall_fmap. eapply Forall_impl; [done|]. intros h ?; simpl in *. apply hex_chars_not_in; [done|lia]. }
    assert (dot ∉ @nil ascii) by apply not_elem_of_nil.
    unfold parts, compress_hextets. destruct (Nat.ltb 1 _); [|done].
    repeat apply Forall_app_2.
    - destruct (Nat.eqb _ 0); [by repeat constructor | by apply Forall_take].
    - by repeat constructor.
    - destruct (Nat.eqb _ _); [by repeat constructor | by apply Forall_drop]. }
  split_and!.
  - unfold parts. destruct (Nat.ltb_spec 1 (best_len (longest_run (hex_chars <$> l)))).
    + erewrite compress_shape by done. rewrite length_app. simpl.
      do 2 case_decide; simpl; rewrite ?length_fmap; try lia.
      * destruct (drop _ l); [done|]. simpl. lia.
      * destruct (take _ l); [done|]. simpl. lia.
      * destruct (take _ l), (drop _ l); try done. simpl. lia.
    + unfold compress_hextets. destruct (Nat.ltb_spec 1 (best_len (longest_run (hex_chars <$> l)))); [lia|].
      rewrite length_fmap. lia.
  - unfold expand_suffix. destruct (last parts) as [p|] eqn:Hp; [|done].
    apply last_Some_elem_of in Hp. rewrite Forall_forall in Hdot.
    by rewrite bool_decide_false by by apply Hdot.
  - unfold parts. destruct (Nat.ltb_spec 1 (best_len (longest_run (hex_chars <$> l)))) as [Hlt|Hge].
    + erewrite compress_shape by done.
      rewrite (parse_compressed _ _ (best_len (longest_run (hex_chars <$> l)))).
      * by rewrite <-fmap_zero_run.
      * lia.
      * rewrite length_take_le, length_drop by lia. lia.
      * by apply Forall_take.
      * by apply Forall_drop.
    + unfold compress_hextets. destruct (Nat.ltb_spec 1 (best_len (longest_run (hex_chars <$> l)))); [lia|].
      unfold parse_ipv6_parts. rewrite skip_indices_none by apply hex_parts_nonempty.
      rewrite length_fmap, Hlen. simpl.
      rewrite is_empty_head, is_empty_last by apply hex_parts_nonempty.
      by rewrite parse_hextets_print.
Qed.

Lemma parse_ipv6_chars_print z : 0 <= z < 2 ^ 128 -> parse_ipv6_chars (ipv6_chars z) = Some z.
Proof.
  intros Hz. set (l := hextets_of 8 z).
  assert (length l = 8%nat) as Hlen by exact (hextets_of_length 8 z).
  assert (Forall (fun h => 0 <= h < 65536) l) as Hl by exact (hextets_of_range 8 z).
  destruct (compress_parts_ok l Hlen Hl) as (H3 & Hs & Hp).
  assert (split_chars colon (ipv6_chars z) = compress_hextets (hex_chars <$> l)) as Hsplit.
  { apply split_join_chars; [|by apply compress_no_colon].
    fold l. intros He. rewrite He in H3. simpl in H3. lia. }
  unfold parse_ipv6_chars. destruct (ipv6_chars z) as [|c cs] eqn:Hc.
  { rewrite <-Hsplit in H3. simpl in H3. lia. }
  rewrite Hsplit. destruct (Nat.ltb_spec (length (compress_hextets (hex_chars <$> l))) 3); [lia|].
  rewrite Hs. cbn [mbind option_bind]. rewrite Hp. f_equal. by apply hextets_of_val.
Qed.

Definition plain (a : ipaddr) : Prop := ip_wf a /\ ip_scope a = None.

Lemma ipv6_chars_shape z : 0 <= z < 2 ^ 128 ->
  Forall (fun c => is_hex_lower c = true \/ c = colon) (ipv6_chars z).
Proof.
  intros Hz. unfold ipv6_chars.
  assert (forall l, Forall (Forall (fun c => is_hex_lower c = true \/ c = colon)) l ->
    Forall (fun c => is_hex_lower c = true \/ c = colon) (join_chars colon l)) as Hjoin.
  { intros l. induction 1 as [|p l Hp Hl IH]; [constructor|].
    destruct l as [|q l]; [done|]. apply Forall_app; split; [done|]. constructor; [by right|done]. }
  apply Hjoin. assert (Forall (Forall (fun c => is_hex_lower c = true \/ c = colon))
    (hex_chars <$> hextets_of 8 z)) as Hp.
  { apply Forall_fmap. eapply Forall_impl; [apply hextets_of_range|]. intros h ?; simpl in *.
    eapply Forall_impl; [apply hex_chars_hex; lia|]. auto. }
  unfold compress_hextets. destruct (Nat.ltb 1 _); [|done].
  repeat apply Forall_app_2.
  - destruct (Nat.eqb _ 0); [by repeat constructor | by apply Forall_take].
  - by repeat constructor.
  - destruct (Nat.eqb _ _); [by repeat constructor | by apply Forall_drop].
Qed.

Lemma ipv4_chars_shape z : 0 <= z < 2 ^ 32 ->
  Forall (fun c => is_digit c = true \/ c = dot) (ipv4_chars z).
Proof.
  intros Hz. pose proof (octets_range z Hz) as Ho. unfold ipv4_chars, octets in *.
  repeat (apply Forall_cons in Ho as [? Ho]).
  assert (forall o, 0 <= o < 256 -> Forall (fun c => is_digit c = true \/ c = dot) (dec_chars o)) as Hd.
  { intros o ?. eapply Forall_impl; [apply dec_chars_digits; lia|]. auto. }
  cbn [fmap list_fmap join_chars].
  repeat (apply Forall_app_2; [by apply Hd|apply Forall_cons_2; [by right|]]). by apply Hd.
Qed.

Lemma parse_ipv4_chars_shape l z : parse_ipv4_chars l = Some z -> dot ∈ l.
Proof.
  unfold parse_ipv4_chars. intros H. destruct (decide (dot ∈ l)) as [|Hn]; [done|].
  by rewrite split_chars_none in H.
Qed.

Lemma partition_chars_none c l : c ∉ l -> partition_chars c l = (l, false, []).
Proof.
  induction l as [|d l IH]; simpl; [done|]. intros [Hd Hl]%not_elem_of_cons.
  rewrite decide_False by congruence. by rewrite IH.
Qed.

(** [ip_address(str(a)) == a] for every address without scope. *)
Lemma ip_str_parse a : plain a -> ip_address (ip_str a) = Some a.
Proof.
  destruct a as [v z sc]. intros [[Hz _] Hsc]. cbn [ip_ver ip_int ip_scope] in *. subst sc.
  unfold ip_address, ip_str. destruct v; cbn [ip_ver ip_int ip_scope ip_width] in *.
  - unfold parse_ipv4, contains_char. rewrite chars_of_chars, bool_decide_false.
    + by rewrite parse_ipv4_chars_print.
    + intros Hin. pose proof (ipv4_chars_shape z Hz) as H. rewrite Forall_forall in H.
      by destruct (H _ Hin).
  - rewrite app_nil_r. pose proof (ipv6_chars_shape z Hz) as H. rewrite Forall_forall in H.
    assert (forall c, is_hex_lower c = false -> c <> colon -> c ∉ ipv6_chars z) as Hnot.
    { intros c Hc Hne Hin. destruct (H _ Hin); congruence. }
    unfold parse_ipv4, parse_ipv6, contains_char. rewrite chars_of_chars.
    rewrite bool_decide_false by by apply Hnot.
    destruct (parse_ipv4_chars (ipv6_chars z)) as [z'|] eqn:H4.
    { apply parse_ipv4_chars_shape in H4. by apply Hnot in H4. }
    cbn [mbind option_bind]. rewrite partition_chars_none by by apply Hnot.
    cbn [andb]. by rewrite parse_ipv6_chars_print.
Qed.

Lemma ip_str_inj a b : plain a -> plain b -> ip_str a = ip_str b -> a = b.
Proof.
  intros Ha Hb H. apply ip_str_parse in Ha, Hb. rewrite H in Ha. congruence.
Qed.

(** ** Parsed addresses are well formed *)

Lemma parse_octet_range l z : parse_octet l = Some z -> 0 <= z < 256.
Proof.
  unfold parse_octet. destruct l as [|c l]; [done|].
  destruct (negb (forallb is_digit (c :: l))); [done|].
  destruct (Nat.ltb 3 _); [done|]. destruct (_ && _); [done|].
  destruct (Z.ltb_spec 255 (digits_val 10 (c :: l))); [done|]. intros [= <-].
  split; [|lia]. apply digits_val_nonneg; lia.
Qed.

Lemma parse_ipv4_chars_range l z : parse_ipv4_chars l = Some z -> 0 <= z < 2 ^ 32.
Proof.
  unfold parse_ipv4_chars. intros H. destruct (split_chars dot l) as [|a [|b [|c [|d []]]]]; try done.
  repeat match type of H with
  | (parse_octet ?p ≫= _) = Some _ =>
      let Hp := fresh "Hp" in destruct (parse_octet p) eqn:Hp; [|done]; simpl in H;
      apply parse_octet_range in Hp
  end.
  injection H as <-. change (2 ^ 32) with 4294967296. lia.
Qed.

Lemma digits_val_lt base l : 1 < base ->
  Forall (fun c => digit_val c < base) l -> digits_val base l < base ^ Z.of_nat (length l).
Proof.
  intros Hb. induction l as [|c l IH] using rev_ind; intros Hl; [done|].
  apply Forall_app in Hl as [Hl Hc]. apply Forall_cons in Hc as [Hc _].
  rewrite length_app. simpl. replace (Z.of_nat (length l + 1)) with (Z.succ (Z.of_nat (length l))) by lia.
  rewrite Z.pow_succ_r by lia. specialize (IH Hl).
  unfold digits_val in *. rewrite foldl_app. simpl. nia.
Qed.

Lemma digit_val_hex c : digit_val c < 16.
Proof. unfold digit_val, is_digit, between. repeat case_match; bprop; lia. Qed.

Lemma parse_hextet_range l z : parse_hextet l = Some z -> 0 <= z < 65536.
Proof.
  unfold parse_hextet. destruct (negb _); [done|].
  destruct (Nat.ltb_spec 4 (length l)); [done|]. destruct l as [|c l]; [done|].
  intros [= <-]. split; [apply digits_val_nonneg; lia|].
  eapply Z.lt_le_trans; [apply digits_val_lt; [lia|]|].
  - apply Forall_true. apply digit_val_hex.
  - change 65536 with (16 ^ 4). apply Z.pow_le_mono_r; lia.
Qed.

Lemma parse_hextets_None l : parse_hextets None l = None.
Proof. unfold parse_hextets. induction l; [done|]. by simpl. Qed.

Lemma parse_hextets_range a l z :
  0 <= a -> parse_hextets (Some a) l = Some z ->
  a * 65536 ^ Z.of_nat (length l) <= z < (a + 1) * 65536 ^ Z.of_nat (length l).
Proof.
  revert a. induction l as [|p l IH]; intros a Ha H.
  - injection H as <-. change (65536 ^ Z.of_nat (length [])) with 1. lia.
  - unfold parse_hextets in H. cbn [foldl mbind option_bind] in H.
    destruct (parse_hextet p) as [h|] eqn:Hp; cbn [mbind option_bind] in H.
    + apply parse_hextet_range in Hp. apply IH in H; [|lia]. simpl length.
      rewrite Nat2Z.inj_succ, Z.pow_succ_r by lia. nia.
    + change (parse_hextets None l = Some z) in H. by rewrite parse_hextets_None in H.
Qed.

Lemma parse_ipv6_parts_range parts z : parse_ipv6_parts parts = Some z -> 0 <= z < 2 ^ 128.
Proof.
  unfold parse_ipv6_parts. set (n := length parts).
  destruct (Nat.ltb_spec 9 n); [done|]. destruct (skip_indices parts) as [|k [|? ?]]; [| |done].
  - destruct (Nat.eqb_spec n 8) as [Hn|]; [|done]. simpl.
    destruct (is_empty _); [done|]. destruct (is_empty _); [done|].
    intros Hr%parse_hextets_range; [|lia]. subst n. rewrite Hn in Hr.
    change (65536 ^ Z.of_nat 8) with (2 ^ 128) in Hr. lia.
  - set (hi := if is_empty (parts !! 0%nat) then (k - 1)%nat else k).
    set (lo := if is_empty (last parts) then (n - k - 2)%nat else (n - k - 1)%nat).
    destruct (_ && _); [done|]. destruct (_ && _); [done|].
    destruct (Nat.ltb_spec 7 (hi + lo)) as [|Hle]; [done|].
    destruct (parse_hextets (Some 0) (take hi parts)) as [h|] eqn:Hh; [|done].
    cbn [mbind option_bind]. intros Hr.
    apply parse_hextets_range in Hh; [|lia].
    assert (0 <= h * 65536 ^ Z.of_nat (8 - (hi + lo))) by lia.
    apply parse_hextets_range in Hr; [|done].
    assert (65536 ^ Z.of_nat (length (take hi parts)) <= 65536 ^ Z.of_nat hi) as Hp1.
    { apply Z.pow_le_mono_r; [lia|]. rewrite length_take. lia. }
    assert (65536 ^ Z.of_nat (length (drop (n - lo) parts)) <= 65536 ^ Z.of_nat lo) as Hp2.
    { apply Z.pow_le_mono_r; [lia|]. rewrite length_drop. lia. }
    assert (65536 ^ Z.of_nat hi * 65536 ^ Z.of_nat (8 - (hi + lo)) * 65536 ^ Z.of_nat lo = 2 ^ 128) as Hp.
    { rewrite <-!Z.pow_add_r by lia. change (2 ^ 128) with (65536 ^ 8). f_equal. lia. }
    assert (65536 ^ Z.of_nat (8 - (hi + lo)) = 65536 * 65536 ^ Z.of_nat (7 - (hi + lo))) as Hs.
    { rewrite <-Z.pow_succ_r by lia. f_equal. lia. }
    assert (0 < 65536 ^ Z.of_nat (7 - (hi + lo))) by (apply Z.pow_pos_nonneg; lia).
    assert (0 < 65536 ^ Z.of_nat lo) by (apply Z.pow_pos_nonneg; lia).
    assert (0 < 65536 ^ Z.of_nat (length (drop (n - lo) parts))) by (apply Z.pow_pos_nonneg; lia).
    split; [nia|]. assert (h < 65536 ^ Z.of_nat hi) by lia.
    set (A := 65536 ^ Z.of_nat hi) in *. set (B := 65536 ^ Z.of_nat (8 - (hi + lo))) in *.
    set (C := 65536 ^ Z.of_nat lo) in *. set (D := 65536 ^ Z.of_nat (length (drop (n - lo) parts))) in *.
    assert (0 < B) by lia. assert (h * B + 1 <= A * B) by nia. rewrite <-Hp.
    eapply Z.lt_le_trans; [apply Hr|]. transitivity ((h * B + 1) * C); [nia|].
    by apply Z.mul_le_mono_nonneg_r; [lia|].
Qed.

Lemma parse_ipv4_wf s a : parse_ipv4 s = Some a -> ip_wf a /\ ip_ver a = V4 /\ ip_scope a = None.
Proof.
  unfold parse_ipv4. destruct (contains_char "/" s); [done|].
  destruct (parse_ipv4_chars (chars s)) as [z|] eqn:H4; [|done]. intros [= <-].
  split; [|done]. split; [|done]. by apply parse_ipv4_chars_range in H4.
Qed.

Lemma parse_ipv6_wf s a : parse_ipv6 s = Some a -> ip_wf a /\ ip_ver a = V6.
Proof.
  unfold parse_ipv6. destruct (contains_char "/" s); [done|].
  destruct (partition_chars "%"%char (chars s)) as [[addr sep] scope]. destruct (_ && _); [done|].
  destruct (parse_ipv6_chars addr) as [z|] eqn:H6; [|done]. intros [= <-].
  split; [|done]. split; [|done]. unfold parse_ipv6_chars in H6. destruct addr as [|c addr]; [done|].
  destruct (Nat.ltb _ 3); [done|]. destruct (expand_suffix _); [|done].
  by apply parse_ipv6_parts_range in H6.
Qed.

Lemma ip_address_wf s a : ip_address s = Some a -> ip_wf a.
Proof.
  unfold ip_address. destruct (parse_ipv4 s) as [b|] eqn:H4.
  - intros [= ->]. by apply parse_ipv4_wf in H4 as [? _].
  - by intros [? _]%parse_ipv6_wf.
Qed.

Lemma ip_address_noscope s a :
  ip_address s = Some a -> contains_char "%" s = false -> plain a.
Proof.
  intros H Hs. split; [by eapply ip_address_wf|]. unfold contains_char in Hs. bprop.
  unfold ip_address, parse_ipv4, parse_ipv6 in H. destruct (contains_char "/" s); [done|].
  destruct (parse_ipv4_chars (chars s)); cbn [mbind option_bind] in H; [by injection H as <-|].
  rewrite partition_chars_none in H by done. simpl in H.
  destruct (parse_ipv6_chars (chars s)); [|done]. by injection H as <-.
Qed.

Lemma mapped_plain a m : ipv4_mapped a = Some m -> plain m.
Proof.
  unfold ipv4_mapped. destruct (ip_ver a); [done|]. destruct (_ =? _); [|done].
  intros [= <-]. split; [|done]. split; [|done]. by apply Z.mod_pos_bound.
Qed.

#[export] Hint Resolve ip_address_wf ip_address_noscope mapped_plain : ipaddr.

(** ** Networks are ranges *)

Lemma land_netmask v len x :
  0 <= x < 2 ^ ip_width v -> 0 <= len <= ip_width v ->
  Z.land x (netmask v len) = x / 2 ^ (ip_width v - len) * 2 ^ (ip_width v - len).
Proof.
  intros Hx Hl. set (k := ip_width v - len). assert (0 <= k) by lia.
  rewrite <-Z.shiftr_div_pow2, <-Z.shiftl_mul_pow2 by lia.
  apply Z.bits_inj'. intros i Hi.
  rewrite Z.land_spec, Z.shiftl_spec by lia. unfold netmask. fold k. rewrite Z.lxor_spec.
  assert (0 <= ip_width v) by lia.
  destruct (Z.ltb_spec i (ip_width v)) as [Hiw|Hiw].
  - rewrite (Z.ones_spec_low (ip_width v)) by lia. destruct (Z.ltb_spec i k) as [Hik|Hik].
    + rewrite Z.ones_spec_low by lia. rewrite (Z.testbit_neg_r _ (i - k)) by lia. by rewrite andb_false_r.
    + rewrite Z.ones_spec_high by lia. rewrite Z.shiftr_spec by lia.
      rewrite andb_true_r. f_equal. lia.
  - assert (Z.testbit x i = false) as ->.
    { destruct (Z.eq_dec x 0) as [->|]; [apply Z.testbit_0_l|].
      apply Z.bits_above_log2; [lia|]. apply Z.log2_lt_pow2; [lia|].
      eapply Z.lt_le_trans; [apply Hx|]. apply Z.pow_le_mono_r; lia. }
    simpl. symmetry. destruct (Z.ltb_spec i k); [by rewrite Z.testbit_neg_r by lia|].
    rewrite Z.shiftr_spec by lia. destruct (Z.eq_dec x 0) as [->|]; [apply Z.testbit_0_l|].
    apply Z.bits_above_log2; [lia|]. apply Z.log2_lt_pow2; [lia|].
    eapply Z.lt_le_trans; [apply Hx|]. apply Z.pow_le_mono_r; lia.
Qed.

(** The host part of the base address is zero. *)
Definition net_aligned (n : ipnet) : bool :=
  (0 <=? net_len n) && (net_len n <=? ip_width (net_ver n))
  && (net_base n mod 2 ^ (ip_width (net_ver n) - net_len n) =? 0).

Definition in_range (n : ipnet) (a : ipaddr) : Prop :=
  ip_ver a = net_ver n /\
  net_base n <= ip_int a < net_base n + 2 ^ (ip_width (net_ver n) - net_len n).

Lemma in_net_range n a :
  ip_wf a -> net_aligned n = true -> in_net n a = true <-> in_range n a.
Proof.
  intros [Ha _] Hn. unfold net_aligned in Hn. rewrite !andb_true_iff in Hn.
  destruct Hn as [[Hl1 Hl2] Hmod]. bprop. unfold in_net, in_range.
  rewrite andb_true_iff, bool_decide_eq_true, Z.eqb_eq.
  split; intros [Hv H]; (split; [done|]); rewrite Hv in Ha.
  - rewrite land_netmask in H by lia.
    set (k := 2 ^ (ip_width (net_ver n) - net_len n)) in *.
    assert (0 < k) by (apply Z.pow_pos_nonneg; lia).
    pose proof (Z.div_mod (ip_int a) k). pose proof (Z.mod_pos_bound (ip_int a) k). lia.
  - rewrite land_netmask by lia.
    set (k := 2 ^ (ip_width (net_ver n) - net_len n)) in *.
    assert (0 < k) by (apply Z.pow_pos_nonneg; lia).
    apply Z.mod_divide in Hmod as [q Hq]; [|lia]. rewrite Hq in *.
    assert (ip_int a / k = q) as ->; [|done].
    symmetry. apply Z.div_unique with (ip_int a - k * q); lia.
Qed.
