(* ===== verification/DestinationPolicy.v ===== *)
(** * The recipient address policy

    [scripts/transport_destination_policy.py]: the canonical form of an address
    or a name, the denied prefixes, the owned-address management rule and the
    deterministic candidate order.  Nothing here resolves or dials. *)

From S2P Require Import Prelude PyValue PyStr IPAddr.
From stdpp Require Import sorting.
#[local] Open Scope Z_scope.

Definition IPV4_DENY : list ipnet :=
  [net4 0 0 0 0 8; net4 10 0 0 0 8; net4 100 64 0 0 10; net4 127 0 0 0 8;
   net4 169 254 0 0 16; net4 172 16 0 0 12; net4 192 168 0 0 16; net4 198 18 0 0 15;
   net4 224 0 0 0 4; net4 240 0 0 0 4].
Definition IPV6_DENY : list ipnet :=
  [net6 [0] 128; net6 [0;0;0;0;0;0;0;1] 128; net6 [0x64;0xff9b] 96; net6 [0x2002] 16;
   net6 [0xfc00] 7; net6 [0xfe80] 10; net6 [0xff00] 8].
Definition LOCAL_DNS_FORWARDER : string := "127.0.0.2".
Definition NETWORKS : list ipnet := IPV4_DENY ++ IPV6_DENY.

Definition policy_error (m : string) : exn := Exn PolicyError m.

(** [normalize_address] *)
Definition normalize_address (v : value) : res ipaddr :=
  match v with
  | VStr s =>
      if (45 <? py_len s) || contains_char "%" s then Raise (policy_error "invalid-address")
      else
        let* a := of_option (ip_address s) (policy_error "invalid-address") in
        Ok (default a (ipv4_mapped a))
  | _ => Raise (policy_error "invalid-address")
  end.

Definition normalize_str (s : string) : res ipaddr := normalize_address (VStr s).

Section Names.
(** The Unicode branch of the codec (lower case, IDNA 2003 encoding, check
    that decoding gives the request back) for names that are not ASCII;
    [None] is the refusal. *)
Variable idna_label : string -> option string.

(** The codec's fast path on ASCII names: label lengths only. *)
Definition idna_ascii (s : string) : option string :=
  if bool_decide (s = ""%string) then Some s else
  let labels := split_chars dot (chars s) in
  if forallb (fun l => negb (bool_decide (l = [])) && Nat.ltb (length l) 64)
       (take (length labels - 1) labels)
     && match last labels with Some l => Nat.ltb (length l) 64 | None => true end
  then Some s else None.

Definition label_ok (l : list ascii) : bool :=
  match l with
  | [] => false
  | c :: _ =>
      Nat.leb (length l) 63 && negb (bool_decide (c = "-"%char))
      && negb (bool_decide (last l = Some "-"%char))
      && forallb (fun c => is_alnum c || one_of "-_" c) l
  end.

Definition canonical_name (v : value) : res string :=
  match v with
  | VStr s =>
      raise_if (bool_decide (s = ""%string) || (254 <? py_len s)) (policy_error "invalid-name") ;;;
      let requested := rstrip (fun c => bool_decide (c = dot)) s in
      let* name :=
        of_option (if is_ascii s then lower <$> idna_ascii (lower requested) else idna_label s)
          (policy_error "invalid-name") in
      raise_if ((253 <? py_len name) || endswith s "..") (policy_error "invalid-name") ;;;
      raise_if (negb (forallb label_ok (split_chars dot (chars name)))) (policy_error "invalid-name") ;;;
      Ok (of_chars (chars name ++ [dot]))
  | _ => Raise (policy_error "invalid-name")
  end.
End Names.

(** ** The policy object *)

Record policy := Policy {
  pol_owned : list string;
  pol_tcp : list Z;
  pol_udp : list Z;
}.

(** [DestinationPolicy.__init__] *)
Definition make_policy (owned : list value) (tcp udp : list Z) : res policy :=
  let* o := mapM_res normalize_address owned in
  Ok (Policy (ip_str <$> o) tcp udp).

Definition management (p : policy) (network : string) : option (list Z) :=
  if bool_decide (network = "tcp"%string) then Some (pol_tcp p)
  else if bool_decide (network = "udp"%string) then Some (pol_udp p)
  else None.

Definition denied (a : ipaddr) : bool := existsb (fun n => in_net n a) NETWORKS.

(** [DestinationPolicy.allows] *)
Definition allows (p : policy) (address : string) (port : value) (network : string) : res bool :=
  match management p network with
  | None => Ok false
  | Some ports =>
      if negb (type_is_int port) || negb ((1 <=? int_of port) && (int_of port <=? 65535))
      then Ok false
      else
        let* a := normalize_str address in
        if denied a then Ok false
        else Ok (negb (mem (ip_str a) (pol_owned p)
                       && bool_decide (int_of port ∈ ports)))
  end.

Definition ip_le (a b : ipaddr) : Prop := ip_int a <= ip_int b.
#[global] Instance ip_le_dec : RelDecision ip_le.
Proof. intros a b. unfold ip_le. apply _. Defined.
#[global] Instance ip_le_total : Total ip_le.
Proof. intros a b. unfold ip_le. lia. Qed.
#[global] Instance ip_le_trans : Transitive ip_le.
Proof. intros a b c. unfold ip_le. lia. Qed.

(** [for pair in zip_longest(ipv4, ipv6) for value in pair if value is not None] *)
Fixpoint interleave {A} (l k : list A) : list A :=
  match l, k with
  | [], k => k
  | l, [] => l
  | x :: l, y :: k => x :: y :: interleave l k
  end.

Fixpoint filterM_res {A} (f : A -> res bool) (l : list A) : res (list A) :=
  match l with
  | [] => Ok []
  | x :: l =>
      let* b := f x in
      let* r := filterM_res f l in
      Ok (if b then x :: r else r)
  end.

Definition by_version (v : ipver) (l : list ipaddr) : list ipaddr :=
  merge_sort ip_le (filter (fun a => ip_ver a = v) l).

(** [DestinationPolicy.admitted_candidates] *)
Definition admitted_candidates (p : policy) (addresses : list value) (port : value) (network : string)
    : res (list string) :=
  let* all := mapM_res normalize_address addresses in
  let* candidates := filterM_res (fun a => allows p (ip_str a) port network) (remove_dups all) in
  match candidates with
  | [] => Raise (policy_error "destination-denied")
  | _ => Ok (ip_str <$> interleave (by_version V4 candidates) (by_version V6 candidates))
  end.

(** ** Normalisation *)

Lemma normalize_Ok v a :
  normalize_address v = Ok a ->
  plain a /\ ipv4_mapped a = None /\
  exists s b, v = VStr s /\ ip_address s = Some b /\ a = default b (ipv4_mapped b).
Proof.
  destruct v as [| | | |s| |]; simpl; try done.
  destruct (_ || _) eqn:Hg; [done|]. bprop.
  intros (b & Hb & [= <-])%res_bind_Ok. apply of_option_Ok in Hb.
  assert (plain b) as Hp by eauto with ipaddr.
  split_and!.
  - destruct (ipv4_mapped b) eqn:Hm; [eauto with ipaddr | done].
  - destruct (ipv4_mapped b) as [m|] eqn:Hm; [|done]. simpl.
    unfold ipv4_mapped in Hm. destruct (ip_ver b); [done|]. destruct (_ =? _); [|done].
    by injection Hm as <-.
  - eauto.
Qed.

Lemma py_len_le_chars s : 0 <= py_len s <= Z.of_nat (length (chars s)).
Proof. unfold py_len. split; [lia|]. apply Nat2Z.inj_le, length_filter. Qed.

Lemma join_chars_length c l n : Forall (fun p => (length p <= n)%nat) l ->
  (length (join_chars c l) <= length l * S n)%nat.
Proof.
  induction 1 as [|p l Hp Hl IH]; [done|].
  destruct l as [|q l]; simpl in *; [lia|]. rewrite length_app. simpl. lia.
Qed.

Lemma compress_length l : (length (compress_hextets l) <= S (length l))%nat.
Proof.
  pose proof (longest_run_ok l) as [_ Hr]. unfold compress_hextets.
  destruct (Nat.ltb_spec 1 (best_len (longest_run l))); [|lia].
  rewrite !length_app.
  destruct (Nat.eqb_spec (best_start (longest_run l)) 0);
    destruct (Nat.eqb_spec (best_start (longest_run l) + best_len (longest_run l)) (length l));
    rewrite ?length_take, ?length_drop; simpl; lia.
Qed.

Lemma ip_str_short a : plain a -> py_len (ip_str a) <= 45.
Proof.
  intros [[Hz _] Hsc]. pose proof (py_len_le_chars (ip_str a)) as H.
  enough (length (chars (ip_str a)) <= 45)%nat by lia. clear H.
  unfold ip_str. destruct a as [[] z sc]; cbn [ip_ver ip_int ip_scope ip_width] in *; subst.
  - rewrite chars_of_chars. unfold ipv4_chars.
    etrans; [apply (join_chars_length _ _ 3)|].
    + pose proof (octets_range z Hz) as Ho. apply Forall_fmap.
      eapply Forall_impl; [done|]. intros o Ho'. simpl in *.
      apply to_digits_length; [lia|lia|]. change (10 ^ Z.of_nat 3) with 1000. lia.
    + rewrite length_fmap. change (length (octets z)) with 4%nat. lia.
  - rewrite app_nil_r, chars_of_chars. unfold ipv6_chars.
    assert (Forall (fun p => (length p <= 4)%nat) (hex_chars <$> hextets_of 8 z)) as Hp.
    { apply Forall_fmap. eapply Forall_impl; [apply hextets_of_range|].
      intros h ?. by apply hex_chars_length. }
    assert (length (hex_chars <$> hextets_of 8 z) = 8%nat) as Hl
      by (rewrite length_fmap; apply hextets_of_length).
    etrans; [apply (join_chars_length _ _ 4)|].
    + unfold compress_hextets. destruct (Nat.ltb 1 _); [|done]. repeat apply Forall_app_2.
      * destruct (Nat.eqb _ 0); [repeat constructor; simpl; lia | by apply Forall_take].
      * repeat constructor; simpl; lia.
      * destruct (Nat.eqb _ _); [repeat constructor; simpl; lia | by apply Forall_drop].
    + pose proof (compress_length (hex_chars <$> hextets_of 8 z)) as Hc. rewrite Hl in Hc.
      revert Hc. generalize (length (compress_hextets (hex_chars <$> hextets_of 8 z))). lia.
Qed.

Lemma ip_str_no_percent a : plain a -> contains_char "%" (ip_str a) = false.
Proof.
  intros [[Hz _] Hsc]. unfold contains_char. apply bool_decide_eq_false.
  unfold ip_str. destruct a as [[] z sc]; cbn [ip_ver ip_int ip_scope ip_width] in *; subst.
  - rewrite chars_of_chars. intros Hin. pose proof (ipv4_chars_shape z Hz) as H.
    rewrite Forall_forall in H. by destruct (H _ Hin).
  - rewrite app_nil_r, chars_of_chars. intros Hin. pose proof (ipv6_chars_shape z Hz) as H.
    rewrite Forall_forall in H. by destruct (H _ Hin).
Qed.

(** Normalising the printed form of an address gives its effective address. *)
Lemma normalize_ip_str a : plain a -> normalize_str (ip_str a) = Ok (effective a).
Proof.
  intros Ha. unfold normalize_str, normalize_address.
  rewrite ip_str_no_percent by done. pose proof (ip_str_short a Ha).
  destruct (Z.ltb_spec 45 (py_len (ip_str a))); [lia|]. simpl.
  by rewrite ip_str_parse.
Qed.

Lemma normalize_str_plain s a : normalize_str s = Ok a -> plain a /\ ipv4_mapped a = None.
Proof. intros H. by apply (normalize_Ok (VStr s)) in H as (? & ? & _). Qed.

Lemma normalize_str_wf s a : normalize_str s = Ok a -> ip_wf a.
Proof. by intros [[? _] _]%normalize_str_plain. Qed.

Lemma effective_id a : ipv4_mapped a = None -> effective a = a.
Proof. unfold effective. by intros ->. Qed.

#[export] Hint Resolve ip_str_short ip_str_no_percent : ipaddr.

(** ** Admission *)

Lemma networks_aligned : forallb net_aligned NETWORKS = true.
Proof. vm_compute. reflexivity. Qed.

Lemma denied_ranges a : ip_wf a ->
  denied a = false <-> forall n, n ∈ NETWORKS -> ~ in_range n a.
Proof.
  intros Ha. unfold denied. rewrite existsb_false, Forall_forall.
  pose proof networks_aligned as Hal. rewrite forallb_true, Forall_forall in Hal.
  split; intros H n Hn.
  - rewrite <-in_net_range by auto. rewrite H by done. done.
  - apply not_true_is_false. rewrite in_net_range by auto. by apply H.
Qed.

(** The textual inputs the policy accepts: bounded, without scope. *)
Definition address_text (s : string) (a : ipaddr) : Prop :=
  py_len s <= 45 /\ contains_char "%" s = false /\
  exists b, ip_address s = Some b /\ a = effective b.

Lemma normalize_str_iff s a : normalize_str s = Ok a <-> address_text s a.
Proof.
  unfold normalize_str, address_text, normalize_address, effective.
  destruct (Z.ltb_spec 45 (py_len s)) as [Hl|Hl]; simpl; [split; [done|lia]|].
  destruct (contains_char "%" s); [split; [done|by intros (_ & ? & _)]|].
  rewrite res_bind_Ok. setoid_rewrite of_option_Ok. split.
  - intros (b & Hb & [= <-]). split_and!; eauto.
  - intros (_ & _ & b & Hb & ->). eauto.
Qed.

(** C5: an address string is admitted for a transport and a port exactly when
    it is a bounded scope-free literal whose effective (IPv4-mapped forms
    unwrapped) address lies outside every denied prefix range, the port is a
    proper [int] in 1..65535, and the pair does not target a management port of
    an owned address. *)
Theorem allows_true_iff p s port network :
  allows p s port network = Ok true <->
  exists ports z a,
    management p network = Some ports /\ port = VInt z /\ 1 <= z <= 65535 /\
    address_text s a /\ (forall n, n ∈ NETWORKS -> ~ in_range n a) /\
    ~ (ip_str a ∈ pol_owned p /\ z ∈ ports).
Proof.
  unfold allows. split.
  - destruct (management p network) as [ports|]; [|done].
    destruct (_ || _) eqn:Hp; [done|]. bprop. apply type_is_int_true in H as [z ->].
    simpl in *. intros (a & Ha & Hd)%res_bind_Ok.
    assert (ip_wf a) as Hwf by by eauto using normalize_str_wf.
    apply normalize_str_iff in Ha. destruct (denied a) eqn:Hden; [done|].
    rewrite denied_ranges in Hden by done. injection Hd as Hd.
    exists ports, z, a. split_and!; auto. bprop.
    intros [Ho Hz]. apply mem_true in Ho. rewrite Ho, bool_decide_true in Hd; done.
  - intros (ports & z & a & -> & -> & Hz & Ha & Hn & Hm). simpl.
    destruct (Z.leb_spec 1 z); [|lia]. destruct (Z.leb_spec z 65535); [|lia]. simpl.
    apply normalize_str_iff in Ha. rewrite Ha. simpl.
    assert (ip_wf a) as Hwf by by eauto using normalize_str_wf.
    rewrite (proj2 (denied_ranges a Hwf)) by done. f_equal.
    apply negb_true_iff, andb_false_iff.
    destruct (mem (ip_str a) (pol_owned p)) eqn:Ho; [right|by left].
    apply bool_decide_eq_false. intros ?. apply Hm. split; [|done]. by apply mem_true.
Qed.

(** No textual form bypasses the policy: the IPv4-mapped IPv6 spelling of
    an address gets the verdict of the IPv4 spelling. *)
Theorem allows_mapped p z port network :
  0 <= z < 2 ^ 32 ->
  allows p (ip_str (IP V6 (65535 * 2 ^ 32 + z) None)) port network =
  allows p (ip_str (IP V4 z None)) port network.
Proof.
  intros Hz. unfold allows.
  assert (plain (IP V4 z None)) as H4 by done.
  assert (plain (IP V6 (65535 * 2 ^ 32 + z) None)) as H6.
  { split; [|done]. split; [|done]. cbn [ip_ver ip_int ip_width].
    change (2 ^ 32) with 4294967296 in *. change (2 ^ 128) with 340282366920938463463374607431768211456. lia. }
  rewrite !normalize_ip_str by done. do 2 f_equal.
  assert (effective (IP V6 (65535 * 2 ^ 32 + z) None) = effective (IP V4 z None)) as ->; [|done].
  unfold effective, ipv4_mapped. cbn [ip_ver ip_int].
  rewrite Z.div_add_l, Z.div_small by lia. simpl (65535 + 0 =? 65535). unfold id, from_option.
  f_equal. rewrite Z.add_comm, Z.mod_add by lia. by apply Z.mod_small.
Qed.

Lemma allows_mapped_witness :
  0 <= 167772161 < 2 ^ 32 /\
  allows (Policy [] [] []) (ip_str (IP V6 (65535 * 2 ^ 32 + 167772161) None)) (VInt 80) "tcp" =
  allows (Policy [] [] []) (ip_str (IP V4 167772161 None)) (VInt 80) "tcp".
Proof. split; [lia | apply (allows_mapped (Policy [] [] []) 167772161); lia]. Defined.

(** ** The candidate order *)

Lemma filterM_res_Ok {A} (f : A -> res bool) l r :
  filterM_res f l = Ok r ->
  forall x, x ∈ r <-> x ∈ l /\ f x = Ok true.
Proof.
  revert r. induction l as [|x l IH]; intros r; simpl.
  - intros [= <-] y. split; [by intros ?%not_elem_of_nil | by intros [?%not_elem_of_nil _]].
  - intros (b & Hb & (r' & Hr' & [= <-])%res_bind_Ok)%res_bind_Ok y.
    rewrite elem_of_cons. specialize (IH _ Hr' y).
    destruct b; rewrite ?elem_of_cons, IH; split.
    + intros [->|[]]; auto.
    + intros [[->|?] ?]; auto.
    + intros []; auto.
    + intros [[->|?] ?]; [congruence|auto].
Qed.

Lemma filterM_res_sublist {A} (f : A -> res bool) l r :
  filterM_res f l = Ok r -> sublist r l.
Proof.
  revert r. induction l as [|x l IH]; intros r; simpl; [by intros [= <-]|].
  intros (b & _ & (r' & Hr' & [= <-])%res_bind_Ok)%res_bind_Ok.
  destruct b; constructor; auto.
Qed.

Lemma filterM_res_total {A} (f : A -> res bool) l :
  Forall (fun x => exists b, f x = Ok b) l -> exists r, filterM_res f l = Ok r.
Proof.
  induction 1 as [|x l [b Hb] Hl [r Hr]]; [by exists []|].
  simpl. rewrite Hb, Hr. simpl. eauto.
Qed.

Lemma interleave_perm {A} (l k : list A) : interleave l k ≡ₚ l ++ k.
Proof.
  revert k. induction l as [|x l IH]; intros k; simpl; [done|].
  destruct k as [|y k]; [by rewrite app_nil_r|].
  constructor. rewrite IH. apply Permutation_middle.
Qed.

Lemma by_version_perm v l : by_version v l ≡ₚ filter (fun a => ip_ver a = v) l.
Proof. apply merge_sort_Permutation. Qed.

Lemma by_version_sorted v l : StronglySorted ip_le (by_version v l).
Proof. apply StronglySorted_merge_sort; apply _. Qed.

(** Two sorted lists of scope-free addresses of one version with the same
    elements (once each) are equal. *)
Lemma by_version_unique v l k :
  NoDup l -> NoDup k -> (forall a, a ∈ l <-> a ∈ k) ->
  Forall (fun a => ip_scope a = None) l -> by_version v l = by_version v k.
Proof.
  intros Hl Hk Heq Hs.
  assert (by_version v l ≡ₚ by_version v k) as Hp.
  { rewrite !by_version_perm. apply NoDup_Permutation.
    - by apply NoDup_filter.
    - by apply NoDup_filter.
    - intros a. by rewrite !list_elem_of_filter, Heq. }
  assert (forall m, m ≡ₚ by_version v l -> Forall (fun a => a = IP v (ip_int a) None) m) as Hform.
  { intros m Hm. apply Forall_forall. intros a Ha. rewrite Hm, by_version_perm in Ha.
    apply list_elem_of_filter in Ha as [Hv Ha]. rewrite Forall_forall in Hs.
    specialize (Hs _ Ha). destruct a; simpl in *; congruence. }
  assert (ip_int <$> by_version v l = ip_int <$> by_version v k) as Hint.
  { apply (StronglySorted_unique Z.le).
    - apply (StronglySorted_fmap ip_int ip_le); [by intros ? ? ?|apply by_version_sorted].
    - apply (StronglySorted_fmap ip_int ip_le); [by intros ? ? ?|apply by_version_sorted].
    - by apply fmap_Permutation. }
  assert (forall m, Forall (fun a => a = IP v (ip_int a) None) m ->
    m = (fun z => IP v z None) <$> (ip_int <$> m)) as Hback.
  { induction 1 as [|a m Ha Hm IH]; [done|]. csimpl. by rewrite <-Ha, <-IH. }
  rewrite (Hback (by_version v l)), (Hback (by_version v k)), Hint by (apply Hform; done). done.
Qed.

Lemma normalized_forall l all :
  mapM_res normalize_address l = Ok all ->
  Forall (fun a => plain a /\ ipv4_mapped a = None) all.
Proof.
  intros H%mapM_res_Ok. induction H as [|v a l all Hv H IH]; [constructor|].
  constructor; [|done]. by apply normalize_Ok in Hv as (? & ? & _).
Qed.

Lemma mapM_res_elem {A B} (f : A -> res B) l k :
  mapM_res f l = Ok k -> forall y, y ∈ k <-> exists x, x ∈ l /\ f x = Ok y.
Proof.
  intros H%mapM_res_Ok. induction H as [|x y l k Hxy H IH]; intros z.
  - split; [by intros ?%not_elem_of_nil | by intros (? & ?%not_elem_of_nil & _)].
  - rewrite elem_of_cons, IH. split.
    + intros [->|(x' & ? & ?)]; [exists x | exists x']; rewrite elem_of_cons; auto.
    + intros (x' & [->|Hx]%elem_of_cons & Hz); [left; congruence | right; eauto].
Qed.

(** The admitted candidates are exactly the printed forms of the admitted
    input addresses, each once, alternating the two families in increasing
    numeric order starting with IPv4; no answer order is inherited. *)
Theorem admitted_candidates_spec p addresses port network out :
  admitted_candidates p addresses port network = Ok out ->
  exists l4 l6, out = ip_str <$> interleave l4 l6 /\
    StronglySorted ip_le l4 /\ StronglySorted ip_le l6 /\ NoDup (l4 ++ l6) /\
    Forall (fun a => ip_ver a = V4) l4 /\ Forall (fun a => ip_ver a = V6) l6 /\
    out <> [] /\
    (forall a, a ∈ l4 ++ l6 <->
       (exists v, v ∈ addresses /\ normalize_address v = Ok a) /\
       allows p (ip_str a) port network = Ok true).
Proof.
  unfold admitted_candidates. intros (all & Hall & (cs & Hcs & H)%res_bind_Ok)%res_bind_Ok.
  exists (by_version V4 cs), (by_version V6 cs).
  assert (by_version V4 cs ++ by_version V6 cs ≡ₚ cs) as Hp.
  { rewrite !by_version_perm. clear. induction cs as [|[[] z s] cs IH]; [done| |].
    - rewrite filter_cons_True, filter_cons_False by done. simpl. by constructor.
    - rewrite filter_cons_False, filter_cons_True by done.
      rewrite <-Permutation_middle. by constructor. }
  assert (NoDup cs) as Hnd.
  { eapply sublist_NoDup; [apply NoDup_remove_dups | by eapply filterM_res_sublist]. }
  assert (out = ip_str <$> interleave (by_version V4 cs) (by_version V6 cs) /\ cs <> []) as [-> Hne].
  { destruct cs; [done|]. by injection H as <-. }
  split_and!; try done; try apply by_version_sorted.
  - by rewrite Hp.
  - apply Forall_forall. intros a. rewrite by_version_perm. by intros []%list_elem_of_filter.
  - apply Forall_forall. intros a. rewrite by_version_perm. by intros []%list_elem_of_filter.
  - intros He%fmap_nil_inv. apply Hne, Permutation_nil_r. by rewrite <-Hp, <-interleave_perm, He.
  - intros a. rewrite Hp, (filterM_res_Ok _ _ _ Hcs), elem_of_remove_dups.
    by rewrite (mapM_res_elem _ _ _ Hall).
Qed.

Lemma admitted_candidates_spec_witness :
  exists out, admitted_candidates (Policy [] [] [])
    [VStr "2001:db8::2"; VStr "203.0.113.9"; VStr "::ffff:203.0.113.1"; VStr "203.0.113.1"]
    (VInt 443) "tcp" = Ok out /\ out = ["203.0.113.1"; "2001:db8::2"; "203.0.113.9"]%string /\
  exists l4 l6, out = ip_str <$> interleave l4 l6 /\
    StronglySorted ip_le l4 /\ StronglySorted ip_le l6 /\ NoDup (l4 ++ l6) /\
    Forall (fun a => ip_ver a = V4) l4 /\ Forall (fun a => ip_ver a = V6) l6 /\
    out <> [] /\
    (forall a, a ∈ l4 ++ l6 <->
       (exists v, v ∈ [VStr "2001:db8::2"; VStr "203.0.113.9"; VStr "::ffff:203.0.113.1"; VStr "203.0.113.1"]
          /\ normalize_address v = Ok a) /\
       allows (Policy [] [] []) (ip_str a) (VInt 443) "tcp" = Ok true).
Proof.
  eexists. split; [vm_compute; reflexivity|]. split; [reflexivity|].
  apply (admitted_candidates_spec (Policy [] [] [])). vm_compute. reflexivity.
Defined.

Lemma mapM_normalize_err l e : mapM_res normalize_address l = Raise e ->
  e = policy_error "invalid-address" /\ exists v, v ∈ l /\ ~ is_ok (normalize_address v).
Proof.
  revert e. induction l as [|v l IH]; intros e; simpl; [done|].
  intros [Hv|(a & Ha & [Hl|(as' & _ & ?)]%res_bind_Raise)]%res_bind_Raise; [| |done].
  - split; [|exists v; rewrite Hv; split; [by left|by intros []]].
    destruct v as [| | | |s| |]; simpl in Hv; try congruence.
    destruct (_ || _); [congruence|]. destruct (ip_address s); simpl in Hv; congruence.
  - apply IH in Hl as (-> & v' & ? & ?). split; [done|]. exists v'. split; [by right|done].
Qed.

Lemma allows_total p a port network :
  plain a -> exists b, allows p (ip_str a) port network = Ok b.
Proof.
  intros Ha. unfold allows. destruct (management p network); [|by exists false].
  destruct (_ || _); [by exists false|]. rewrite normalize_ip_str by done. simpl.
  destruct (denied _); eauto.
Qed.

(** the candidate list does not depend on the order or multiplicity of the
    resolver's answers; only their set matters. *)
Theorem admitted_candidates_stable p l k port network :
  (forall v, v ∈ l <-> v ∈ k) ->
  admitted_candidates p l port network = admitted_candidates p k port network.
Proof.
  intros Hlk. unfold admitted_candidates.
  destruct (mapM_res normalize_address l) as [al|el] eqn:Hl,
           (mapM_res normalize_address k) as [ak|ek] eqn:Hk; simpl.
  - assert (forall a, a ∈ al <-> a ∈ ak) as Ha.
    { intros a. rewrite (mapM_res_elem _ _ _ Hl), (mapM_res_elem _ _ _ Hk). by setoid_rewrite Hlk. }
    set (f := fun a => allows p (ip_str a) port network).
    assert (forall m, Forall (fun a => plain a /\ ipv4_mapped a = None) m ->
      exists r, filterM_res f (remove_dups m) = Ok r) as Htot.
    { intros m Hm. apply filterM_res_total, Forall_forall. intros a Hin. rewrite elem_of_remove_dups in Hin.
      rewrite Forall_forall in Hm. by apply allows_total, Hm. }
    destruct (Htot al (normalized_forall _ _ Hl)) as [rl Hrl].
    destruct (Htot ak (normalized_forall _ _ Hk)) as [rk Hrk].
    rewrite Hrl, Hrk. simpl.
    assert (forall a, a ∈ rl <-> a ∈ rk) as Hr.
    { intros a. rewrite (filterM_res_Ok _ _ _ Hrl), (filterM_res_Ok _ _ _ Hrk).
      by rewrite !elem_of_remove_dups, Ha. }
    assert (NoDup rl /\ NoDup rk) as [Hnl Hnk].
    { split; (eapply sublist_NoDup; [apply NoDup_remove_dups | by eapply filterM_res_sublist]). }
    assert (Forall (fun a => ip_scope a = None) rl) as Hsc.
    { apply Forall_forall. intros a [Hin _]%(filterM_res_Ok _ _ _ Hrl).
      rewrite elem_of_remove_dups in Hin. pose proof (normalized_forall _ _ Hl) as Hn.
      rewrite Forall_forall in Hn. by destruct (Hn _ Hin) as [[_ ?] _]. }
    rewrite (by_version_unique V4 rl rk), (by_version_unique V6 rl rk) by done.
    assert (rl = [] <-> rk = []) as Hnil.
    { clear -Hr. split; intros ->; [destruct rk as [|a rk] | destruct rl as [|a rl]]; try done;
        exfalso; apply (not_elem_of_nil a), Hr; left. }
    destruct rl, rk; try done; destruct Hnil as [H1 H2]; [by specialize (H1 eq_refl) | by specialize (H2 eq_refl)].
  - apply mapM_normalize_err in Hk as (_ & v & Hv & Hn). apply Hlk in Hv.
    apply mapM_res_Ok in Hl. exfalso. apply Hn.
    apply list_elem_of_lookup in Hv as [i Hi]. eapply Forall2_lookup_l in Hl as (a & _ & Ha); [|done].
    by rewrite Ha.
  - apply mapM_normalize_err in Hl as (_ & v & Hv & Hn). apply Hlk in Hv.
    apply mapM_res_Ok in Hk. exfalso. apply Hn.
    apply list_elem_of_lookup in Hv as [i Hi]. eapply Forall2_lookup_l in Hk as (a & _ & Ha); [|done].
    by rewrite Ha.
  - apply mapM_normalize_err in Hl as [-> _]. by apply mapM_normalize_err in Hk as [-> _].
Qed.

Lemma admitted_candidates_stable_witness :
  (forall v, v ∈ [VStr "203.0.113.9"; VStr "203.0.113.1"; VStr "203.0.113.9"]
        <-> v ∈ [VStr "203.0.113.1"; VStr "203.0.113.9"]) /\
  admitted_candidates (Policy [] [] []) [VStr "203.0.113.9"; VStr "203.0.113.1"; VStr "203.0.113.9"] (VInt 443) "tcp"
  = admitted_candidates (Policy [] [] []) [VStr "203.0.113.1"; VStr "203.0.113.9"] (VInt 443) "tcp".
Proof.
  assert (forall v, v ∈ [VStr "203.0.113.9"; VStr "203.0.113.1"; VStr "203.0.113.9"]
        <-> v ∈ [VStr "203.0.113.1"; VStr "203.0.113.9"]) as H.
  { intros v. rewrite !elem_of_cons, elem_of_nil. tauto. }
  split; [exact H | by apply admitted_candidates_stable].
Defined.
