(* ===== verification/Socks.v ===== *)
(** * The SOCKS5 wire codec

    [scripts/transport_socks.py]: bounded decoders of handshake frames and
    datagrams, their encoders, and the framing discipline that lets the
    normalizer feed a decoder one byte at a time without reading ahead. *)

From S2P Require Import Prelude PyValue PyStr IPAddr DestinationPolicy.

Definition FAILURE : list Z := [5; 1; 0; 1] ++ replicate 6 0.
Definition MAX_HANDSHAKE : nat := 1024.

Definition need_more : exn := Exn NeedMore "".
Definition wire_error (m : string) : exn := Exn WireError m.

(** [data[i]] and [data[a:b]], in range by the preceding [_need]. *)
Definition at_ (d : list Z) (i : nat) : Z := nth i d 0.
Definition slice (d : list Z) (a b : nat) : list Z := take (b - a) (drop a d).

Definition need (d : list Z) (size : nat) : res unit :=
  raise_if (Nat.ltb (length d) size) need_more.

Definition be_int (l : list Z) : Z := foldl (fun acc b => acc * 256 + b) 0 l.
Fixpoint to_bytes (n : nat) (z : Z) : list Z :=
  match n with O => [] | S n => to_bytes n (z / 256) ++ [z mod 256] end.

Definition bytes_of_str (s : string) : list Z := ord <$> chars s.
(** The [str] whose UTF-8 encoding is the given bytes. *)
Definition str_of_bytes (l : list Z) : string := of_chars (chr <$> l).

(** Well-formed UTF-8 (no surrogates, no overlong forms). *)
Fixpoint utf8_valid (fuel : nat) (l : list Z) : bool :=
  match fuel with
  | O => false
  | S fuel =>
      let cont b := (128 <=? b) && (b <=? 191) in
      match l with
      | [] => true
      | a :: l =>
          if a <=? 127 then utf8_valid fuel l
          else match l with
          | [] => false
          | b :: l =>
              if (194 <=? a) && (a <=? 223) then cont b && utf8_valid fuel l
              else match l with
              | [] => false
              | c :: l =>
                  if (224 <=? a) && (a <=? 239) then
                    cont b && cont c && (negb (a =? 224) || (160 <=? b))
                    && (negb (a =? 237) || (b <=? 159)) && utf8_valid fuel l
                  else match l with
                  | [] => false
                  | e :: l =>
                      (240 <=? a) && (a <=? 244) && cont b && cont c && cont e
                      && (negb (a =? 240) || (144 <=? b))
                      && (negb (a =? 244) || (b <=? 143)) && utf8_valid fuel l
                  end
              end
          end
      end
  end.

Definition decode_utf8 (l : list Z) : res string :=
  if utf8_valid (S (length l)) l then Ok (str_of_bytes l) else Raise (Exn UnicodeError "utf-8").

Definition greeting (d : list Z) : res (nat * list Z) :=
  need d 2 ;;;
  raise_if (negb (at_ d 0 =? 5) || (at_ d 1 =? 0)) (wire_error "invalid-greeting") ;;;
  let n := (2 + Z.to_nat (at_ d 1))%nat in
  need d n ;;;
  raise_if (negb (bool_decide (2 ∈ slice d 2 n))) (wire_error "authentication-required") ;;;
  Ok (n, [5; 2]).

Definition authentication (username password : string) (d : list Z) : res (nat * list Z) :=
  need d 2 ;;;
  raise_if (negb (at_ d 0 =? 1) || (at_ d 1 =? 0)) (wire_error "invalid-authentication") ;;;
  let user_end := (2 + Z.to_nat (at_ d 1))%nat in
  need d (user_end + 1) ;;;
  let len := at_ d user_end in
  raise_if (len =? 0) (wire_error "invalid-authentication") ;;;
  let end_ := (user_end + 1 + Z.to_nat len)%nat in
  need d end_ ;;;
  let* u := encode_ascii username in
  let* ok :=
    (if bool_decide (slice d 2 user_end = u) then
       let* p := encode_ascii password in
       Ok (bool_decide (slice d (user_end + 1) end_ = p))
     else Ok false) in
  raise_if (negb ok) (wire_error "authentication-refused") ;;;
  Ok (end_, [1; 0]).

Definition packed (a : ipaddr) : list Z :=
  to_bytes (match ip_ver a with V4 => 4 | V6 => 16 end) (ip_int a).

Definition encoded_address (host : string) (port : value) : res (list Z) :=
  raise_if (negb (type_is_int port) || negb ((0 <=? int_of port) && (int_of port <=? 65535)))
    (wire_error "invalid-port") ;;;
  let* a := normalize_str host in
  Ok ([match ip_ver a with V4 => 1 | V6 => 4 end] ++ packed a ++ to_bytes 2 (int_of port)).

Definition reply (host : string) (port : value) : res (list Z) :=
  let* a := encoded_address host port in Ok ([5; 0; 0] ++ a).

Definition upstream_auth (username password : string) : res (list Z) :=
  let* user := encode_ascii username in
  let* secret := encode_ascii password in
  let n := Z.of_nat (length user) in let m := Z.of_nat (length secret) in
  raise_if (negb ((1 <=? n) && (n <=? 255)) || negb ((1 <=? m) && (m <=? 255)))
    (wire_error "invalid-authentication") ;;;
  Ok ([1; n] ++ user ++ [m] ++ secret).

Definition upstream_request (command : Z) (host : string) (port : value) : res (list Z) :=
  raise_if (negb (is_byte command)) (Exn ValueError "bytes must be in range(0, 256)") ;;;
  let* a := (if command =? 3 then encoded_address "0.0.0.0" (VInt 0) else encoded_address host port) in
  Ok ([5; command; 0] ++ a).

Definition encoded_datagram (host : string) (port : value) (payload : list Z) (maximum : Z)
    : res (list Z) :=
  let* a := encoded_address host port in
  let frame := replicate 3 0 ++ a ++ payload in
  raise_if (maximum <? Z.of_nat (length frame)) (wire_error "oversized-datagram") ;;;
  Ok frame.

(** What the platform's [inet_ntop] promises: the text it prints for a packed
    address is a scope-free literal of that address, in one of the notations
    of RFC 4291. *)
Class InetNtop (inet_ntop : ipver -> list Z -> string) : Prop :=
  inet_ntop_text v b :
    bytes_wf b -> length b = Z.to_nat (ip_width v / 8) ->
    py_len (inet_ntop v b) <= 45 /\ contains_char "%" (inet_ntop v b) = false /\
    ip_address (inet_ntop v b) = Some (IP v (be_int b) None).

Section Decoders.
Variable inet_ntop : ipver -> list Z -> string.
Variable idna_label : string -> option string.

(** A name field: an address literal, or a canonical name. *)
Definition decode_host (l : list Z) : res string :=
  try_except
    (let* s := decode_utf8 l in
     match normalize_str s with
     | Ok a => Ok (ip_str a)
     | Raise e =>
         if caught [PolicyError] e then canonical_name idna_label (VStr s) else Raise e
     end)
    [UnicodeError; PolicyError]
    (fun _ => Raise (wire_error "invalid-name")).

Definition address (d : list Z) (offset : nat) : res (nat * string * Z) :=
  need d (offset + 1) ;;;
  let atyp := at_ d offset in
  let offset := (offset + 1)%nat in
  if (atyp =? 1) || (atyp =? 4) then
    let v := if atyp =? 1 then V4 else V6 in
    let length_ := if atyp =? 1 then 4%nat else 16%nat in
    need d (offset + length_ + 2) ;;;
    let* a := normalize_str (inet_ntop v (slice d offset (offset + length_))) in
    let end_ := (offset + length_)%nat in
    Ok ((end_ + 2)%nat, ip_str a, be_int (slice d end_ (end_ + 2)))
  else if atyp =? 3 then
    need d (offset + 1) ;;;
    let length_ := Z.to_nat (at_ d offset) in
    let offset := (offset + 1)%nat in
    raise_if (Nat.eqb length_ 0) (wire_error "invalid-name") ;;;
    need d (offset + length_ + 2) ;;;
    let* host := decode_host (slice d offset (offset + length_)) in
    let end_ := (offset + length_)%nat in
    Ok ((end_ + 2)%nat, host, be_int (slice d end_ (end_ + 2)))
  else Raise (wire_error "invalid-address-type").

Definition request (d : list Z) : res (nat * Z * string * Z) :=
  need d 4 ;;;
  raise_if (negb (at_ d 0 =? 5) || negb (at_ d 2 =? 0)
            || negb ((at_ d 1 =? 1) || (at_ d 1 =? 3))) (wire_error "invalid-request") ;;;
  let* '(end_, host, port) := address d 3 in
  raise_if ((at_ d 1 =? 1) && (port =? 0)) (wire_error "invalid-port") ;;;
  Ok (end_, at_ d 1, host, port).

Definition upstream_reply (d : list Z) : res (nat * string * Z) :=
  need d 4 ;;;
  raise_if (negb (at_ d 0 =? 5) || negb (at_ d 1 =? 0) || negb (at_ d 2 =? 0)
            || negb ((at_ d 3 =? 1) || (at_ d 3 =? 4))) (wire_error "upstream-refused") ;;;
  address d 3.

Definition datagram (d : list Z) (maximum : Z) : res (string * Z * list Z) :=
  raise_if ((maximum <? Z.of_nat (length d)) || (Nat.ltb (length d) 4)
            || negb (bool_decide (take 3 d = replicate 3 0))) (wire_error "invalid-datagram") ;;;
  let* '(end_, host, port) :=
    try_except (address d 3) [NeedMore] (fun _ => Raise (wire_error "truncated-datagram")) in
  raise_if (port =? 0) (wire_error "invalid-port") ;;;
  Ok (host, port, drop end_ d).
End Decoders.

(** ** Framing

    A decoder is a [FrameParser] when its answer is decided by the frame alone:
    it succeeds exactly at the frame's end, waits on every shorter prefix, and
    neither later bytes nor more of them change a success or a refusal. *)

Definition FramedAt {A} (pre : list Z) (q : list Z -> res A) (c : A -> nat) : Prop :=
  forall t, match q (pre ++ t) with
  | Ok r =>
      (length pre <= c r <= length (pre ++ t))%nat /\
      q (take (c r) (pre ++ t)) = Ok r /\
      (forall k, q (pre ++ t ++ k) = Ok r) /\
      (forall n, (length pre <= n < c r)%nat -> q (take n (pre ++ t)) = Raise need_more)
  | Raise e => e = need_more \/ forall k, q (pre ++ t ++ k) = Raise e
  end.

Class FrameParser {A} (q : list Z -> res A) (consumed : A -> nat) : Prop :=
  frame_parser : FramedAt [] q consumed.

Section Framing.
Context {A : Type}.
Implicit Types (q : list Z -> res A) (c : A -> nat).

Lemma framed_ext pre q q' c :
  (forall t d, d = pre ++ t -> q d = q' d) -> FramedAt pre q' c -> FramedAt pre q c.
Proof.
  intros He' H t. assert (forall t, q (pre ++ t) = q' (pre ++ t)) as He by eauto. specialize (H t). rewrite He. destruct (q' (pre ++ t)) as [r|e].
  - destruct H as (Hc & Hx & Hk & Hn). split_and!; [lia|lia| | |].
    + rewrite take_app_ge in * by lia. by rewrite He.
    + intros k. by rewrite He.
    + intros n Hlt. specialize (Hn n Hlt). rewrite take_app_ge in * by lia. by rewrite He.
  - destruct H as [|Hk]; [by left|right]. intros k. by rewrite He.
Qed.

Lemma framed_ok pre r c : c r = length pre -> FramedAt pre (fun _ => Ok r) c.
Proof. intros Hc t. rewrite Hc, length_app. split_and!; [lia|lia|done|done|lia]. Qed.

Lemma framed_raise pre e c : FramedAt pre (fun _ => @Raise A e) c.
Proof. intros t. by right. Qed.

Lemma framed_need pre m q c :
  (length pre <= m)%nat ->
  (forall ext, length (pre ++ ext) = m -> FramedAt (pre ++ ext) q c) ->
  FramedAt pre (fun d => need d m ;;; q d) c.
Proof.
  intros Hm Hq t. unfold need.
  destruct (Nat.ltb_spec (length (pre ++ t)) m) as [Hlt|Hge]; simpl; [by left|].
  assert (exists ext t', t = ext ++ t' /\ length (pre ++ ext) = m) as (ext & t' & -> & Hext).
  { exists (take (m - length pre) t), (drop (m - length pre) t). split; [by rewrite take_drop|].
    rewrite length_app in *. rewrite length_take. lia. }
  specialize (Hq ext Hext t'). rewrite <-app_assoc in Hq.
  destruct (q (pre ++ ext ++ t')) as [r|e].
  - destruct Hq as (Hc & Hx & Hk & Hn). rewrite Hext in *. rewrite length_app in Hext.
    split_and!; [lia|lia| | |].
    + rewrite length_take. by destruct (Nat.ltb_spec (c r `min` length (pre ++ ext ++ t')) m); [lia|].
    + intros k. destruct (Nat.ltb_spec (length (pre ++ (ext ++ t') ++ k)) m) as [Hl|]; simpl.
      { rewrite !length_app in *. lia. }
      rewrite <-(Hk k). by rewrite <-!app_assoc.
    + intros n Hlt. rewrite length_take.
      destruct (Nat.ltb_spec (n `min` length (pre ++ ext ++ t')) m); simpl; [done|].
      apply Hn. lia.
  - destruct Hq as [|Hk]; [by left|right]. intros k.
    destruct (Nat.ltb_spec (length (pre ++ (ext ++ t') ++ k)) m) as [Hl|]; simpl.
    { rewrite !length_app in *. lia. }
    rewrite <-(Hk k). by rewrite <-!app_assoc.
Qed.

Lemma framed_raise_if pre (b : bool) e q c :
  (b = false -> FramedAt pre q c) -> FramedAt pre (fun d => raise_if b e ;;; q d) c.
Proof.
  intros Hq. destruct b; simpl; [apply framed_raise|]. by apply Hq.
Qed.
End Framing.

(** Only the result is mapped, or refused. *)
Lemma framed_bind {A B} pre (q : list Z -> res A) (f : A -> res B) c c' :
  FramedAt pre q c -> (forall a b, f a = Ok b -> c' b = c a) ->
  FramedAt pre (fun d => let* a := q d in f a) c'.
Proof.
  intros Hq Hf t. specialize (Hq t). destruct (q (pre ++ t)) as [a|e] eqn:Ha; simpl.
  - destruct Hq as (Hc & Hx & Hk & Hn). destruct (f a) as [b|e] eqn:Hb.
    + rewrite (Hf _ _ Hb). split_and!; [lia|lia| | |].
      * by rewrite Hx.
      * intros k. rewrite Hk. done.
      * intros n Hlt. by rewrite Hn.
    + right. intros k. rewrite Hk. done.
  - destruct Hq as [|Hk]; [by left|right]. intros k. by rewrite Hk.
Qed.

Lemma at_prefix pre t d i : d = pre ++ t -> (i < length pre)%nat -> at_ d i = at_ pre i.
Proof. intros -> ?. unfold at_. by apply app_nth1. Qed.

Lemma slice_prefix pre t d a b : d = pre ++ t -> (b <= length pre)%nat -> slice d a b = slice pre a b.
Proof.
  intros -> Hb. unfold slice. destruct (decide (a <= length pre)%nat).
  - rewrite drop_app_le by done. rewrite take_app_le; [done|]. rewrite length_drop. lia.
  - replace (b - a)%nat with 0%nat by lia. done.
Qed.

(** Replace the reads of [d] that the known prefix [pre] answers. *)
Ltac framed_prefix :=
  eapply framed_ext;
  [ let t := fresh in let d := fresh in let Hd := fresh in
    intros t d Hd;
    repeat first
      [ rewrite (at_prefix _ _ d _ Hd) by (rewrite ?length_app in *; simpl in *; lia)
      | rewrite (slice_prefix _ _ d _ _ Hd) by (rewrite ?length_app in *; simpl in *; lia) ];
    reflexivity
  | cbv beta ].

Ltac framed_step :=
  first
    [ apply framed_raise
    | apply framed_raise_if; intros ?; cbv beta
    | apply framed_need; [rewrite ?length_app in *; simpl in *; lia | intros ? ?]; cbv beta ].

#[export] Instance greeting_framed : FrameParser greeting fst.
Proof.
  unfold FrameParser, greeting. framed_step. simpl in *. framed_prefix. do 2 framed_step.
  framed_prefix. framed_step. apply framed_ok. simpl. lia.
Qed.

#[export] Instance authentication_framed u p : FrameParser (authentication u p) fst.
Proof.
  unfold FrameParser, authentication. framed_step. simpl in *. framed_prefix. do 2 framed_step.
  framed_prefix. do 2 framed_step. framed_prefix.
  destruct (encode_ascii u) as [u'|]; simpl; [|framed_step].
  destruct (bool_decide (slice _ 2 _ = u')); simpl.
  - destruct (encode_ascii p); simpl; [|framed_step]. framed_step. apply framed_ok. simpl. lia.
  - framed_step.
Qed.

(** The number of bytes a decoder reports as consumed. *)
Definition end_of {A B} (r : nat * A * B) : nat := r.1.1.
Definition end_of4 {A B C} (r : nat * A * B * C) : nat := r.1.1.1.

Section DecoderFraming.
Context (inet_ntop : ipver -> list Z -> string) (idna_label : string -> option string).

Lemma address_framed pre offset :
  (offset <= length pre <= offset + 1)%nat ->
  FramedAt pre (fun d => address inet_ntop idna_label d offset) end_of.
Proof.
  intros Hoff. unfold address. framed_step.
  match goal with H : _ = _ |- _ => rename H into He end. rewrite length_app in He.
  framed_prefix.
  destruct (_ || _); [|destruct (_ =? 3)].
  - framed_step. match goal with H : _ = _ |- _ => rename H into He' end.
    rewrite !length_app in He'. framed_prefix.
    destruct (normalize_str _); simpl; [|framed_step].
    apply framed_ok. rewrite !length_app. unfold end_of. simpl. lia.
  - framed_step. match goal with H : _ = _ |- _ => rename H into He' end.
    rewrite !length_app in He'. framed_prefix. framed_step. framed_step.
    match goal with H : _ = _ |- _ => rename H into He'' end.
    rewrite !length_app in He''. framed_prefix.
    destruct (decode_host _ _); simpl; [|framed_step].
    apply framed_ok. rewrite !length_app. unfold end_of. simpl. lia.
  - framed_step.
Qed.

#[export] Instance request_framed : FrameParser (request inet_ntop idna_label) end_of4.
Proof.
  unfold FrameParser, request. framed_step.
  match goal with H : _ = _ |- _ => rename H into He end. simpl in *.
  eapply framed_ext.
  { intros t d Hd. rewrite (at_prefix _ _ d 0 Hd), (at_prefix _ _ d 1 Hd), (at_prefix _ _ d 2 Hd) by lia.
    reflexivity. }
  cbv beta. framed_step.
  eapply (framed_bind _ _ (fun '(end_, host, port) => _)); [apply address_framed; lia|].
  intros [[e h] p] r. simpl. intros Hr. res_inv Hr. by subst.
Qed.

#[export] Instance upstream_reply_framed : FrameParser (upstream_reply inet_ntop idna_label) end_of.
Proof.
  unfold FrameParser, upstream_reply. framed_step.
  match goal with H : _ = _ |- _ => rename H into He end. simpl in *.
  eapply framed_ext.
  { intros t d Hd. rewrite (at_prefix _ _ d 0 Hd), (at_prefix _ _ d 1 Hd), (at_prefix _ _ d 2 Hd),
      (at_prefix _ _ d 3 Hd) by lia.
    reflexivity. }
  cbv beta. framed_step. apply address_framed. lia.
Qed.
End DecoderFraming.

(** ** Round trips *)

Lemma to_bytes_length n z : length (to_bytes n z) = n.
Proof. revert z. induction n as [|n IH]; intros z; simpl; [done|]. rewrite length_app, IH. simpl. lia. Qed.

Lemma to_bytes_wf n z : bytes_wf (to_bytes n z).
Proof.
  revert z. induction n as [|n IH]; intros z; simpl; [constructor|].
  apply Forall_app; split; [apply IH|]. constructor; [apply Z.mod_pos_bound; lia | constructor].
Qed.

Lemma be_int_snoc l b : be_int (l ++ [b]) = be_int l * 256 + b.
Proof. unfold be_int. by rewrite foldl_app. Qed.

Lemma be_int_to_bytes n z : 0 <= z < 256 ^ Z.of_nat n -> be_int (to_bytes n z) = z.
Proof.
  revert z. induction n as [|n IH]; intros z Hz; simpl.
  - change (256 ^ Z.of_nat 0) with 1 in Hz. unfold be_int. simpl. lia.
  - rewrite be_int_snoc, IH; [pose proof (Z.div_mod z 256); lia|].
    rewrite Nat2Z.inj_succ, Z.pow_succ_r in Hz by lia.
    split; [apply Z.div_pos; lia | apply Z.div_lt_upper_bound; lia].
Qed.

Lemma packed_length a : length (packed a) = Z.to_nat (ip_width (ip_ver a) / 8).
Proof. unfold packed. rewrite to_bytes_length. by destruct (ip_ver a). Qed.

Lemma be_int_packed a : ip_wf a -> be_int (packed a) = ip_int a.
Proof.
  intros [Ha _]. unfold packed. apply be_int_to_bytes. by destruct (ip_ver a).
Qed.

Lemma at_app_r pre d i : at_ (pre ++ d) (length pre + i) = at_ d i.
Proof. unfold at_. rewrite app_nth2 by lia. f_equal. lia. Qed.

Lemma slice_app pre mid post a b :
  a = length pre -> b = (length pre + length mid)%nat -> slice (pre ++ mid ++ post) a b = mid.
Proof.
  intros -> ->. unfold slice. rewrite drop_app_length.
  replace (length pre + length mid - length pre)%nat with (length mid) by lia.
  apply take_app_length.
Qed.

Lemma need_ok d n : (n <= length d)%nat -> need d n = Ok tt.
Proof. intros. unfold need. by destruct (Nat.ltb_spec (length d) n); [lia|]. Qed.

Section RoundTrips.
Context (inet_ntop : ipver -> list Z -> string) `{Hntop : !InetNtop inet_ntop}
        (idna_label : string -> option string).

Lemma normalize_ntop a :
  plain a -> normalize_str (inet_ntop (ip_ver a) (packed a)) = Ok (effective a).
Proof.
  intros [Hwf Hsc]. apply normalize_str_iff.
  destruct (Hntop (ip_ver a) (packed a)) as (Hl & Hp & Hparse).
  { apply to_bytes_wf. }
  { apply packed_length. }
  split_and!; [done|done|]. eexists. split; [done|].
  rewrite be_int_packed by done. destruct a; simpl in *. by subst.
Qed.

(** Decoding an encoded address, wherever it sits in the data. *)
Lemma address_encoded pre host port a post enc :
  normalize_str host = Ok a -> encoded_address host (VInt port) = Ok enc ->
  address inet_ntop idna_label (pre ++ enc ++ post) (length pre)
  = Ok (length (pre ++ enc), ip_str a, port).
Proof.
  intros Ha Henc. unfold encoded_address in Henc. res_inv Henc. cbn [type_is_int int_of negb orb app] in *.
  replace a0 with a in * by congruence. bprop.
  apply normalize_str_plain in Ha as [Hp Hm].
  remember (match ip_ver a with V4 => 1 | V6 => 4 end) as tag eqn:Htag.
  unfold address. subst enc.
  assert (length (to_bytes 2 port) = 2%nat) as H2 by done.
  assert (length (packed a) = match ip_ver a with V4 => 4 | V6 => 16 end)%nat as Hpl
    by (unfold packed; by rewrite to_bytes_length).
  remember (to_bytes 2 port) as pb eqn:Hpb. remember (packed a) as pk eqn:Hpk.
  rewrite need_ok by (rewrite !length_app; simpl; lia). cbn [res_bind].
  replace (at_ (pre ++ (tag :: pk ++ pb) ++ post) (length pre)) with tag.
  2:{ rewrite <-(Nat.add_0_r (length pre)), at_app_r. done. }
  assert (forall n, n = length (pk) ->
    slice (pre ++ (tag :: pk ++ pb) ++ post) (length pre + 1) (length pre + 1 + n)
    = pk) as Hs1.
  { intros n ->. replace (pre ++ (tag :: pk ++ pb) ++ post)
      with ((pre ++ [tag]) ++ pk ++ (pb ++ post)).
    - apply slice_app; rewrite length_app; simpl; lia.
    - rewrite <-!app_assoc. simpl. by rewrite <-!app_assoc. }
  assert (forall n, n = length (pk) ->
    slice (pre ++ (tag :: pk ++ pb) ++ post) (length pre + 1 + n) (length pre + 1 + n + 2)
    = pb) as Hs2.
  { intros n ->. replace (pre ++ (tag :: pk ++ pb) ++ post)
      with ((pre ++ [tag] ++ pk) ++ pb ++ post).
    - apply slice_app; rewrite !length_app, ?H2; simpl; lia.
    - rewrite <-!app_assoc. simpl. by rewrite <-!app_assoc. }
  assert (be_int pb = port) as Hport.
  { subst pb. apply be_int_to_bytes. change (256 ^ Z.of_nat 2) with 65536. lia. }
  destruct (ip_ver a) eqn:Hv; subst tag; cbn [Z.eqb Pos.eqb orb];
    (rewrite need_ok by (rewrite !length_app; simpl; rewrite !length_app; simpl in *; lia));
    cbn [res_bind]; rewrite Hs1, Hs2 by done; subst pk; rewrite <-Hv, normalize_ntop by done;
    rewrite effective_id by done; cbn [res_bind]; rewrite Hport; do 3 f_equal;
    rewrite !length_app; simpl; rewrite !length_app; simpl in *; lia.
Qed.

(** Every reply the codec encodes is decoded by the peer's decoder, with
    any continuation of the stream: to the exact frame length, the effective
    canonical address and the port. *)
Theorem upstream_reply_reply host port a frame rest :
  normalize_str host = Ok a -> reply host (VInt port) = Ok frame ->
  upstream_reply inet_ntop idna_label (frame ++ rest) = Ok (length frame, ip_str a, port).
Proof using Hntop.
  intros Ha Hr. unfold reply in Hr. res_inv Hr. subst frame.
  unfold upstream_reply.
  assert (exists tag l, a0 = tag :: l /\ (tag = 1 \/ tag = 4)) as (tag & l & -> & Htag).
  { unfold encoded_address in Ha0. res_inv Ha0. subst a0.
    destruct (ip_ver _); simpl; eauto. }
  rewrite need_ok by (simpl; lia). cbn [res_bind].
  replace (negb _ || negb _ || negb _ || negb _) with false
    by (unfold at_; simpl; destruct Htag as [-> | ->]; done).
  cbn [raise_if res_bind]. rewrite <-app_assoc.
  by apply (address_encoded [5; 0; 0] host port a rest).
Qed.

End RoundTrips.

(** The printer of [IPAddr] is such an [inet_ntop]. *)
Definition ntop_canonical (v : ipver) (b : list Z) : string := ip_str (IP v (be_int b) None).

Lemma be_int_range b : bytes_wf b -> 0 <= be_int b < 256 ^ Z.of_nat (length b).
Proof.
  unfold bytes_wf. induction b as [|x b IH] using rev_ind; intros H; [done|].
  apply Forall_app in H as [H Hx]. apply Forall_cons in Hx as [Hx _]. simpl in Hx.
  specialize (IH H). rewrite be_int_snoc, length_app. simpl.
  replace (Z.of_nat (length b + 1)) with (Z.succ (Z.of_nat (length b))) by lia.
  rewrite Z.pow_succ_r by lia. lia.
Qed.

#[export] Instance ntop_canonical_ok : InetNtop ntop_canonical.
Proof.
  intros v b Hb Hl. unfold ntop_canonical.
  assert (plain (IP v (be_int b) None)) as Hp.
  { split; [|done]. split; [|done]. cbn [ip_ver ip_int].
    pose proof (be_int_range b Hb) as Hr. rewrite Hl in Hr. by destruct v. }
  split_and!; [by apply ip_str_short | by apply ip_str_no_percent | by apply ip_str_parse].
Qed.

Lemma upstream_reply_reply_witness :
  exists frame, reply "2001:db8::1" (VInt 443) = Ok frame /\
  normalize_str "2001:db8::1" = Ok (IP V6 0x20010db8000000000000000000000001 None) /\
  upstream_reply ntop_canonical (fun _ => None) (frame ++ [7; 7])
  = Ok (length frame, ip_str (IP V6 0x20010db8000000000000000000000001 None), 443).
Proof.
  eexists. split; [vm_compute; reflexivity|]. split; [vm_compute; reflexivity|].
  apply (upstream_reply_reply ntop_canonical (fun _ => None) "2001:db8::1"); vm_compute; reflexivity.
Defined.


(** ** Authentication *)

Lemma slice_split (d : list Z) a b :
  (a <= b <= length d)%nat -> drop a d = slice d a b ++ drop b d.
Proof.
  intros Hab. unfold slice. replace (drop b d) with (drop (b - a) (drop a d)).
  - by rewrite take_drop.
  - rewrite drop_drop. f_equal. lia.
Qed.

Lemma slice_one (d : list Z) i : (i < length d)%nat -> slice d i (i + 1) = [at_ d i].
Proof.
  intros Hi. unfold slice, at_. replace (i + 1 - i)%nat with 1%nat by lia.
  destruct (lookup_lt_is_Some_2 d i Hi) as [x Hx].
  rewrite (drop_S _ _ _ Hx), nth_lookup, Hx. done.
Qed.

Lemma slice_length (d : list Z) a b : (a <= b <= length d)%nat -> length (slice d a b) = (b - a)%nat.
Proof. intros. unfold slice. rewrite length_take, length_drop. lia. Qed.

Lemma at_wf d i : bytes_wf d -> 0 <= at_ d i < 256.
Proof.
  intros Hd. unfold at_. rewrite nth_lookup. destruct (d !! i) as [x|] eqn:Hx; simpl; [|lia].
  unfold bytes_wf in Hd. rewrite Forall_lookup in Hd. by apply Hd in Hx.
Qed.

Lemma authentication_sound u p d n resp :
  bytes_wf d -> authentication u p d = Ok (n, resp) ->
  resp = [1; 0] /\ exists frame rest,
    upstream_auth u p = Ok frame /\ d = frame ++ rest /\ n = length frame.
Proof.
  intros Hd.
  unfold authentication, need. intros H. res_inv H. bprop.
  apply Nat.ltb_ge in Hg, Hg1, Hg3.
  destruct (bool_decide (slice d 2 (2 + Z.to_nat (at_ d 1)) = a)) eqn:Hu;
    apply bool_decide_eq_true in Hu || (by injection Ha0 as <-).
  res_inv Ha0. subst a0. bprop. injection H as <- <-. split; [done|].
  pose proof (at_wf d 1 Hd). pose proof (at_wf d (2 + Z.to_nat (at_ d 1)) Hd).
  set (ue := (2 + Z.to_nat (at_ d 1))%nat) in *.
  set (e := (ue + 1 + Z.to_nat (at_ d ue))%nat) in *.
  assert (length a = Z.to_nat (at_ d 1)) as Hla by (rewrite <-Hu, slice_length; lia).
  assert (length a1 = Z.to_nat (at_ d ue)) as Hlp by (rewrite <-Hg4, slice_length; lia).
  exists ([1; at_ d 1] ++ a ++ [at_ d ue] ++ a1), (drop e d). split_and!.
  - unfold upstream_auth. rewrite Ha, Ha1. cbn [res_bind]. rewrite Hla, Hlp, !Z2Nat.id by lia.
    destruct (Z.leb_spec 1 (at_ d 1)); [|lia]. destruct (Z.leb_spec (at_ d 1) 255); [|lia].
    destruct (Z.leb_spec 1 (at_ d ue)); [|lia]. by destruct (Z.leb_spec (at_ d ue) 255); [|lia].
  - rewrite <-Hu, <-Hg4, <-(slice_one d ue), <-!app_assoc by lia.
    rewrite <-(slice_split d (ue + 1) e), <-(slice_split d ue (ue + 1)), <-(slice_split d 2 ue) by lia.
    destruct d as [|x [|y d]]; simpl in Hg; try lia. change (x :: y :: d = 1 :: y :: d). by f_equal.
  - rewrite !length_app, Hla, Hlp. subst e ue. simpl. lia.
Qed.

Lemma authentication_complete u p d n resp :
  (resp = [1; 0] /\ exists frame rest,
    upstream_auth u p = Ok frame /\ d = frame ++ rest /\ n = length frame) ->
  authentication u p d = Ok (n, resp).
Proof.
  intros (-> & frame & rest & Hf & -> & ->). unfold upstream_auth in Hf. res_inv Hf. subst frame.
  bprop. unfold authentication.
  set (n := length a) in *. set (m := length a0) in *.
  replace (([1; Z.of_nat n] ++ a ++ [Z.of_nat m] ++ a0) ++ rest)
    with ([1; Z.of_nat n] ++ a ++ ([Z.of_nat m] ++ a0 ++ rest)) by by rewrite <-!app_assoc.
  assert (forall k l, at_ ([1; Z.of_nat n] ++ k ++ l) 1 = Z.of_nat n) as Hat1 by done.
  rewrite need_ok by (rewrite !length_app; simpl; lia). cbn [res_bind]. rewrite !Hat1, Nat2Z.id.
  assert (forall k, at_ ([1; Z.of_nat n] ++ a ++ [Z.of_nat m] ++ k) (2 + n) = Z.of_nat m) as H2'.
  { intros k. rewrite (at_app_r [1; Z.of_nat n] _ n).
    pose proof (at_app_r a ([Z.of_nat m] ++ k) 0) as Hk. by rewrite Nat.add_0_r in Hk. }
  rewrite H2', Nat2Z.id.
  change (at_ _ 0) with 1. destruct (Z.eqb_spec (Z.of_nat n) 0); [lia|].
  destruct (Z.eqb_spec (Z.of_nat m) 0); [lia|]. cbn [negb orb raise_if res_bind Z.eqb Pos.eqb].
  rewrite need_ok by (rewrite !length_app; simpl; lia). cbn [res_bind].
  rewrite need_ok by (rewrite !length_app; simpl; lia). cbn [res_bind].
  rewrite Ha. cbn [res_bind]. rewrite bool_decide_true.
  2:{ apply slice_app; [done | simpl; lia]. }
  rewrite Ha0. cbn [res_bind]. rewrite bool_decide_true.
  2:{ replace ([1; Z.of_nat n] ++ a ++ [Z.of_nat m] ++ a0 ++ rest)
        with (([1; Z.of_nat n] ++ a ++ [Z.of_nat m]) ++ a0 ++ rest) by by rewrite <-!app_assoc.
      apply slice_app; rewrite !length_app; simpl; lia. }
  cbn [negb raise_if res_bind]. do 2 f_equal. rewrite !length_app. simpl. lia.
Qed.

(** C36: the server side accepts an authentication frame exactly when it is the
    frame the client side encodes for the same credentials, whatever follows. *)
Theorem authentication_iff u p d n resp :
  bytes_wf d ->
  authentication u p d = Ok (n, resp) <->
  resp = [1; 0] /\ exists frame rest,
    upstream_auth u p = Ok frame /\ d = frame ++ rest /\ n = length frame.
Proof.
  intros Hd. split; [by apply authentication_sound | apply authentication_complete].
Qed.

Lemma authentication_iff_witness :
  bytes_wf [1; 1; 117; 2; 112; 119; 9] /\
  (authentication "u" "pw" [1; 1; 117; 2; 112; 119; 9] = Ok (6%nat, [1; 0]) <->
   [1; 0] = [1; 0] /\ exists frame rest, upstream_auth "u" "pw" = Ok frame /\
     [1; 1; 117; 2; 112; 119; 9] = frame ++ rest /\ 6%nat = length frame) /\
  authentication "u" "pw" [1; 1; 117; 2; 112; 119; 9] = Ok (6%nat, [1; 0]).
Proof.
  assert (bytes_wf [1; 1; 117; 2; 112; 119; 9]) as H by (repeat constructor; lia).
  split; [exact H|]. split; [by apply authentication_iff | vm_compute; reflexivity].
Defined.
