(* ===== verification/NormalizerConfig.v ===== *)
(** * The egress normalizer's configuration contract

    [scripts/transport_egress_normalizer.py]: the typed validation of the
    complete private authority ([validate_config] and its helpers), the
    duplicate-safe decoding hook, and the sealed resolver environment check. *)

From S2P Require Import Prelude PyValue PyStr IPAddr DestinationPolicy.

#[local] Open Scope Z_scope.

Definition normalizer_error (m : string) : exn := Exn NormalizerError m.

(** [LISTENERS]: the fixed listener names and the backend each one uses. *)
Definition LISTENERS : list (string * string) :=
  [("direct_xray", "direct"); ("direct_hysteria", "direct"); ("warp_xray", "warp")]%string.

(** [_keys] *)
Definition check_keys (v : value) (expected : list string) : res unit :=
  raise_if (negb (is_dict v) || negb (same_set (keys (dict_of v)) expected))
    (normalizer_error "invalid-config-shape").

(** [_integer] *)
Definition integer (v : value) (low high : Z) : res unit :=
  raise_if (negb (type_is_int v) || negb ((low <=? int_of v) && (int_of v <=? high)))
    (normalizer_error "invalid-config-number").

(** [_identity] *)
Definition identity (v : value) : res unit := integer v 1 (2 ^ 32 - 2).

Definition printable (c : ascii) : bool := (32 <=? ord c) && (ord c <=? 126).

(** [_credential] *)
Definition credential (v : value) (password : bool) : res unit :=
  let n := py_len (str_of v) in
  raise_if (negb (is_str v)
            || negb (((if password then 32 else 1) <=? n) && (n <=? (if password then 128 else 63)))
            || negb (is_ascii (str_of v))
            || negb (all_chars printable (str_of v)))
    (normalizer_error "invalid-config-credential").

(** The accumulators of the backend and listener loops.  Addresses, ports and
    passwords are recorded after their type checks; pool bounds are checked
    only afterwards, so they are still values. *)
Record scan := Scan {
  sc_pools : list (value * value);
  sc_endpoints : list (string * Z);
  sc_passwords : list string;
}.

Definition backend_keys : list string :=
  ["address"; "port"; "username"; "password"; "udp_source_port_min"; "udp_source_port_max"]%string.

(** The backend address test of the backend loop. *)
Definition backend_address_bad (name : string) (written : value) (a : ipaddr) : bool :=
  negb (py_eq written (VStr (ip_str a)))
  || negb (bool_decide (ip_ver a = V4))
  || (bool_decide (name = "direct"%string) && negb (bool_decide (ip_str a = "127.0.0.55"%string)))
  || (bool_decide (name = "warp"%string)
      && (is_loopback a || negb (is_private a) || is_unspecified a)).

(** One iteration of [for name, backend in raw["backends"].items()]. *)
Definition backend_step (sc : scan) (kv : string * value) : res scan :=
  let '(name, backend) := kv in
  check_keys backend backend_keys ;;;
  let f := field (dict_of backend) in
  let* a := try_except (normalize_address (f "address")) [PolicyError]
              (fun _ => Raise (normalizer_error "invalid-backend-address")) in
  raise_if (backend_address_bad name (f "address") a) (normalizer_error "invalid-backend-address") ;;;
  integer (f "port") 1 65535 ;;;
  credential (f "username") false ;;;
  credential (f "password") true ;;;
  Ok (Scan (sc_pools sc ++ [(f "udp_source_port_min", f "udp_source_port_max")])
           (sc_endpoints sc ++ [(str_of (f "address"), int_of (f "port"))])
           (sc_passwords sc ++ [str_of (f "password")])).

Record lscan := LScan { ls_scan : scan; ls_names : list string; ls_used : list string }.

Definition listener_keys : list string :=
  ["name"; "address"; "port"; "username"; "password"; "backend"; "udp_port_min"; "udp_port_max"]%string.

(** The contract test on a listener's name and backend. *)
Definition listener_contract_bad (names : list string) (name backend : value) : bool :=
  negb (is_str name)
  || match dget (str_of name) LISTENERS with
     | None => true
     | Some b => mem (str_of name) names || negb (py_eq backend (VStr b))
     end.

(** One iteration of [for listener in listeners]. *)
Definition listener_step (input_only : bool) (runtime_uid : value) (st : lscan) (listener : value)
    : res lscan :=
  check_keys listener (if input_only then listener_keys else listener_keys ++ ["frontend_uid"%string]) ;;;
  let f := field (dict_of listener) in
  raise_if (listener_contract_bad (ls_names st) (f "name") (f "backend"))
    (normalizer_error "invalid-listener-contract") ;;;
  raise_if (negb (py_eq (f "address") (VStr "127.0.0.1")))
    (normalizer_error "invalid-listener-address") ;;;
  integer (f "port") 1 65535 ;;;
  let endpoint := (str_of (f "address"), int_of (f "port")) in
  raise_if (bool_decide (endpoint ∈ sc_endpoints (ls_scan st))) (normalizer_error "duplicate-endpoint") ;;;
  (if input_only then Ok tt else
     identity (f "frontend_uid") ;;;
     raise_if (py_eq (f "frontend_uid") runtime_uid) (normalizer_error "identity-not-separated")) ;;;
  credential (f "username") false ;;;
  credential (f "password") true ;;;
  let sc := ls_scan st in
  Ok (LScan
        (Scan (sc_pools sc ++ [(f "udp_port_min", f "udp_port_max")])
              (sc_endpoints sc ++ [endpoint])
              (sc_passwords sc ++ [str_of (f "password")]))
        (ls_names st ++ [str_of (f "name")])
        (ls_used st ++ [str_of (f "backend")])).

(** The first loop over [pools]. *)
Definition check_pool (endpoints : list (string * Z)) (p : value * value) : res unit :=
  integer p.1 1 65535 ;;;
  integer p.2 (int_of p.1) 65535 ;;;
  raise_if ((8191 <? int_of p.2 - int_of p.1)
            || existsb (fun e => (int_of p.1 <=? e.2) && (e.2 <=? int_of p.2)) endpoints)
    (normalizer_error "invalid-port-pool").

(** The second loop: each pool against the ones before it. *)
Fixpoint check_overlaps (before : list (value * value)) (pools : list (value * value)) : res unit :=
  match pools with
  | [] => Ok tt
  | (low, high) :: pools =>
      raise_if (existsb (fun o => (int_of low <=? int_of o.2) && (int_of o.1 <=? int_of high)) before)
        (normalizer_error "overlapping-port-pools") ;;;
      check_overlaps (before ++ [(low, high)]) pools
  end.

(** [for x in l: check x] *)
Definition check_all {A} (f : A -> res unit) (l : list A) : res unit :=
  foldM_res (fun _ x => f x) l tt.

Definition resolver_ranges : list (string * (Z * Z)) :=
  [("timeout_seconds", (1, 5)); ("attempts", (1, 2));
   ("lookup_timeout_seconds", (1, 15)); ("workers", (1, 8))]%string.

Definition default_policy : policy := Policy [] [] [].

Definition check_nameserver (v : value) : res unit :=
  try_except
    (let* a := normalize_address v in
     raise_if (negb (py_eq v (VStr (ip_str a)))) (normalizer_error "invalid-resolvers") ;;;
     if bool_decide (str_of v = LOCAL_DNS_FORWARDER) then Ok tt else
       let* ok := allows default_policy (str_of v) (VInt 53) "udp" in
       raise_if (negb ok) (normalizer_error "invalid-resolvers"))
    [PolicyError] (fun _ => Raise (normalizer_error "invalid-resolvers")).

Definition validate_resolver (resolver : value) : res unit :=
  check_keys resolver ("nameservers"%string :: resolver_ranges.*1) ;;;
  let f := field (dict_of resolver) in
  let servers := list_of (f "nameservers") in
  raise_if (negb (is_list (f "nameservers"))
            || negb ((1 <=? Z.of_nat (length servers)) && (Z.of_nat (length servers) <=? 3)))
    (normalizer_error "invalid-resolvers") ;;;
  check_all check_nameserver servers ;;;
  raise_if (negb (all_distinct servers)) (normalizer_error "invalid-resolvers") ;;;
  check_all (fun r => integer (f r.1) r.2.1 r.2.2) resolver_ranges.

Definition check_owned (v : value) : res unit :=
  try_except
    (let* a := normalize_address v in
     raise_if (negb (py_eq v (VStr (ip_str a)))) (normalizer_error "invalid-owned-addresses"))
    [PolicyError] (fun _ => Raise (normalizer_error "invalid-owned-addresses")).

Definition check_management (ports : value) : res unit :=
  raise_if (negb (is_list ports) || (256 <? Z.of_nat (length (list_of ports))))
    (normalizer_error "invalid-management-ports") ;;;
  check_all (fun p => integer p 1 65535) (list_of ports) ;;;
  raise_if (negb (all_distinct (list_of ports))) (normalizer_error "invalid-management-ports").

Definition validate_policy (p : value) : res unit :=
  check_keys p ["owned_addresses"; "management_tcp_ports"; "management_udp_ports"]%string ;;;
  let f := field (dict_of p) in
  let owned := f "owned_addresses" in
  raise_if (negb (is_list owned) || (256 <? Z.of_nat (length (list_of owned))))
    (normalizer_error "invalid-owned-addresses") ;;;
  check_all check_owned (list_of owned) ;;;
  check_management (f "management_tcp_ports") ;;;
  check_management (f "management_udp_ports").

Definition limit_ranges : list (string * (Z * Z)) :=
  [("max_connections", (1, 512)); ("max_associations", (1, 1024));
   ("max_pending_packets", (1, 4096)); ("max_datagram_bytes", (22, 65507));
   ("max_bindings_per_association", (1, 128)); ("handshake_seconds", (1, 60));
   ("connect_seconds", (1, 60)); ("idle_seconds", (1, 86400));
   ("udp_quarantine_seconds", (240, 86400))]%string.

Definition validate_limits (limits : value) : res unit :=
  check_keys limits limit_ranges.*1 ;;;
  check_all (fun r => integer (field (dict_of limits) r.1) r.2.1 r.2.2) limit_ranges.

Definition top_keys : list string :=
  ["schema_version"; "backends"; "listeners"; "resolver"; "policy"; "limits"]%string.

(** [validate_config] *)
Definition validate_config (raw : value) (input_only : bool) : res value :=
  check_keys raw (if input_only then top_keys else top_keys ++ ["runtime_uid"%string]) ;;;
  let f := field (dict_of raw) in
  raise_if (negb (type_is_int (f "schema_version")) || negb (int_of (f "schema_version") =? 1))
    (normalizer_error "invalid-config-version") ;;;
  (if input_only then Ok tt else identity (f "runtime_uid")) ;;;
  let backends := dict_of (f "backends") in
  raise_if (negb (is_dict (f "backends")) || negb (truthy (f "backends"))
            || negb (subset (keys backends) ["direct"; "warp"]%string))
    (normalizer_error "invalid-backends") ;;;
  let* sc := foldM_res backend_step backends (Scan [] [] []) in
  let listeners := list_of (f "listeners") in
  raise_if (negb (is_list (f "listeners"))
            || negb ((1 <=? Z.of_nat (length listeners)) && (Z.of_nat (length listeners) <=? 3)))
    (normalizer_error "invalid-listeners") ;;;
  let* ls := foldM_res (listener_step input_only (f "runtime_uid")) listeners (LScan sc [] []) in
  raise_if (negb (same_set (ls_used ls) (keys backends))) (normalizer_error "unconsumed-backend") ;;;
  let sc := ls_scan ls in
  raise_if (negb (nodup_str (sc_passwords sc))) (normalizer_error "reused-config-credential") ;;;
  check_all (check_pool (sc_endpoints sc)) (sc_pools sc) ;;;
  check_overlaps [] (sc_pools sc) ;;;
  validate_resolver (f "resolver") ;;;
  validate_policy (f "policy") ;;;
  validate_limits (f "limits") ;;;
  Ok raw.

(** [_duplicate_safe]: the [object_pairs_hook] of the configuration decoder. *)
Definition duplicate_safe (pairs : list (string * value)) : res (list (string * value)) :=
  foldM_res (fun result kv =>
    raise_if (mem kv.1 (keys result)) (normalizer_error "duplicate-config-field") ;;;
    Ok (dset kv.1 kv.2 result)) pairs [].

(** ** What a validated configuration guarantees *)

Definition backend_pool (kv : string * value) : value * value :=
  (field (dict_of kv.2) "udp_source_port_min", field (dict_of kv.2) "udp_source_port_max").
Definition listener_pool (l : value) : value * value :=
  (field (dict_of l) "udp_port_min", field (dict_of l) "udp_port_max").
Definition endpoint_of (v : value) : string * Z :=
  (str_of (field (dict_of v) "address"), int_of (field (dict_of v) "port")).
Definition password_of (v : value) : string := str_of (field (dict_of v) "password").
Definition name_of (v : value) : string := str_of (field (dict_of v) "name").
Definition backend_of (v : value) : string := str_of (field (dict_of v) "backend").

Definition config_backends (raw : value) : list (string * value) :=
  dict_of (field (dict_of raw) "backends").
Definition config_listeners (raw : value) : list value :=
  list_of (field (dict_of raw) "listeners").
Definition range_of (p : value * value) : Z * Z := (int_of p.1, int_of p.2).
(** The UDP port ranges, one per backend and one per listener. *)
Definition config_pools (raw : value) : list (Z * Z) :=
  range_of <$> (backend_pool <$> config_backends raw) ++ (listener_pool <$> config_listeners raw).
(** Every TCP endpoint the configuration names. *)
Definition config_endpoints (raw : value) : list (string * Z) :=
  ((fun kv => endpoint_of kv.2) <$> config_backends raw) ++ (endpoint_of <$> config_listeners raw).
Definition config_passwords (raw : value) : list string :=
  ((fun kv => password_of kv.2) <$> config_backends raw) ++ (password_of <$> config_listeners raw).

Definition in_range (p : Z) (r : Z * Z) : Prop := r.1 <= p <= r.2.
Definition disjoint_ranges (r s : Z * Z) : Prop := r.2 < s.1 \/ s.2 < r.1.

Definition backend_ok (kv : string * value) : Prop :=
  exists a, normalize_address (field (dict_of kv.2) "address") = Ok a /\
    field (dict_of kv.2) "address" = VStr (ip_str a) /\
    backend_address_bad kv.1 (field (dict_of kv.2) "address") a = false.

Definition listener_ok (input_only : bool) (runtime_uid l : value) : Prop :=
  dget (name_of l) LISTENERS = Some (backend_of l) /\
  (endpoint_of l).1 = "127.0.0.1"%string /\
  (input_only = false -> exists uid, field (dict_of l) "frontend_uid" = VInt uid /\
     1 <= uid <= 2 ^ 32 - 2 /\ py_eq (VInt uid) runtime_uid = false).

(** *** Helper lemmas *)

Lemma integer_Ok v lo hi u : integer v lo hi = Ok u -> exists z, v = VInt z /\ lo <= z <= hi.
Proof.
  unfold integer. intros H. res_inv H. bprop. apply type_is_int_true in H as [z ->].
  simpl in *. eauto.
Qed.

Lemma check_all_Ok {A} (f : A -> res unit) l u :
  check_all f l = Ok u <-> Forall (fun x => f x = Ok tt) l.
Proof.
  unfold check_all. destruct u. induction l as [|x l IH]; simpl; [done|].
  rewrite Forall_cons, <-IH. destruct (f x) as [[]|e]; simpl; [tauto|].
  split; [done | by intros []].
Qed.

Lemma check_overlaps_Ok before pools u :
  check_overlaps before pools = Ok u ->
  forall i j p q, (i < j)%nat -> (length before <= j)%nat ->
    (before ++ pools) !! i = Some p -> (before ++ pools) !! j = Some q ->
    disjoint_ranges (range_of p) (range_of q).
Proof.
  revert before. induction pools as [|[lo hi] pools IH]; intros before H i j p q Hij Hj Hp Hq.
  - rewrite app_nil_r in Hq. apply lookup_lt_Some in Hq. lia.
  - cbn [check_overlaps] in H. res_step H.
    destruct (decide (j = length before)) as [->|Hne].
    + rewrite list_lookup_middle in Hq by done. injection Hq as <-.
      rewrite lookup_app_l in Hp by lia. apply existsb_false in Hg.
      rewrite Forall_lookup in Hg. specialize (Hg _ _ Hp). simpl in Hg.
      unfold disjoint_ranges, range_of. simpl. lia.
    + replace (before ++ (lo, hi) :: pools) with ((before ++ [(lo, hi)]) ++ pools) in *
        by by rewrite <-app_assoc.
      eapply IH; [done | exact Hij | rewrite length_app; simpl; lia | done | done].
Qed.

Lemma backend_step_Ok sc kv sc' :
  backend_step sc kv = Ok sc' ->
  sc' = Scan (sc_pools sc ++ [backend_pool kv]) (sc_endpoints sc ++ [endpoint_of kv.2])
             (sc_passwords sc ++ [password_of kv.2]) /\ backend_ok kv.
Proof.
  destruct kv as [name b]. cbn [backend_step]. intros H.
  do 2 res_step H. apply try_raise_Ok in Ha0; [|eauto].
  res_inv H. subst sc'. split; [done|]. exists a0. split_and!; [done| |done].
  unfold backend_address_bad in Hg. bprop. simpl. by apply py_eq_str.
Qed.

Lemma backends_scan l sc :
  foldM_res backend_step l (Scan [] [] []) = Ok sc ->
  sc = Scan (backend_pool <$> l) ((fun kv => endpoint_of kv.2) <$> l)
            ((fun kv => password_of kv.2) <$> l) /\ Forall backend_ok l.
Proof.
  apply (foldM_res_ind (fun l sc => sc = Scan (backend_pool <$> l)
    ((fun kv => endpoint_of kv.2) <$> l) ((fun kv => password_of kv.2) <$> l) /\ Forall backend_ok l));
    [done|].
  intros d x s s' [-> Hd] [-> Hx]%backend_step_Ok. rewrite !fmap_app. split; [done|].
  by apply Forall_app_2; [|constructor].
Qed.

Lemma listener_contract_good names name b :
  listener_contract_bad names name b = false ->
  exists n, name = VStr n /\ b = VStr (str_of b) /\
    dget n LISTENERS = Some (str_of b) /\ n ∉ names.
Proof.
  unfold listener_contract_bad. intros [Hn Hb]%orb_false_iff. bprop.
  apply is_str_true in Hn as [n ->]. exists n. cbn [str_of] in Hb.
  destruct (dget n LISTENERS) as [b'|] eqn:Hg; [|done]. bprop.
  apply mem_false in H. apply py_eq_str in H0 as ->. done.
Qed.

Lemma listener_step_Ok io uid st l st' :
  listener_step io uid st l = Ok st' ->
  st' = LScan (Scan (sc_pools (ls_scan st) ++ [listener_pool l])
                    (sc_endpoints (ls_scan st) ++ [endpoint_of l])
                    (sc_passwords (ls_scan st) ++ [password_of l]))
              (ls_names st ++ [name_of l]) (ls_used st ++ [backend_of l]) /\
  listener_ok io uid l /\ name_of l ∉ ls_names st /\ endpoint_of l ∉ sc_endpoints (ls_scan st).
Proof.
  unfold listener_step. intros H. res_inv H. bprop.
  destruct (listener_contract_good _ _ _ Hg) as (n & Hn & Hb & Hd & Hfresh).
  subst st'. split; [done|].
  unfold listener_ok, name_of, backend_of. rewrite Hn.
  apply py_eq_str in Hg0. split_and!; [done| | |done|done].
  - simpl. by rewrite Hg0.
  - intros ->. res_inv Ha1. apply integer_Ok in Ha4 as (z & Hz & ?).
    rewrite Hz in *. eauto.
Qed.

Lemma listeners_scan io uid l sc ls :
  foldM_res (listener_step io uid) l (LScan sc [] []) = Ok ls ->
  ls = LScan (Scan (sc_pools sc ++ (listener_pool <$> l)) (sc_endpoints sc ++ (endpoint_of <$> l))
                   (sc_passwords sc ++ (password_of <$> l))) (name_of <$> l) (backend_of <$> l) /\
  Forall (listener_ok io uid) l /\ NoDup (name_of <$> l) /\ NoDup (endpoint_of <$> l) /\
  Forall (fun x => endpoint_of x ∉ sc_endpoints sc) l.
Proof.
  apply (foldM_res_ind (fun l ls => ls = LScan (Scan (sc_pools sc ++ (listener_pool <$> l))
     (sc_endpoints sc ++ (endpoint_of <$> l)) (sc_passwords sc ++ (password_of <$> l)))
     (name_of <$> l) (backend_of <$> l) /\
    Forall (listener_ok io uid) l /\ NoDup (name_of <$> l) /\ NoDup (endpoint_of <$> l) /\
    Forall (fun x => endpoint_of x ∉ sc_endpoints sc) l)).
  - simpl. rewrite !app_nil_r. destruct sc. split_and!; auto using NoDup_nil_2.
  - intros d x s s' (-> & Hl & Hn & He & Hf) (-> & Hx & Hxn & Hxe)%listener_step_Ok.
    simpl in *. rewrite !fmap_app, !app_assoc. rewrite elem_of_app in Hxe.
    split_and!; [done | by apply Forall_app_2; [|constructor] | | |
      apply Forall_app_2; [done|constructor; [tauto|done]]];
      (apply NoDup_app; split_and!; [done| |apply NoDup_singleton]);
      intros y Hy ->%list_elem_of_singleton; tauto.
Qed.

(** *** The validated configuration *)

(** Everything [validate_config] leaves behind, in terms of the raw fields. *)
Lemma validate_config_scan raw io cfg :
  validate_config raw io = Ok cfg ->
  cfg = raw /\
  Forall backend_ok (config_backends raw) /\
  Forall (listener_ok io (field (dict_of raw) "runtime_uid")) (config_listeners raw) /\
  NoDup (name_of <$> config_listeners raw) /\ NoDup (endpoint_of <$> config_listeners raw) /\
  (forall b, b ∈ keys (config_backends raw) <-> b ∈ (backend_of <$> config_listeners raw)) /\
  NoDup (config_passwords raw) /\
  let pools := (backend_pool <$> config_backends raw) ++ (listener_pool <$> config_listeners raw) in
  Forall (fun p => check_pool (config_endpoints raw) p = Ok tt) pools /\
  check_overlaps [] pools = Ok tt.
Proof.
  unfold validate_config. intros H. res_inv H. bprop.
  apply backends_scan in Ha1 as [-> Hb].
  apply listeners_scan in Ha2 as (-> & Hl & Hn & He & _). simpl in *.
  apply check_all_Ok in Ha3. destruct a4. subst cfg.
  split_and!; try done.
  - intros b. symmetry. by apply same_set_true.
  - by apply nodup_str_true.
Qed.

Lemma check_pool_Ok endpoints p :
  check_pool endpoints p = Ok tt ->
  1 <= (range_of p).1 <= (range_of p).2 /\ (range_of p).2 <= 65535 /\
  (range_of p).2 - (range_of p).1 <= 8191 /\
  Forall (fun e => ~ in_range e.2 (range_of p)) endpoints.
Proof.
  unfold check_pool. intros H. res_inv H. bprop.
  apply integer_Ok in Ha as (lo & Hlo & ?). apply integer_Ok in Ha0 as (hi & Hhi & ?).
  match goal with Hx : existsb _ _ = false |- _ => apply existsb_false in Hx; rename Hx into He end.
  unfold in_range, range_of. simpl. rewrite Hlo, Hhi in *. simpl in *.
  split_and!; try lia. eapply Forall_impl; [exact He|]. simpl. intros e Hin. lia.
Qed.

Lemma config_pools_separate raw io cfg :
  validate_config raw io = Ok cfg ->
  (forall i r, config_pools raw !! i = Some r -> 1 <= r.1 <= r.2 /\ r.2 <= 65535 /\ r.2 - r.1 <= 8191) /\
  (forall i j r s, i <> j -> config_pools raw !! i = Some r -> config_pools raw !! j = Some s ->
     forall port, ~ (in_range port r /\ in_range port s)) /\
  (forall r e, r ∈ config_pools raw -> e ∈ config_endpoints raw -> ~ in_range e.2 r) /\
  NoDup (endpoint_of <$> config_listeners raw).
Proof.
  intros (_ & _ & _ & _ & He & _ & _ & Hp & Ho)%validate_config_scan.
  unfold config_pools. set (pools := _ ++ _) in *. split_and!; [| | |done].
  - intros i r (p & -> & Hi)%list_lookup_fmap_Some.
    rewrite Forall_lookup in Hp. apply Hp, check_pool_Ok in Hi. tauto.
  - intros i j r s Hij (p & -> & Hi)%list_lookup_fmap_Some (q & -> & Hj)%list_lookup_fmap_Some port.
    assert (disjoint_ranges (range_of p) (range_of q) \/ disjoint_ranges (range_of q) (range_of p)) as Hd.
    { destruct (decide (i < j)%nat);
        [left; apply (check_overlaps_Ok _ _ _ Ho i j) | right; apply (check_overlaps_Ok _ _ _ Ho j i)];
        simpl; try done; lia. }
    unfold disjoint_ranges, in_range in *. lia.
  - intros r e (p & -> & Hi)%list_elem_of_fmap Hin. rewrite Forall_forall in Hp.
    apply Hp, check_pool_Ok in Hi as (_ & _ & _ & Hf). rewrite Forall_forall in Hf. by apply Hf.
Qed.

(** In a configuration that validates, every UDP port pool is a range of
    at most 8192 ports of 1..65535, no two pools of different owners share a
    port, and no pool contains the TCP port of any configured endpoint; the
    listeners' own endpoints are pairwise distinct. *)
Theorem validated_pools raw io cfg :
  validate_config raw io = Ok cfg ->
  (forall i r, config_pools raw !! i = Some r -> 1 <= r.1 <= r.2 /\ r.2 <= 65535 /\ r.2 - r.1 <= 8191) /\
  (forall i j r s, i <> j -> config_pools raw !! i = Some r -> config_pools raw !! j = Some s ->
     forall port, ~ (in_range port r /\ in_range port s)) /\
  (forall r e, r ∈ config_pools raw -> e ∈ config_endpoints raw -> ~ in_range e.2 r) /\
  NoDup (endpoint_of <$> config_listeners raw).
Proof. apply config_pools_separate. Qed.

(** In a runtime configuration that validates, all SOCKS passwords are
    pairwise distinct, each listener name occurs once and uses exactly the
    backend fixed for it, every backend is used by some listener and every
    listener's backend exists, and no listener runs under the normalizer's
    own user id. *)
Theorem validated_identities raw cfg :
  validate_config raw false = Ok cfg ->
  NoDup (config_passwords raw) /\ NoDup (name_of <$> config_listeners raw) /\
  (forall b, b ∈ keys (config_backends raw) <-> b ∈ (backend_of <$> config_listeners raw)) /\
  (forall l, l ∈ config_listeners raw ->
     (name_of l, backend_of l) ∈ LISTENERS /\ (endpoint_of l).1 = "127.0.0.1"%string /\
     exists uid, field (dict_of l) "frontend_uid" = VInt uid /\
       py_eq (VInt uid) (field (dict_of raw) "runtime_uid") = false).
Proof.
  intros (_ & _ & Hl & Hn & _ & Hb & Hpw & _)%validate_config_scan.
  split_and!; [done|done|done|].
  intros l Hin. rewrite Forall_forall in Hl. destruct (Hl l Hin) as (Hd & He & Hu).
  split_and!; [by apply dget_Some_elem | done|].
  destruct (Hu eq_refl) as (uid & ? & _ & ?). eauto.
Qed.

(** a configured upstream is never a public address: the direct backend is
    the loopback gateway 127.0.0.55 and the WARP backend a specified, private,
    non-loopback IPv4 address; there is no third backend. *)
Theorem validated_backends raw io cfg name b :
  validate_config raw io = Ok cfg -> (name, b) ∈ config_backends raw ->
  exists a, field (dict_of b) "address" = VStr (ip_str a) /\ ip_ver a = V4 /\
    is_private a = true /\ is_unspecified a = false /\
    ((name = "direct"%string /\ ip_str a = "127.0.0.55"%string) \/
     (name = "warp"%string /\ is_loopback a = false)).
Proof.
  intros Hv Hin. assert (name ∈ ["direct"; "warp"]%string) as Hname.
  { unfold validate_config in Hv. res_inv Hv. bprop.
    eapply subset_true; [done|]. apply list_elem_of_fmap. by exists (name, b). }
  apply validate_config_scan in Hv as (_ & Hb & _). rewrite Forall_forall in Hb.
  destruct (Hb _ Hin) as (a & Ha & Hf & Hbad). simpl in *.
  apply normalize_Ok in Ha as (Hplain & _).
  unfold backend_address_bad in Hbad. bprop. exists a.
  assert (is_unspecified a = false /\ is_private a = true /\
    ((name = "direct"%string /\ ip_str a = "127.0.0.55"%string) \/
     (name = "warp"%string /\ is_loopback a = false))) as (? & ? & ?).
  { apply elem_of_cons in Hname as [->| ->%list_elem_of_singleton]; simpl in *; bprop.
    - assert (a = IP V4 0x7f000037 None) as -> by (apply ip_str_inj; [done|done|done]).
      split_and!; [done|done|by left].
    - split_and!; [done|done|by right]. }
  by split_and!.
Qed.

(** ** A concrete configuration *)

Definition sample_config : value :=
  let str s := VStr s in
  VDict [("schema_version", VInt 1); ("runtime_uid", VInt 990);
    ("backends", VDict
      [("direct", VDict [("address", str "127.0.0.55"); ("port", VInt 1080); ("username", str "direct");
          ("password", str "0123456789abcdef0123456789abcdef");
          ("udp_source_port_min", VInt 30000); ("udp_source_port_max", VInt 30063)]);
       ("warp", VDict [("address", str "10.55.0.2"); ("port", VInt 1080); ("username", str "warp");
          ("password", str "1123456789abcdef0123456789abcdef");
          ("udp_source_port_min", VInt 31000); ("udp_source_port_max", VInt 31063)])]);
    ("listeners", VList
      [VDict [("name", str "direct_xray"); ("address", str "127.0.0.1"); ("port", VInt 10801);
          ("username", str "a"); ("password", str "2123456789abcdef0123456789abcdef");
          ("backend", str "direct"); ("udp_port_min", VInt 32000); ("udp_port_max", VInt 32063);
          ("frontend_uid", VInt 991)];
       VDict [("name", str "warp_xray"); ("address", str "127.0.0.1"); ("port", VInt 10802);
          ("username", str "b"); ("password", str "3123456789abcdef0123456789abcdef");
          ("backend", str "warp"); ("udp_port_min", VInt 32064); ("udp_port_max", VInt 32127);
          ("frontend_uid", VInt 992)]]);
    ("resolver", VDict [("nameservers", VList [str "127.0.0.2"; str "9.9.9.9"]);
       ("timeout_seconds", VInt 2); ("attempts", VInt 2); ("lookup_timeout_seconds", VInt 5);
       ("workers", VInt 2)]);
    ("policy", VDict [("owned_addresses", VList [str "203.0.113.10"]);
       ("management_tcp_ports", VList [VInt 22]); ("management_udp_ports", VList [])]);
    ("limits", VDict [("max_connections", VInt 64); ("max_associations", VInt 64);
       ("max_pending_packets", VInt 64); ("max_datagram_bytes", VInt 1500);
       ("max_bindings_per_association", VInt 16); ("handshake_seconds", VInt 5);
       ("connect_seconds", VInt 5); ("idle_seconds", VInt 60); ("udp_quarantine_seconds", VInt 240)])]%string.

Lemma validated_pools_witness :
  validate_config sample_config false = Ok sample_config /\
  config_pools sample_config = [(30000, 30063); (31000, 31063); (32000, 32063); (32064, 32127)] /\
  NoDup (endpoint_of <$> config_listeners sample_config).
Proof.
  assert (validate_config sample_config false = Ok sample_config) as H by (vm_compute; reflexivity).
  split; [exact H|]. split; [vm_compute; reflexivity|].
  apply (validated_pools sample_config false sample_config H).
Defined.

Lemma validated_identities_witness :
  validate_config sample_config false = Ok sample_config /\ NoDup (config_passwords sample_config).
Proof.
  assert (validate_config sample_config false = Ok sample_config) as H by (vm_compute; reflexivity).
  split; [exact H|]. apply (validated_identities sample_config sample_config H).
Defined.

Lemma validated_backends_witness :
  exists b a, ("warp"%string, b) ∈ config_backends sample_config /\
    field (dict_of b) "address" = VStr (ip_str a) /\ is_private a = true.
Proof.
  assert (validate_config sample_config false = Ok sample_config) as H by (vm_compute; reflexivity).
  eexists. destruct (validated_backends sample_config false sample_config "warp" _ H
    (list_elem_of_further _ _ _ (list_elem_of_here _ _))) as (a & ? & ? & ? & _).
  exists a. split; [right; left|]. done.
Defined.
