(* ===== verification/NormalizerStreams.v ===== *)
(** * The egress normalizer's byte streams

    [scripts/transport_egress_normalizer.py]: the frame reader that never reads
    ahead ([_frame]), the non-blocking gateway handshake ([_GatewayConnect]),
    the blocking one ([_backend]), the client session ([_handle]) and the
    bidirectional relay ([_relay]).  What the kernel answers to [recv], [send],
    [accept] and the clock is input to the definitions. *)

From S2P Require Import Prelude PyValue PyStr IPAddr DestinationPolicy Socks NormalizerConfig.

#[local] Open Scope Z_scope.

Definition os_error (m : string) : exn := Exn OSError m.

(** ** Reading one frame *)

(** What [recv(1)] before a deadline does next. *)
Inductive recv_ev :=
| Byte (b : Z)
| Eof
| Expired        (* the deadline is found passed before the read *)
| RecvError.     (* the read raises, a time-out included *)

(** [_frame]: an exhausted event list is a peer that stays silent until the
    read times out. *)
Fixpoint frame_loop {A} (parser : list Z -> res A) (data : list Z) (evs : list recv_ev)
    : res A * list recv_ev :=
  if Nat.ltb MAX_HANDSHAKE (length data) then (Raise (wire_error "oversized-handshake"), evs)
  else match parser data with
  | Ok r => (Ok r, evs)
  | Raise e =>
      if caught [NeedMore] e then
        match evs with
        | [] => (Raise (os_error "timed out"), [])
        | Byte b :: evs => frame_loop parser (data ++ [b]) evs
        | Eof :: evs => (Raise (wire_error "control-closed"), evs)
        | Expired :: evs => (Raise (wire_error "handshake-expired"), evs)
        | RecvError :: evs => (Raise (os_error "recv"), evs)
        end
      else (Raise e, evs)
  end.

Definition frame {A} (parser : list Z -> res A) (evs : list recv_ev) : res A * list recv_ev :=
  frame_loop parser [] evs.

(** [_expected] *)
Definition expected (data wanted : list Z) : res nat :=
  raise_if (Nat.ltb (length data) (length wanted)) need_more ;;;
  raise_if (negb (bool_decide (data = wanted))) (wire_error "upstream-authentication-refused") ;;;
  Ok (length data).

(** The reader returns at the first prefix the parser accepts, provided it only
    asked for more before. *)
Lemma frame_loop_iff {A} (parser : list Z -> res A) data evs r evs' :
  frame_loop parser data evs = (Ok r, evs') <->
  exists l, evs = (Byte <$> l) ++ evs' /\ parser (data ++ l) = Ok r /\
    (length (data ++ l) <= MAX_HANDSHAKE)%nat /\
    forall n, (n < length l)%nat -> exists e, parser (data ++ take n l) = Raise e /\ caught [NeedMore] e = true.
Proof.
  revert data. induction evs as [|ev evs IH]; intros data; cbn [frame_loop];
    destruct (Nat.ltb_spec MAX_HANDSHAKE (length data)) as [Hlt|Hge].
  1,3: split; [done|]; intros (l & _ & _ & Hl & _); rewrite length_app in Hl; lia.
  1,2: destruct (parser data) as [v|e] eqn:Hp.
  1,3: split; [intros [= <- <-]; exists []; rewrite (app_nil_r data); split_and!; [done..|simpl; intros; lia]|];
    intros ([|b l] & Hev & Hv & _ & Hn); [rewrite app_nil_r in Hv; simpl in Hev; congruence|];
    destruct (Hn 0%nat ltac:(simpl; lia)) as (e & He & _); simpl in He; rewrite app_nil_r in He; congruence.
  - destruct (caught [NeedMore] e); (split; [done|]);
      intros ([|b l] & Hev & Hv & _); simpl in *; rewrite ?app_nil_r in *; congruence.
  - destruct (caught [NeedMore] e) eqn:Hc.
    2:{ split; [done|]. intros ([|b l] & Hev & Hv & _ & Hn); [rewrite app_nil_r in Hv; congruence|].
        destruct (Hn 0%nat ltac:(simpl; lia)) as (e' & He & ?). simpl in He.
        rewrite app_nil_r in He. congruence. }
    destruct ev as [b| | |].
    2-4: split; [done|]; intros ([|b l] & Hev & Hv & _); simpl in *; rewrite ?app_nil_r in *; congruence.
    rewrite IH. split.
    + intros (l & -> & Hv & Hl & Hn). exists (b :: l). rewrite <-app_assoc in *. split_and!; [done..|].
      intros [|n] Hlt; simpl in *; [rewrite app_nil_r; eauto|].
      destruct (Hn n ltac:(lia)) as (e' & He & ?). rewrite <-app_assoc in He. eauto.
    + intros ([|b' l] & Hev & Hv & Hl & Hn); [rewrite app_nil_r in Hv; congruence|].
      simpl in Hev. injection Hev as <- ->. exists l. rewrite <-app_assoc. split_and!; [done..|].
      intros n Hlt. rewrite <-app_assoc. apply (Hn (S n)). simpl. lia.
Qed.

Lemma frame_iff {A} (parser : list Z -> res A) consumed evs r evs' :
  FrameParser parser consumed ->
  frame parser evs = (Ok r, evs') <->
  exists l, evs = (Byte <$> l) ++ evs' /\ parser l = Ok r /\ consumed r = length l /\
    (length l <= MAX_HANDSHAKE)%nat.
Proof.
  intros Hp. unfold frame. rewrite frame_loop_iff. simpl. split.
  - intros (l & -> & Hv & Hl & Hn). exists l. split_and!; [done..| |done].
    pose proof (Hp l) as Hf. simpl in Hf. rewrite Hv in Hf. destruct Hf as (Hc & Hx & _ & _).
    destruct (decide (consumed r < length l)%nat) as [Hlt|]; [|simpl in *; lia].
    destruct (Hn _ Hlt) as (e & He & Hce). congruence.
  - intros (l & -> & Hv & Hc & Hl). exists l. split_and!; [done..|].
    intros n Hlt. pose proof (Hp l) as Hf. simpl in Hf. rewrite Hv in Hf.
    destruct Hf as (_ & _ & _ & Hn). exists need_more. split; [apply Hn; simpl; lia | done].
Qed.

(** Framing is exact.  For a frame parser the reader returns a value exactly
    when the stream starts with that value's frame, of at most 1024 bytes, and
    then every event after the frame is left unread. *)
Theorem frame_exact {A} (parser : list Z -> res A) consumed evs r evs' :
  FrameParser parser consumed ->
  frame parser evs = (Ok r, evs') <->
  exists l, evs = (Byte <$> l) ++ evs' /\ parser l = Ok r /\ consumed r = length l /\
    (length l <= MAX_HANDSHAKE)%nat.
Proof. apply frame_iff. Qed.

(** ** The blocking exchanges of a session *)

(** A session's view of its connections: pending input events, whether each
    further [sendall] succeeds (all do when the list is exhausted), and the
    bytes written so far. *)
Record io := Io { io_in : list recv_ev; io_sends : list bool; io_out : list Z }.

Definition read_frame {A} (parser : list Z -> res A) : eff io A := fun s =>
  let '(r, evs) := frame parser (io_in s) in (r, Io evs (io_sends s) (io_out s)).

Definition sendall (data : list Z) : eff io unit := fun s =>
  match io_sends s with
  | false :: l => (Raise (os_error "send"), Io (io_in s) l (io_out s))
  | true :: l => (Ok tt, Io (io_in s) l (io_out s ++ data))
  | [] => (Ok tt, Io (io_in s) [] (io_out s ++ data))
  end.

Definition upstream_unavailable : exn := normalizer_error "upstream-unavailable".

Section Sessions.
Context (inet_ntop : ipver -> list Z -> string) (idna_label : string -> option string).

(** [_backend]: [connect_ok] is the outcome of [connection.connect]. *)
Definition backend_exchange (connect_ok : bool) (address username password : string)
    (command : Z) (host : string) (port : Z) : eff io (string * Z) :=
  eff_try
    (eff_lift (raise_if (negb connect_ok) (os_error "connect")) ;;
     sendall [5; 1; 2] ;;
     read_frame (fun d => expected d [5; 2]) ;;
     auth ← eff_lift (upstream_auth username password);
     sendall auth ;;
     read_frame (fun d => expected d [1; 0]) ;;
     req ← eff_lift (upstream_request command host (VInt port));
     sendall req ;;
     bound ← read_frame (upstream_reply inet_ntop idna_label);
     let '(_, bound_host, bound_port) := bound in
     eff_lift (raise_if ((command =? 3) && (negb (bool_decide (bound_host = address)) || (bound_port =? 0)))
       (wire_error "unexpected-upstream-relay")) ;;
     mret (bound_host, bound_port))
    [OSError; ValueError] (fun _ => eff_lift (Raise upstream_unavailable)).

Inductive phase := PGreeting | PAuthentication | PRequest | PRelay.

(** What [_handle] writes when the session fails in a phase. *)
Definition refusal (p : phase) : option (list Z) :=
  match p with
  | PGreeting => Some [5; 255]
  | PAuthentication => Some [1; 1]
  | PRequest => Some FAILURE
  | PRelay => None
  end.

(** The client session: its I/O, the phase it is in, and the resources the
    [finally] block returns. *)
Record session := Session {
  ss_io : io; ss_phase : phase;
  ss_backend_open : bool; ss_client_open : bool; ss_slots : Z
}.

Definition lift_io {A} (m : eff io A) : eff session A := fun s =>
  let '(r, i) := m (ss_io s) in
  (r, Session i (ss_phase s) (ss_backend_open s) (ss_client_open s) (ss_slots s)).
Definition enter (p : phase) : eff session unit :=
  eff_modify (fun s => Session (ss_io s) p (ss_backend_open s) (ss_client_open s) (ss_slots s)).
Definition backend_opened : eff session unit :=
  eff_modify (fun s => Session (ss_io s) (ss_phase s) true (ss_client_open s) (ss_slots s)).

(** What a session's requests are served by: candidate resolution with the
    staggered connect, the relay, and the UDP association. *)
Record services := Services {
  sv_connect : string -> Z -> eff io unit;
  sv_relay : eff io unit;
  sv_associate : eff io unit;
}.

Record listener_item := Item {
  it_name : string; it_address : string; it_port : Z; it_username : string; it_password : string
}.

(** The handshake of [_handle]: greeting, authentication, request. *)
Definition client_request (it : listener_item) : eff session (nat * Z * string * Z) :=
  g ← lift_io (read_frame greeting);
  lift_io (sendall g.2) ;;
  enter PAuthentication ;;
  a ← lift_io (read_frame (authentication (it_username it) (it_password it)));
  lift_io (sendall a.2) ;;
  enter PRequest ;;
  lift_io (read_frame (request inet_ntop idna_label)).

(** The two commands of [_handle]. *)
Definition serve_request (sv : services) (it : listener_item) (r : nat * Z * string * Z) : eff session unit :=
  let '(_, command, host, port) := r in
  if command =? 1 then
    lift_io (sv_connect sv host port) ;;
    backend_opened ;;
    frame ← eff_lift (reply (it_address it) (VInt (it_port it)));
    lift_io (sendall frame) ;;
    enter PRelay ;;
    lift_io (sv_relay sv)
  else
    eff_lift (raise_if (negb (bool_decide (it_name it = "direct_hysteria"%string))
                        && (negb (mem host ["0.0.0.0"; "::"]%string) || negb (port =? 0)))
      (wire_error "invalid-association-metadata")) ;;
    lift_io (sv_associate sv).

Definition refuse : eff session unit := fun s =>
  match refusal (ss_phase s) with
  | None => (Ok tt, s)
  | Some bytes => eff_try (lift_io (sendall bytes)) [OSError] (fun _ => mret tt) s
  end.

(** [_handle] *)
Definition handle (sv : services) (it : listener_item) : eff session unit :=
  eff_finally
    (eff_try (r ← client_request it; serve_request sv it r) [OSError; ValueError] (fun _ => refuse))
    (fun s => Session (ss_io s) (ss_phase s) false false (ss_slots s + 1)).
End Sessions.

(** ** The non-blocking gateway handshake *)

Inductive send_ev := SendBlocks | SendRaises | Sent (n : nat).
Inductive read_ev := ReadBlocks | ReadRaises | Chunk (l : list Z).

Record gateway := Gateway {
  gw_connecting : bool; gw_pending : list Z; gw_received : list Z; gw_stage : nat
}.

(** [_GatewayConnect.__init__]: [pending_connect] when [connect_ex] did not
    complete at once. *)
Definition gateway_init (pending_connect : bool) : gateway :=
  Gateway pending_connect [5; 1; 2] [] 0.

(** [_GatewayConnect.writing] *)
Definition gateway_writing (g : gateway) : bool :=
  gw_connecting g || negb (bool_decide (gw_pending g = [])).

Section GatewayConnect.
Context (inet_ntop : ipver -> list Z -> string) (idna_label : string -> option string).
Context (username password literal : string) (port : Z).
(** [self.admitted(literal, port, "tcp")] *)
Context (admitted : res bool).

(** The reading half of [advance]: the state, whether the handshake is
    complete, and the bytes taken from the connection by [recv(1)]. *)
Definition gateway_read (g : gateway) (readable : bool) (rd : read_ev) : res (gateway * bool * list Z) :=
  if negb readable || gateway_writing g then Ok (g, false, [])
  else match rd with
  | ReadBlocks => Ok (g, false, [])
  | ReadRaises => Raise (os_error "recv")
  | Chunk available =>
      let chunk := take 1 available in
      raise_if (bool_decide (chunk = []) || Nat.leb MAX_HANDSHAKE (length (gw_received g)))
        upstream_unavailable ;;;
      let received := gw_received g ++ chunk in
      let more := Gateway (gw_connecting g) (gw_pending g) received (gw_stage g) in
      if Nat.eqb (gw_stage g) 2 then
        match upstream_reply inet_ntop idna_label received with
        | Ok _ => Ok (more, true, chunk)
        | Raise e => if caught [NeedMore] e then Ok (more, false, chunk) else Raise e
        end
      else
        match expected received (if Nat.eqb (gw_stage g) 0 then [5; 2] else [1; 0]) with
        | Raise e => if caught [NeedMore] e then Ok (more, false, chunk) else Raise e
        | Ok _ =>
            let* pending :=
              (if Nat.eqb (gw_stage g) 0 then upstream_auth username password
               else
                 let* ok := admitted in
                 raise_if (negb ok) (policy_error "destination-denied") ;;;
                 upstream_request 1 literal (VInt port)) in
            Ok (Gateway (gw_connecting g) pending [] (S (gw_stage g)), false, chunk)
        end
  end.

(** What the kernel answers during one [advance]. *)
Record gateway_ev := GatewayEv {
  ge_readable : bool; ge_writable : bool; ge_so_error : bool; ge_send : send_ev; ge_read : read_ev
}.

(** [_GatewayConnect.advance]: the new state, whether the handshake is
    complete, the bytes written and the bytes taken. *)
Definition gateway_advance (g : gateway) (ev : gateway_ev) : res (gateway * bool * (list Z * list Z)) :=
  let* g :=
    (if gw_connecting g && ge_writable ev then
       raise_if (ge_so_error ev) upstream_unavailable ;;;
       Ok (Gateway false (gw_pending g) (gw_received g) (gw_stage g))
     else Ok g) in
  if negb (bool_decide (gw_pending g = [])) && ge_writable ev && negb (gw_connecting g) then
    match ge_send ev with
    | SendBlocks => Ok (g, false, ([], []))
    | SendRaises => Raise (os_error "send")
    | Sent n =>
        raise_if (Nat.eqb n 0) upstream_unavailable ;;;
        let g' := Gateway (gw_connecting g) (drop n (gw_pending g)) (gw_received g) (gw_stage g) in
        let* '(g', complete, taken) := gateway_read g' (ge_readable ev) (ge_read ev) in
        Ok (g', complete, (take n (gw_pending g), taken))
    end
  else
    let* '(g, complete, taken) := gateway_read g (ge_readable ev) (ge_read ev) in
    Ok (g, complete, ([], taken)).

(** Repeated [advance] up to completion or the end of the events, with the
    bytes written and taken altogether. *)
Fixpoint gateway_run (g : gateway) (out inp : list Z) (evs : list gateway_ev)
    : res (gateway * bool * (list Z * list Z)) :=
  match evs with
  | [] => Ok (g, false, (out, inp))
  | ev :: evs =>
      let* '(g, complete, (w, t)) := gateway_advance g ev in
      if (complete : bool) then Ok (g, true, (out ++ w, inp ++ t))
      else gateway_run g (out ++ w) (inp ++ t) evs
  end.
End GatewayConnect.

(** ** The relay *)

Definition MAX_STREAM_BUFFER : nat := Z.to_nat 65536.
(** The most one [recv] of the relay asks for. *)
Definition RECV_CHUNK : nat := Z.to_nat 16384.
#[global] Opaque MAX_STREAM_BUFFER RECV_CHUNK.

Inductive side := Client | Backend.
#[global] Instance side_eq_dec : EqDecision side.
Proof. solve_decision. Defined.
Definition peer (s : side) : side := match s with Client => Backend | Backend => Client end.
Definition set_side {A} (f : side -> A) (s : side) (v : A) : side -> A :=
  fun t => if decide (t = s) then v else f t.

(** [buffers], [read_open], [pending_fin] of [_relay], and the history of each
    connection: bytes read from it, bytes written to it, and whether its
    sending half was shut down. *)
Record relay := Relay {
  rl_buffer : side -> list Z; rl_open : side -> bool; rl_pending_fin : side -> bool;
  rl_last : Z;
  rl_read : side -> list Z; rl_written : side -> list Z; rl_fin : side -> bool
}.

Definition relay_init (now : Z) : relay :=
  Relay (fun _ => []) (fun _ => true) (fun _ => false) now (fun _ => []) (fun _ => []) (fun _ => false).

Definition sides : list side := [Client; Backend].
Definition readers (r : relay) : list side :=
  filter (fun s => rl_open r s && Nat.ltb (length (rl_buffer r (peer s))) MAX_STREAM_BUFFER) sides.
Definition writers (r : relay) : list side :=
  filter (fun s => negb (bool_decide (rl_buffer r s = []))) sides.

(** One answer of [send]; [None] ends the relay. *)
Definition relay_write (now : Z) (r : relay) (w : side * send_ev) : res (option relay) :=
  let '(s, ev) := w in
  match ev with
  | SendBlocks => Ok (Some r)
  | SendRaises => Raise (os_error "send")
  | Sent O => Ok None
  | Sent n =>
      Ok (Some (Relay (set_side (rl_buffer r) s (drop n (rl_buffer r s))) (rl_open r) (rl_pending_fin r)
                 now (rl_read r) (set_side (rl_written r) s (rl_written r s ++ take n (rl_buffer r s)))
                 (rl_fin r)))
  end.

(** One answer of [recv(min(16384, MAX_STREAM_BUFFER - buffered))]: a chunk
    event holds the bytes that are available, [[]] the end of the stream. *)
Definition relay_recv (now : Z) (r : relay) (w : side * read_ev) : res relay :=
  let '(s, ev) := w in
  match ev with
  | ReadBlocks => Ok r
  | ReadRaises => Raise (os_error "recv")
  | Chunk available =>
      match take (RECV_CHUNK `min` (MAX_STREAM_BUFFER - length (rl_buffer r (peer s)))) available with
      | [] =>
          Ok (Relay (rl_buffer r) (set_side (rl_open r) s false) (set_side (rl_pending_fin r) (peer s) true)
                (rl_last r) (rl_read r) (rl_written r) (rl_fin r))
      | data =>
          Ok (Relay (set_side (rl_buffer r) (peer s) (rl_buffer r (peer s) ++ data)) (rl_open r)
                (rl_pending_fin r) now (set_side (rl_read r) s (rl_read r s ++ data)) (rl_written r) (rl_fin r))
      end
  end.

(** The [pending_fin] loop; [ok] tells whether each [shutdown] succeeds. *)
Definition relay_fin (ok : side -> bool) (r : relay) (s : side) : res relay :=
  if rl_pending_fin r s && bool_decide (rl_buffer r s = []) then
    raise_if (negb (ok s)) (os_error "shutdown") ;;;
    Ok (Relay (rl_buffer r) (rl_open r) (set_side (rl_pending_fin r) s false) (rl_last r)
          (rl_read r) (rl_written r) (set_side (rl_fin r) s true))
  else Ok r.

(** The [writable] loop; [false] when a peer is gone and the relay returns. *)
Fixpoint relay_writes (now : Z) (ws : list (side * send_ev)) (r : relay) : res (relay * bool) :=
  match ws with
  | [] => Ok (r, true)
  | w :: ws =>
      let* o := relay_write now r w in
      match o with Some r => relay_writes now ws r | None => Ok (r, false) end
  end.

(** The environment of one pass of [_relay]. *)
Record relay_ev := RelayEv {
  re_stopped : bool; re_now : Z;
  re_writes : list (side * send_ev); re_reads : list (side * read_ev);
  re_shutdown_ok : side -> bool
}.

Inductive relay_end := Drained | Stopped | PeerGone.

(** One pass of the [while] loop: on to the next pass, or the end of the relay. *)
Definition relay_pass (idle : Z) (r : relay) (ev : relay_ev) : res (relay + relay_end * relay) :=
  if re_stopped ev || negb (re_now ev - rl_last r <? idle) then Ok (inr (Stopped, r))
  else if bool_decide (readers r = []) && bool_decide (writers r = []) then Ok (inr (Drained, r))
  else
    let* '(r, continues) := relay_writes (re_now ev) (re_writes ev) r in
    if negb continues then Ok (inr (PeerGone, r)) else
      let* r := foldM_res (relay_recv (re_now ev)) (re_reads ev) r in
      let* r := foldM_res (relay_fin (re_shutdown_ok ev)) sides r in
      Ok (inl r).

(** *** The relay's invariant *)

(** The selector reports a connection at most once, and only one it watches. *)
Definition relay_ev_ok (r : relay) (ev : relay_ev) : Prop :=
  NoDup (re_reads ev).*1 /\ Forall (fun s => s ∈ readers r) (re_reads ev).*1 /\
  Forall (fun s => s ∈ writers r) (re_writes ev).*1.

Inductive relay_reachable (idle : Z) : relay -> Prop :=
| relay_started now : relay_reachable idle (relay_init now)
| relay_passed r ev r' :
    relay_reachable idle r -> relay_ev_ok r ev -> relay_pass idle r ev = Ok (inl r') ->
    relay_reachable idle r'.

Record relay_inv (r : relay) : Prop := {
  inv_stream s : rl_read r s = rl_written r (peer s) ++ rl_buffer r (peer s);
  inv_bound s : (length (rl_buffer r s) <= MAX_STREAM_BUFFER)%nat;
  inv_fin s : rl_fin r (peer s) = true -> rl_open r s = false /\ rl_buffer r (peer s) = [];
  inv_pending s : rl_pending_fin r (peer s) = true -> rl_open r s = false;
  inv_eof s : rl_open r s = false -> rl_pending_fin r (peer s) = true \/ rl_fin r (peer s) = true;
}.

Lemma peer_peer s : peer (peer s) = s.
Proof. by destruct s. Qed.

Lemma relay_write_inv now r w r' :
  relay_inv r -> relay_write now r w = Ok (Some r') -> relay_inv r' /\ rl_open r' = rl_open r.
Proof.
  destruct w as [s [| |[|n]]]; intros [H1 H2 H3 H4 H5]; simpl; try done; intros [= <-]; [done|].
  split; [|done]. split; simpl; intros t; unfold set_side.
  - case_decide as Hs; [|done]. rewrite <-Hs, <-app_assoc, take_drop. apply H1.
  - case_decide; [|done]. change (length (drop (S n) (rl_buffer r s)) <= MAX_STREAM_BUFFER)%nat.
    rewrite length_drop. specialize (H2 s). lia.
  - intros Hf. destruct (H3 t Hf) as [? Hb]. split; [done|].
    case_decide as Hs; [|done]. subst s. by rewrite Hb, drop_nil.
  - apply H4.
  - apply H5.
Qed.

Lemma relay_writes_inv now ws r r' b :
  relay_inv r -> relay_writes now ws r = Ok (r', b) -> relay_inv r' /\ rl_open r' = rl_open r.
Proof.
  revert r. induction ws as [|w ws IH]; intros r Hr H; simpl in H; [by injection H as <- <-|].
  res_step H. destruct a as [r1|].
  - destruct (relay_write_inv _ _ _ _ Hr Ha) as [Hr1 Ho]. destruct (IH r1 Hr1 H) as [? ->]. done.
  - by injection H as <- <-.
Qed.

Lemma relay_recv_inv now r s ev r' :
  relay_inv r -> rl_open r s = true -> relay_recv now r (s, ev) = Ok r' ->
  relay_inv r' /\ forall t, t <> s -> rl_open r' t = rl_open r t.
Proof.
  intros [H1 H2 H3 H4 H5] Ho. destruct ev as [| |l]; simpl; try done; [by intros [= <-]|].
  assert (Hlen : (length (take (RECV_CHUNK `min` (MAX_STREAM_BUFFER - length (rl_buffer r (peer s)))) l)
                  <= MAX_STREAM_BUFFER - length (rl_buffer r (peer s)))%nat)
    by (rewrite length_take; lia).
  destruct (take _ l) as [|x data]; intros [= <-].
  - split; [|by intros t Ht; unfold set_side; simpl; rewrite decide_False].
    split; simpl; intros t; unfold set_side; [done|done| | |].
    + intros Hf. destruct (H3 t Hf). by case_decide.
    + case_decide as Hp; [|intros Hf; specialize (H4 t Hf); by case_decide].
      intros _. by rewrite decide_True by (destruct t, s; done).
    + case_decide; [subst t; rewrite decide_True by done; by left|].
      intros Hf. rewrite decide_False by (destruct t, s; done). by apply H5.
  - split; [|done]. split; simpl; intros t; unfold set_side.
    + case_decide as Hs; [subst t; rewrite decide_True by done; by rewrite H1, <-app_assoc|].
      rewrite decide_False by (destruct t, s; done). apply H1.
    + case_decide as Hs; [|done].
      change (length (rl_buffer r (peer s) ++ x :: data) <= MAX_STREAM_BUFFER)%nat.
      rewrite length_app. specialize (H2 (peer s)). lia.
    + intros Hf. destruct (H3 t Hf) as [Hc ?]. split; [done|].
      rewrite decide_False; [done|]. intros Hs. assert (t = s) as -> by (destruct t, s; done). congruence.
    + apply H4.
    + apply H5.
Qed.

Lemma relay_reads_inv now ws r r' :
  relay_inv r -> NoDup ws.*1 -> Forall (fun s => rl_open r s = true) ws.*1 ->
  foldM_res (relay_recv now) ws r = Ok r' -> relay_inv r'.
Proof.
  revert r. induction ws as [|[s ev] ws IH]; intros r Hr Hn Ho H; cbn [foldM_res fmap list_fmap] in *; [by injection H as <-|].
  apply NoDup_cons in Hn as [Hs Hn]. apply Forall_cons in Ho as [Hs' Ho]. res_step H.
  destruct (relay_recv_inv _ _ _ _ _ Hr Hs' Ha) as [Hr1 Hkeep].
  eapply IH; [done|done| |done]. rewrite Forall_forall in *. intros t Ht.
  rewrite Hkeep; [by apply Ho|]. by intros ->.
Qed.

Lemma relay_fin_inv ok r s r' :
  relay_inv r -> relay_fin ok r s = Ok r' ->
  relay_inv r' /\ rl_buffer r' = rl_buffer r /\
  (rl_pending_fin r' s = true -> rl_buffer r s <> []) /\
  (forall t, t <> s -> rl_pending_fin r' t = rl_pending_fin r t).
Proof.
  intros [H1 H2 H3 H4 H5]. unfold relay_fin.
  destruct (rl_pending_fin r s && bool_decide (rl_buffer r s = [])) eqn:Hb.
  - bprop. intros Hok. res_inv Hok. subst r'. split_and!; [|done| |].
    + split; simpl; intros t; unfold set_side; [done|done| | |].
      * case_decide as Hs; [subst s; intros _; split; [by apply H4|done]|apply H3].
      * case_decide as Hs; [done|apply H4].
      * intros Hf. destruct (H5 t Hf); case_decide; auto.
    + simpl. unfold set_side. by rewrite decide_True.
    + intros t Ht. simpl. unfold set_side. by rewrite decide_False.
  - intros [= <-]. split_and!; [done|done| |done]. intros Hp. rewrite Hp in Hb. by apply bool_decide_eq_false in Hb.
Qed.

(** Between passes the invariant holds and a pending shutdown waits for bytes. *)
Lemma relay_pass_inv idle r ev r' :
  relay_inv r -> relay_ev_ok r ev -> relay_pass idle r ev = Ok (inl r') ->
  relay_inv r' /\ forall s, rl_pending_fin r' s = true -> rl_buffer r' s <> [].
Proof.
  intros Hr (Hn & Hrd & _) H. unfold relay_pass in H.
  destruct (re_stopped ev || _); [done|]. destruct (bool_decide _ && _); [done|].
  res_step H. destruct a as [r1 []]; simpl in H; [|done].
  destruct (relay_writes_inv _ _ _ _ _ Hr Ha) as [Hr1 Ho].
  res_step H. assert (relay_inv a) as Hr2.
  { eapply relay_reads_inv; [exact Hr1|done| |done]. eapply Forall_impl; [done|].
    intros s [Hs _]%list_elem_of_filter. rewrite Ho. destruct (rl_open r s); done. }
  res_inv H. injection H as <-. simpl in Ha1. res_inv Ha1. subst.
  match goal with H1 : relay_fin _ a Client = Ok ?x, H2 : relay_fin _ ?x Backend = Ok _ |- _ =>
    destruct (relay_fin_inv _ _ _ _ Hr2 H1) as (Hr3 & Hb3 & Hp3 & Hk3);
    destruct (relay_fin_inv _ _ _ _ Hr3 H2) as (Hr4 & Hb4 & Hp4 & Hk4) end.
  split; [done|]. intros [].
  - rewrite Hk4 by done. rewrite Hb4, Hb3. done.
  - rewrite Hb4. done.
Qed.

Lemma relay_reachable_inv idle r :
  relay_reachable idle r ->
  relay_inv r /\ forall s, rl_pending_fin r s = true -> rl_buffer r s <> [].
Proof.
  induction 1 as [now|r ev r' _ [IH _] Hev Hp]; [|by eapply relay_pass_inv].
  split; [|done]. split; simpl; try done. intros s. lia.
Qed.

(** C3: the relay delivers both directions faithfully: at every point the bytes
    read from one side are the bytes written to the other followed by at most
    65536 buffered ones, and a side's sending half is shut down only after the
    other side ended and every byte read from it was written. *)
Theorem relay_faithful idle r s :
  relay_reachable idle r ->
  exists buffered, rl_read r s = rl_written r (peer s) ++ buffered /\
    (length buffered <= MAX_STREAM_BUFFER)%nat /\
    (rl_fin r (peer s) = true -> rl_open r s = false /\ buffered = []).
Proof.
  intros [[H1 H2 H3 H4 H5] _]%relay_reachable_inv. exists (rl_buffer r (peer s)). auto.
Qed.

(** When the relay ends on its own, both directions are complete: each
    side's bytes were all written to the other, in order, and both sending
    halves were shut down. *)
Theorem relay_drained idle r ev r' s :
  relay_reachable idle r -> relay_pass idle r ev = Ok (inr (Drained, r')) ->
  rl_read r' s = rl_written r' (peer s) /\ rl_open r' s = false /\ rl_fin r' (peer s) = true.
Proof.
  intros Hr H. unfold relay_pass in H. destruct (re_stopped ev || _); [done|].
  destruct (bool_decide (readers r = []) && _) eqn:Hb.
  2:{ res_step H. destruct a as [? []]; simpl in H; res_inv H. }
  injection H as <-. bprop.
  destruct (relay_reachable_inv _ _ Hr) as [[H1 H2 H3 H4 H5] Hp].
  assert (forall t, rl_buffer r t = []) as Hbuf.
  { intros t. destruct (decide (rl_buffer r t = [])) as [|Hne]; [done|].
    assert (t ∈ writers r) as Hin; [|by rewrite H0 in Hin; apply not_elem_of_nil in Hin].
    apply list_elem_of_filter. split; [by rewrite bool_decide_false|]. destruct t; set_solver. }
  assert (rl_open r s = false) as Ho.
  { destruct (rl_open r s) eqn:Ho; [|done].
    assert (s ∈ readers r) as Hin; [|by rewrite H in Hin; apply not_elem_of_nil in Hin].
    apply list_elem_of_filter. split; [by rewrite Ho, Hbuf|]. destruct s; set_solver. }
  split_and!; [by rewrite H1, Hbuf, app_nil_r|done|].
  destruct (H5 s Ho) as [Hpf|]; [|done]. by destruct (Hp _ Hpf).
Qed.

(** ** The gateway handshake's protocol *)

Section GatewayProtocol.
Context (inet_ntop : ipver -> list Z -> string) (idna_label : string -> option string).
Context (username password literal : string) (port : Z) (admitted : res bool).
Notation parse := (upstream_reply inet_ntop idna_label).
Notation read := (gateway_read inet_ntop idna_label username password literal port admitted).
Notation advance := (gateway_advance inet_ntop idna_label username password literal port admitted).
Notation run := (gateway_run inet_ntop idna_label username password literal port admitted).

(** Where the handshake is, from the bytes exchanged so far. *)
Definition gateway_inv (g : gateway) (out inp : list Z) : Prop :=
  (gw_stage g = 0%nat /\ out ++ gw_pending g = [5; 1; 2] /\ inp = gw_received g) \/
  (gw_stage g = 1%nat /\ exists auth, upstream_auth username password = Ok auth /\
     out ++ gw_pending g = [5; 1; 2] ++ auth /\ inp = [5; 2] ++ gw_received g) \/
  (gw_stage g = 2%nat /\ exists auth req, upstream_auth username password = Ok auth /\
     admitted = Ok true /\ upstream_request 1 literal (VInt port) = Ok req /\
     out ++ gw_pending g = [5; 1; 2] ++ auth ++ req /\ inp = [5; 2; 1; 0] ++ gw_received g /\
     forall n, exists e, parse (take n (gw_received g)) = Raise e).

Definition gateway_complete (out inp : list Z) : Prop :=
  exists auth req reply_frame r, upstream_auth username password = Ok auth /\ admitted = Ok true /\
    upstream_request 1 literal (VInt port) = Ok req /\ parse reply_frame = Ok r /\
    end_of r = length reply_frame /\
    out = [5; 1; 2] ++ auth ++ req /\ inp = [5; 2; 1; 0] ++ reply_frame.

Lemma expected_Ok d w n : expected d w = Ok n -> d = w.
Proof. unfold expected. intros H. res_inv H. by bprop. Qed.

Lemma expected_NeedMore d w e : expected d w = Raise e -> caught [NeedMore] e = true -> (length d < length w)%nat.
Proof.
  unfold expected, raise_if. destruct (Nat.ltb_spec (length d) (length w)); [done|]. simpl.
  by destruct (bool_decide (d = w)); simpl; intros [= <-].
Qed.

Lemma chunk_one (l : list Z) : take 1 l <> [] -> exists b, take 1 l = [b].
Proof. destruct l as [|b l]; simpl; [done|eauto]. Qed.

Lemma parse_exact l b r :
  (forall n, exists e, parse (take n l) = Raise e) -> parse (l ++ [b]) = Ok r ->
  end_of r = length (l ++ [b]).
Proof.
  intros Hn Hr. pose proof (upstream_reply_framed inet_ntop idna_label (l ++ [b])) as Hf.
  simpl in Hf. rewrite Hr in Hf. destruct Hf as (Hc & Hx & _).
  destruct (decide (end_of r < length (l ++ [b]))%nat) as [Hlt|]; [|lia].
  rewrite length_app in Hlt. simpl in Hlt. rewrite take_app_le in Hx by lia.
  destruct (Hn (end_of r)). congruence.
Qed.

Lemma gateway_read_inv g readable rd g' complete t out inp :
  gateway_inv g out inp -> read g readable rd = Ok (g', complete, t) ->
  if complete then gateway_complete out (inp ++ t) else gateway_inv g' out (inp ++ t).
Proof.
  intros Hinv. unfold gateway_read.
  destruct (negb readable || gateway_writing g) eqn:Hw; [intros [= <- <- <-]; by rewrite app_nil_r|].
  unfold gateway_writing in Hw. bprop.
  match goal with Hp : gw_pending g = [] |- _ => rename Hp into Hpend end.
  destruct rd as [| |available]; [intros [= <- <- <-]; by rewrite app_nil_r|done|].
  intros H'. res_step H'. bprop. destruct (chunk_one available) as [b Hb]; [done|].
  rewrite Hb in H'. unfold gateway_inv in Hinv. rewrite Hpend, !app_nil_r in Hinv.
  destruct Hinv as [(Hs & Ho & Hi)|[(Hs & auth & Hau & Ho & Hi)|(Hs & auth & req & Hau & Had & Hrq & Ho & Hi & Hn)]];
    rewrite Hs in H'; cbn [Nat.eqb] in H'.
  - destruct (expected _ _) as [n|e] eqn:He.
    + apply expected_Ok in He. res_inv H'. injection H' as <- <- <-. right; left. simpl.
      split; [done|]. exists a. split_and!; [done|by rewrite Ho|]. by rewrite Hi, He.
    + destruct (caught _ e); [|done]. injection H' as <- <- <-. left. simpl.
      rewrite Hpend, app_nil_r, Hi. done.
  - destruct (expected _ _) as [n|e] eqn:He.
    + apply expected_Ok in He. res_inv H'. injection H' as <- <- <-. res_inv Ha. bprop.
      match goal with Hx : ?x = true, Hy : admitted = Ok ?x |- _ => rewrite Hx in Hy end.
      right; right. simpl. split; [done|]. exists auth, a. split_and!; [done|done|done|by rewrite Ho|..].
      * by rewrite Hi, <-app_assoc, He.
      * intros n'. rewrite take_nil. by eexists.
    + destruct (caught _ e); [|done]. injection H' as <- <- <-. right; left. simpl.
      rewrite Hpend, app_nil_r, Hi. split; [done|]. exists auth. by rewrite <-app_assoc.
  - destruct (parse _) as [r|e] eqn:He.
    + injection H' as <- <- <-. exists auth, req, (gw_received g ++ [b]), r.
      split_and!; [done..| |done|by rewrite Hi, <-app_assoc]. by apply parse_exact.
    + destruct (caught _ e); [|done]. injection H' as <- <- <-. right; right. simpl.
      rewrite Hpend, app_nil_r, Hi. split; [done|]. exists auth, req. rewrite <-app_assoc.
      split_and!; [done..|]. intros n. destruct (decide (n <= length (gw_received g))%nat).
      * rewrite take_app_le by done. done.
      * rewrite take_ge by (rewrite length_app; simpl; lia). eauto.
Qed.

Lemma gateway_advance_inv g ev g' complete w t out inp :
  gateway_inv g out inp -> advance g ev = Ok (g', complete, (w, t)) ->
  if complete then gateway_complete (out ++ w) (inp ++ t) else gateway_inv g' (out ++ w) (inp ++ t).
Proof.
  intros Hinv H. unfold gateway_advance in H. res_step H.
  assert (gateway_inv a out inp) as Hinv'.
  { destruct (gw_connecting g && ge_writable ev); res_inv Ha; subst a; [|done]. exact Hinv. }
  clear Ha Hinv g. rename a into g. destruct (negb _ && _ && _).
  - destruct (ge_send ev) as [| |n]; [|done|].
    + injection H as <- <- <- <-. by rewrite !app_nil_r.
    + res_inv H. destruct a as [[g1 c1] t1]. injection H as <- <- <- <-.
      eapply gateway_read_inv; [|done].
      unfold gateway_inv in *. simpl. rewrite <-!app_assoc, take_drop. exact Hinv'.
  - res_inv H. destruct a as [[g1 c1] t1]. injection H as <- <- <- <-. rewrite app_nil_r.
    by eapply gateway_read_inv.
Qed.

Lemma gateway_run_inv g out inp evs g' complete out' inp' :
  gateway_inv g out inp -> run g out inp evs = Ok (g', complete, (out', inp')) ->
  if complete then gateway_complete out' inp' else gateway_inv g' out' inp'.
Proof.
  revert g out inp. induction evs as [|ev evs IH]; intros g out inp Hinv H; cbn [gateway_run] in H.
  - by injection H as <- <- <- <-.
  - res_step H. destruct a as [[g1 c1] [w t]].
    pose proof (gateway_advance_inv _ _ _ _ _ _ _ _ Hinv Ha) as H1. destruct c1.
    + by injection H as <- <- <- <-.
    + by eapply IH.
Qed.

(** Whatever the interleaving of partial writes and one-byte reads, a
    gateway handshake that completes has written exactly the greeting, the
    backend's credentials and the CONNECT request, to a literal the policy
    admitted when the request was sent, and has read exactly the two expected
    answers and one whole reply frame: no application byte is consumed. *)
Theorem gateway_handshake pending_connect evs g out inp :
  run (gateway_init pending_connect) [] [] evs = Ok (g, true, (out, inp)) ->
  gateway_complete out inp.
Proof.
  intros H. eapply (gateway_run_inv _ [] [] _ _ true) in H; [exact H|]. by left.
Qed.

(** the CONNECT request never leaves for a literal the policy does not
    admit: up to any point of such a handshake only the greeting and the
    credentials can have been written. *)
Theorem gateway_denied pending_connect evs g complete out inp :
  admitted <> Ok true ->
  run (gateway_init pending_connect) [] [] evs = Ok (g, complete, (out, inp)) ->
  complete = false /\
  (out `prefix_of` [5; 1; 2] \/
   exists auth, upstream_auth username password = Ok auth /\ out `prefix_of` [5; 1; 2] ++ auth).
Proof.
  intros Hna H. assert (gateway_inv (gateway_init pending_connect) [] []) as H0 by (by left).
  pose proof (gateway_run_inv _ _ _ _ _ _ _ _ H0 H) as Hi.
  destruct complete; [by destruct Hi as (? & ? & ? & ? & ? & ? & _)|]. split; [done|].
  destruct Hi as [(_ & Ho & _)|[(_ & auth & Ha & Ho & _)|(_ & ? & ? & _ & ? & _)]]; [| |done].
  - left. eexists. by rewrite <-Ho.
  - right. exists auth. split; [done|]. eexists. by rewrite <-Ho.
Qed.
End GatewayProtocol.

(** ** The authenticated session *)

Section SessionGate.
Context (inet_ntop : ipver -> list Z -> string) (idna_label : string -> option string).
Notation client_request := (client_request inet_ntop idna_label).
Notation handle := (handle inet_ntop idna_label).

Definition event_wf (ev : recv_ev) : Prop :=
  match ev with Byte b => 0 <= b < 256 | _ => True end.

Lemma read_frame_exact {A} (parser : list Z -> res A) consumed s r s' :
  FrameParser parser consumed ->
  lift_io (read_frame parser) s = (Ok r, s') ->
  exists l, io_in (ss_io s) = (Byte <$> l) ++ io_in (ss_io s') /\ parser l = Ok r /\ consumed r = length l.
Proof.
  intros Hp. unfold lift_io, read_frame.
  destruct (frame parser (io_in (ss_io s))) as [r' evs] eqn:Hf. intros [= -> <-]. simpl.
  apply (frame_iff _ consumed) in Hf as (l & ? & ? & ? & _); [|done]. eauto.
Qed.

Lemma sendall_in data s u s' :
  lift_io (sendall data) s = (Ok u, s') -> io_in (ss_io s') = io_in (ss_io s).
Proof.
  unfold lift_io, sendall. destruct (io_sends (ss_io s)) as [|[] l]; simpl; try done; by intros [= <- <-].
Qed.

Lemma authentication_exact u p l r :
  bytes_wf l -> authentication u p l = Ok r -> r.1 = length l -> upstream_auth u p = Ok l.
Proof.
  intros Hl Ha Hr. destruct r as [n resp].
  apply authentication_sound in Ha as (_ & frame & rest & Hf & -> & ->); [|done].
  simpl in Hr. rewrite length_app in Hr. destruct rest; [by rewrite app_nil_r|simpl in Hr; lia].
Qed.

(** Nothing a session does on behalf of a client (resolution, connection,
    relay, association) can happen before the client has sent a greeting, the
    exact authentication frame of the listener's credentials, and a request:
    on any other input the outcome is the same whatever the services are. *)
Theorem handle_authenticated sv sv' it s :
  Forall event_wf (io_in (ss_io s)) ->
  handle sv it s <> handle sv' it s ->
  exists hello g auth req r rest,
    io_in (ss_io s) = (Byte <$> hello ++ auth ++ req) ++ rest /\
    greeting hello = Ok g /\ upstream_auth (it_username it) (it_password it) = Ok auth /\
    request inet_ntop idna_label req = Ok r.
Proof.
  intros Hwf Hne. destruct (client_request it s) as [[r|e] s5] eqn:Hc.
  2:{ destruct Hne. unfold NormalizerStreams.handle, eff_finally, eff_try, mbind, eff_bind. by rewrite Hc. }
  unfold NormalizerStreams.client_request in Hc.
  apply eff_bind_Ok in Hc as (g & s1 & (hello & Hin1 & Hg & _)%(read_frame_exact _ fst) & Hc); [|apply _].
  apply eff_bind_Ok in Hc as (? & s2 & Hin2%sendall_in & Hc).
  apply eff_bind_Ok in Hc as (? & s2' & [= _ <-] & Hc).
  apply eff_bind_Ok in Hc as (a & s3 & (auth & Hin3 & Ha & Hal)%(read_frame_exact _ fst) & Hc); [|apply _].
  apply eff_bind_Ok in Hc as (? & s4 & Hin4%sendall_in & Hc).
  apply eff_bind_Ok in Hc as (? & s4' & [= _ <-] & Hc).
  apply (read_frame_exact _ end_of4) in Hc as (req & Hin5 & Hr & _); [|apply _].
  simpl in *. rewrite <-Hin2, Hin3, <-Hin4, Hin5 in Hin1.
  exists hello, g, auth, req, r, (io_in (ss_io s5)). split_and!; [|done| |done].
  - by rewrite !fmap_app, <-!app_assoc.
  - eapply authentication_exact; [|done|done]. rewrite Hin1 in Hwf.
    apply Forall_app in Hwf as [_ Hwf]. apply Forall_app in Hwf as [Hwf _].
    unfold bytes_wf. by rewrite Forall_fmap in Hwf.
Qed.
End SessionGate.

(** ** Concrete runs *)

Lemma frame_exact_witness :
  frame greeting (Byte <$> [5; 1; 2; 5; 1; 0]) = (Ok (3%nat, [5; 2]), Byte <$> [5; 1; 0]).
Proof.
  apply (proj2 (frame_exact greeting fst (Byte <$> [5; 1; 2; 5; 1; 0]) (3%nat, [5; 2])
    (Byte <$> [5; 1; 0]) greeting_framed)).
  exists [5; 1; 2]. split_and!; [reflexivity|reflexivity|reflexivity|].
  apply Nat.leb_le. vm_compute. reflexivity.
Defined.

Definition sample_gateway_events : list gateway_ev :=
  let w n := GatewayEv false true false (Sent n) ReadBlocks in
  let r b := GatewayEv true false false SendBlocks (Chunk [b]) in
  [w 2%nat; w 1%nat; r 5; r 2; w 100%nat; r 1; r 0; w 100%nat;
   r 5; r 0; r 0; r 1; r 10; r 55; r 0; r 2; r 1; r 187].

Lemma gateway_handshake_witness :
  exists g out inp,
    gateway_run ntop_canonical (fun _ => None) "u" "p" "9.9.9.9" 443 (Ok true)
      (gateway_init true) [] [] sample_gateway_events = Ok (g, true, (out, inp)) /\
    gateway_complete ntop_canonical (fun _ => None) "u" "p" "9.9.9.9" 443 (Ok true) out inp.
Proof.
  eexists _, _, _. split; [vm_compute; reflexivity|].
  apply (gateway_handshake ntop_canonical (fun _ => None) "u" "p" "9.9.9.9" 443 (Ok true)
    true sample_gateway_events (Gateway false [] [5; 0; 0; 1; 10; 55; 0; 2; 1; 187] 2)).
  vm_compute. reflexivity.
Defined.

Lemma gateway_denied_witness :
  exists g out inp,
    gateway_run ntop_canonical (fun _ => None) "u" "p" "10.0.0.1" 443 (Ok false)
      (gateway_init true) [] [] (take 6 sample_gateway_events) = Ok (g, false, (out, inp)) /\
    (out `prefix_of` [5; 1; 2] \/
     exists auth, upstream_auth "u" "p" = Ok auth /\ out `prefix_of` [5; 1; 2] ++ auth).
Proof.
  eexists _, _, _. split; [vm_compute; reflexivity|].
  refine (proj2 (gateway_denied ntop_canonical (fun _ => None) "u" "p" "10.0.0.1" 443 (Ok false)
    true (take 6 sample_gateway_events) (Gateway false [] [1] 1) false _ _ ltac:(discriminate) _)).
  vm_compute. reflexivity.
Defined.

Lemma handle_authenticated_witness :
  let it := Item "direct_xray" "127.0.0.1" 10801 "u" "p" in
  let s := Session (Io (Byte <$> [5; 1; 2] ++ [1; 1; 117; 1; 112] ++ [5; 1; 0; 1; 9; 9; 9; 9; 1; 187]) [] [])
             PGreeting false true 0 in
  let sv b := Services (fun _ _ => sendall [b]) (mret tt) (mret tt) in
  Forall event_wf (io_in (ss_io s)) /\
  exists hello g auth req r rest,
    io_in (ss_io s) = (Byte <$> hello ++ auth ++ req) ++ rest /\
    greeting hello = Ok g /\ upstream_auth "u" "p" = Ok auth /\
    request ntop_canonical (fun _ => None) req = Ok r.
Proof.
  intros it s sv. assert (Forall event_wf (io_in (ss_io s))) as H by (repeat constructor; simpl; lia).
  split; [exact H|].
  apply (handle_authenticated ntop_canonical (fun _ => None) (sv 1) (sv 2) it s H).
  intros Heq. apply (f_equal (fun x => io_out (ss_io x.2))) in Heq. vm_compute in Heq. discriminate Heq.
Defined.

(** Two passes: three bytes arrive and the client ends; one send moves two of
    them and the next the third; then the backend has ended as well. *)
Definition sample_relay_events : list relay_ev :=
  let pass w r := RelayEv false 0 w r (fun _ => true) in
  [pass [] [(Client, Chunk [1; 2; 3])]; pass [(Backend, Sent 2)] [(Client, Chunk []); (Backend, Chunk [])];
   pass [(Backend, Sent 1)] []].

Definition relay_step (r : relay) (ev : relay_ev) : relay :=
  match relay_pass 60 r ev with Ok (inl r') => r' | _ => r end.
Definition sample_relay (n : nat) : relay := foldl relay_step (relay_init 0) (take n sample_relay_events).

Ltac selected := repeat first [apply NoDup_nil_2 | apply NoDup_cons_2 | constructor
  | apply (bool_decide_unpack _); vm_compute; exact I].

Lemma sample_relay_2 : relay_reachable 60 (sample_relay 2).
Proof.
  apply (relay_passed 60 (sample_relay 1) (RelayEv false 0 [(Backend, Sent 2)]
    [(Client, Chunk []); (Backend, Chunk [])] (fun _ => true))); [|split_and!; selected|vm_compute; reflexivity].
  apply (relay_passed 60 (relay_init 0) (RelayEv false 0 [] [(Client, Chunk [1; 2; 3])] (fun _ => true)));
    [constructor|split_and!; selected|vm_compute; reflexivity].
Qed.

Lemma sample_relay_3 : relay_reachable 60 (sample_relay 3).
Proof.
  apply (relay_passed 60 (sample_relay 2) (RelayEv false 0 [(Backend, Sent 1)] [] (fun _ => true)));
    [exact sample_relay_2|split_and!; selected|vm_compute; reflexivity].
Qed.

Lemma relay_faithful_witness :
  rl_written (sample_relay 2) Backend = [1; 2] /\
  exists buffered, rl_read (sample_relay 2) Client = rl_written (sample_relay 2) Backend ++ buffered /\
    (length buffered <= MAX_STREAM_BUFFER)%nat /\
    (rl_fin (sample_relay 2) Backend = true -> rl_open (sample_relay 2) Client = false /\ buffered = []).
Proof.
  split; [vm_compute; reflexivity|].
  apply (relay_faithful 60 (sample_relay 2) Client sample_relay_2).
Defined.

Lemma relay_drained_witness :
  rl_read (sample_relay 3) Client = [1; 2; 3] /\
  rl_read (sample_relay 3) Client = rl_written (sample_relay 3) Backend /\
  rl_open (sample_relay 3) Client = false /\ rl_fin (sample_relay 3) Backend = true.
Proof.
  split; [vm_compute; reflexivity|].
  apply (relay_drained 60 (sample_relay 3) (RelayEv false 0 [] [] (fun _ => true)) (sample_relay 3) Client
    sample_relay_3).
  vm_compute. reflexivity.
Defined.
