(* ===== verification/NormalizerAssoc.v ===== *)
(** * The egress normalizer's shared resources

    [scripts/transport_egress_normalizer.py]: the UDP source-port pools
    ([PortPool]), the resolver worker and its slot pool ([resolver_worker],
    [ResolverPool.resolve]), destination selection ([_destinations]), the
    staggered connect race ([_connect_candidates]) and the UDP association loop
    ([_association]). *)

From S2P Require Import Prelude PyValue PyStr IPAddr DestinationPolicy Socks NormalizerConfig NormalizerStreams.
From stdpp Require Import sorting.
From Stdlib Require Import QArith.

#[local] Open Scope Z_scope.

(** ** Port pools *)

(** What becomes of one port in [PortPool.acquire]: its socket is bound; an option
    or the bind fails and the socket is closed; [socket.socket] raises, which the
    [try] does not cover; or the close of the unbound socket raises. *)
Inductive port_attempt := Bound | Busy | NoSocket | Unclosed.
Definition socket_error (m : string) : exn := Exn OSError m.

(** The loop of [PortPool.acquire]: a port that cannot be bound goes to the back
    of the queue; a port whose socket cannot be made, or closed, is in no queue. *)
Fixpoint acquire_loop (n : nat) (attempt : Z -> port_attempt) (ports : list Z) : res (option Z) * list Z :=
  match n, ports with
  | S n, port :: ports =>
      match attempt port with
      | Bound => (Ok (Some port), ports)
      | Busy => acquire_loop n attempt (ports ++ [port])
      | NoSocket => (Raise (socket_error "socket"), ports)
      | Unclosed => (Raise (socket_error "close"), ports)
      end
  | _, _ => (Ok None, ports)
  end.

(** [PortPool.acquire]: the port, or the exception, and the queue left behind. *)
Definition acquire (attempt : Z -> port_attempt) (ports : list Z) : res Z * list Z :=
  let '(r, ports) := acquire_loop (length ports) attempt ports in
  ((let* o := r in of_option o (normalizer_error "association-capacity")), ports).

(** [PortPool.__init__] *)
Definition pool_ports (r : Z * Z) : list Z := seqZ r.1 (r.2 + 1 - r.1).

(** [PortPool.release]: the socket is closed first, and when that raises the port
    is not given back. *)
Definition release (closes : bool) (port : Z) (ports : list Z) : res unit * list Z :=
  if closes then (Ok tt, ports ++ [port]) else (Raise (socket_error "close"), ports).

(** Every pool of the process (the backends', then the listeners'), the ports of
    acquired and not yet released sockets with the pool each came from, and the ports that are in no queue
    and have no socket. *)
Record pools := Pools { pl_free : list (list Z); pl_held : list (nat * Z); pl_lost : list (nat * Z) }.

Definition pools_init (raw : value) : pools := Pools (pool_ports <$> config_pools raw) [] [].

(** The steps of the process; [faults] allows that sockets cannot be created or
    closed.  What an acquisition lost is what its queue lacks afterwards. *)
Inductive pool_step (faults : bool) : pools -> pools -> Prop :=
| pool_acquire p i attempt ports port ports' :
    pl_free p !! i = Some ports -> acquire attempt ports = (Ok port, ports') ->
    pool_step faults p (Pools (<[i := ports']> (pl_free p)) ((i, port) :: pl_held p) (pl_lost p))
| pool_failed p i attempt ports e ports' gone :
    (faults = false -> forall port, attempt port = Bound \/ attempt port = Busy) ->
    pl_free p !! i = Some ports -> acquire attempt ports = (Raise e, ports') -> ports ≡ₚ gone ++ ports' ->
    pool_step faults p (Pools (<[i := ports']> (pl_free p)) (pl_held p) ((pair i <$> gone) ++ pl_lost p))
| pool_release p i ports port before after closes :
    (faults = false -> closes = true) ->
    pl_free p !! i = Some ports -> pl_held p = before ++ (i, port) :: after ->
    pool_step faults p (Pools (<[i := (release closes port ports).2]> (pl_free p)) (before ++ after)
                              ((if closes then [] else [(i, port)]) ++ pl_lost p)).

Definition of_pool (l : list (nat * Z)) (i : nat) : list Z := snd <$> filter (fun h => h.1 = i) l.
Definition held_of (p : pools) (i : nat) : list Z := of_pool (pl_held p) i.

(** Every port of a pool is free, held or lost, exactly once. *)
Definition pools_ok (ranges : list (Z * Z)) (p : pools) : Prop :=
  length (pl_free p) = length ranges /\
  (forall h, h ∈ pl_held p -> (h.1 < length ranges)%nat) /\
  forall i r ports, ranges !! i = Some r -> pl_free p !! i = Some ports ->
    ports ++ held_of p i ++ of_pool (pl_lost p) i ≡ₚ pool_ports r.

Lemma acquire_loop_perm n attempt ports r ports' :
  acquire_loop n attempt ports = (r, ports') ->
  match r with
  | Ok (Some port) => ports ≡ₚ port :: ports'
  | Ok None => ports ≡ₚ ports'
  | Raise _ => exists port, attempt port <> Bound /\ attempt port <> Busy /\ ports ≡ₚ port :: ports'
  end.
Proof.
  revert ports. induction n as [|n IH]; intros [|port ports]; simpl; try by intros [= <- <-].
  destruct (attempt port) eqn:Hp; [by intros [= <- <-]| |intros [= <- <-]; exists port; by rewrite Hp..]. intros H%IH.
  assert (port :: ports ≡ₚ ports ++ [port]) as Hperm by (by rewrite (Permutation_app_comm ports)).
  destruct r as [[q|]|e]; [by rewrite Hperm..|]. destruct H as (q & H1 & H2 & H3). exists q. by rewrite Hperm.
Qed.

Lemma acquire_perm attempt ports r ports' :
  acquire attempt ports = (r, ports') ->
  match r with
  | Ok port => ports ≡ₚ port :: ports'
  | Raise _ => ports ≡ₚ ports' \/ exists port, attempt port <> Bound /\ attempt port <> Busy
  end.
Proof.
  unfold acquire. destruct (acquire_loop _ _ _) as [o p] eqn:H. intros [= <- <-].
  apply acquire_loop_perm in H. destruct o as [[q|]|e]; cbn; [done|by left|]. right. destruct H as (q & ? & ? & _). by exists q.
Qed.

Lemma of_pool_app l k i : of_pool (l ++ k) i = of_pool l i ++ of_pool k i.
Proof. unfold of_pool. by rewrite filter_app, fmap_app. Qed.
Lemma of_pool_cons h l i : of_pool (h :: l) i = if decide (h.1 = i) then h.2 :: of_pool l i else of_pool l i.
Proof. unfold of_pool. rewrite filter_cons. by case_decide. Qed.
Lemma of_pool_pair i j ports : of_pool (pair i <$> ports) j = if decide (i = j) then ports else [].
Proof.
  induction ports as [|q ports IH]; [by case_decide|]. rewrite fmap_cons, of_pool_cons, IH. cbn. by case_decide.
Qed.

Lemma pool_ports_elem port r : port ∈ pool_ports r <-> in_range port r.
Proof. unfold pool_ports, in_range. rewrite elem_of_seqZ. lia. Qed.

Lemma pool_step_ok faults ranges p p' : pools_ok ranges p -> pool_step faults p p' -> pools_ok ranges p'.
Proof.
  intros (Hlen & Hh & Hp) Hstep.
  destruct Hstep as [p i b ports port ports' Hi Ha|p i b ports e ports' gone Hf Hi Ha Hg|p i ports port l1 l2 closes Hc Hi Heq];
    pose proof (lookup_lt_Some _ _ _ Hi) as Hlt; (split; [simpl; by rewrite length_insert|]); unfold held_of in *; cbn [pl_free pl_held pl_lost] in *.
  - apply acquire_perm in Ha. split; [intros h [->|Hin]%elem_of_cons; [simpl; lia|auto]|].
    intros j r q Hj Hq. rewrite of_pool_cons. cbn [fst snd]. destruct (decide (i = j)) as [<-|Hne].
    + rewrite list_lookup_insert_eq in Hq by done. injection Hq as <-. rewrite <-(Hp _ _ _ Hj Hi), Ha. solve_Permutation.
    + rewrite list_lookup_insert_ne in Hq by done. eauto.
  - split; [done|]. intros j r q Hj Hq. rewrite of_pool_app, of_pool_pair. destruct (decide (i = j)) as [<-|Hne].
    + rewrite list_lookup_insert_eq in Hq by done. injection Hq as <-. rewrite <-(Hp _ _ _ Hj Hi), Hg. solve_Permutation.
    + rewrite list_lookup_insert_ne in Hq by done. eauto.
  - split; [intros h Hin; apply Hh; rewrite Heq; set_solver|]. intros j r q Hj Hq. rewrite Heq in Hp.
    setoid_rewrite of_pool_app in Hp. rewrite !of_pool_app. specialize (Hp j r). rewrite of_pool_cons in Hp. cbn [fst snd] in Hp.
    destruct (decide (i = j)) as [<-|Hne].
    + rewrite list_lookup_insert_eq in Hq by done. injection Hq as <-. rewrite <-(Hp _ Hj Hi).
      destruct closes; cbn [release snd]; rewrite ?of_pool_cons; cbn [fst snd]; rewrite ?decide_True by done; unfold of_pool at 3; csimpl; solve_Permutation.
    + rewrite list_lookup_insert_ne in Hq by done. rewrite <-(Hp _ Hj Hq).
      destruct closes; rewrite ?of_pool_cons; cbn [fst snd]; rewrite ?decide_False by done; done.
Qed.

(** Without faults nothing is lost. *)
Lemma pool_step_lost p p' : pool_step false p p' -> pl_lost p = [] -> pl_lost p' = [].
Proof.
  intros Hstep Hl. destruct Hstep as [p i b ports port ports' Hi Ha|p i b ports e ports' gone Hf Hi Ha Hg|p i ports port l1 l2 closes Hc Hi Heq];
    cbn [pl_lost]; rewrite Hl; [done| |by rewrite Hc].
  apply acquire_perm in Ha as [Ha|(q & H1 & H2)]; [|by destruct (Hf eq_refl q)].
  apply Permutation_length in Ha, Hg. rewrite length_app in Hg. destruct gone; [done|cbn in Hg; lia].
Qed.
Lemma pools_reachable_lost raw p : rtc (pool_step false) (pools_init raw) p -> pl_lost p = [].
Proof.
  intros H. eapply (rtc_ind_r (fun p => pl_lost p = []) (pools_init raw)); [done| |done].
  intros q q' _ Hstep. by apply pool_step_lost.
Qed.

Lemma pools_reachable_ok faults raw p :
  rtc (pool_step faults) (pools_init raw) p -> pools_ok (config_pools raw) p.
Proof.
  intros H. eapply (rtc_ind_r (fun p => pools_ok (config_pools raw) p) (pools_init raw)); [..|done].
  - split; [apply length_fmap|]. split; [by intros h ?%not_elem_of_nil|].
    intros i r ports Hi. simpl. rewrite list_lookup_fmap, Hi. intros [= <-].
    unfold held_of, of_pool. simpl. by rewrite app_nil_r.
  - intros q q' _ Hstep Hq. by eapply pool_step_ok.
Qed.

Lemma held_of_elem p i port : (i, port) ∈ pl_held p -> port ∈ held_of p i.
Proof.
  intros H. unfold held_of, of_pool. apply list_elem_of_fmap. exists (i, port). split; [done|].
  by apply list_elem_of_filter.
Qed.

Lemma held_ports_in_range faults raw p i port r :
  rtc (pool_step faults) (pools_init raw) p -> (i, port) ∈ pl_held p -> config_pools raw !! i = Some r ->
  in_range port r.
Proof.
  intros (Hlen & Hb & Hp)%pools_reachable_ok Hin Hr.
  destruct (lookup_lt_is_Some_2 (pl_free p) i) as [ports Hports];
    [rewrite Hlen; by eapply lookup_lt_Some|].
  apply pool_ports_elem. rewrite <-(Hp i r ports Hr Hports). apply elem_of_app. right. apply elem_of_app. left.
  by apply held_of_elem.
Qed.

Lemma pairs_nodup (l : list (nat * Z)) :
  (forall i, NoDup (snd <$> filter (fun h => h.1 = i) l)) -> NoDup l.
Proof.
  induction l as [|[i port] l IH]; intros H; [apply NoDup_nil_2|].
  apply NoDup_cons. split.
  - intros Hin. specialize (H i). rewrite filter_cons_True in H by done. csimpl in H.
    apply NoDup_cons in H as [Hn _]. apply Hn, list_elem_of_fmap. exists (i, port).
    split; [done|]. by apply list_elem_of_filter.
  - apply IH. intros j. specialize (H j). destruct (decide (i = j)) as [->|Hne].
    + rewrite filter_cons_True in H by done. csimpl in H. by apply NoDup_cons in H as [_ ?].
    + by rewrite filter_cons_False in H by (simpl; congruence).
Qed.

Lemma held_nodup faults raw p : rtc (pool_step faults) (pools_init raw) p -> NoDup (pl_held p).
Proof.
  intros (Hlen & Hb & Hp)%pools_reachable_ok. apply pairs_nodup. intros i.
  destruct (pl_free p !! i) as [ports|] eqn:Hf.
  - destruct (lookup_lt_is_Some_2 (config_pools raw) i) as [r Hr].
    { rewrite <-Hlen. by eapply lookup_lt_Some. }
    assert (NoDup (ports ++ held_of p i ++ of_pool (pl_lost p) i)) as Hn by (rewrite (Hp i r ports Hr Hf); apply NoDup_seqZ).
    apply NoDup_app in Hn as (_ & _ & Hn). by apply NoDup_app in Hn as (? & _ & _).
  - destruct (filter _ (pl_held p)) as [|h l] eqn:Hl; [apply NoDup_nil_2|].
    assert (h ∈ filter (fun h => h.1 = i) (pl_held p)) as Hin by (rewrite Hl; left).
    apply list_elem_of_filter in Hin as [<- Hin]. apply Hb in Hin.
    apply lookup_ge_None_1 in Hf. lia.
Qed.

Lemma config_pool_exists faults raw p i port :
  rtc (pool_step faults) (pools_init raw) p -> (i, port) ∈ pl_held p -> exists r, config_pools raw !! i = Some r.
Proof.
  intros (_ & Hb & _)%pools_reachable_ok Hin. apply Hb in Hin. by apply lookup_lt_is_Some_2 in Hin.
Qed.

(** C24: under a validated configuration, in any interleaving of acquisitions
    and releases over all pools, no two live sockets have the same UDP port, no
    live socket has the port of a configured TCP endpoint, and no port is
    duplicated: each is free, held (acquired and not released yet) or lost, exactly
    once.  No port is lost while
    every socket can be created and closed; when [socket.socket] raises in
    [acquire], after the port was taken from the queue, or a close raises, the port
    is in no queue any more. *)
Theorem held_ports_exclusive faults raw io cfg p :
  validate_config raw io = Ok cfg -> rtc (pool_step faults) (pools_init raw) p ->
  NoDup (pl_held p).*2 /\
  (forall h e, h ∈ pl_held p -> e ∈ config_endpoints raw -> h.2 <> e.2) /\
  pools_ok (config_pools raw) p /\
  (faults = false -> pl_lost p = []).
Proof.
  intros Hv Hr. destruct (config_pools_separate _ _ _ Hv) as (_ & Hd & He & _).
  split_and!; [| |by eapply pools_reachable_ok|intros ->; by eapply pools_reachable_lost].
  - apply NoDup_fmap_2_strong; [|by eapply held_nodup].
    intros [i port] [j port'] Hi Hj. simpl. intros <-.
    destruct (config_pool_exists _ _ _ _ _ Hr Hi) as [r Hir], (config_pool_exists _ _ _ _ _ Hr Hj) as [s Hjs].
    destruct (decide (i = j)) as [->|Hne]; [done|].
    destruct (Hd i j r s Hne Hir Hjs port). split; [exact (held_ports_in_range _ _ _ _ _ _ Hr Hi Hir)|exact (held_ports_in_range _ _ _ _ _ _ Hr Hj Hjs)].
  - intros [i port] e Hi Hin Heq. simpl in Heq. destruct (config_pool_exists _ _ _ _ _ Hr Hi) as [r Hir].
    apply (He r e); [exact (list_elem_of_lookup_2 _ _ _ Hir)|done|]. rewrite <-Heq. exact (held_ports_in_range _ _ _ _ _ _ Hr Hi Hir).
Qed.

Lemma held_ports_exclusive_witness :
  exists p, rtc (pool_step false) (pools_init sample_config) p /\ pl_held p = [(2%nat, 32001); (0%nat, 30000)] /\
    NoDup (pl_held p).*2 /\ pl_lost p = [].
Proof.
  assert (validate_config sample_config false = Ok sample_config) as H by (vm_compute; reflexivity).
  assert (rtc (pool_step false) (pools_init sample_config)
    (Pools [seqZ 30001 63; seqZ 31000 64; seqZ 32002 62 ++ [32000]; seqZ 32064 64]
       [(2%nat, 32001); (0%nat, 30000)] [])) as Hr.
  { eapply rtc_l; [eapply (pool_acquire _ _ 0 (fun _ => Bound)); vm_compute; reflexivity|].
    eapply rtc_l; [eapply (pool_acquire _ _ 2 (fun port => if port =? 32000 then Busy else Bound)); vm_compute; reflexivity|].
    vm_compute. apply rtc_refl. }
  eexists. split; [exact Hr|]. split; [reflexivity|].
  destruct (held_ports_exclusive false sample_config false sample_config _ H Hr) as (H1 & _ & _ & H2). split; [exact H1|by apply H2].
Defined.

(** Each acquisition whose socket cannot be created takes a port out of the pool for
    good; a pool of two is empty after two of them. *)
Example socket_loses_port :
  let '(r, ports) := acquire (fun _ => NoSocket) [30000; 30001] in
  let '(r', ports') := acquire (fun _ => NoSocket) ports in
  r = Raise (socket_error "socket") /\ r' = Raise (socket_error "socket") /\
  acquire (fun _ => Bound) ports' = (Raise (normalizer_error "association-capacity"), []).
Proof. by vm_compute. Qed.

(** ** Name resolution *)


(** [sorted(set(l))] *)
Definition sorted_set (l : list string) : list string := merge_sort str_le (remove_dups l).

(** One job of [resolver_worker]: the decoded request (or the exception of
    [json.loads]) and the platform's [getaddrinfo] give the identifier and the
    addresses of the answer. *)
Section ResolverWorker.
Context (idna_label : string -> option string).
Context (getaddrinfo : string -> Z -> string -> res (list string)).

Definition resolver_request (job : value) : res (list string) :=
  check_keys job ["id"; "host"; "port"; "network"]%string ;;;
  let f := field (dict_of job) in
  integer (f "id") 1 (2 ^ 63 - 1) ;;;
  integer (f "port") 1 65535 ;;;
  let* host := canonical_name idna_label (f "host") in
  raise_if (negb (py_eq (f "host") (VStr host))
            || negb (py_eq (f "network") (VStr "tcp") || py_eq (f "network") (VStr "udp")))
    (normalizer_error "invalid-resolver-request") ;;;
  let* rows := getaddrinfo host (int_of (f "port")) (str_of (f "network")) in
  let* all := mapM_res normalize_str rows in
  let addresses := sorted_set (ip_str <$> all) in
  raise_if (64 <? Z.of_nat (length addresses)) (normalizer_error "oversized-resolver-answer") ;;;
  Ok addresses.

Definition job_id (job : value) : Z :=
  match job with
  | VDict d =>
      match default (VInt 0) (dget "id" d) with
      | VInt z => if (1 <=? z) && (z <? 2 ^ 63) then z else 0
      | _ => 0
      end
  | _ => 0
  end.

Definition resolver_answer (decoded : res value) : res (Z * list string) :=
  let job := match decoded with Ok job => job | Raise _ => VDict [] end in
  try_except
    (let* job := decoded in
     let* addresses := resolver_request job in
     Ok (int_of (field (dict_of job) "id"), addresses))
    [ValueError; KeyError; OSError; TypeError]
    (fun _ => Ok (job_id job, [])).
End ResolverWorker.

(** What [ResolverPool.resolve] makes of a worker's answer to its job. *)
Definition resolver_reply (id : Z) (decoded : res value) : res (list string) :=
  try_except
    (let* v := decoded in
     check_keys v ["id"; "addresses"]%string ;;;
     let f := field (dict_of v) in
     raise_if (negb (py_eq (f "id") (VInt id)) || negb (is_list (f "addresses"))
               || (64 <? Z.of_nat (length (list_of (f "addresses")))))
       (normalizer_error "resolution-unavailable") ;;;
     let* all := mapM_res normalize_address (list_of (f "addresses")) in
     Ok (ip_str <$> all))
    [OSError; ValueError; TypeError]
    (fun _ => Raise (normalizer_error "resolution-unavailable")).

(** The slots of [ResolverPool]: idle workers, busy ones with their jobs, the
    job counter and the next process identity. *)
Record slots := Slots {
  sl_available : list nat; sl_busy : list (nat * Z); sl_counter : Z; sl_next : nat
}.

(** The head of [resolve]: take a worker and a new job number. *)
Definition slot_take (s : slots) : option (nat * Z * slots) :=
  match sl_available s with
  | [] => None
  | w :: ws =>
      let id := sl_counter s + 1 in
      Some (w, id, Slots ws ((w, id) :: sl_busy s) id (sl_next s))
  end.

(** Its [finally] block: a worker that did not answer well is killed and
    replaced, unless the process is stopping. *)
Definition slot_return (w : nat) (good stopped : bool) (s : slots) : slots :=
  let busy := filter (fun b => b.1 <> w) (sl_busy s) in
  if negb good || stopped then
    if stopped then Slots (sl_available s) busy (sl_counter s) (sl_next s)
    else Slots (sl_available s ++ [sl_next s]) busy (sl_counter s) (S (sl_next s))
  else Slots (sl_available s ++ [w]) busy (sl_counter s) (sl_next s).

(** [_destinations]: the values to admit are the literal itself, or what the
    resolver answers for the canonical name. *)
Definition destinations (idna_label : string -> option string)
    (resolve : string -> Z -> string -> res (list string)) (p : policy)
    (host : string) (port : Z) (network : string) : res (list string) :=
  let* values :=
    try_except (let* a := normalize_str host in Ok [ip_str a]) [PolicyError]
      (fun _ => let* name := canonical_name idna_label (VStr host) in resolve name port network) in
  admitted_candidates p (VStr <$> values) (VInt port) network.

(** ** The staggered connect race *)

Definition MAX_CONNECT_CONTROLS : nat := 2.
Definition CONNECT_STAGGER : Q := 1 # 4.

Record attempt := Attempt { at_literal : string; at_deadline : Q; at_gateway : gateway }.

(** [active] (by connection identity), [index], [next_start], and the
    connections opened and closed so far. *)
Record race := Race {
  rc_active : list (nat * attempt); rc_index : nat; rc_next : Q;
  rc_opened : nat; rc_closed : list nat
}.

Definition race_init (started : Q) : race := Race [] 0 started 0 [].

(** The environment of one pass: whether the control side ended, the clock at
    the head, the outcome of opening a socket ([None]: the constructor raises;
    [Some b]: [b] when the connection is still in progress), the clock before
    each attempt advances and what the kernel answers it, and the final checks. *)
Record race_ev := RaceEv {
  rv_stopped : bool; rv_now : Q; rv_connect : option bool;
  rv_time : nat -> Q; rv_gateway : nat -> gateway_ev;
  rv_final_stopped : bool; rv_final_now : Q
}.

(** [finally]: every connection still active is closed. *)
Definition race_close (r : race) : race :=
  Race [] (rc_index r) (rc_next r) (rc_opened r) (rc_closed r ++ (rc_active r).*1).

(** Closing an attempt frees its slot and lets the next one start at once. *)
Definition race_drop (now : Q) (r : race) (c : nat) : race :=
  Race (filter (fun a => a.1 <> c) (rc_active r)) (rc_index r) now (rc_opened r) (rc_closed r ++ [c]).

Definition Qgeb (a b : Q) : bool := Qle_bool b a.

Definition race_expire (now : Q) (r : race) : race :=
  foldl (fun r a => if Qgeb now (at_deadline a.2) then race_drop now r a.1 else r) r (rc_active r).

Section Race.
Context (inet_ntop : ipver -> list Z -> string) (idna_label : string -> option string).
Context (username password : string) (p : policy) (candidates : list string) (port : Z).
Context (deadline attempt_seconds : Q).

Definition race_admits (literal : string) : res bool := allows p literal (VInt port) "tcp".

(** Starting the next candidate; [false] when the pass ends there. *)
Definition race_start (ev : race_ev) (r : race) : race * bool :=
  let now := rv_now ev in
  match candidates !! rc_index r with
  | Some literal =>
      if Nat.ltb (length (rc_active r)) MAX_CONNECT_CONTROLS && Qgeb now (rc_next r) then
        let failed closed opened :=
          (Race (rc_active r) (S (rc_index r)) now opened closed, false) in
        match race_admits literal with
        | Ok true =>
            match rv_connect ev with
            | None => failed (rc_closed r ++ [rc_opened r]) (S (rc_opened r))
            | Some pending =>
                let limit := if Qle_bool deadline (now + attempt_seconds)%Q then deadline
                             else (now + attempt_seconds)%Q in
                (Race (rc_active r ++ [(rc_opened r, Attempt literal limit (gateway_init pending))])
                      (S (rc_index r)) (now + CONNECT_STAGGER)%Q (S (rc_opened r)) (rc_closed r), true)
            end
        | _ => failed (rc_closed r) (rc_opened r)
        end
      else (r, true)
  | None => (r, true)
  end.

Definition set_gateway (c : nat) (g : gateway) (r : race) : race :=
  Race ((fun a => if decide (a.1 = c) then (a.1, Attempt (at_literal a.2) (at_deadline a.2) g) else a)
          <$> rc_active r) (rc_index r) (rc_next r) (rc_opened r) (rc_closed r).

(** One attempt of the advance loop; [inr] ends the race. *)
Definition race_advance (ev : race_ev) (r : race) (a : nat * attempt) : race + res nat * race :=
  let '(c, att) := a in
  let now := rv_time ev c in
  if Qgeb now (at_deadline att) then inl (race_drop now r c)
  else match gateway_advance inet_ntop idna_label username password (at_literal att) port
               (race_admits (at_literal att)) (at_gateway att) (rv_gateway ev c) with
  | Raise e => if caught [OSError; ValueError] e then inl (race_drop now r c) else inr (Raise e, r)
  | Ok (g, false, _) => inl (set_gateway c g r)
  | Ok (g, true, _) =>
      match race_admits (at_literal att) with
      | Raise e => inr (Raise e, r)
      | Ok ok =>
          if rv_final_stopped ev || Qgeb (rv_final_now ev) deadline || negb ok
          then inr (Raise upstream_unavailable, r)
          else inr (Ok c, Race (filter (fun a => a.1 <> c) (rc_active r)) (rc_index r) (rc_next r)
                            (rc_opened r) (rc_closed r))
      end
  end.

Fixpoint race_advances (ev : race_ev) (l : list (nat * attempt)) (r : race) : race + res nat * race :=
  match l with
  | [] => inl r
  | a :: l => match race_advance ev r a with inl r => race_advances ev l r | inr x => inr x end
  end.

(** One pass of [_connect_candidates]: the race goes on, or ends with a
    connection or an exception, after its [finally] block. *)
Definition race_pass (r : race) (ev : race_ev) : race + res nat * race :=
  let stop r := inr (Raise upstream_unavailable, race_close r) in
  if rv_stopped ev then stop r
  else if Qgeb (rv_now ev) deadline then stop r
  else
    let '(r, go_on) := race_start ev (race_expire (rv_now ev) r) in
    if negb go_on then inl r
    else match rc_active r with
    | [] => if Nat.eqb (rc_index r) (length candidates) then stop r else inl r
    | active =>
        match race_advances ev active r with
        | inl r => inl r
        | inr (res, r) => inr (res, race_close r)
        end
    end.
End Race.

(** *** The race's invariant *)

Section RaceProofs.
Context (inet_ntop : ipver -> list Z -> string) (idna_label : string -> option string).
Context (username password : string) (p : policy) (candidates : list string) (port : Z).
Context (deadline attempt_seconds : Q).
Notation pass := (race_pass inet_ntop idna_label username password p candidates port deadline attempt_seconds).
Notation advance1 := (race_advance inet_ntop idna_label username password p port deadline).
Notation advances := (race_advances inet_ntop idna_label username password p port deadline).
Notation start := (race_start p candidates port deadline attempt_seconds).
Notation admits := (race_admits p port).

Record race_inv (r : race) : Prop := {
  ri_two : (length (rc_active r) <= MAX_CONNECT_CONTROLS)%nat;
  ri_index : (rc_index r <= length candidates)%nat;
  ri_owned : (rc_active r).*1 ++ rc_closed r ≡ₚ seq 0 (rc_opened r);
  ri_admitted : Forall (fun a => at_literal a.2 ∈ candidates /\ admits (at_literal a.2) = Ok true) (rc_active r);
}.

Inductive race_reachable : race -> Prop :=
| race_started now : race_reachable (race_init now)
| race_passed r ev r' : race_reachable r -> pass r ev = inl r' -> race_reachable r'.

Lemma ri_nodup r : race_inv r -> NoDup (rc_active r).*1.
Proof.
  intros Hr. assert (NoDup ((rc_active r).*1 ++ rc_closed r)) as H by (rewrite (ri_owned r Hr); apply NoDup_seq).
  by apply NoDup_app in H as (? & _ & _).
Qed.

Lemma race_drop_inv now r c att : race_inv r -> (c, att) ∈ rc_active r -> race_inv (race_drop now r c).
Proof.
  intros Hr Hin. pose proof (ri_nodup r Hr) as Hn. destruct Hr as [H1 H2 H3 H4].
  split; simpl; [|done| |by apply Forall_filter_keep].
  - pose proof (length_filter (fun a : nat * attempt => a.1 <> c) (rc_active r)). lia.
  - rewrite <-H3, (filter_out_perm _ _ _ Hn Hin). solve_Permutation.
Qed.

Lemma race_drop_other now r c x : x ∈ rc_active r -> x.1 <> c -> x ∈ rc_active (race_drop now r c).
Proof. intros. simpl. by apply list_elem_of_filter. Qed.

Lemma race_expire_inv now r : race_inv r -> race_inv (race_expire now r).
Proof.
  intros Hr. unfold race_expire. pose proof (ri_nodup r Hr) as Hn.
  assert (Forall (fun a => a ∈ rc_active r) (rc_active r)) as Hin by (by apply Forall_forall).
  revert Hr Hn Hin. generalize (rc_active r) at 1 3 4 as l. intros l. revert r.
  induction l as [|[c a] l IH]; intros r Hr Hn Hin; simpl; [done|].
  apply NoDup_cons in Hn as [Hc Hn]. apply Forall_cons in Hin as [Hca Hin].
  destruct (Qgeb now (at_deadline a)); [|by apply IH].
  apply IH; [by eapply race_drop_inv|done|].
  rewrite Forall_forall in *. intros x Hx. apply race_drop_other; [by apply Hin|].
  intros <-. apply Hc, list_elem_of_fmap. by exists x.
Qed.

Lemma race_start_inv ev r r' b : race_inv r -> start ev r = (r', b) -> race_inv r'.
Proof.
  intros [H1 H2 H3 H4]. unfold race_start.
  destruct (candidates !! rc_index r) as [literal|] eqn:Hl; [|by intros [= <- <-]].
  pose proof (lookup_lt_Some _ _ _ Hl).
  destruct (_ && _) eqn:Hb; [|by intros [= <- <-]]. bprop.
  destruct (admits literal) as [[]|] eqn:Ha; [|by intros [= <- <-]..].
  destruct (rv_connect ev) as [pending|]; intros [= <- <-].
  - split; cbn [rc_active rc_index rc_opened rc_closed]; [rewrite length_app; simpl; lia|lia| |].
    + rewrite seq_S, <-H3, fmap_app. csimpl. solve_Permutation.
    + apply Forall_app_2; [done|]. constructor; [|done]. simpl.
      split; [by eapply list_elem_of_lookup_2|done].
  - split; cbn [rc_active rc_index rc_opened rc_closed]; [done|lia| |done].
    rewrite seq_S, <-H3. simpl. solve_Permutation.
Qed.

Lemma set_gateway_inv c g r : race_inv r -> race_inv (set_gateway c g r).
Proof.
  intros [H1 H2 H3 H4]. split; simpl; [by rewrite length_fmap|done| |].
  - rewrite <-H3. f_equiv. rewrite <-list_fmap_compose. apply reflexive_eq, list_fmap_ext.
    intros _ [c' a] _. simpl. by case_decide.
  - apply Forall_fmap. eapply Forall_impl; [done|]. intros [c' a] Ha. simpl in *. by case_decide.
Qed.

Lemma set_gateway_other c g r x : x ∈ rc_active r -> x.1 <> c -> x ∈ rc_active (set_gateway c g r).
Proof.
  intros Hx Hne. simpl. apply list_elem_of_fmap. exists x. split; [|done]. by rewrite decide_False.
Qed.

(** What one attempt of the loop leaves: the invariant and the other attempts,
    or the connection that won. *)
Definition race_won (c : nat) (r : race) : Prop :=
  c :: (rc_active r).*1 ++ rc_closed r ≡ₚ seq 0 (rc_opened r) /\
  exists literal, literal ∈ candidates /\ admits literal = Ok true.

Lemma race_advance_inv ev r c att :
  race_inv r -> (c, att) ∈ rc_active r ->
  match advance1 ev r (c, att) with
  | inl r' => race_inv r' /\ forall x, x ∈ rc_active r -> x.1 <> c -> x ∈ rc_active r'
  | inr (Ok c', r') => race_won c' r'
  | inr (Raise _, r') => race_inv r'
  end.
Proof.
  intros Hr Hin. unfold race_advance.
  destruct (Qgeb _ _); [eauto using race_drop_inv, race_drop_other|].
  destruct (gateway_advance _ _ _ _ _ _ _ _ _) as [[[g []] wt]|e].
  - destruct (admits (at_literal att)) as [ok|e] eqn:Ha; [|done].
    destruct (_ || _) eqn:Hf; [done|]. bprop. subst ok. split; simpl.
    + rewrite <-(ri_owned r Hr), (filter_out_perm _ _ _ (ri_nodup r Hr) Hin). done.
    + pose proof (ri_admitted r Hr) as Hadm. rewrite Forall_forall in Hadm.
      specialize (Hadm _ Hin). eauto.
  - split; [by apply set_gateway_inv|]. intros. by apply set_gateway_other.
  - destruct (caught _ e); [|done]. split; [by eapply race_drop_inv|]. intros. by apply race_drop_other.
Qed.

Lemma race_advances_inv ev l r :
  race_inv r -> NoDup l.*1 -> Forall (fun a => a ∈ rc_active r) l ->
  match advances ev l r with
  | inl r' => race_inv r'
  | inr (Ok c, r') => race_won c r'
  | inr (Raise _, r') => race_inv r'
  end.
Proof.
  revert r. induction l as [|[c att] l IH]; intros r Hr Hn Hl; cbn [race_advances]; [done|].
  apply NoDup_cons in Hn as [Hc Hn]. apply Forall_cons in Hl as [Hca Hl].
  pose proof (race_advance_inv ev r c att Hr Hca) as H1.
  destruct (advance1 ev r (c, att)) as [r'|x]; [|exact H1]. destruct H1 as [Hr' Hk].
  apply IH; [done|done|]. rewrite Forall_forall in *. intros x Hx. apply Hk; [by apply Hl|].
  intros Hxc. apply Hc, list_elem_of_fmap. by exists x.
Qed.

Lemma race_pass_inv r ev :
  race_inv r ->
  match pass r ev with
  | inl r' => race_inv r'
  | inr (Ok c, r') => rc_active r' = [] /\ race_won c r'
  | inr (Raise _, r') => rc_active r' = [] /\ race_inv r'
  end.
Proof.
  intros Hr. assert (forall r, race_inv r -> race_inv (race_close r)) as Hclose.
  { intros r0 [H1 H2 H3 H4]. split; simpl; [lia|done| |done]. rewrite <-H3. solve_Permutation. }
  unfold race_pass. destruct (rv_stopped ev); [split; auto|]. destruct (Qgeb _ deadline); [split; auto|].
  destruct (start ev (race_expire (rv_now ev) r)) as [r1 b] eqn:Hs.
  pose proof (race_start_inv _ _ _ _ (race_expire_inv (rv_now ev) r Hr) Hs) as Hr1.
  destruct b; cbn [negb]; [|done]. destruct (rc_active r1) as [|a l] eqn:Hact.
  - destruct (Nat.eqb _ _); [split; auto|done].
  - pose proof (race_advances_inv ev (rc_active r1) r1 Hr1 (ri_nodup r1 Hr1)
      ltac:(by apply Forall_forall)) as Ha. rewrite Hact in Ha.
    destruct (advances ev (a :: l) r1) as [r2|[[c|e] r2]]; [done| |split; auto].
    split; [done|]. destruct Ha as [Hp Hlit]. split; [|done]. simpl. rewrite <-Hp. solve_Permutation.
Qed.

Lemma race_reachable_inv r : race_reachable r -> race_inv r.
Proof.
  induction 1 as [now|r ev r' _ IH Hp].
  - split; simpl; [unfold MAX_CONNECT_CONTROLS; lia|lia|done|constructor].
  - pose proof (race_pass_inv r ev IH) as H. by rewrite Hp in H.
Qed.

(** The connect race never holds more than two connections at a time, only
    ever to candidates the policy admits, and leaks none: when it ends every
    connection it opened is closed, except the single one it returns on
    success, whose literal is an admitted candidate. *)
Theorem race_ends r ev result r' :
  race_reachable r -> pass r ev = inr (result, r') ->
  (length (rc_active r) <= 2)%nat /\
  Forall (fun a => at_literal a.2 ∈ candidates /\ admits (at_literal a.2) = Ok true) (rc_active r) /\
  match result with
  | Ok c => c :: rc_closed r' ≡ₚ seq 0 (rc_opened r') /\
            exists literal, literal ∈ candidates /\ admits literal = Ok true
  | Raise _ => rc_closed r' ≡ₚ seq 0 (rc_opened r')
  end.
Proof.
  intros Hr%race_reachable_inv Hp. split; [apply Hr|]. split; [apply Hr|].
  pose proof (race_pass_inv r ev Hr) as H. rewrite Hp in H.
  destruct result as [c|e]; destruct H as [Hnil H].
  - destruct H as [H Hl]. rewrite Hnil in H. by split.
  - pose proof (ri_owned _ H) as Ho. by rewrite Hnil in Ho.
Qed.
End RaceProofs.

(** ** The UDP association *)

(** [bindings], [admitted] and [pinned_source] of [_association], with the
    datagrams sent upstream and back to the client so far. *)
Record assoc := Assoc {
  as_bindings : list ((string * Z) * string);
  as_admitted : list (string * Z);
  as_pinned : option (string * Z);
  as_up : list (list Z);
  as_down : list (list Z * (string * Z));
}.

Definition assoc_init : assoc := Assoc [] [] None [] [].

Fixpoint binding (key : string * Z) (l : list ((string * Z) * string)) : option string :=
  match l with
  | [] => None
  | (k, literal) :: l => if decide (k = key) then Some literal else binding key l
  end.

(** [pinned_source is None or address == pinned_source] *)
Definition is_none_or (address : string * Z) (pinned : option (string * Z)) : bool :=
  match pinned with None => true | Some a => bool_decide (a = address) end.

Section Association.
Context (inet_ntop : ipver -> list Z -> string) (idna_label : string -> option string).
Context (resolve : string -> Z -> string -> res (list string)) (p : policy).
Context (max_bindings : nat) (maximum : Z) (source_ip : string).

(** [except (OSError, ValueError): continue] *)
Definition dropped (st : assoc) (e : exn) : res (assoc * bool) :=
  if caught [OSError; ValueError] e then Ok (st, true) else Raise e.

(** The second half of the front branch: from the bound literal to the send.
    The boolean is [false] when the association loop ends. *)
Definition front_send (control_ready send_ok : bool) (address : string * Z)
    (st : assoc) (literal : string) (port : Z) (payload : list Z) : res (assoc * bool) :=
  match allows p literal (VInt port) "udp" with
  | Raise e => dropped st e
  | Ok false => Ok (st, true)
  | Ok true =>
      if control_ready then Ok (st, false)
      else match encoded_datagram literal (VInt port) payload maximum with
      | Raise e => dropped st e
      | Ok packet =>
          if negb send_ok then dropped st (os_error "send")
          else Ok (Assoc (as_bindings st)
                     (if decide ((literal, port) ∈ as_admitted st) then as_admitted st
                      else as_admitted st ++ [(literal, port)])
                     (Some address) (as_up st ++ [packet]) (as_down st), true)
      end
  end.

(** The [try] block of the front branch. *)
Definition front_admit (control_ready send_ok : bool) (frame : list Z) (address : string * Z)
    (st : assoc) : res (assoc * bool) :=
  match datagram inet_ntop idna_label frame maximum with
  | Raise e => dropped st e
  | Ok (host, port, payload) =>
      match binding (host, port) (as_bindings st) with
      | Some literal => front_send control_ready send_ok address st literal port payload
      | None =>
          if Nat.leb max_bindings (length (as_bindings st)) then Ok (st, true)
          else match destinations idna_label resolve p host port "udp" with
          | Raise e => dropped st e
          | Ok [] => Raise (Exn IndexError "tuple index out of range")
          | Ok (literal :: _) =>
              let st := Assoc (as_bindings st ++ [((host, port), literal)]) (as_admitted st)
                          (as_pinned st) (as_up st) (as_down st) in
              front_send control_ready send_ok address st literal port payload
          end
      end
  end.

(** A datagram from the client: [if front in ready]. *)
Definition front_packet (pending_ok control_ready send_ok : bool) (frame : list Z)
    (address : string * Z) (st : assoc) : res (assoc * bool) :=
  if negb (is_none_or address (as_pinned st)) then Ok (st, true)
  else
    let* a := normalize_str address.1 in
    if negb (bool_decide (ip_str a = source_ip)) || negb pending_ok then Ok (st, true)
    else front_admit control_ready send_ok frame address st.

(** A datagram from the gateway: [if upstream in ready]. *)
Definition upstream_packet (send_ok : bool) (frame : list Z) (st : assoc) : res (assoc * bool) :=
  match datagram inet_ntop idna_label frame maximum with
  | Raise e => dropped st e
  | Ok (host, port, payload) =>
      match as_pinned st with
      | None => Ok (st, true)
      | Some pinned =>
          if negb (bool_decide ((host, port) ∈ as_admitted st)) then Ok (st, true)
          else match allows p host (VInt port) "udp" with
          | Raise e => dropped st e
          | Ok false => Ok (st, true)
          | Ok true =>
              match encoded_datagram host (VInt port) payload maximum with
              | Raise e => dropped st e
              | Ok packet =>
                  if negb send_ok then dropped st (os_error "sendto")
                  else Ok (Assoc (as_bindings st) (as_admitted st) (as_pinned st) (as_up st)
                             (as_down st ++ [(packet, pinned)]), true)
              end
          end
      end
  end.

(** What one pass of the association loop handles. *)
Inductive assoc_ev :=
| FromClient (pending_ok control_ready send_ok : bool) (frame : list Z) (address : string * Z)
| FromGateway (send_ok : bool) (frame : list Z).

Definition assoc_step (st : assoc) (ev : assoc_ev) : res (assoc * bool) :=
  match ev with
  | FromClient pending_ok control_ready send_ok frame address =>
      front_packet pending_ok control_ready send_ok frame address st
  | FromGateway send_ok frame => upstream_packet send_ok frame st
  end.

Inductive assoc_reachable : assoc -> Prop :=
| assoc_started : assoc_reachable assoc_init
| assoc_stepped st ev st' b :
    assoc_reachable st -> assoc_step st ev = Ok (st', b) -> assoc_reachable st'.

(** *** The association's invariant *)

Record assoc_inv (st : assoc) : Prop := {
  ai_keys : NoDup (as_bindings st).*1;
  ai_bound : (length (as_bindings st) <= max_bindings)%nat;
  ai_admitted : Forall (fun d => allows p d.1 (VInt d.2) "udp" = Ok true) (as_admitted st);
  ai_up : Forall (fun packet => exists d payload, d ∈ as_admitted st /\
    encoded_datagram d.1 (VInt d.2) payload maximum = Ok packet) (as_up st);
  ai_down : Forall (fun x => as_pinned st = Some x.2 /\ exists d payload, d ∈ as_admitted st /\
    encoded_datagram d.1 (VInt d.2) payload maximum = Ok x.1) (as_down st);
  ai_pinned a : as_pinned st = Some a -> exists ip, normalize_str a.1 = Ok ip /\ ip_str ip = source_ip;
}.

Lemma binding_None key l : binding key l = None -> key ∉ l.*1.
Proof.
  induction l as [|[k literal] l IH]; simpl; [by intros _ ?%not_elem_of_nil|].
  destruct (decide (k = key)) as [->|Hne]; [done|]. intros Hb. apply IH in Hb.
  intros [->|Hin]%elem_of_cons; [by apply Hne|by apply Hb].
Qed.

Lemma dropped_Ok st e st' b : dropped st e = Ok (st', b) -> st' = st.
Proof. unfold dropped. destruct (caught _ _); [by intros [= <- _]|done]. Qed.

Lemma front_send_inv cr so address st literal port payload st' b :
  assoc_inv st ->
  (forall a, as_pinned st = Some a -> a = address) ->
  (exists ip, normalize_str address.1 = Ok ip /\ ip_str ip = source_ip) ->
  front_send cr so address st literal port payload = Ok (st', b) -> assoc_inv st'.
Proof.
  intros Hst Hpin Hip. unfold front_send.
  destruct (allows _ _ _ _) as [[]|e] eqn:Ha; [|by intros [= <- _]|by intros ->%dropped_Ok].
  destruct cr; [by intros [= <- _]|].
  destruct (encoded_datagram _ _ _ _) as [packet|e] eqn:He; [|by intros ->%dropped_Ok].
  destruct so; simpl; [|by intros ->%dropped_Ok]. intros [= <- _].
  set (adm := if decide _ then _ else _).
  assert (forall d, d ∈ as_admitted st -> d ∈ adm) as Hsub.
  { intros d Hd. unfold adm. case_decide; [done|]. apply elem_of_app. by left. }
  assert ((literal, port) ∈ adm) as Hin.
  { unfold adm. case_decide; [done|]. apply elem_of_app. right. by apply list_elem_of_singleton. }
  destruct Hst as [H1 H2 H3 H4 H5 H6]. split; simpl; [done|done| | | |by intros a [= <-]].
  - unfold adm. case_decide; [done|]. apply Forall_app_2; [done|]. by constructor.
  - apply Forall_app_2.
    + eapply Forall_impl; [exact H4|]. intros x (d & pl & Hd & Hx). exists d, pl. auto.
    + constructor; [|done]. by exists (literal, port), payload.
  - eapply Forall_impl; [exact H5|]. intros x (Hx & d & pl & Hd & Hx'). split.
    + by rewrite (Hpin _ Hx).
    + exists d, pl. auto.
Qed.

Lemma assoc_step_inv st ev st' b : assoc_inv st -> assoc_step st ev = Ok (st', b) -> assoc_inv st'.
Proof.
  intros Hst. destruct ev as [po cr so frame address|so frame]; simpl.
  - unfold front_packet. destruct (negb _) eqn:Hp; [by intros [= <- _]|]. intros H'. res_step H'.
    destruct (_ || _) eqn:Hg; [by injection H' as <- _|]. bprop.
    assert (forall a, as_pinned st = Some a -> a = address) as Hpin.
    { intros a0 Ha0. unfold is_none_or in Hp. rewrite Ha0 in Hp. by apply bool_decide_eq_true in Hp. }
    unfold front_admit in H'.
    destruct (datagram _ _ _ _) as [[[host port] payload]|e]; [|by apply dropped_Ok in H' as ->].
    destruct (binding _ _) as [literal|] eqn:Hb; [by eapply front_send_inv; eauto|].
    destruct (Nat.leb_spec max_bindings (length (as_bindings st))) as [|Hroom]; [by injection H' as <- _|].
    destruct (destinations _ _ _ _ _ _) as [[|literal l]|e]; [done| |by apply dropped_Ok in H' as ->].
    eapply front_send_inv; [| |eauto|exact H']; [|exact Hpin].
    apply binding_None in Hb. destruct Hst as [H1 H2 H3 H4 H5 H6]. split; simpl; try done.
    + rewrite fmap_app. apply NoDup_app. split_and!; [done| |apply NoDup_singleton].
      by intros x Hx ->%list_elem_of_singleton.
    + rewrite length_app. simpl. lia.
  - unfold upstream_packet.
    destruct (datagram _ _ _ _) as [[[host port] payload]|e]; [|by intros ->%dropped_Ok].
    destruct (as_pinned st) as [pinned|] eqn:Hp; [|by intros [= <- _]].
    destruct (bool_decide _) eqn:Hin; simpl; [|by intros [= <- _]]. bprop.
    destruct (allows _ _ _ _) as [[]|e]; [|by intros [= <- _]|by intros ->%dropped_Ok].
    destruct (encoded_datagram _ _ _ _) as [packet|e] eqn:He; [|by intros ->%dropped_Ok].
    destruct so; simpl; [|by intros ->%dropped_Ok]. intros [= <- _].
    destruct Hst as [H1 H2 H3 H4 H5 H6]. split; simpl; try done.
    + apply Forall_app_2; [by rewrite Hp in *|]. constructor; [|done]. split; [done|].
      by exists (host, port), payload.
    + rewrite <-Hp. done.
Qed.

(** C30: a UDP association sends upstream only datagrams whose destination the
    policy admits, relays back only datagrams that come from a destination it
    has sent to, only to the one client endpoint it is pinned to, whose address
    is the control connection's, and never holds more than the configured
    number of bindings, one per requested destination. *)
Theorem association_confined st :
  assoc_reachable st ->
  (length (as_bindings st) <= max_bindings)%nat /\ NoDup (as_bindings st).*1 /\
  Forall (fun packet => exists literal port payload,
    allows p literal (VInt port) "udp" = Ok true /\
    encoded_datagram literal (VInt port) payload maximum = Ok packet) (as_up st) /\
  Forall (fun x => as_pinned st = Some x.2 /\
    (exists ip, normalize_str x.2.1 = Ok ip /\ ip_str ip = source_ip) /\
    exists d payload, d ∈ as_admitted st /\ encoded_datagram d.1 (VInt d.2) payload maximum = Ok x.1)
    (as_down st).
Proof.
  intros H. assert (assoc_inv st) as [H1 H2 H3 H4 H5 H6].
  { induction H as [|st ev st' b _ IH Hs]; [|by eapply assoc_step_inv].
    split; simpl; try done; try constructor. lia. }
  split_and!; [done|done| |].
  - eapply Forall_impl; [exact H4|]. intros x (d & pl & Hd & Hx). rewrite Forall_forall in H3.
    exists d.1, d.2, pl. split; [by apply H3|done].
  - eapply Forall_impl; [exact H5|]. intros x (Hx & Hd). eauto.
Qed.
End Association.

(** ** Concrete runs *)

Section SampleRace.
Definition race_pass9 : race -> race_ev -> race + res nat * race :=
  race_pass ntop_canonical (fun _ => None) "u" "p" default_policy ["9.9.9.9"; "10.0.0.1"] 443 5 2.

(** One connection is started and completes its handshake one byte per pass. *)
Definition sample_race_events : list race_ev :=
  (fun g => RaceEv false 0 (Some true) (fun _ => 0%Q) (fun _ => g) false 0) <$> sample_gateway_events.

Fixpoint race_passes (r : race) (evs : list race_ev) : option race :=
  match evs with
  | [] => Some r
  | ev :: evs => match race_pass9 r ev with inl r => race_passes r evs | inr _ => None end
  end.
End SampleRace.

Lemma race_passes_reachable evs r r' :
  race_reachable ntop_canonical (fun _ => None) "u" "p" default_policy ["9.9.9.9"; "10.0.0.1"] 443 5 2 r ->
  race_passes r evs = Some r' ->
  race_reachable ntop_canonical (fun _ => None) "u" "p" default_policy ["9.9.9.9"; "10.0.0.1"] 443 5 2 r'.
Proof.
  revert r. induction evs as [|ev evs IH]; intros r Hr H; simpl in H; [by injection H as <-|].
  destruct (race_pass9 r ev) as [r1|] eqn:Hp; [|done]. eapply IH; [|done]. by eapply race_passed.
Qed.

Definition sample_race_end : race_ev :=
  RaceEv false 0 None (fun _ => 0%Q) (fun _ => GatewayEv true false false SendBlocks (Chunk [187])) false 0.

Lemma race_ends_witness :
  exists r r', race_passes (race_init 0) (take 17 sample_race_events) = Some r /\
    race_pass9 r sample_race_end = inr (Ok 0%nat, r') /\ 0%nat :: rc_closed r' ≡ₚ seq 0 (rc_opened r').
Proof.
  destruct (race_passes (race_init 0) (take 17 sample_race_events)) as [r|] eqn:Hr;
    [|vm_compute in Hr; discriminate Hr].
  pose proof (race_passes_reachable _ _ _ (race_started _ _ _ _ _ _ _ _ _ 0) Hr) as Hreach.
  destruct (race_pass9 r sample_race_end) as [r'|[[c|e] r']] eqn:Hp;
    [vm_compute in Hr; injection Hr as <-; vm_compute in Hp; discriminate Hp| |
     vm_compute in Hr; injection Hr as <-; vm_compute in Hp; discriminate Hp].
  assert (c = 0%nat) as -> by
    (vm_compute in Hr; injection Hr as <-; vm_compute in Hp; by injection Hp).
  exists r, r'. split; [done|]. split; [done|].
  apply (race_ends _ _ _ _ _ _ _ _ _ r sample_race_end (Ok 0%nat) r' Hreach Hp).
Defined.

Definition sample_assoc_step : assoc -> assoc_ev -> res (assoc * bool) :=
  assoc_step ntop_canonical (fun _ => None) (fun _ _ _ => Ok ["9.9.9.9"%string]) default_policy 16 1500 "127.0.0.1".

(** A datagram to 9.9.9.9:53 leaves and its answer comes back. *)
Lemma association_confined_witness :
  exists st, assoc_reachable ntop_canonical (fun _ => None) (fun _ _ _ => Ok ["9.9.9.9"%string])
      default_policy 16 1500 "127.0.0.1" st /\
    as_up st = [[0; 0; 0; 1; 9; 9; 9; 9; 0; 53; 7]] /\
    as_down st = [([0; 0; 0; 1; 9; 9; 9; 9; 0; 53; 8], ("127.0.0.1"%string, 5000))] /\
    (length (as_bindings st) <= 16)%nat.
Proof.
  destruct (sample_assoc_step assoc_init
    (FromClient true false true [0; 0; 0; 1; 9; 9; 9; 9; 0; 53; 7] ("127.0.0.1"%string, 5000)))
    as [[st1 b1]|] eqn:H1; [|vm_compute in H1; discriminate H1].
  destruct (sample_assoc_step st1 (FromGateway true [0; 0; 0; 1; 9; 9; 9; 9; 0; 53; 8]))
    as [[st2 b2]|] eqn:H2; [|vm_compute in H1; injection H1 as <- <-; vm_compute in H2; discriminate H2].
  assert (assoc_reachable ntop_canonical (fun _ => None) (fun _ _ _ => Ok ["9.9.9.9"%string])
      default_policy 16 1500 "127.0.0.1" st2) as H.
  { eapply assoc_stepped; [eapply assoc_stepped; [apply assoc_started|exact H1]|exact H2]. }
  exists st2. split; [exact H|]. vm_compute in H1. injection H1 as <- <-. vm_compute in H2. injection H2 as <- <-.
  split; [reflexivity|]. split; [reflexivity|].
  apply (association_confined _ _ _ _ _ _ _ _ H).
Defined.
