(* ===== verification/Json.v ===== *)
(** * JSON text

    [json.dumps(value, separators=(",", ":"))] with and without [sort_keys], on
    the default [ensure_ascii] setting. *)

From S2P Require Import Prelude PyValue PyStr.
From stdpp Require Import sorting.
#[local] Open Scope Z_scope.

(** The code points of a (well-formed) UTF-8 byte sequence. *)
Fixpoint code_points (l : list ascii) : list Z :=
  match l with
  | [] => []
  | a :: l1 =>
      let x := ord a in
      if x <? 128 then x :: code_points l1
      else match l1 with
      | [] => [x]
      | b :: l2 =>
          if x <? 224 then ((x - 192) * 64 + (ord b - 128)) :: code_points l2
          else match l2 with
          | [] => [x]
          | c :: l3 =>
              if x <? 240 then ((x - 224) * 4096 + (ord b - 128) * 64 + (ord c - 128)) :: code_points l3
              else match l3 with
              | [] => [x]
              | d :: l4 =>
                  ((x - 240) * 262144 + (ord b - 128) * 4096 + (ord c - 128) * 64 + (ord d - 128))
                    :: code_points l4
              end
          end
      end
  end.

Definition quote : ascii := chr 34.
Definition backslash : ascii := chr 92.

(** [\uXXXX] *)
Definition unicode_escape (z : Z) : list ascii :=
  backslash :: "u"%char ::
  [digit_char (z / 4096 mod 16); digit_char (z / 256 mod 16);
   digit_char (z / 16 mod 16); digit_char (z mod 16)].

Definition json_char (z : Z) : list ascii :=
  if z =? 34 then [backslash; quote]
  else if z =? 92 then [backslash; backslash]
  else if z =? 10 then [backslash; "n"%char]
  else if z =? 13 then [backslash; "r"%char]
  else if z =? 9 then [backslash; "t"%char]
  else if z =? 12 then [backslash; "f"%char]
  else if z =? 8 then [backslash; "b"%char]
  else if (32 <=? z) && (z <=? 126) then [chr z]
  else if z <? 65536 then unicode_escape z
  else
    let w := z - 65536 in
    unicode_escape (55296 + w / 1024) ++ unicode_escape (56320 + w mod 1024).

Definition json_str (s : string) : list ascii :=
  quote :: mjoin (json_char <$> code_points (chars s)) ++ [quote].

Definition key_le (a b : string * list ascii) : Prop := String.leb a.1 b.1 = true.
#[export] Instance key_le_dec : RelDecision key_le.
Proof. intros a b. unfold key_le. apply _. Defined.

Section Dumps.
(** [float.__repr__], of which no other part of the development depends. *)
Context (float_repr : pyfloat -> list ascii).

Fixpoint dumps_chars (sort_keys : bool) (v : value) : list ascii :=
  match v with
  | VNone => chars "null"
  | VBool true => chars "true"
  | VBool false => chars "false"
  | VInt z => chars (str_of_Z z)
  | VFloat f => float_repr f
  | VStr s => json_str s
  | VList l =>
      "["%char :: join_chars ","%char
        ((fix go (l : list value) := match l with [] => [] | x :: l => dumps_chars sort_keys x :: go l end) l)
        ++ ["]"%char]
  | VDict d =>
      let items :=
        (fix go (d : list (string * value)) : list (string * list ascii) :=
           match d with [] => [] | (k, x) :: d => (k, dumps_chars sort_keys x) :: go d end) d in
      "{"%char :: join_chars ","%char
        ((fun kv => json_str kv.1 ++ ":"%char :: kv.2) <$> (if sort_keys then merge_sort key_le items else items))
        ++ ["}"%char]
  end.

(** The bytes of [json.dumps(v, separators=(",", ":"), sort_keys=...)]. *)
Definition dumps (sort_keys : bool) (v : value) : list Z := ord <$> dumps_chars sort_keys v.
End Dumps.

Example dumps_list :
  of_chars (dumps_chars (fun _ => []) true (VList [VInt (-1); VNone; VList [VBool true]])) = "[-1,null,[true]]"%string.
Proof. vm_compute. reflexivity. Qed.

Example dumps_sorted :
  dumps_chars (fun _ => []) true (VDict [("b", VInt 2); ("a", VStr "x")]%string) =
  ["{"%char; quote; "a"%char; quote; ":"%char; quote; "x"%char; quote; ","%char;
   quote; "b"%char; quote; ":"%char; "2"%char; "}"%char].
Proof. vm_compute. reflexivity. Qed.
