(* ===== verification/DeadmanConfig.v ===== *)
(** * The dead-man receiver: configuration and persistent state

    [ansible/roles/observability_deadman/files/observability-deadman.py]: the
    strict configuration document ([_load_config]), the persistent state and its
    decoder ([_empty_state], [_state], [_save_state]'s document). *)

From S2P Require Import Prelude PyValue PyStr Regex.
#[local] Open Scope Z_scope.

Definition deadman_error (m : string) : exn := Exn DeadmanError m.
Definition MAX_STATE_BYTES : Z := 4096.
Definition MAX_INSTANT : Z := 2 ^ 63 - 1.

(** ** The patterns *)

Definition re_hex : ascii -> bool := is_hex_lower.
(** [^(?:[0-9a-f]{40}|[0-9a-f]{64})$] *)
Definition GENERATION : re := RAlt (RClsRep re_hex 40 40) (RClsRep re_hex 64 64).
(** [^[0-9a-f]{64}$] *)
Definition SIGNATURE : re := RClsRep re_hex 64 64.
Definition dns_char (c : ascii) : bool := is_alnum c || one_of ".-" c.
Definition REVERSE_HEALTH_URL : re :=
  RCat (RLit "https://") (RCat (RCls is_alnum) (RCat (RClsRep dns_char 0 252)
    (RLit ":9443/observability/v1/deadman/reverse"))).
Definition lower_alnum (c : ascii) : bool := is_lower c || is_digit c.
(** [[a-z0-9](?:[a-z0-9-]{0,61}[a-z0-9])?] *)
Definition re_label : re :=
  RCat (RCls lower_alnum)
    (ROpt (RCat (RClsRep (fun c => lower_alnum c || one_of "-" c) 0 61) (RCls lower_alnum))).
Definition PULSE_SERVER_NAME : re :=
  RAlt (RLit "localhost") (RCat re_label (RRep (RCat (RLit ".") re_label) 1 4)).
Definition re_unit : re :=
  RCat (RCls lower_alnum)
    (RCat (RClsRep (fun c => lower_alnum c || one_of "@_.-" c) 0 63) (RLit ".service")).
Definition re_credential : re :=
  RCat (RCls is_lower) (RClsRep (fun c => lower_alnum c || one_of "-" c) 0 63).
(** [-?[0-9]{6,20}] *)
Definition re_chat : re := RCat (ROpt (RLit "-")) (RClsRep is_digit 6 20).
Definition CLIENT_CN : string := "deadman-control".

(** [isinstance(v, str) and pattern.fullmatch(v)] *)
Definition str_matches (r : re) (v : value) : bool := is_str v && fullmatch r (str_of v).

(** [v in range(a, b)]: equality with an integer of the range, so [True] and an
    integral float count. *)
Definition in_int_range (v : value) (a b : Z) : bool :=
  existsb (fun z => py_eq v (VInt z)) (seqZ a (b - a)).

(** ** Duplicate-safe decoding *)

(** [_pairs] *)
Definition pairs (l : list (string * value)) : res (list (string * value)) :=
  foldM_res (fun result kv =>
    raise_if (mem kv.1 (keys result)) (deadman_error "invalid pulse") ;;;
    Ok (dset kv.1 kv.2 result)) l [].

(** ** The configuration document *)

Definition config_keys : list string :=
  ["schema"; "pulse_path"; "pulse_interval_seconds"; "missed_pulse_limit"; "max_future_seconds";
   "max_pulse_bytes"; "retry_attempts"; "retry_timeout_seconds"; "reminder_interval_seconds";
   "canary_interval_seconds"; "reverse_health_url"; "reverse_health_max_bytes"; "source_generation";
   "required_units"; "pulse_tls"; "reverse_health_tls"; "telegram"]%string.

Definition has_keys (v : value) (l : list string) : bool := is_dict v && same_set (keys (dict_of v)) l.

Definition pulse_tls_ok (tls : value) : bool :=
  let f := field (dict_of tls) in
  has_keys tls ["server_name"; "server_cert_credential"; "server_key_credential"]%string
  && str_matches PULSE_SERVER_NAME (f "server_name")
  && py_eq (f "server_cert_credential") (VStr "pulse-server-cert")
  && py_eq (f "server_key_credential") (VStr "pulse-server-key").

Definition reverse_tls_ok (tls : value) : bool :=
  let f := field (dict_of tls) in
  has_keys tls ["ca_credential"; "client_cert_credential"; "client_key_credential"; "client_cn";
                "client_cert_fingerprint_sha256"; "ca_fingerprint_sha256"]%string
  && forallb (fun n => str_matches re_credential (f n))
       ["ca_credential"; "client_cert_credential"; "client_key_credential"]%string
  && py_eq (f "client_cn") (VStr CLIENT_CN)
  && forallb (fun n => str_matches SIGNATURE (f n))
       ["client_cert_fingerprint_sha256"; "ca_fingerprint_sha256"]%string
  && negb (py_eq (f "client_cert_fingerprint_sha256") (f "ca_fingerprint_sha256")).

(** The test on [required_units]; building the set of an unhashable element
    raises. *)
Definition required_units_ok (units : value) : res bool :=
  let l := list_of units in
  if negb (is_list units) || negb ((1 <=? Z.of_nat (length l)) && (Z.of_nat (length l) <=? 8))
  then Ok false
  else
    let* distinct := py_set l in
    Ok (Nat.eqb (length distinct) (length l) && forallb (str_matches re_unit) l).

Definition telegram_ok (t : value) : bool :=
  let f := field (dict_of t) in
  has_keys t ["chat_id"; "topic_id"]%string
  && str_matches re_chat (f "chat_id")
  && is_int (f "topic_id") && (0 <=? int_of (f "topic_id")).

(** [_load_config] from the decoded document on: [size] is the file's length. *)
Definition load_config (size : Z) (decoded : res value) : res value :=
  let bad := Raise (deadman_error "invalid config") in
  if MAX_STATE_BYTES <? size then bad
  else
    let* data := try_except decoded [UnicodeError; JSONDecodeError; DeadmanError] (fun _ => bad) in
    match data with
    | VDict d =>
        let f := field d in
        let eq n z := py_eq (f n) (VInt z) in
        let guard b : res unit := raise_if (negb b) (deadman_error "invalid config") in
        guard (same_set (keys d) config_keys && eq "schema" 1) ;;;
        guard (py_eq (f "pulse_path") (VStr "/v1/pulse") && eq "pulse_interval_seconds" 60) ;;;
        guard (eq "missed_pulse_limit" 5 && eq "max_future_seconds" 30) ;;;
        guard (is_int (f "max_pulse_bytes") && (512 <=? int_of (f "max_pulse_bytes"))
               && (int_of (f "max_pulse_bytes") <=? 4096)) ;;;
        guard ((eq "retry_attempts" 1 || eq "retry_attempts" 2)
               && in_int_range (f "retry_timeout_seconds") 1 6) ;;;
        guard (eq "reminder_interval_seconds" 3600 && eq "canary_interval_seconds" 86400) ;;;
        guard (str_matches REVERSE_HEALTH_URL (f "reverse_health_url")) ;;;
        guard (in_int_range (f "reverse_health_max_bytes") 256 4097) ;;;
        guard (pulse_tls_ok (f "pulse_tls")) ;;;
        guard (str_matches GENERATION (f "source_generation")) ;;;
        let* units := required_units_ok (f "required_units") in
        guard units ;;;
        guard (reverse_tls_ok (f "reverse_health_tls")) ;;;
        guard (telegram_ok (f "telegram")) ;;;
        Ok data
    | VStr _ => bad
    | VList l =>
        let* distinct := py_set l in
        if forallb is_str distinct && same_set (str_of <$> distinct) config_keys
        then Raise (Exn AttributeError "get") else bad
    | _ => Raise (Exn TypeError "object is not iterable")
    end.

(** The fields of the validated document that the handlers read. *)
Record config := Config {
  cf_generation : string;
  cf_interval : Z; cf_missed : Z; cf_future : Z; cf_max_pulse : Z;
  cf_attempts : Z; cf_timeout : Z; cf_reminder : Z; cf_canary : Z;
  cf_reverse_max : Z; cf_topic : Z
}.

(** The numbers that the handlers compute with. *)
Definition number_keys : list string :=
  ["pulse_interval_seconds"; "missed_pulse_limit"; "max_future_seconds"; "max_pulse_bytes"; "retry_attempts";
   "retry_timeout_seconds"; "reminder_interval_seconds"; "canary_interval_seconds"; "reverse_health_max_bytes"]%string.

(** The record of a validated document whose numbers are integers, as the rendered
    configuration has them.  A float or boolean that [load_config] admits by [==]
    (3600.0 for 3600, [True] for 1) stays what it is in the code; such a document
    has no record. *)
Definition config_of (data : value) : option config :=
  let f := field (dict_of data) in
  let z n := int_of (f n) in
  let topic := field (dict_of (f "telegram")) "topic_id" in
  if forallb (fun n => type_is_int (f n)) number_keys && type_is_int topic then
    Some (Config (str_of (f "source_generation")) (z "pulse_interval_seconds") (z "missed_pulse_limit")
      (z "max_future_seconds") (z "max_pulse_bytes") (z "retry_attempts") (z "retry_timeout_seconds")
      (z "reminder_interval_seconds") (z "canary_interval_seconds") (z "reverse_health_max_bytes") (int_of topic))
  else None.

(** ** The persistent state *)

Inductive delivery := DNever | DFiring | DRecovery | DFailed.
Inductive canary := CNever | CSuccess | CFailed.
Inductive event := EFiring | ERecovery | ECanary.
#[global] Instance delivery_eq_dec : EqDecision delivery.
Proof. solve_decision. Defined.
#[global] Instance canary_eq_dec : EqDecision canary.
Proof. solve_decision. Defined.
#[global] Instance event_eq_dec : EqDecision event.
Proof. solve_decision. Defined.

Record dstate := State {
  st_generation : string;
  st_sequence : Z; st_reverse : Z; st_expiry : Z; st_pulse : Z;
  st_incident : bool;
  st_delivery : delivery; st_delivery_at : Z;
  st_canary : Z; st_canary_delivery : canary;
  st_pending : option event; st_nonce : Z; st_pending_at : Z
}.

Definition delivery_str (d : delivery) : string :=
  match d with DNever => "never" | DFiring => "firing" | DRecovery => "recovery" | DFailed => "failed" end.
Definition canary_str (c : canary) : string :=
  match c with CNever => "never" | CSuccess => "success" | CFailed => "failed" end.
Definition event_str (e : event) : string :=
  match e with EFiring => "firing" | ERecovery => "recovery" | ECanary => "canary" end.
Definition pending_str (p : option event) : string :=
  match p with None => "none" | Some e => event_str e end.

Definition delivery_of (v : value) : option delivery :=
  match v with
  | VStr s => list_find (fun d => delivery_str d = s) [DNever; DFiring; DRecovery; DFailed] ≫= fun x => Some x.2
  | _ => None
  end.
Definition canary_of (v : value) : option canary :=
  match v with
  | VStr s => list_find (fun c => canary_str c = s) [CNever; CSuccess; CFailed] ≫= fun x => Some x.2
  | _ => None
  end.
Definition pending_of (v : value) : option (option event) :=
  match v with
  | VStr s => list_find (fun p => pending_str p = s) [None; Some EFiring; Some ERecovery; Some ECanary]
                ≫= fun x => Some x.2
  | _ => None
  end.

(** [_empty_state] *)
Definition empty_state (generation : string) : dstate :=
  State generation 0 0 0 0 false DNever 0 0 CNever None 0 0.

Definition state_keys : list string :=
  ["schema"; "source_generation"; "last_sequence"; "last_reverse_sequence"; "last_expiry"; "last_pulse";
   "incident"; "last_delivery"; "last_delivery_at"; "last_canary"; "last_canary_delivery";
   "pending_event"; "pending_nonce"; "pending_at"]%string.

(** The document [_save_state] writes. *)
Definition state_value (s : dstate) : value :=
  VDict [("schema", VInt 2); ("source_generation", VStr (st_generation s));
    ("last_sequence", VInt (st_sequence s)); ("last_reverse_sequence", VInt (st_reverse s));
    ("last_expiry", VInt (st_expiry s)); ("last_pulse", VInt (st_pulse s));
    ("incident", VBool (st_incident s)); ("last_delivery", VStr (delivery_str (st_delivery s)));
    ("last_delivery_at", VInt (st_delivery_at s)); ("last_canary", VInt (st_canary s));
    ("last_canary_delivery", VStr (canary_str (st_canary_delivery s)));
    ("pending_event", VStr (pending_str (st_pending s))); ("pending_nonce", VInt (st_nonce s));
    ("pending_at", VInt (st_pending_at s))]%string.

Definition is_instant (v : value) : bool :=
  type_is_int v && (0 <=? int_of v) && (int_of v <=? MAX_INSTANT).

Definition unsafe_state : exn := deadman_error "unsafe state".

(** [_state] on the decoded document of an existing file.  An unhashable member
    of the three categorical fields raises from the set test. *)
Definition decode_state (data : value) : res dstate :=
  raise_if (negb (has_keys data state_keys)) unsafe_state ;;;
  let f := field (dict_of data) in
  raise_if (negb (type_is_int (f "schema") && (int_of (f "schema") =? 2)
                  && str_matches GENERATION (f "source_generation")
                  && forallb (fun n => is_instant (f n))
                       ["last_sequence"; "last_reverse_sequence"; "last_expiry"; "last_pulse";
                        "last_delivery_at"; "last_canary"; "pending_nonce"; "pending_at"]%string
                  && is_bool (f "incident"))) unsafe_state ;;;
  let member {A} (o : option A) v : res A :=
    if hashable v then of_option o unsafe_state else Raise (Exn TypeError "unhashable") in
  let* delivery := member (delivery_of (f "last_delivery")) (f "last_delivery") in
  let* canary := member (canary_of (f "last_canary_delivery")) (f "last_canary_delivery") in
  let* pending := member (pending_of (f "pending_event")) (f "pending_event") in
  let z n := int_of (f n) in
  Ok (State (str_of (f "source_generation")) (z "last_sequence") (z "last_reverse_sequence")
        (z "last_expiry") (z "last_pulse") (bool_of (f "incident")) delivery (z "last_delivery_at")
        (z "last_canary") canary pending (z "pending_nonce") (z "pending_at")).

(** [_state]: a missing file is an empty state of the given generation. *)
Definition load_state (file : option value) (generation : option string) : res dstate :=
  match file with
  | None =>
      match generation with
      | Some g => raise_if (negb (fullmatch GENERATION g)) unsafe_state ;;; Ok (empty_state g)
      | None => Raise unsafe_state
      end
  | Some data => decode_state data
  end.

(** ** The state's invariant and its round trip *)

Definition instant_ok (z : Z) : Prop := 0 <= z <= MAX_INSTANT.

Record state_wf (s : dstate) : Prop := {
  wf_generation : fullmatch GENERATION (st_generation s) = true;
  wf_sequence : instant_ok (st_sequence s);
  wf_reverse : instant_ok (st_reverse s);
  wf_expiry : instant_ok (st_expiry s);
  wf_pulse : instant_ok (st_pulse s);
  wf_delivery_at : instant_ok (st_delivery_at s);
  wf_canary : instant_ok (st_canary s);
  wf_nonce : instant_ok (st_nonce s);
  wf_pending_at : instant_ok (st_pending_at s);
}.

Lemma is_instant_int z : is_instant (VInt z) = true <-> instant_ok z.
Proof. unfold is_instant, instant_ok. cbn [type_is_int int_of andb]. lia. Qed.

Lemma decode_state_value s : state_wf s -> decode_state (state_value s) = Ok s.
Proof.
  intros [H1 H2 H3 H4 H5 H6 H7 H8 H9].
  apply is_instant_int in H2, H3, H4, H5, H6, H7, H8, H9.
  destruct s as [gen sq rv ex pu inc del dat can cdel pend non pat].
  cbn [st_generation st_sequence st_reverse st_expiry st_pulse st_delivery_at st_canary st_nonce
       st_pending_at] in *.
  unfold decode_state.
  change (has_keys _ state_keys) with true. cbn [negb raise_if res_bind].
  set (f := field _).
  change (f "source_generation"%string) with (VStr gen). change (f "schema"%string) with (VInt 2).
  change (f "incident"%string) with (VBool inc).
  unfold str_matches. cbn [is_str str_of type_is_int int_of is_bool andb forallb]. rewrite H1.
  change (f "last_sequence"%string) with (VInt sq). change (f "last_reverse_sequence"%string) with (VInt rv).
  change (f "last_expiry"%string) with (VInt ex). change (f "last_pulse"%string) with (VInt pu).
  change (f "last_delivery_at"%string) with (VInt dat). change (f "last_canary"%string) with (VInt can).
  change (f "pending_nonce"%string) with (VInt non). change (f "pending_at"%string) with (VInt pat).
  rewrite H2, H3, H4, H5, H6, H7, H8, H9.
  change (f "last_delivery"%string) with (VStr (delivery_str del)).
  change (f "last_canary_delivery"%string) with (VStr (canary_str cdel)).
  change (f "pending_event"%string) with (VStr (pending_str pend)).
  by destruct del, cdel, pend as [[]|].
Qed.

Lemma empty_state_wf g : fullmatch GENERATION g = true -> state_wf (empty_state g).
Proof. intros. split; simpl; [done|..]; unfold instant_ok, MAX_INSTANT; lia. Qed.

Lemma decode_state_wf v s : decode_state v = Ok s -> state_wf s.
Proof.
  unfold decode_state. intros H. res_inv H. subst s.
  apply negb_false_iff in Hg0. rewrite !andb_true_iff in Hg0. destruct Hg0 as ((((_ & _) & Hgen) & Hall) & _).
  unfold str_matches in Hgen. apply andb_true_iff in Hgen as [_ Hgen].
  cbn [forallb] in Hall. rewrite !andb_true_iff in Hall.
  assert (forall w, is_instant w = true -> instant_ok (int_of w)) as Hi.
  { intros w Hw. unfold is_instant in Hw. bprop. by split. }
  destruct Hall as (? & ? & ? & ? & ? & ? & ? & ? & _). split; simpl; auto.
Qed.

(** the state document round-trips exactly on well-formed states: what
    [_save_state] writes is read back by [_state] as the same state if and only
    if the generation is a commit id and every number fits 63 bits. *)
Theorem state_document_iff s : decode_state (state_value s) = Ok s <-> state_wf s.
Proof. split; [apply decode_state_wf | apply decode_state_value]. Qed.
