(* ===== verification/DeadmanPulse.v ===== *)
(** * The dead-man receiver: pulses and notifications

    [ansible/roles/observability_deadman/files/observability-deadman.py]: the
    bounded request reader, pulse validation and replay protection
    ([accept_pulse], [accept_and_save]), and the bounded Telegram sender. *)

From S2P Require Import Prelude PyValue PyStr Regex Json DeadmanConfig.
#[local] Open Scope Z_scope.

Definition invalid_pulse : exn := deadman_error "invalid pulse".

(** ** The disk

    The state document and the recovery outbox, and every version of them that
    an atomic replacement made durable, in order. *)

Record disk := Disk { dk_state : option value; dk_intent : option value }.
Record store := Store { sr_disk : disk; sr_log : list disk }.
Definition store_of (d : disk) : store := Store d [].

Definition write (d : disk) : eff store unit :=
  eff_modify (fun s => Store d (sr_log s ++ [d])).
(** [_save_state(path, state)] *)
Definition save_state (st : dstate) : eff store unit := fun s =>
  write (Disk (Some (state_value st)) (dk_intent (sr_disk s))) s.
(** [_state(path, generation)] *)
Definition read_state (generation : option string) : eff store dstate := fun s =>
  (load_state (dk_state (sr_disk s)) generation, s).

(** ** The bounded request reader *)

(** [BoundedRequestReader._read]: [answer n] is what the stream returns when
    asked for [n] bytes; the length asked for may be negative, for all. *)
Definition bounded_read (answer : Z -> list Z) (remaining length_ : Z) : res (list Z) * Z :=
  let requested := if length_ <? 0 then remaining + 1 else Z.min length_ (remaining + 1) in
  let body := answer requested in
  let remaining := remaining - Z.of_nat (length body) in
  (if remaining <? 0 then Raise invalid_pulse else Ok body, remaining).

(** A request read with any sequence of reads. *)
Fixpoint bounded_reads (answers : list (Z * (Z -> list Z))) (remaining : Z) : res (list (list Z)) :=
  match answers with
  | [] => Ok []
  | (n, answer) :: answers =>
      let '(r, remaining) := bounded_read answer remaining n in
      let* body := r in
      let* rest := bounded_reads answers remaining in
      Ok (body :: rest)
  end.

(** [_read_pulse_body] *)
Definition read_pulse_body (read : Z -> res (list Z)) (length_ maximum : Z) : res (list Z) :=
  raise_if ((length_ <? 0) || (maximum <? length_)) invalid_pulse ;;;
  let* body := try_except (read length_) [OSError] (fun _ => Raise invalid_pulse) in
  raise_if (negb (Z.of_nat (length body) =? length_)) invalid_pulse ;;;
  Ok body.

(** ** Pulses *)

Section Pulse.
(** The standard library's decoder of a UTF-8 JSON text (with [_pairs] as the
    object hook), the ISO 8601 parser restricted to UTC results, as whole
    seconds, and HMAC-SHA-256 as a hexadecimal digest. *)
Context (loads : list Z -> res value) (utc_timestamp : string -> option Z).
Context (hmac_hex : list Z -> list Z -> string).

(** [_instant] *)
Definition instant (v : value) (now future : Z) : res Z :=
  raise_if (negb (is_str v) || negb (endswith (str_of v) "Z")) invalid_pulse ;;;
  let text := (of_chars (removelast (chars (str_of v))) +:+ "+00:00")%string in
  let* stamp := of_option (utc_timestamp text) invalid_pulse in
  raise_if ((stamp <? 0) || (now + future <? stamp)) invalid_pulse ;;;
  Ok stamp.

(** [_canonical] *)
Definition canonical (payload : list (string * value)) : list Z :=
  dumps (fun _ => []) true (VDict (filter (fun kv => kv.1 <> "signature"%string) payload)).

Definition pulse_keys : list string :=
  ["schema"; "generation"; "sequence"; "issued_at"; "expires_at"; "health"; "signature"]%string.
Definition health_keys : list string := ["prometheus"; "alertmanager"; "canary"; "primary_telegram"]%string.

(** [accept_pulse] *)
Definition accept_pulse (raw token : list Z) (state : dstate) (cfg : config) (now : Z) : res dstate :=
  let guard b := raise_if (negb b) invalid_pulse in
  guard (Z.of_nat (length raw) <=? cf_max_pulse cfg) ;;;
  let* pulse := try_except (loads raw) [UnicodeError; JSONDecodeError; DeadmanError]
                  (fun _ => Raise invalid_pulse) in
  let f := field (dict_of pulse) in
  guard (has_keys pulse pulse_keys && type_is_int (f "schema") && (int_of (f "schema") =? 1)) ;;;
  guard (str_matches GENERATION (f "generation") && py_eq (f "generation") (VStr (cf_generation cfg))) ;;;
  let same := bool_decide (st_generation state = cf_generation cfg) in
  guard (type_is_int (f "sequence")
         && ((if same then st_sequence state else 0) <? int_of (f "sequence"))
         && (int_of (f "sequence") <=? MAX_INSTANT)) ;;;
  let* issued := instant (f "issued_at") now (cf_future cfg) in
  let* expiry := instant (f "expires_at") now (cf_future cfg) in
  guard ((issued <=? expiry) && (now <? expiry) && (st_expiry state <? expiry)) ;;;
  let health := f "health" in
  guard (has_keys health health_keys && forallb (fun kv => is_bool kv.2) (dict_of health)) ;;;
  guard (str_matches SIGNATURE (f "signature")) ;;;
  guard (bool_decide (hmac_hex token (canonical (dict_of pulse)) = str_of (f "signature"))) ;;;
  raise_if (negb (forallb (fun kv => bool_of kv.2) (dict_of health))) (deadman_error "unhealthy pulse") ;;;
  Ok (State (cf_generation cfg) (int_of (f "sequence")) (st_reverse state) expiry now
        (st_incident state) (st_delivery state) (st_delivery_at state) (st_canary state)
        (st_canary_delivery state) (st_pending state) (st_nonce state) (st_pending_at state)).

(** [accept_and_save] *)
Definition accept_and_save (raw token : list Z) (cfg : config) (now : Z) : eff store dstate :=
  st ← read_state (Some (cf_generation cfg));
  accepted ← eff_lift (accept_pulse raw token st cfg now);
  save_state accepted ;;
  mret accepted.
End Pulse.

(** ** The Telegram sender *)

Definition MAX_TELEGRAM_ERROR_BYTES : Z := 1024.

(** [_telegram_retry_after] *)
Definition telegram_retry_after (loads : list Z -> res value) (body : list Z) : option Z :=
  if Nat.eqb (length body) 0 || (MAX_TELEGRAM_ERROR_BYTES <? Z.of_nat (length body)) then None
  else match loads body with
  | Ok (VDict d) =>
      if negb (subset (keys d) ["ok"; "error_code"; "description"; "parameters"]%string) then None
      else match field d "parameters" with
      | VDict p =>
          match field p "retry_after" with
          | VInt z => if (0 <=? z) && (z <=? 999999) then Some z else None
          | _ => None
          end
      | _ => None
      end
  | _ => None
  end.

(** [_telegram_retry_delay]: [header] is the [Retry-After] header, if any. *)
Definition telegram_retry_delay (loads : list Z -> res value) (header : option string)
    (body : list Z) (attempt maximum : Z) : Z :=
  match header with
  | Some h =>
      if fullmatch (RClsRep is_digit 1 6) h then Z.min (digits_val 10 (chars h)) maximum
      else match telegram_retry_after loads body with
      | Some d => Z.min d maximum
      | None => Z.min (Z.shiftl 1 attempt) maximum
      end
  | None =>
      match telegram_retry_after loads body with
      | Some d => Z.min d maximum
      | None => Z.min (Z.shiftl 1 attempt) maximum
      end
  end.

(** What one request meets: a response or HTTP error with its status, its
    [Retry-After] header and the bytes read from its body, or a transport
    failure. *)
Inductive http :=
| HttpStatus (status : Z) (retry_after : option string) (body : list Z)
| HttpError (status : Z) (retry_after : option string) (body : list Z)
| HttpFailure.

Definition retryable (status : Z) : bool := (status =? 429) || ((500 <=? status) && (status <=? 599)).

(** The attempt loop of [_telegram], [answer n] being what attempt [n] meets:
    the result and the delays slept. *)
Fixpoint telegram_attempts (loads : list Z -> res value) (attempts attempt : nat) (timeout : Z)
    (answer : nat -> http) : bool * list Z :=
  match attempts with
  | O => (false, [])
  | S left_ =>
      let retry header body :=
        match left_ with
        | O => (false, [])
        | S _ =>
            let delay := telegram_retry_delay loads header body (Z.of_nat attempt) timeout in
            let '(ok, slept) := telegram_attempts loads left_ (S attempt) timeout answer in
            (ok, if delay =? 0 then slept else delay :: slept)
        end in
      match answer attempt with
      | HttpStatus status header body =>
          if status =? 200 then (true, [])
          else if negb (retryable status) then (false, [])
          else retry header (if status =? 429 then body else [])
      | HttpError status header body =>
          if negb (retryable status) then (false, [])
          else retry header (if status =? 429 then body else [])
      | HttpFailure => retry None []
      end
  end.

(** [_telegram] *)
Definition telegram (loads : list Z -> res value) (cfg : config) (answer : nat -> http) : bool * list Z :=
  telegram_attempts loads (Z.to_nat (cf_attempts cfg)) 0 (cf_timeout cfg) answer.

(** The message [_telegram] posts. *)
Definition telegram_payload (chat_id : string) (topic : Z) (e : event) : list Z :=
  let base :=
    [("chat_id", VStr chat_id);
     ("text", VStr ("[secondary dead-man] monitoring-plane " +:+ event_str e));
     ("disable_web_page_preview", VBool true)]%string in
  let thread := [("message_thread_id"%string, VInt topic)] in
  dumps (fun _ => []) false (VDict (base ++ if topic =? 0 then [] else thread)).

(** The attempt loop of [_post_reverse]; redirects end it. *)
Fixpoint post_reverse_loop (attempts attempt : nat) (answer : nat -> http) : bool :=
  match attempts with
  | O => false
  | S attempts =>
      match answer attempt with
      | HttpStatus status _ _ =>
          if status =? 204 then true else post_reverse_loop attempts (S attempt) answer
      | HttpError status _ _ =>
          if bool_decide (status ∈ [301; 302; 307; 308]) then false
          else post_reverse_loop attempts (S attempt) answer
      | HttpFailure => post_reverse_loop attempts (S attempt) answer
      end
  end.

(** [_post_reverse] *)
Definition post_reverse (cfg : config) (payload : value) (answer : nat -> http) : res bool :=
  let body := dumps (fun _ => []) false payload in
  raise_if (cf_reverse_max cfg <? Z.of_nat (length body)) (deadman_error "invalid reverse health") ;;;
  Ok (post_reverse_loop (Z.to_nat (cf_attempts cfg)) 0 answer).

(** [_status_payload] *)
Definition status_payload (s : dstate) : list Z :=
  dumps (fun _ => []) false
    (VDict [("schema", VInt 1); ("incident", VBool (st_incident s));
            ("last_delivery", VStr (delivery_str (st_delivery s))); ("last_pulse", VInt (st_pulse s));
            ("last_canary_delivery", VStr (canary_str (st_canary_delivery s)))]%string).

(** ** Bounds *)

Lemma retry_after_nonneg loads body d : telegram_retry_after loads body = Some d -> 0 <= d.
Proof.
  unfold telegram_retry_after. destruct (_ || _); [done|].
  destruct (loads body) as [[]|]; try done. destruct (negb _); [done|].
  destruct (field d0 "parameters"); try done. destruct (field d1 "retry_after"); try done.
  destruct (_ && _) eqn:Hb; [|done]. intros [= <-]. bprop. lia.
Qed.

Lemma retry_delay_range loads header body attempt timeout :
  0 <= timeout -> 0 <= attempt -> 0 <= telegram_retry_delay loads header body attempt timeout <= timeout.
Proof.
  intros Ht Ha. assert (0 <= Z.min (Z.shiftl 1 attempt) timeout <= timeout) as Hs.
  { rewrite Z.shiftl_1_l. pose proof (Z.pow_nonneg 2 attempt). lia. }
  assert (0 <= match telegram_retry_after loads body with
          | Some d => Z.min d timeout | None => Z.min (Z.shiftl 1 attempt) timeout end <= timeout) as Hr.
  { destruct (telegram_retry_after loads body) as [d|] eqn:Hd; [|done]. apply retry_after_nonneg in Hd. lia. }
  unfold telegram_retry_delay. destruct header as [h|]; [|done].
  destruct (fullmatch _ h); [|done]. pose proof (digits_val_nonneg 10 (chars h)). lia.
Qed.

Lemma telegram_attempts_bounded loads n k timeout answer ok slept :
  0 <= timeout -> telegram_attempts loads n k timeout answer = (ok, slept) ->
  (length slept <= pred n)%nat /\ Forall (fun d => 0 < d <= timeout) slept /\
  (ok = true -> exists j header body, (k <= j < k + n)%nat /\ answer j = HttpStatus 200 header body).
Proof.
  intros Ht. revert k ok slept. induction n as [|n IH]; intros k ok slept; cbn [telegram_attempts].
  { intros [= <- <-]. by split_and!. }
  assert (forall header body, (match n with
      | O => (false, [])
      | S _ =>
          let delay := telegram_retry_delay loads header body (Z.of_nat k) timeout in
          let '(ok, slept) := telegram_attempts loads n (S k) timeout answer in
          (ok, if delay =? 0 then slept else delay :: slept)
      end) = (ok, slept) ->
    (length slept <= n)%nat /\ Forall (fun d => 0 < d <= timeout) slept /\
    (ok = true -> exists j header body, (k <= j < k + S n)%nat /\ answer j = HttpStatus 200 header body)) as Hretry.
  { intros header body. destruct n as [|n]; [intros [= <- <-]; split_and!; [simpl; lia|constructor|done]|].
    destruct (telegram_attempts loads (S n) (S k) timeout answer) as [ok' slept'] eqn:Hrec.
    destruct (IH _ _ _ Hrec) as (Hl & Hf & Hok). cbv zeta.
    pose proof (retry_delay_range loads header body (Z.of_nat k) timeout Ht ltac:(lia)) as Hd.
    intros [= <- Hs]. split_and!.
    - destruct (_ =? 0); subst slept; simpl in *; lia.
    - destruct (Z.eqb_spec (telegram_retry_delay loads header body (Z.of_nat k) timeout) 0); subst slept; [done|].
      constructor; [lia|done].
    - intros Ho. destruct (Hok Ho) as (j & h & b & Hj & Ha). exists j, h, b. split; [lia|done]. }
  destruct (answer k) as [status header body|status header body|] eqn:Ha; [| |apply Hretry].
  - destruct (Z.eqb_spec status 200) as [->|].
    + intros [= <- <-]. split_and!; [simpl; lia|constructor|]. intros _. exists k, header, body. split; [lia|done].
    + destruct (negb (retryable status)); [intros [= <- <-]; split_and!; [simpl; lia|constructor|done]|apply Hretry].
  - destruct (negb (retryable status)); [intros [= <- <-]; split_and!; [simpl; lia|constructor|done]|apply Hretry].
Qed.

(** The secondary notifier is bounded and honest: it makes at most the
    configured attempts, sleeps fewer times than that and never longer than the
    configured timeout whatever the remote side asks for, and reports success
    only when some attempt was answered with status 200. *)
Theorem telegram_bounded loads cfg answer ok slept :
  0 <= cf_timeout cfg -> 1 <= cf_attempts cfg -> telegram loads cfg answer = (ok, slept) ->
  Z.of_nat (length slept) <= cf_attempts cfg - 1 /\ Forall (fun d => 0 < d <= cf_timeout cfg) slept /\
  (ok = true -> exists j header body,
     Z.of_nat j < cf_attempts cfg /\ answer j = HttpStatus 200 header body).
Proof.
  intros Ht Ha H. apply telegram_attempts_bounded in H as (Hl & Hf & Hok); [|done].
  split_and!; [lia|done|]. intros Ho. destruct (Hok Ho) as (j & h & b & Hj & Hans).
  exists j, h, b. split; [lia|done].
Qed.

Lemma telegram_bounded_witness :
  let cfg := Config "" 60 5 30 4096 2 5 3600 86400 4096 0 in
  let answer n := match n with O => HttpError 429 (Some "999999"%string) [] | _ => HttpStatus 200 None [] end in
  telegram (fun _ => Raise invalid_pulse) cfg answer = (true, [5]) /\
  Forall (fun d => 0 < d <= 5) [5].
Proof.
  intros cfg answer.
  assert (telegram (fun _ => Raise invalid_pulse) cfg answer = (true, [5])) as H by (vm_compute; reflexivity).
  split; [exact H|].
  refine (proj1 (proj2 (telegram_bounded (fun _ => Raise invalid_pulse) cfg answer true [5] _ _ H))); simpl; lia.
Defined.

(** Whatever the sizes asked for, a request never yields more than its budget. *)
Lemma bounded_reads_total answers remaining bodies :
  0 <= remaining -> bounded_reads answers remaining = Ok bodies ->
  Z.of_nat (length (mjoin bodies)) <= remaining.
Proof.
  revert remaining bodies. induction answers as [|[n answer] answers IH]; intros remaining bodies Hr H.
  - injection H as <-. simpl. lia.
  - cbn [bounded_reads] in H. unfold bounded_read in H.
    set (body := answer _) in H. destruct (Z.ltb_spec (remaining - Z.of_nat (length body)) 0); [done|].
    res_inv H. subst bodies. simpl. rewrite length_app.
    apply Ok_inj in Ha. rewrite <-Ha. specialize (IH _ _ H0 Ha0). lia.
Qed.
