(* ===== verification/DeadmanDelivery.v ===== *)
(** * The dead-man receiver: incident and delivery state machine

    [ansible/roles/observability_deadman/files/observability-deadman.py]: the
    recovery outbox ([_recovery_intent]), reservation and completion of secondary
    notifications ([_reserve_delivery], [_complete_delivery]), the reverse
    sequence and the timer's [tick], as transactions over the disk.  Each
    [_save_state] is one atomic replacement, so a crash leaves one of the
    logged versions. *)

From S2P Require Import Prelude PyValue PyStr Regex Json DeadmanConfig DeadmanPulse.
#[local] Open Scope Z_scope.

(** ** The recovery outbox *)

Record intent := Intent {
  in_queued : bool;           (* [phase]: queued or complete *)
  in_created : Z; in_nonce : Z; in_next : Z
}.

Definition phase_str (queued : bool) : string := if queued then "queued" else "complete".

Definition intent_keys : list string :=
  ["schema"; "phase"; "created_at"; "attempt_nonce"; "next_attempt_at"]%string.

Definition intent_value (i : intent) : value :=
  VDict [("schema", VInt 1); ("phase", VStr (phase_str (in_queued i)));
         ("created_at", VInt (in_created i)); ("attempt_nonce", VInt (in_nonce i));
         ("next_attempt_at", VInt (in_next i))]%string.

Definition unsafe_intent : exn := deadman_error "unsafe recovery intent".

(** The validation half of [_recovery_intent]. *)
Definition decode_intent (data : value) : res intent :=
  let f := field (dict_of data) in
  raise_if (negb (has_keys data intent_keys)) unsafe_intent ;;;
  raise_if (negb (type_is_int (f "schema") && (int_of (f "schema") =? 1))) unsafe_intent ;;;
  raise_if (negb (hashable (f "phase"))) (Exn TypeError "unhashable") ;;;
  raise_if (negb (mem (str_of (f "phase")) ["queued"; "complete"]%string && is_str (f "phase")
                  && forallb (fun n => is_instant (f n))
                       ["created_at"; "attempt_nonce"; "next_attempt_at"]%string)) unsafe_intent ;;;
  Ok (Intent (bool_decide (str_of (f "phase") = "queued"%string)) (int_of (f "created_at"))
        (int_of (f "attempt_nonce")) (int_of (f "next_attempt_at"))).

(** [_recovery_intent] *)
Definition read_intent : eff store (option intent) := fun s =>
  (match dk_intent (sr_disk s) with
   | None => Ok None
   | Some data => let* i := decode_intent data in Ok (Some i)
   end, s).

(** [_save_state(_recovery_path(path), intent)] *)
Definition save_intent (i : intent) : eff store unit := fun s =>
  write (Disk (dk_state (sr_disk s)) (Some (intent_value i))) s.

(** ** State updates *)

Definition set_incident (b : bool) (s : dstate) : dstate :=
  State (st_generation s) (st_sequence s) (st_reverse s) (st_expiry s) (st_pulse s) b (st_delivery s)
    (st_delivery_at s) (st_canary s) (st_canary_delivery s) (st_pending s) (st_nonce s) (st_pending_at s).
Definition set_delivery_at (t : Z) (s : dstate) : dstate :=
  State (st_generation s) (st_sequence s) (st_reverse s) (st_expiry s) (st_pulse s) (st_incident s)
    (st_delivery s) t (st_canary s) (st_canary_delivery s) (st_pending s) (st_nonce s) (st_pending_at s).
Definition set_delivery (d : delivery) (s : dstate) : dstate :=
  State (st_generation s) (st_sequence s) (st_reverse s) (st_expiry s) (st_pulse s) (st_incident s)
    d (st_delivery_at s) (st_canary s) (st_canary_delivery s) (st_pending s) (st_nonce s) (st_pending_at s).
Definition set_canary (d : canary) (t : Z) (s : dstate) : dstate :=
  State (st_generation s) (st_sequence s) (st_reverse s) (st_expiry s) (st_pulse s) (st_incident s)
    (st_delivery s) (st_delivery_at s) t d (st_pending s) (st_nonce s) (st_pending_at s).
Definition set_pending (p : option event) (n t : Z) (s : dstate) : dstate :=
  State (st_generation s) (st_sequence s) (st_reverse s) (st_expiry s) (st_pulse s) (st_incident s)
    (st_delivery s) (st_delivery_at s) (st_canary s) (st_canary_delivery s) p n t.
Definition set_reverse (n : Z) (s : dstate) : dstate :=
  State (st_generation s) (st_sequence s) n (st_expiry s) (st_pulse s) (st_incident s)
    (st_delivery s) (st_delivery_at s) (st_canary s) (st_canary_delivery s) (st_pending s) (st_nonce s)
    (st_pending_at s).
(** [pending_event = "none"; pending_at = 0] *)
Definition clear_pending (s : dstate) : dstate := set_pending None (st_nonce s) 0 s.

(** ** [_reserve_delivery] *)

Section Reserve.
Context (cfg : config) (now : Z).

Definition is_overdue (s : dstate) : bool :=
  negb (bool_decide (st_generation s = cf_generation cfg)) || (st_pulse s =? 0)
  || (cf_interval cfg * cf_missed cfg <=? now - st_pulse s).

(** A new outbox entry is needed: there is none, it is complete, or the queued
    one belongs to the delivery in flight. *)
Definition renews (s : dstate) (i : option intent) : bool :=
  match i with
  | None => true
  | Some i => negb (in_queued i)
              || (bool_decide (st_pending s = Some ERecovery) && (in_nonce i =? st_nonce s))
  end.

(** Recovery: the outbox first, then the health transition. *)
Definition close_incident (overdue : bool) (s : dstate) (i : option intent) : eff store (dstate * option intent) :=
  if negb overdue && st_incident s then
    i ← (if renews s i then
           let i := Intent true now 0 now in save_intent i ;; mret (Some i)
         else mret i);
    let s := set_incident false s in
    save_state s ;; mret (s, i)
  else mret (s, i).

Definition open_incident (overdue : bool) (s : dstate) : eff store dstate :=
  if overdue && negb (st_incident s) then
    let s := set_delivery_at 0 (set_incident true s) in save_state s ;; mret s
  else mret s.

(** A durable acknowledgement may precede the state update across a crash. *)
Definition absorb_acknowledgement (s : dstate) (i : option intent) : eff store dstate :=
  if bool_decide (st_pending s = Some ERecovery)
     && match i with Some i => negb (in_queued i) && (in_nonce i =? st_nonce s) | None => false end
  then let s := set_delivery DRecovery (clear_pending s) in save_state s ;; mret s
  else mret s.

(** An unconfirmed delivery is given up after its lease. *)
Definition lease : Z := cf_attempts cfg * cf_timeout cfg + 1.

Definition abandon (e : event) (s : dstate) : dstate :=
  clear_pending
    match e with
    | ECanary => set_canary CFailed (st_pending_at s) s
    | _ =>
        set_delivery_at (if bool_decide (e = ERecovery) && st_incident s then 0 else st_pending_at s)
          (set_delivery DFailed s)
    end.

Definition expire_pending (s : dstate) : eff store dstate :=
  match st_pending s with
  | Some e =>
      if lease <=? now - st_pending_at s then
        let s := abandon e s in save_state s ;; mret s
      else mret s
  | None => mret s
  end.

(** The notification that is due. *)
Definition due_event (overdue was_incident : bool) (s : dstate) (i : option intent) : option event :=
  let notification_due := cf_reminder cfg <=? now - st_delivery_at s in
  let event :=
    if overdue && (negb was_incident || notification_due || bool_decide (st_delivery s = DRecovery))
    then Some EFiring
    else if negb overdue && match i with Some i => in_queued i && (in_next i <=? now) | None => false end
    then Some ERecovery
    else None in
  match event with
  | Some e => Some e
  | None =>
      if negb overdue
         && ((cf_canary cfg <=? now - st_canary s)
             || (bool_decide (st_canary_delivery s = CFailed) && (cf_reminder cfg <=? now - st_canary s)))
      then Some ECanary else None
  end.

Definition reserve_event (e : event) (s : dstate) (i : option intent) : eff store (dstate * option (event * Z)) :=
  eff_lift (raise_if (MAX_INSTANT <=? st_nonce s) (deadman_error "delivery sequence exhausted")) ;;
  let nonce := st_nonce s + 1 in
  let s := set_pending (Some e) nonce now s in
  (if decide (e = ERecovery) then
     match i with
     | None => eff_lift (Raise (Exn AssertionError ""))
     | Some i => save_intent (Intent (in_queued i) (in_created i) nonce (now + cf_reminder cfg))
     end
   else mret tt) ;;
  save_state s ;;
  mret (s, Some (e, nonce)).

(** [_reserve_delivery] *)
Definition reserve_delivery : eff store (dstate * option (event * Z)) :=
  s ← read_state (Some (cf_generation cfg));
  i ← read_intent;
  let overdue := is_overdue s in
  let was_incident := st_incident s in
  si ← close_incident overdue s i;
  let '(s, i) := si in
  s ← open_incident overdue s;
  s ← absorb_acknowledgement s i;
  s ← expire_pending s;
  match st_pending s with
  | Some _ => mret (s, None)
  | None =>
      match due_event overdue was_incident s i with
      | Some e => reserve_event e (if decide (e = EFiring) then set_incident true s else s) i
      | None => mret (s, None)
      end
  end.
End Reserve.

(** ** [_complete_delivery] *)

Definition completed (e : event) (success : bool) (now : Z) (s : dstate) : dstate :=
  let s := clear_pending s in
  match e with
  | ECanary => set_canary (if success then CSuccess else CFailed) now s
  | _ =>
      set_delivery_at (if bool_decide (e = ERecovery) && st_incident s then 0 else now)
        (set_delivery (if success then (if decide (e = ERecovery) then DRecovery else DFiring) else DFailed) s)
  end.

Definition complete_delivery (e : event) (nonce : Z) (success : bool) (now : Z) : eff store dstate :=
  s ← read_state None;
  if negb (bool_decide (st_pending s = Some e) && (st_nonce s =? nonce)) then mret s
  else
    let finish := let s := completed e success now s in save_state s ;; mret s in
    if decide (e = ERecovery) then
      i ← read_intent;
      match i with
      | None => mret s
      | Some i =>
          if negb (in_nonce i =? nonce) || negb (in_queued i) then mret s
          else
            (if success then save_intent (Intent false (in_created i) (in_nonce i) (in_next i)) else mret tt) ;;
            finish
      end
    else finish.

(** [_reserve_reverse_sequence] *)
Definition reserve_reverse_sequence : eff store dstate :=
  s ← read_state None;
  eff_lift (raise_if (MAX_INSTANT <=? st_reverse s) (deadman_error "reverse sequence exhausted")) ;;
  let s := set_reverse (st_reverse s + 1) s in
  save_state s ;; mret s.

(** [tick]: [answer] is what the Telegram requests meet, [published] the
    outcome of publishing the reverse summary of a state. *)
Definition tick (loads : list Z -> res value) (cfg : config) (now : Z) (answer : nat -> http)
    (published : dstate -> res bool) : eff store dstate :=
  sr ← reserve_delivery cfg now;
  match sr.2 with
  | Some (e, nonce) => complete_delivery e nonce (telegram loads cfg answer).1 now ;; mret tt
  | None => mret tt
  end ;;
  s ← reserve_reverse_sequence;
  eff_lift (published s) ;;
  mret s.

(** ** Well-formed disks *)

Record intent_wf (i : intent) : Prop := {
  iw_created : instant_ok (in_created i);
  iw_nonce : instant_ok (in_nonce i);
  iw_next : instant_ok (in_next i);
}.

Lemma decode_intent_value i : intent_wf i -> decode_intent (intent_value i) = Ok i.
Proof.
  intros [H1 H2 H3]. apply is_instant_int in H1, H2, H3. destruct i as [q c n x]. cbn [in_created in_nonce in_next] in *.
  unfold decode_intent. change (has_keys _ intent_keys) with true. cbn [negb raise_if res_bind].
  set (f := field _). change (f "schema"%string) with (VInt 1).
  change (f "phase"%string) with (VStr (phase_str q)). change (f "created_at"%string) with (VInt c).
  change (f "attempt_nonce"%string) with (VInt n). change (f "next_attempt_at"%string) with (VInt x).
  cbn [forallb]. change (f "created_at"%string) with (VInt c).
  change (f "attempt_nonce"%string) with (VInt n). change (f "next_attempt_at"%string) with (VInt x).
  rewrite H1, H2, H3. by destruct q.
Qed.

(** The state and the outbox a disk holds; a missing state file counts as the
    empty state it is read as. *)
Definition view (d : disk) (s : dstate) (i : option intent) : Prop :=
  ((dk_state d = Some (state_value s) /\ state_wf s) \/
   (dk_state d = None /\ exists g, s = empty_state g)) /\
  dk_intent d = intent_value <$> i /\ (forall j, i = Some j -> intent_wf j).

Definition queued (i : option intent) : bool :=
  match i with Some i => in_queued i | None => false end.

(** A recovery notification is owed: the incident is open, or closed with the
    notification queued. *)
Definition owed (s : dstate) (i : option intent) : Prop := st_incident s = true \/ queued i = true.

(** What time does to the disk: replay and delivery counters never go back, and
    an owed recovery stays owed unless its delivery was [confirmed]. *)
Record adv (confirmed : bool) (s : dstate) (i : option intent) (s' : dstate) (i' : option intent) : Prop := {
  adv_expiry : st_expiry s <= st_expiry s';
  adv_nonce : st_nonce s <= st_nonce s';
  adv_reverse : st_reverse s <= st_reverse s';
  adv_owed : confirmed = false -> owed s i -> owed s' i';
}.

Lemma adv_refl c s i : adv c s i s i.
Proof. split; (done || lia). Qed.

Lemma adv_trans c s1 i1 s2 i2 s3 i3 : adv c s1 i1 s2 i2 -> adv c s2 i2 s3 i3 -> adv c s1 i1 s3 i3.
Proof. intros [? ? ? H1] [? ? ? H2]. split; try lia. auto. Qed.

Definition good (c : bool) (s0 : dstate) (i0 : option intent) (d : disk) : Prop :=
  exists s i, view d s i /\ adv c s0 i0 s i.

(** ** A small logic for transactions

    [triple I P m Q]: from a disk satisfying [P], every version [m] makes
    durable satisfies [I], and a result [a] leaves a disk satisfying [Q a]. *)

Definition triple {A} (I : disk -> Prop) (P : disk -> Prop) (m : eff store A) (Q : A -> disk -> Prop) : Prop :=
  forall s, P (sr_disk s) -> Forall I (sr_log s) ->
    Forall I (sr_log (m s).2) /\
    match (m s).1 with Ok a => Q a (sr_disk (m s).2) | Raise _ => True end.

Lemma triple_bind {A B} I P (m : eff store A) Q (k : A -> eff store B) R :
  triple I P m Q -> (forall a, triple I (Q a) (k a) R) -> triple I P (m ≫= k) R.
Proof.
  intros Hm Hk s HP HI. unfold mbind, eff_bind. specialize (Hm s HP HI).
  destruct (m s) as [[a|e] u]; simpl in *; [|tauto]. destruct Hm. by apply Hk.
Qed.

Lemma triple_ret {A} I (P : disk -> Prop) (a : A) Q : (forall d, P d -> Q a d) -> triple I P (mret a) Q.
Proof. intros H s HP HI. simpl. auto. Qed.

Lemma triple_lift {A} I (P : disk -> Prop) (m : res A) Q :
  (forall a d, m = Ok a -> P d -> Q a d) -> triple I P (eff_lift m) Q.
Proof. intros H s HP HI. simpl. split; [done|]. destruct m; auto. Qed.

Lemma triple_pre {A} I (P P' : disk -> Prop) (m : eff store A) Q :
  (forall d, P d -> P' d) -> triple I P' m Q -> triple I P m Q.
Proof. intros H Hm s HP HI. apply Hm; auto. Qed.

Lemma triple_exists {A X} I (P : X -> disk -> Prop) (m : eff store A) Q :
  (forall x, triple I (P x) m Q) -> triple I (fun d => exists x, P x d) m Q.
Proof. intros H s [x Hx] HI. by apply (H x). Qed.

(** The precondition of a transaction that has reached state [s], outbox [i]. *)
Definition cur (c : bool) (s0 : dstate) (i0 : option intent) (s : dstate) (i : option intent) (d : disk) : Prop :=
  view d s i /\ adv c s0 i0 s i.

Lemma triple_save c s0 i0 s i s' :
  state_wf s' -> adv c s i s' i ->
  triple (good c s0 i0) (cur c s0 i0 s i) (save_state s') (fun _ => cur c s0 i0 s' i).
Proof.
  intros Hwf Ha st [(Hs & Hi & Hw) Hadv] HI. unfold save_state, write, eff_modify. simpl.
  assert (cur c s0 i0 s' i (Disk (Some (state_value s')) (dk_intent (sr_disk st)))) as Hc.
  { split; [split; [by left|done]|]. by eapply adv_trans. }
  split; [|done]. apply Forall_app_2; [done|]. constructor; [|done]. by exists s', i.
Qed.

Lemma triple_save_intent c s0 i0 s i j :
  intent_wf j -> adv c s i s (Some j) ->
  triple (good c s0 i0) (cur c s0 i0 s i) (save_intent j) (fun _ => cur c s0 i0 s (Some j)).
Proof.
  intros Hwf Ha st [(Hs & Hi & Hw) Hadv] HI. unfold save_intent, write, eff_modify. simpl.
  assert (cur c s0 i0 s (Some j) (Disk (dk_state (sr_disk st)) (Some (intent_value j)))) as Hc.
  { split; [split; [done|split; [done|by intros ? [= <-]]]|]. by eapply adv_trans. }
  split; [|done]. apply Forall_app_2; [done|]. constructor; [|done]. by exists s, (Some j).
Qed.

(** Two states that differ only outside the fields [adv] and the file check. *)
Lemma view_load d s i g : view d s i -> forall s', load_state (dk_state d) g = Ok s' ->
  state_wf s' /\ view d s' i /\ adv false s i s' i /\ adv true s i s' i.
Proof.
  intros (Hs & Hi & Hw) s' Hl. destruct Hs as [[Hs Hwf]|[Hs [g' ->]]]; rewrite Hs in Hl; simpl in Hl.
  - rewrite (decode_state_value _ Hwf) in Hl. injection Hl as <-.
    split_and!; [done| |apply adv_refl|apply adv_refl]. split; [by left|done].
  - destruct g as [g|]; [|done]. res_inv Hl. subst s'. bprop.
    split_and!; [by apply empty_state_wf| |by split; simpl; auto with lia|by split; simpl; auto with lia].
    split; [right; eauto|done].
Qed.

Lemma triple_read c s0 i0 s i g :
  triple (good c s0 i0) (cur c s0 i0 s i) (read_state g)
    (fun s' d => state_wf s' /\ cur c s0 i0 s' i d).
Proof.
  intros st [Hv Ha] HI. unfold read_state. simpl. split; [done|].
  destruct (load_state _ g) as [s'|] eqn:Hl; [|done].
  destruct (view_load _ _ _ g Hv _ Hl) as (Hwf & Hv' & Hf & Ht). split; [done|]. split; [done|].
  eapply adv_trans; [done|]. by destruct c.
Qed.

Lemma triple_read_intent c s0 i0 s i :
  triple (good c s0 i0) (cur c s0 i0 s i) read_intent
    (fun i' d => i' = i /\ (forall j, i = Some j -> intent_wf j) /\ cur c s0 i0 s i d).
Proof.
  intros st [(Hs & Hi & Hw) Ha] HI. unfold read_intent. simpl. split; [done|].
  destruct i as [j|]; simpl in Hi; rewrite Hi; simpl.
  - rewrite (decode_intent_value j) by auto. simpl. split_and!; [done|done|split; done].
  - split_and!; [done|done|split; done].
Qed.

Lemma triple_pure {A} I (phi : Prop) (P : disk -> Prop) (m : eff store A) Q :
  (phi -> triple I P m Q) -> triple I (fun d => phi /\ P d) m Q.
Proof. intros H s [Hphi HP] HI. by apply (H Hphi). Qed.

Lemma triple_fact {A} I (phi : Prop) (P : disk -> Prop) (m : eff store A) Q :
  (forall d, P d -> phi) -> (phi -> triple I P m Q) -> triple I P m Q.
Proof. intros Hf H s HP HI. by apply (H (Hf _ HP)). Qed.

Ltac solve_wf :=
  match goal with
  | H : state_wf ?s |- state_wf _ =>
      destruct H; split; simpl; (done || unfold instant_ok, MAX_INSTANT in *; lia)
  | |- intent_wf _ => split; simpl; unfold instant_ok, MAX_INSTANT in *; lia
  end.
Ltac solve_adv := split; simpl; try lia; intros _; unfold owed; simpl; tauto.

(** The outbox of a well-formed disk, and a well-formed state: what every stage
    of [_reserve_delivery] hands to the next. *)
Definition stage (c : bool) (s0 : dstate) (i0 : option intent) (s : dstate) (i : option intent) (d : disk) : Prop :=
  state_wf s /\ (forall j, i = Some j -> intent_wf j) /\ cur c s0 i0 s i d.

Lemma triple_stage {A} c s0 i0 s i I (m : eff store A) Q :
  (state_wf s -> (forall j, i = Some j -> intent_wf j) -> triple I (cur c s0 i0 s i) m Q) ->
  triple I (stage c s0 i0 s i) m Q.
Proof. intros H st (Hwf & Hiw & Hc) HI. by apply H. Qed.

Lemma triple_save_stage {B} c s0 i0 s i s' (b : B) :
  state_wf s' -> (forall j, i = Some j -> intent_wf j) -> adv c s i s' i ->
  triple (good c s0 i0) (cur c s0 i0 s i) (save_state s' ;; mret b)
    (fun b' d => b' = b /\ stage c s0 i0 s' i d).
Proof.
  intros Hwf Hiw Ha. eapply triple_bind; [by apply triple_save|]. intros ?. by apply triple_ret.
Qed.

Lemma triple_ret_stage {B} c s0 i0 s i (b : B) :
  state_wf s -> (forall j, i = Some j -> intent_wf j) ->
  triple (good c s0 i0) (cur c s0 i0 s i) (mret b) (fun b' d => b' = b /\ stage c s0 i0 s i d).
Proof. intros Hwf Hiw. by apply triple_ret. Qed.

Lemma triple_weaken {A} I P (m : eff store A) (Q Q' : A -> disk -> Prop) :
  triple I P m Q -> (forall a d, Q a d -> Q' a d) -> triple I P m Q'.
Proof. intros Hm HQ s HP HI. specialize (Hm s HP HI). destruct (m s) as [[a|e] u]; simpl in *; intuition. Qed.

Section ReserveProofs.
Context (cfg : config) (now : Z) (c : bool) (s0 : dstate) (i0 : option intent).
Hypothesis Hnow : instant_ok now.
Hypothesis Hnext : instant_ok (now + cf_reminder cfg).
Notation G := (good c s0 i0).
Notation STAGE := (stage c s0 i0).

Lemma close_incident_triple overdue s i :
  triple G (STAGE s i) (close_incident now overdue s i)
    (fun r d => STAGE r.1 r.2 d /\ (overdue = false -> st_incident r.1 = false)).
Proof.
  apply triple_stage. intros Hwf Hiw. unfold close_incident.
  destruct (negb overdue && st_incident s) eqn:Hb.
  - bprop. subst overdue.
    eapply (triple_bind _ _ _ (fun i' d => queued i' = true /\ STAGE s i' d)).
    + destruct (renews s i) eqn:Hr.
      * eapply triple_bind; [apply triple_save_intent; [solve_wf|solve_adv]|]. intros ?.
        apply triple_ret. intros d Hd. split; [done|]. split; [done|].
        split; [|done]. intros j [= <-]. solve_wf.
      * apply triple_ret. intros d Hd. split; [|by split].
        destruct i as [j|]; [|done]. simpl in *. by destruct (in_queued j).
    + intros i'. apply triple_pure. intros Hq. apply triple_stage. intros Hwf' Hiw'.
      eapply triple_weaken; [apply (triple_save_stage _ _ _ s i' (set_incident false s)); [solve_wf|done|]|].
      * split; simpl; try lia. intros _ _. by right.
      * intros r d [-> Hs]. by split.
  - eapply triple_weaken; [by apply triple_ret_stage|]. intros r d [-> Hs]. split; [done|].
    simpl. intros ->. by destruct (st_incident s).
Qed.

Lemma open_incident_triple overdue s i :
  triple G (STAGE s i) (open_incident overdue s)
    (fun r d => STAGE r i d /\ (overdue = true -> st_incident r = true)).
Proof.
  apply triple_stage. intros Hwf Hiw. unfold open_incident.
  destruct (overdue && negb (st_incident s)) eqn:Hb.
  - eapply triple_weaken; [apply triple_save_stage; [solve_wf|done|solve_adv]|]. by intros r d [-> ?].
  - eapply triple_weaken; [by apply triple_ret_stage|]. intros r d [-> ?]. split; [done|].
    intros ->. by destruct (st_incident s).
Qed.

Lemma absorb_triple s i :
  triple G (STAGE s i) (absorb_acknowledgement s i)
    (fun r d => st_incident r = st_incident s /\ STAGE r i d).
Proof.
  apply triple_stage. intros Hwf Hiw. unfold absorb_acknowledgement. destruct (_ && _).
  - eapply triple_weaken; [apply triple_save_stage; [solve_wf|done|solve_adv]|]. by intros r d [-> ?].
  - eapply triple_weaken; [by apply triple_ret_stage|]. by intros r d [-> ?].
Qed.

Lemma abandon_incident e s : st_incident (abandon e s) = st_incident s.
Proof. by destruct e. Qed.

Lemma expire_triple s i :
  triple G (STAGE s i) (expire_pending cfg now s)
    (fun r d => st_incident r = st_incident s /\ STAGE r i d).
Proof.
  apply triple_stage. intros Hwf Hiw. unfold expire_pending. destruct (st_pending s) as [e|].
  2:{ eapply triple_weaken; [by apply triple_ret_stage|]. by intros r d [-> ?]. }
  destruct (lease cfg <=? now - st_pending_at s).
  - assert (state_wf (abandon e s)) as Hwf'.
    { destruct e; unfold abandon; simpl; try destruct (st_incident s); solve_wf. }
    eapply triple_weaken; [apply triple_save_stage; [done|done|]|].
    + destruct e; unfold abandon; simpl; solve_adv.
    + intros r d [-> ?]. by rewrite abandon_incident.
  - eapply triple_weaken; [by apply triple_ret_stage|]. by intros r d [-> ?].
Qed.

Lemma reserve_event_triple e s i :
  (e = ERecovery -> queued i = true) ->
  triple G (STAGE s i) (reserve_event cfg now e s i)
    (fun r d => exists i', STAGE r.1 i' d /\ r.2 = Some (e, st_nonce r.1) /\ st_nonce s0 < st_nonce r.1).
Proof.
  intros Hq. apply (triple_fact _ (st_nonce s0 <= st_nonce s)).
  { by intros d (_ & _ & _ & [_ H _ _]). }
  intros Hle. apply triple_stage. intros Hwf Hiw. unfold reserve_event.
  eapply (triple_bind _ _ _ (fun _ d => st_nonce s < MAX_INSTANT /\ cur c s0 i0 s i d)).
  { apply triple_lift. intros a d Ha%raise_if_Ok Hc. split; [lia|done]. }
  intros ?. apply triple_pure. intros Hn.
  assert (state_wf (set_pending (Some e) (st_nonce s + 1) now s)) as Hwf' by solve_wf.
  eapply (triple_bind _ _ _ (fun _ d => exists i',
    (forall j, i' = Some j -> intent_wf j) /\ queued i' = queued i /\ cur c s0 i0 s i' d)).
  - case_decide as He.
    + specialize (Hq He). destruct i as [j|]; [|done].
      specialize (Hiw j eq_refl).
      assert (intent_wf (Intent (in_queued j) (in_created j) (st_nonce s + 1) (now + cf_reminder cfg))) as Hj.
      { destruct Hwf, Hiw. solve_wf. }
      eapply triple_weaken; [apply triple_save_intent; [exact Hj|]|].
      * split; simpl; try lia. intros _ Ho. unfold owed in *. simpl in *. done.
      * intros ? d Hd. eexists. split; [|split; [|exact Hd]]; [by intros ? [= <-]|done].
    + apply triple_ret. intros d Hd. by exists i.
  - intros ?. apply triple_exists. intros i'. apply triple_pure. intros Hiw'. apply triple_pure. intros Hqi.
    eapply triple_weaken; [apply triple_save_stage; [exact Hwf'|done|solve_adv]|].
    intros r d [-> Hs]. exists i'. simpl. split_and!; [done|done|lia].
Qed.

Lemma due_recovery overdue was s i :
  due_event cfg now overdue was s i = Some ERecovery -> queued i = true.
Proof.
  unfold due_event. destruct (overdue && _); [done|].
  destruct i as [j|]; simpl; [|rewrite andb_false_r; by destruct (negb overdue && _)].
  destruct (in_queued j); simpl; [done|].
  rewrite andb_false_r. by destruct (negb overdue && _).
Qed.

Lemma due_firing overdue was s i :
  due_event cfg now overdue was s i = Some EFiring -> overdue = true.
Proof.
  unfold due_event. destruct overdue; [done|]. simpl.
  destruct (match i with Some _ => _ | None => _ end); [done|]. by destruct (_ || _).
Qed.

Lemma set_incident_true s : st_incident s = true -> set_incident true s = s.
Proof. destruct s. simpl. by intros ->. Qed.

(** The whole reservation: the disk's counters advance, an owed recovery stays
    owed at every crash point, and a reservation is the state's new nonce. *)
Lemma reserve_triple s i :
  triple G (cur c s0 i0 s i) (reserve_delivery cfg now)
    (fun r d => exists i', STAGE r.1 i' d /\
       forall e n, r.2 = Some (e, n) -> n = st_nonce r.1 /\ st_nonce s0 < n).
Proof.
  unfold reserve_delivery.
  eapply triple_bind; [apply triple_read|]. intros s1. apply triple_pure. intros Hwf.
  eapply triple_bind; [apply triple_read_intent|]. intros i1. apply triple_pure. intros ->.
  apply (triple_pre _ _ (STAGE s1 i)); [intros d [Hiw Hc]; by split_and!|].
  eapply triple_bind; [apply close_incident_triple|]. intros [s2 i2]. cbn [fst snd].
  eapply triple_pre; [by intros d [H _]; exact H|].
  eapply triple_bind; [apply open_incident_triple|]. intros s3.
  eapply triple_pre; [intros d [H1 H2]; exact (conj H2 H1)|]. apply triple_pure. intros Ho.
  eapply triple_bind; [apply absorb_triple|]. intros s4. apply triple_pure. intros H4.
  eapply triple_bind; [apply expire_triple|]. intros s5. apply triple_pure. intros H5.
  destruct (st_pending s5) as [p|].
  { apply triple_ret. intros d Hd. exists i2. by split. }
  destruct (due_event _ _ _ _ _ _) as [e|] eqn:Hdue.
  2:{ apply triple_ret. intros d Hd. exists i2. by split. }
  replace (if decide (e = EFiring) then set_incident true s5 else s5) with s5.
  2:{ case_decide; [|done]. subst e. apply due_firing in Hdue. rewrite set_incident_true; [done|].
      rewrite H5, H4. by apply Ho. }
  eapply triple_weaken; [apply reserve_event_triple|].
  - intros ->. by eapply due_recovery.
  - intros [r o] d (i' & Hs & Ho' & Hlt). simpl in *. exists i'. split; [done|].
    intros e' n Heq. subst o. by injection Heq as _ <-.
Qed.
End ReserveProofs.

Section OtherProofs.
Context (c : bool) (s0 : dstate) (i0 : option intent).
Notation G := (good c s0 i0).
Notation CUR := (cur c s0 i0).

Lemma complete_triple e nonce success now s i :
  instant_ok now -> (c = false -> ~ (e = ERecovery /\ success = true)) ->
  triple G (CUR s i) (complete_delivery e nonce success now) (fun r d => exists i', CUR r i' d).
Proof.
  intros Hnow Hc. unfold complete_delivery.
  eapply triple_bind; [apply triple_read|]. intros s1. apply triple_pure. intros Hwf.
  destruct (negb _); [apply triple_ret; eauto|].
  assert (state_wf (completed e success now s1)) as Hwf'.
  { destruct e; unfold completed; simpl; try destruct (st_incident s1); solve_wf. }
  assert (forall i', (queued i = true -> queued i' = true \/ c = true) ->
    triple G (CUR s1 i') (save_state (completed e success now s1) ;; mret (completed e success now s1))
      (fun r d => exists i'', CUR r i'' d)) as Hfinish.
  { intros i' _. eapply triple_bind; [apply triple_save; [done|]|].
    - destruct e; unfold completed; simpl; solve_adv.
    - intros ?. apply triple_ret. eauto. }
  case_decide as He; [|apply Hfinish; auto].
  eapply triple_bind; [apply triple_read_intent|]. intros i1. apply triple_pure. intros ->.
  apply triple_pure. intros Hiw. destruct i as [j|]; [|apply triple_ret; eauto].
  destruct (_ || _); [apply triple_ret; eauto|].
  eapply (triple_bind _ _ _ (fun _ d => exists i', (queued (Some j) = true -> queued i' = true \/ c = true) /\ CUR s1 i' d)).
  - destruct success.
    + assert (c = true) as -> by (destruct c; [done|by destruct Hc]).
      eapply triple_weaken; [apply triple_save_intent|].
      * specialize (Hiw j eq_refl). destruct Hiw. solve_wf.
      * by split; simpl; try lia.
      * intros ? d Hd. eexists. split; [by right|exact Hd].
    + apply triple_ret. intros d Hd. exists (Some j). split; [by left|done].
  - intros ?. apply triple_exists. intros i'. apply triple_pure. intros Hi'. by apply Hfinish.
Qed.

Lemma reverse_triple s i :
  triple G (CUR s i) reserve_reverse_sequence (fun r d => CUR r i d /\ st_reverse s0 < st_reverse r).
Proof.
  unfold reserve_reverse_sequence.
  eapply triple_bind; [apply triple_read|]. intros s1. apply triple_pure. intros Hwf.
  apply (triple_fact _ (st_reverse s0 <= st_reverse s1)); [by intros d [_ [_ _ H _]]|]. intros Hle.
  eapply (triple_bind _ _ _ (fun _ d => st_reverse s1 < MAX_INSTANT /\ CUR s1 i d)).
  { apply triple_lift. intros a d Ha%raise_if_Ok Hd. split; [lia|done]. }
  intros ?. apply triple_pure. intros Hlt.
  eapply triple_bind; [apply (triple_save _ _ _ s1 i); [solve_wf|solve_adv]|].
  intros ?. apply triple_ret. intros d Hd. split; [exact Hd|]. simpl. lia.
Qed.
End OtherProofs.

(** ** Accepting pulses *)

Section Accept.
Context (loads : list Z -> res value) (utc_timestamp : string -> option Z).
Context (hmac_hex : list Z -> list Z -> string).
Notation accept_pulse := (accept_pulse loads utc_timestamp hmac_hex).
Notation accept_and_save := (accept_and_save loads utc_timestamp hmac_hex).

Definition instant_text (v : value) : string :=
  (of_chars (removelast (chars (str_of v))) +:+ "+00:00")%string.

Lemma instant_Ok v now future z :
  instant utc_timestamp v now future = Ok z ->
  0 <= z <= now + future /\ utc_timestamp (instant_text v) = Some z.
Proof. unfold instant. intros H. res_inv H. bprop. subst. split; [lia|by apply of_option_Ok in Ha]. Qed.

(** The document an accepted pulse decodes to. *)
Record accepted (raw token : list Z) (s : dstate) (cfg : config) (now : Z) (s' : dstate)
    (d : list (string * value)) : Prop := {
  ac_loads : loads raw = Ok (VDict d);
  ac_signature : field d "signature" = VStr (hmac_hex token (canonical d));
  ac_generation : field d "generation" = VStr (cf_generation cfg) /\ st_generation s' = cf_generation cfg;
  ac_schema : field d "schema" = VInt 1;
  ac_healthy : exists health, field d "health" = VDict health /\
    (forall k, k ∈ keys health <-> k ∈ ["prometheus"; "alertmanager"; "canary"; "primary_telegram"]%string) /\
    (forall k, k ∈ keys health -> dget k health = Some (VBool true));
  ac_sequence : field d "sequence" = VInt (st_sequence s') /\ 0 < st_sequence s' <= MAX_INSTANT /\
    (st_generation s = cf_generation cfg -> st_sequence s < st_sequence s');
  ac_expiry : utc_timestamp (instant_text (field d "expires_at")) = Some (st_expiry s') /\
    st_expiry s < st_expiry s' /\ now < st_expiry s' <= now + cf_future cfg;
  ac_frame : s' = State (cf_generation cfg) (st_sequence s') (st_reverse s) (st_expiry s') now
    (st_incident s) (st_delivery s) (st_delivery_at s) (st_canary s) (st_canary_delivery s)
    (st_pending s) (st_nonce s) (st_pending_at s);
}.

Lemma healthy_axes v :
  is_dict v = true -> same_set (keys (dict_of v)) health_keys = true ->
  forallb (fun kv : string * value => is_bool kv.2) (dict_of v) = true ->
  forallb (fun kv => bool_of kv.2) (dict_of v) = true ->
  exists health, v = VDict health /\ (forall k, k ∈ keys health <-> k ∈ health_keys) /\
    (forall k, k ∈ keys health -> dget k health = Some (VBool true)).
Proof.
  intros [d ->]%is_dict_true Hk H1 H2. rewrite same_set_true in Hk. exists d. split; [done|]. split; [exact Hk|].
  intros k [b Hb]%dget_is_Some. rewrite Hb. f_equal. apply dget_Some_elem in Hb. cbn [dict_of] in *.
  rewrite forallb_true in H1, H2. rewrite Forall_forall in H1, H2. specialize (H1 _ Hb). specialize (H2 _ Hb).
  simpl in *. destruct b as [|[]| | | | |]; done.
Qed.

Lemma accept_pulse_Ok raw token s cfg now s' :
  0 <= st_sequence s -> accept_pulse raw token s cfg now = Ok s' ->
  fullmatch GENERATION (cf_generation cfg) = true /\ exists d, accepted raw token s cfg now s' d.
Proof.
  intros Hseq H. unfold DeadmanPulse.accept_pulse in H.
  res_step H. res_step H. apply try_raise_Ok in Ha; [|eauto].
  do 3 res_step H. do 2 (res_step H). do 4 res_step H. bprop.
  unfold has_keys, str_matches in *. bprop.
  assert (exists d, a = VDict d) as [d ->] by (by apply is_dict_true).
  cbn [dict_of] in *.
  assert (field d "generation"%string = VStr (cf_generation cfg)) as Hgen by (by apply py_eq_str).
  assert (exists n, field d "sequence"%string = VInt n) as [n Hn] by (by apply type_is_int_true).
  assert (exists g, field d "signature"%string = VStr g) as [g Hsig] by (by apply is_str_true).
  rewrite Hgen, Hn, Hsig in *. cbn [str_of int_of] in *.
  apply instant_Ok in Ha1 as [? Hexp]. res_inv H. bprop. subst s'.
  split; [done|]. exists d. split; cbn [st_generation st_sequence st_expiry]; try done.
  - by rewrite Hsig, Hg6.
  - assert (exists z, field d "schema"%string = VInt z) as [z Hz] by (by apply type_is_int_true).
    rewrite Hz in *. cbn [int_of] in *. f_equal. lia.
  - apply healthy_axes; [done|done|done|]. by rewrite forallb_forall in *.
  - split; [done|]. case_bool_decide; [split; lia|]. split; [lia|]. done.
  - split; [done|]. lia.
Qed.

Lemma accepted_wf raw token s cfg now s' d :
  state_wf s -> instant_ok now -> now + cf_future cfg <= MAX_INSTANT ->
  fullmatch GENERATION (cf_generation cfg) = true ->
  accepted raw token s cfg now s' d -> state_wf s'.
Proof.
  intros [] Hn Hf Hg [_ _ _ _ _ (_ & Hs & _) (_ & ? & ?) ->].
  unfold instant_ok in *. split; simpl; (done || lia || idtac); unfold instant_ok; lia.
Qed.

Lemma accept_triple c s0 i0 raw token cfg now s i :
  instant_ok now -> now + cf_future cfg <= MAX_INSTANT ->
  triple (good c s0 i0) (cur c s0 i0 s i) (accept_and_save raw token cfg now)
    (fun r d => cur c s0 i0 r i d /\ exists s1 p, st_expiry s0 <= st_expiry s1 /\ accepted raw token s1 cfg now r p).
Proof.
  intros Hn Hf. unfold DeadmanPulse.accept_and_save.
  eapply triple_bind; [apply triple_read|]. intros s1. apply triple_pure. intros Hwf.
  apply (triple_fact _ (st_expiry s0 <= st_expiry s1)); [by intros d [_ [H _ _ _]]|]. intros Hle.
  eapply (triple_bind _ _ _ (fun s2 d => accept_pulse raw token s1 cfg now = Ok s2 /\ cur c s0 i0 s1 i d)).
  { apply triple_lift. auto. }
  intros s2. apply triple_pure. intros Ha.
  apply accept_pulse_Ok in Ha as (Hg & p & Hp); [|apply Hwf].
  eapply triple_bind; [apply (triple_save _ _ _ s1 i); [by eapply accepted_wf|]|].
  - destruct Hp as [_ _ _ _ _ _ (_ & ? & _) Heq]. rewrite Heq. split; simpl; try lia. done.
  - intros ?. apply triple_ret. intros d Hd. split; [exact Hd|]. eauto.
Qed.

(** ** The receiver as a machine

    Every operation runs under the state lock; a crash at any point of one
    leaves the disk before it or one of the versions it made durable. *)

Inductive op :=
| OpPulse (cfg : config) (raw token : list Z) (now : Z)
| OpReserve (cfg : config) (now : Z)
| OpComplete (e : event) (nonce : Z) (success : bool) (now : Z)
| OpReverse.

Definition op_log (o : op) (d : disk) : list disk :=
  sr_log match o with
  | OpPulse cfg raw token now => (accept_and_save raw token cfg now (store_of d)).2
  | OpReserve cfg now => (reserve_delivery cfg now (store_of d)).2
  | OpComplete e nonce success now => (complete_delivery e nonce success now (store_of d)).2
  | OpReverse => (reserve_reverse_sequence (store_of d)).2
  end.

(** Clocks read within the 63-bit range the state's fields allow. *)
Definition op_ok (o : op) : Prop :=
  match o with
  | OpPulse cfg _ _ now => instant_ok now /\ now + cf_future cfg <= MAX_INSTANT
  | OpReserve cfg now => instant_ok now /\ instant_ok (now + cf_reminder cfg)
  | OpComplete _ _ _ now => instant_ok now
  | OpReverse => True
  end.

(** The operation records the delivery of a recovery notification. *)
Definition confirms (o : op) : bool :=
  match o with OpComplete ERecovery _ true _ => true | _ => false end.

(** A step of the machine: [d'] is a version of the disk that the operation
    leaves, at its end or at a crash. *)
Definition op_step (o : op) (d d' : disk) : Prop := op_ok o /\ (d' = d \/ d' ∈ op_log o d).
Definition machine_step (d d' : disk) : Prop := exists o, op_step o d d'.
Definition unconfirmed_step (d d' : disk) : Prop := exists o, confirms o = false /\ op_step o d d'.

Lemma cur_self c d s i : view d s i -> cur c s i s i d.
Proof. intros. split; [done|apply adv_refl]. Qed.

Lemma op_good o d s i : view d s i -> op_ok o -> Forall (good (confirms o) s i) (op_log o d).
Proof.
  intros Hv Ho. destruct o as [cfg raw token now|cfg now|e nonce success now|]; simpl in Ho; unfold op_log.
  - destruct Ho. by eapply accept_triple; [done|done|apply cur_self|constructor].
  - destruct Ho. by eapply reserve_triple; [done|done|apply cur_self|constructor].
  - eapply complete_triple; [done| |by apply cur_self|constructor].
    intros Hc [-> ->]. done.
  - by eapply reverse_triple; [apply cur_self|constructor].
Qed.

Lemma op_step_good o d d' s i : view d s i -> op_step o d d' -> good (confirms o) s i d'.
Proof.
  intros Hv [Ho [->|Hin]].
  - exists s, i. split; [done|apply adv_refl].
  - pose proof (op_good o d s i Hv Ho) as H. rewrite Forall_forall in H. by apply H.
Qed.

Lemma adv_weaken c s i s' i' : adv c s i s' i' -> adv true s i s' i'.
Proof. by intros [? ? ? ?]; split. Qed.

Lemma machine_good d d' s i :
  view d s i -> rtc machine_step d d' -> exists s' i', view d' s' i' /\ adv true s i s' i'.
Proof.
  intros Hv Hr. revert s i Hv. induction Hr as [d|d d1 d' [o Hs] _ IH]; intros s i Hv.
  - exists s, i. split; [done|apply adv_refl].
  - destruct (op_step_good _ _ _ _ _ Hv Hs) as (s1 & i1 & Hv1 & Ha1).
    destruct (IH _ _ Hv1) as (s2 & i2 & Hv2 & Ha2). exists s2, i2. split; [done|].
    eapply adv_trans; [by eapply adv_weaken|done].
Qed.

(** C1: an incident's recovery is never lost.  From a disk on which a recovery
    is owed (the incident is open, or its notification queued), whatever
    sequence of pulses, reservations, completions and reverse sequences follows,
    each possibly cut short by a crash at any durable write, a recovery is still
    owed, as long as no recovery delivery was confirmed. *)
Theorem recovery_never_lost d d' s i :
  view d s i -> owed s i -> rtc unconfirmed_step d d' ->
  exists s' i', view d' s' i' /\ owed s' i'.
Proof.
  intros Hv Ho Hr. revert s i Hv Ho. induction Hr as [d|d d1 d' (o & Hc & Hs) _ IH]; intros s i Hv Ho; [eauto|].
  destruct (op_step_good _ _ _ _ _ Hv Hs) as (s1 & i1 & Hv1 & Ha1).
  apply (IH s1 i1 Hv1). apply Ha1; [done|exact Ho].
Qed.

Lemma fresh_view : view (Disk None None) (empty_state "") None.
Proof. split; [right; eauto|]. by split. Qed.

(** C7: the receiver never corrupts its own files: after any operations and
    crashes from an empty directory both documents are readable, and the state
    has a commit id as generation and 63-bit counters. *)
Theorem disk_always_readable d g :
  fullmatch GENERATION g = true -> rtc machine_step (Disk None None) d ->
  (exists s, load_state (dk_state d) (Some g) = Ok s /\ state_wf s) /\
  (exists i, (read_intent (store_of d)).1 = Ok i).
Proof.
  intros Hg Hr. destruct (machine_good _ _ _ _ fresh_view Hr) as (s & i & (Hs & Hi & Hw) & _). split.
  - destruct Hs as [[-> Hwf]|[-> _]]; simpl.
    + exists s. split; [by apply decode_state_value|done].
    + exists (empty_state g). rewrite Hg. split; [done|by apply empty_state_wf].
  - unfold read_intent. simpl. rewrite Hi. destruct i as [j|]; simpl; [|eauto].
    rewrite decode_intent_value by auto. simpl. eauto.
Qed.

Lemma triple_run {A} I P (m : eff store A) Q d a t :
  triple I P m Q -> P d -> m (store_of d) = (Ok a, t) -> Q a (sr_disk t).
Proof.
  intros Hm HP Hr. destruct (Hm (store_of d) HP) as [_ H]; [constructor|]. by rewrite Hr in H.
Qed.

(** A pulse is accepted at most once.  Once a pulse was accepted, then after
    any further operations and crashes, also under another authority generation
    or token and at any clock, the same bytes are rejected. *)
Theorem pulse_not_replayed d s i cfg raw token now r t d' cfg' token' now' :
  view d s i -> op_ok (OpPulse cfg raw token now) -> op_ok (OpPulse cfg' raw token' now') ->
  accept_and_save raw token cfg now (store_of d) = (Ok r, t) ->
  rtc machine_step (sr_disk t) d' ->
  exists e, (accept_and_save raw token' cfg' now' (store_of d')).1 = Raise e.
Proof.
  intros Hv [Hn Hf] [Hn' Hf'] Ha Hr.
  destruct (triple_run _ _ _ _ _ _ _ (accept_triple true s i raw token cfg now s i Hn Hf) (cur_self _ _ _ _ Hv) Ha)
    as ([Hv1 _] & s1 & p & _ & Hp).
  destruct (machine_good _ _ _ _ Hv1 Hr) as (s2 & i2 & Hv2 & [Hexp _ _ _]).
  destruct (accept_and_save raw token' cfg' now' (store_of d')) as [[r'|e] t'] eqn:Ha'; [|by exists e].
  destruct (triple_run _ _ _ _ _ _ _ (accept_triple true s2 i2 raw token' cfg' now' s2 i2 Hn' Hf')
    (cur_self _ _ _ _ Hv2) Ha') as (_ & s3 & p' & Hle & Hp').
  destruct Hp as [Hl _ _ _ _ _ (Hx & _) _], Hp' as [Hl' _ _ _ _ _ (Hx' & Hlt & _) _].
  rewrite Hl in Hl'. injection Hl' as <-. rewrite Hx in Hx'. injection Hx' as Hx'. lia.
Qed.

(** a delivery attempt that was superseded cannot interfere.  Successive
    reservations have strictly increasing nonces, across any operations and
    crashes in between, and once a newer one was made, completing the older one,
    however late, writes nothing. *)
Theorem superseded_completion d s i cfg now r e n t d2 cfg' now' r' e' n' t' d4 ok later :
  view d s i -> op_ok (OpReserve cfg now) -> op_ok (OpReserve cfg' now') ->
  reserve_delivery cfg now (store_of d) = (Ok (r, Some (e, n)), t) ->
  rtc machine_step (sr_disk t) d2 ->
  reserve_delivery cfg' now' (store_of d2) = (Ok (r', Some (e', n')), t') ->
  rtc machine_step (sr_disk t') d4 ->
  n < n' /\ (complete_delivery e n ok later (store_of d4)).2 = store_of d4.
Proof.
  intros Hv [Hn Hf] [Hn' Hf'] Ha Hr Ha' Hr'.
  destruct (triple_run _ _ _ _ _ _ _ (reserve_triple cfg now true s i Hn Hf s i) (cur_self _ _ _ _ Hv) Ha)
    as (j & (_ & _ & Hv1 & _) & Hres).
  destruct (machine_good _ _ _ _ Hv1 Hr) as (s2 & i2 & Hv2 & [_ Hle _ _]).
  destruct (triple_run _ _ _ _ _ _ _ (reserve_triple cfg' now' true s2 i2 Hn' Hf' s2 i2)
    (cur_self _ _ _ _ Hv2) Ha') as (j' & (_ & _ & Hv3 & _) & Hres').
  destruct (Hres _ _ eq_refl) as [-> _]. destruct (Hres' _ _ eq_refl) as [-> Hlt]. simpl in *.
  split; [lia|]. destruct (machine_good _ _ _ _ Hv3 Hr') as (s4 & i4 & (Hs4 & _) & [_ Hle' _ _]).
  unfold complete_delivery, read_state, mbind, eff_bind. simpl.
  destruct Hs4 as [[-> Hwf]|[-> _]]; simpl; [|done]. rewrite decode_state_value by done.
  destruct (Z.eqb_spec (st_nonce s4) (st_nonce r)); [lia|]. by rewrite andb_false_r.
Qed.
End Accept.

(** ** Which notification a tick sends *)

Section Due.
Context (cfg : config) (now : Z).

(** The specification: an overdue receiver reports at once when the incident
    opens, when the reminder interval has passed or when the last word was a
    recovery; a healthy one sends a queued recovery first, then the canary. *)
Definition spec_event (s : dstate) (i : option intent) : option event :=
  if is_overdue cfg now s then
    if negb (st_incident s) || (cf_reminder cfg <=? now - st_delivery_at s)
       || bool_decide (st_delivery s = DRecovery)
    then Some EFiring else None
  else
    let announce :=
      (st_incident s && renews s i)
      || match i with Some i => in_queued i && (in_next i <=? now) | None => false end in
    if announce then Some ERecovery
    else if (cf_canary cfg <=? now - st_canary s)
            || (bool_decide (st_canary_delivery s = CFailed) && (cf_reminder cfg <=? now - st_canary s))
    then Some ECanary else None.

Lemma absorb_idle s i st : st_pending s = None -> absorb_acknowledgement s i st = (Ok s, st).
Proof. intros Hp. unfold absorb_acknowledgement. by rewrite Hp. Qed.

Lemma expire_idle s st : st_pending s = None -> expire_pending cfg now s st = (Ok s, st).
Proof. intros Hp. unfold expire_pending. by rewrite Hp. Qed.

Lemma reserve_event_runs e s i st :
  st_nonce s < MAX_INSTANT -> (e = ERecovery -> queued i = true) ->
  exists r t, reserve_event cfg now e s i st = (Ok (r, Some (e, st_nonce s + 1)), t).
Proof.
  intros Hn Hq. unfold reserve_event, mbind, eff_bind, eff_lift, raise_if.
  destruct (Z.leb_spec MAX_INSTANT (st_nonce s)); [lia|].
  case_decide as He; [|by eexists _, _].
  destruct i as [j|]; [by eexists _, _|]. by specialize (Hq He).
Qed.

(** What the first two stages compute. *)
Definition closed (overdue : bool) (s : dstate) (i : option intent) : dstate * option intent :=
  if negb overdue && st_incident s then
    (set_incident false s, if renews s i then Some (Intent true now 0 now) else i)
  else (s, i).
Definition opened (overdue : bool) (s : dstate) : dstate :=
  if overdue && negb (st_incident s) then set_delivery_at 0 (set_incident true s) else s.

Lemma close_incident_runs overdue s i st :
  exists t, close_incident now overdue s i st = (Ok (closed overdue s i), t).
Proof.
  unfold close_incident, closed, mbind, eff_bind. destruct (negb overdue && st_incident s); [|by eexists].
  destruct (renews s i); by eexists.
Qed.

Lemma open_incident_runs overdue s st : exists t, open_incident overdue s st = (Ok (opened overdue s), t).
Proof. unfold open_incident, opened. destruct (overdue && _); by eexists. Qed.

Lemma due_event_spec s i :
  let overdue := is_overdue cfg now s in
  let '(s1, i1) := closed overdue s i in
  due_event cfg now overdue (st_incident s) (opened overdue s1) i1 = spec_event s i.
Proof.
  unfold spec_event, closed, due_event, opened. destruct (is_overdue cfg now s); simpl.
  - destruct (st_incident s) eqn:Hinc; simpl; [|by rewrite ?Hinc].
    by destruct (_ || bool_decide (st_delivery s = DRecovery)).
  - destruct (st_incident s); simpl; [|by destruct (match i with Some _ => _ | None => _ end)].
    destruct (renews s i); simpl; [|by destruct (match i with Some _ => _ | None => _ end)].
    by destruct (Z.leb_spec now now); [|lia].
Qed.

Lemma stages_frame overdue s i :
  st_pending (opened overdue (closed overdue s i).1) = st_pending s /\
  st_nonce (opened overdue (closed overdue s i).1) = st_nonce s.
Proof.
  unfold opened, closed.
  destruct overdue; simpl; destruct (st_incident s) eqn:Hinc; simpl; rewrite ?Hinc; done.
Qed.

Lemma due_queued s i :
  let overdue := is_overdue cfg now s in
  spec_event s i = Some ERecovery -> queued (closed overdue s i).2 = true.
Proof.
  simpl. pose proof (due_event_spec s i) as H. simpl in H.
  destruct (closed _ s i) as [s1 i1]. rewrite <-H. apply due_recovery.
Qed.

(** With no delivery in flight, the notification a tick reserves is exactly
    the one the specification calls for; in particular the first overdue tick
    after a healthy period reserves the firing notification. *)
Theorem reserve_sends_due d s i :
  view d s i -> load_state (dk_state d) (Some (cf_generation cfg)) = Ok s ->
  st_pending s = None -> st_nonce s < MAX_INSTANT ->
  exists r t, reserve_delivery cfg now (store_of d) =
    (Ok (r, (fun e => (e, st_nonce s + 1)) <$> spec_event s i), t).
Proof.
  intros (_ & Hi & Hw) Hl Hp Hn.
  assert (read_intent (store_of d) = (Ok i, store_of d)) as Hri.
  { unfold read_intent. simpl. rewrite Hi. destruct i as [j|]; simpl; [|done].
    by rewrite decode_intent_value by auto. }
  unfold reserve_delivery, read_state, mbind, eff_bind. cbn [sr_disk store_of]. rewrite Hl. fold (store_of d). rewrite Hri.
  destruct (close_incident_runs (is_overdue cfg now s) s i (store_of d)) as [t1 ->].
  pose proof (due_event_spec s i) as Hdue. pose proof (due_queued s i) as Hq.
  destruct (stages_frame (is_overdue cfg now s) s i) as [Hfp Hfn].
  cbv zeta in Hdue, Hq. destruct (closed _ s i) as [s1 i1]. simpl in Hq, Hfp, Hfn. rewrite Hp in Hfp.
  destruct (open_incident_runs (is_overdue cfg now s) s1 t1) as [t2 ->].
  rewrite absorb_idle by done. rewrite expire_idle by done. rewrite Hfp, Hdue.
  destruct (spec_event s i) as [e|]; simpl; [|by eexists _, _].
  set (s2 := if decide _ then _ else _).
  assert (st_nonce s2 = st_nonce s) as Hs2 by (unfold s2; case_decide; simpl; done).
  destruct (reserve_event_runs e s2 i1 t2) as (r & t & Hr).
  - lia.
  - intros ->. by apply Hq.
  - exists r, t. by rewrite Hr, Hs2.
Qed.
End Due.

(** C25: an accepted pulse is authentic and fresh: its bytes decode to a document of
    schema 1 signed under the receiver's token, of exactly the configured
    generation, whose health is a mapping with exactly the four axes prometheus,
    alertmanager, canary and primary_telegram, each reported true, with a sequence
    number above the last one of the same generation and an expiry later than the
    clock and than every expiry accepted before; nothing else of the state changes. *)
Theorem pulse_authentic loads utc_timestamp hmac_hex raw token s cfg now s' :
  state_wf s -> accept_pulse loads utc_timestamp hmac_hex raw token s cfg now = Ok s' ->
  exists d, accepted loads utc_timestamp hmac_hex raw token s cfg now s' d.
Proof. intros Hwf H. apply accept_pulse_Ok in H as [_ H]; [done|apply Hwf]. Qed.

(** ** A concrete history *)

Definition gen_a : string := of_chars (replicate 40 "a"%char).
Definition sample_cfg : config := Config gen_a 60 5 30 4096 2 5 3600 86400 4096 0.
Definition sample_signature : string := of_chars (replicate 64 "f"%char).
Definition sample_pulse (sequence : Z) (expires : string) : value :=
  VDict [("schema", VInt 1); ("generation", VStr gen_a); ("sequence", VInt sequence);
    ("issued_at", VStr "0Z"); ("expires_at", VStr expires);
    ("health", VDict [("prometheus", VBool true); ("alertmanager", VBool true);
                      ("canary", VBool true); ("primary_telegram", VBool true)]);
    ("signature", VStr sample_signature)]%string.
(** A decoder that knows one pulse, a clock syntax for it and a constant MAC. *)
Definition sample_loads (raw : list Z) : res value :=
  if bool_decide (raw = [1]) then Ok (sample_pulse 7 "1020Z") else Raise (Exn JSONDecodeError "").
Definition sample_utc (s : string) : option Z :=
  if bool_decide (s = "0+00:00"%string) then Some 0
  else if bool_decide (s = "1020+00:00"%string) then Some 1020 else None.
Definition sample_hmac (_ _ : list Z) : string := sample_signature.
Notation sample_accept := (accept_and_save sample_loads sample_utc sample_hmac).

Definition sample_state : dstate :=
  State gen_a 7 0 1020 1000 false DNever 0 0 CNever None 0 0.
Definition sample_incident : dstate :=
  State gen_a 7 0 1020 1000 true DFiring 1300 0 CNever None 1 0.

Ltac solve_sample_wf := split; simpl; unfold instant_ok, MAX_INSTANT; first [lia | vm_compute; reflexivity].

Lemma sample_state_wf : state_wf sample_state.
Proof. solve_sample_wf. Qed.
Lemma sample_incident_wf : state_wf sample_incident.
Proof. solve_sample_wf. Qed.

Lemma sample_view s : state_wf s -> view (Disk (Some (state_value s)) None) s None.
Proof. intros. split; [by left|]. by split. Qed.

Lemma pulse_authentic_witness :
  accept_pulse sample_loads sample_utc sample_hmac [1] [] (empty_state gen_a) sample_cfg 1000 = Ok sample_state /\
  exists d, accepted sample_loads sample_utc sample_hmac [1] [] (empty_state gen_a) sample_cfg 1000 sample_state d.
Proof.
  assert (accept_pulse sample_loads sample_utc sample_hmac [1] [] (empty_state gen_a) sample_cfg 1000 = Ok sample_state)
    as H by (vm_compute; reflexivity).
  split; [exact H|]. eapply pulse_authentic; [apply empty_state_wf; vm_compute; reflexivity|exact H].
Defined.

Lemma pulse_not_replayed_witness :
  (sample_accept [1] [] sample_cfg 1000 (store_of (Disk None None))).1 = Ok sample_state /\
  exists e, (sample_accept [1] [9] sample_cfg 1010 (store_of (Disk (Some (state_value sample_state)) None))).1 = Raise e.
Proof.
  split; [vm_compute; reflexivity|].
  refine (pulse_not_replayed sample_loads sample_utc sample_hmac (Disk None None) (empty_state "") None sample_cfg
    [1] [] 1000 sample_state
    (Store (Disk (Some (state_value sample_state)) None) [Disk (Some (state_value sample_state)) None])
    (Disk (Some (state_value sample_state)) None) sample_cfg [9] 1010 fresh_view _ _ _ _).
  - split; simpl; unfold instant_ok, MAX_INSTANT; lia.
  - split; simpl; unfold instant_ok, MAX_INSTANT; lia.
  - vm_compute. reflexivity.
  - apply rtc_refl.
Defined.

(** The incident closes, then the process dies before anything is sent. *)
Definition sample_closed : disk :=
  Disk (Some (state_value (set_incident false sample_incident)))
       (Some (intent_value (Intent true 1400 0 1400))).
Definition sample_healthy : dstate :=
  State gen_a 8 0 2000 1390 true DFiring 1300 0 CNever None 1 0.

Lemma recovery_never_lost_witness :
  exists d', rtc (unconfirmed_step sample_loads sample_utc sample_hmac)
      (Disk (Some (state_value sample_healthy)) None) d' /\
    dk_intent d' = Some (intent_value (Intent true 1400 0 1400)) /\
    exists s' i', view d' s' i' /\ owed s' i'.
Proof.
  assert (rtc (unconfirmed_step sample_loads sample_utc sample_hmac)
    (Disk (Some (state_value sample_healthy)) None)
    (Disk (Some (state_value (set_incident false sample_healthy))) (Some (intent_value (Intent true 1400 0 1400))))) as H.
  { apply rtc_once. exists (OpReserve sample_cfg 1400). split; [reflexivity|]. split.
    - split; simpl; unfold instant_ok, MAX_INSTANT; lia.
    - right. apply list_elem_of_lookup. exists 1%nat. vm_compute. reflexivity. }
  eexists. split; [exact H|]. split; [reflexivity|].
  eapply (recovery_never_lost sample_loads sample_utc sample_hmac _ _ sample_healthy None); [|by left|exact H].
  apply sample_view. solve_sample_wf.
Defined.

Lemma disk_always_readable_witness :
  exists d, rtc (machine_step sample_loads sample_utc sample_hmac) (Disk None None) d /\
    dk_state d = Some (state_value sample_state) /\
    exists s, load_state (dk_state d) (Some gen_a) = Ok s /\ state_wf s.
Proof.
  assert (rtc (machine_step sample_loads sample_utc sample_hmac) (Disk None None)
    (Disk (Some (state_value sample_state)) None)) as H.
  { apply rtc_once. exists (OpPulse sample_cfg [1] [] 1000). split.
    - split; simpl; unfold instant_ok, MAX_INSTANT; lia.
    - right. apply list_elem_of_lookup. exists 0%nat. vm_compute. reflexivity. }
  eexists. split; [exact H|]. split; [reflexivity|].
  refine (proj1 (disk_always_readable sample_loads sample_utc sample_hmac _ gen_a _ H)).
  vm_compute. reflexivity.
Defined.

(** A firing notification is reserved at 1300; its lease passes, and the next
    tick reserves another one. *)
Definition sample_firing (n at_ : Z) (delivery_at : Z) (d : delivery) : dstate :=
  State gen_a 7 0 1020 1000 true d delivery_at 0 CNever (Some EFiring) n at_.

Lemma superseded_completion_witness :
  exists d4 t4, (complete_delivery EFiring 1 true 9000 (store_of d4)).2 = t4 /\ t4 = store_of d4 /\
    dk_state d4 = Some (state_value (sample_firing 2 9000 1300 DFailed)).
Proof.
  eexists (Disk (Some (state_value (sample_firing 2 9000 1300 DFailed))) None), _.
  split; [reflexivity|]. split; [|reflexivity].
  refine (proj2 (superseded_completion sample_loads sample_utc sample_hmac
    (Disk (Some (state_value sample_state)) None) sample_state None
    sample_cfg 1300 (sample_firing 1 1300 0 DNever) EFiring 1 _
    (Disk (Some (state_value (sample_firing 1 1300 0 DNever))) None)
    sample_cfg 9000 (sample_firing 2 9000 1300 DFailed) EFiring 2 _ _ true 9000
    (sample_view _ sample_state_wf) _ _ _ _ _ _)).
  - split; simpl; unfold instant_ok, MAX_INSTANT; lia.
  - split; simpl; unfold instant_ok, MAX_INSTANT; lia.
  - vm_compute. reflexivity.
  - apply rtc_refl.
  - vm_compute. reflexivity.
  - apply rtc_refl.
Defined.

Lemma reserve_sends_due_witness :
  spec_event sample_cfg 1300 sample_state None = Some EFiring /\
  exists r t, reserve_delivery sample_cfg 1300 (store_of (Disk (Some (state_value sample_state)) None)) =
    (Ok (r, Some (EFiring, 1)), t).
Proof.
  split; [vm_compute; reflexivity|].
  refine (reserve_sends_due sample_cfg 1300 _ sample_state None (sample_view _ sample_state_wf) _ _ _).
  - vm_compute. reflexivity.
  - reflexivity.
  - unfold MAX_INSTANT. simpl. lia.
Defined.
