(* ===== verification/AwgProfile.v ===== *)
(** * The AmneziaWG wire profile

    [scripts/transport_semantics.py]: header ranges ([header_range]), signature
    programs ([signature_size]) and the per-instance admission of both
    ([profile_errors], [source_errors], [parameter_errors]).  A diagnostic is a
    pair of a path and a fixed message; no input value appears in one. *)

From S2P Require Import Prelude PyValue PyStr Regex.
#[local] Open Scope Z_scope.

Definition value_error (m : string) : exn := Exn ValueError m.

(** A diagnostic: where, and which rule. *)
Definition diag : Type := string * string.

(** [f"{path}.{name}"] *)
Definition dotted (path name : string) : string := (path +:+ "." +:+ name)%string.

Definition WIRE_PROFILE : string := "awg-3.1-ranges-v1".
Definition HEADERS : list string := ["h1"; "h2"; "h3"; "h4"]%string.
Definition SIGNATURES : list string := ["i1"; "i2"; "i3"; "i4"; "i5"]%string.
Definition RANGE_SOURCE : string := "b5928efb6ca19f0153958460c3d141f04abc5c2e".
Definition RANGE_TOOLS : string := "ee0f0a9aa34ff0a0da4b3433b9512781cfe02843".

(** [(?:0|[1-9][0-9]{0,9})] *)
Definition DECIMAL : re := RAlt (RLit "0") (RCat (RCls (between 49 57)) (RClsRep is_digit 0 9)).
Definition HEADER_PATTERN : re := RCat DECIMAL (ROpt (RCat (RLit "-") DECIMAL)).
Definition dash : ascii := "-"%char.

Definition MAX_UINT32 : Z := 0xFFFFFFFF.

(** [header_range] *)
Definition header_range (v : value) : res (Z * Z) :=
  let bad := value_error "invalid-awg-header-range" in
  raise_if (negb (is_str v) || negb (fullmatch HEADER_PATTERN (str_of v))) bad ;;;
  let parts := split_chars dash (chars (str_of v)) in
  let lower := digits_val 10 (default [] (head parts)) in
  let upper := digits_val 10 (default [] (last parts)) in
  raise_if ((MAX_UINT32 <? upper) || (upper <? lower)
            || (Nat.eqb (length parts) 2 && (lower =? upper))) bad ;;;
  Ok (lower, upper).

(** ** Signature programs *)

(** A token of a signature program: literal bytes as hexadecimal digits, a run
    of random bytes of one of three kinds, a timestamp. *)
Inductive token :=
| TBytes (hex : list ascii)
| TRandom (kind : string) (digits : list ascii)
| TTime.

Definition token_text (t : token) : list ascii :=
  match t with
  | TBytes hex => chars "<b 0x" ++ hex ++ chars ">"
  | TRandom kind digits => chars "<" ++ chars kind ++ chars " " ++ digits ++ chars ">"
  | TTime => chars "<t>"
  end.

Fixpoint span_chars (f : ascii -> bool) (l : list ascii) : list ascii * list ascii :=
  match l with
  | c :: l' => if f c then let '(a, b) := span_chars f l' in (c :: a, b) else ([], l)
  | [] => ([], [])
  end.

(** [Some rest] when [l] starts with [p]. *)
Fixpoint strip_prefix (p l : list ascii) : option (list ascii) :=
  match p, l with
  | [], l => Some l
  | c :: p, d :: l => if decide (c = d) then strip_prefix p l else None
  | _ :: _, [] => None
  end.

(** A nonempty run of a class, closed by ["> "]'s bracket. *)
Definition closed_run (f : ascii -> bool) (ok : list ascii -> bool) (l : list ascii)
    : option (list ascii * list ascii) :=
  let '(run, rest) := span_chars f l in
  if ok run then rest ← strip_prefix (chars ">") rest; Some (run, rest) else None.

Definition hex_run_ok (l : list ascii) : bool := negb (Nat.eqb (length l) 0).
(** [[1-9][0-9]{0,3}] *)
Definition length_run_ok (l : list ascii) : bool :=
  match l with
  | c :: l => between 49 57 c && Nat.leb (length l) 3
  | [] => false
  end.

Definition random_token (kind : string) (l : list ascii) : option (token * list ascii) :=
  l ← strip_prefix (chars "<" ++ chars kind ++ chars " ") l;
  x ← closed_run is_digit length_run_ok l;
  Some (TRandom kind x.1, x.2).

(** [TOKEN.match(value, offset)] *)
Definition match_token (l : list ascii) : option (token * list ascii) :=
  match strip_prefix (chars "<b 0x") l with
  | Some l => x ← closed_run is_hex_lower hex_run_ok l; Some (TBytes x.1, x.2)
  | None =>
      match random_token "r" l, random_token "rd" l, random_token "rc" l with
      | Some x, _, _ | _, Some x, _ | _, _, Some x => Some x
      | None, None, None => l ← strip_prefix (chars "<t>") l; Some (TTime, l)
      end
  end.

(** The bytes a token generates; an odd number of digits is refused. *)
Definition token_size (t : token) : res Z :=
  match t with
  | TBytes hex =>
      raise_if (negb (Z.of_nat (length hex) mod 2 =? 0)) (value_error "invalid-awg-signature") ;;;
      Ok (Z.of_nat (length hex) / 2)
  | TRandom _ digits => Ok (digits_val 10 digits)
  | TTime => Ok 4
  end.

(** The loop of [signature_size]; every token consumes a character, so the
    text's length is enough fuel. *)
Fixpoint signature_loop (fuel : nat) (l : list ascii) (size count : Z) : res Z :=
  match l, fuel with
  | [], _ => Ok size
  | _, O => Raise (value_error "invalid-awg-signature")
  | _, S fuel =>
      match match_token l with
      | None => Raise (value_error "invalid-awg-signature")
      | Some (t, l) =>
          let* n := token_size t in
          let size := size + n in
          let count := count + 1 in
          raise_if ((64 <? count) || (1280 <? size)) (value_error "invalid-awg-signature") ;;;
          signature_loop fuel l size count
      end
  end.

(** [signature_size] *)
Definition signature_size (v : value) : res Z :=
  raise_if (negb (is_str v) || negb ((1 <=? py_len (str_of v)) && (py_len (str_of v) <=? 4096)))
    (value_error "invalid-awg-signature") ;;;
  signature_loop (length (chars (str_of v))) (chars (str_of v)) 0 0.

(** ** Profiles *)

(** [REPLACE(?:_WITH_[A-Z0-9_]+)?] *)
Definition placeholder_char (c : ascii) : bool := is_upper c || is_digit c || one_of "_" c.
Definition REPLACE : re :=
  RCat (RLit "REPLACE") (ROpt (RCat (RLit "_WITH_") (RPlus (RCls placeholder_char)))).
(** [REPLACE_WITH_[A-Z0-9_]+\Z] *)
Definition PLACEHOLDER : re := RCat (RLit "REPLACE_WITH_") (RPlus (RCls placeholder_char)).

Definition overlaps (a b : Z * Z) : bool := (a.1 <=? b.2) && (b.1 <=? a.2).

(** The header loop of [profile_errors]: the diagnostics and the ranges so far. *)
Definition profile_step (allow_placeholders : bool) (raw : list (string * value)) (path : string)
    (st : list diag * list (Z * Z)) (h : Z * string) : list diag * list (Z * Z) :=
  let '(errors, ranges) := st in
  let '(index, name) := h in
  let v := field raw name in
  if allow_placeholders && is_str v && fullmatch REPLACE (str_of v) then (errors, ranges)
  else match header_range v with
  | Raise _ => (errors ++ [(dotted path name, "requires a canonical uint32 range string"%string)], ranges)
  | Ok interval =>
      let e1 := if (interval.1 <=? 4) && negb (bool_decide (interval = (index, index)))
                then [(dotted path name, "requires the standard message type or values above four"%string)] else [] in
      let e2 := if existsb (overlaps interval) ranges
                then [(path, "header ranges must be pairwise disjoint"%string)] else [] in
      (errors ++ e1 ++ e2, ranges ++ [interval])
  end.

Definition indexed_headers : list (Z * string) := zip [1; 2; 3; 4] HEADERS.

(** [profile_errors] *)
Definition profile_errors (allow_placeholders : bool) (raw : list (string * value)) (path : string) : list diag :=
  let e0 := if negb (py_eq (field raw "wire_profile") (VStr WIRE_PROFILE))
            then [(dotted path "wire_profile", "requires the supported AWG wire profile"%string)] else [] in
  let e1 := (foldl (profile_step allow_placeholders raw path) ([], []) indexed_headers).1 in
  let e2 := omap (fun name =>
      if mem name (keys raw) && negb (is_ok (signature_size (field raw name)))
      then Some (dotted path name, "requires a bounded canonical signature program"%string) else None) SIGNATURES in
  e0 ++ e1 ++ e2.

(** [source_errors] *)
Definition source_errors (raw source : list (string * value)) (path : string) : list diag :=
  if py_eq (field source "amneziawg_go_commit") (VStr RANGE_SOURCE)
     && py_eq (field source "amneziawg_tools_commit") (VStr RANGE_TOOLS) then []
  else if existsb (fun name => mem name (keys raw)) SIGNATURES
  then [(path, "signature programs require the reviewed source pair"%string)]
  else omap (fun h : Z * string =>
      let '(index, name) := h in
      match header_range (field raw name) with
      | Raise _ => None
      | Ok (lower, upper) =>
          if negb (lower =? upper)
          then Some (dotted path name, "header ranges require the reviewed source pair"%string)
          else if (lower <=? 4) && negb (lower =? index)
          then Some (dotted path name, "requires the standard message type or a value above four"%string)
          else None
      end) indexed_headers.

Definition AWG_PARAMETERS : list (string * value) :=
  [("jc", VInt 4); ("jmin", VInt 40); ("jmax", VInt 70); ("s1", VInt 50); ("s2", VInt 100)]%string.

(** [parameter_errors] *)
Definition parameter_errors (allow_placeholders : bool) (raw : list (string * value)) (path : string) : list diag :=
  let effective := dmerge AWG_PARAMETERS raw in
  let f := fun name => field effective name in
  let typed name := type_is_int (f name) in
  profile_errors allow_placeholders raw path
  ++ omap (fun name =>
       let maximum := if bool_decide (name = "jc"%string) then 128 else 1280 in
       if negb (typed name) || negb ((0 <=? int_of (f name)) && (int_of (f name) <=? maximum))
       then Some (dotted path name, "invalid bounded integer"%string) else None) (keys AWG_PARAMETERS)
  ++ (if typed "jmin"%string && typed "jmax"%string && (int_of (f "jmax"%string) <? int_of (f "jmin"%string))
      then [(path, "junk bounds must be ordered"%string)] else [])
  ++ (if typed "s1"%string && typed "s2"%string
         && (148 + int_of (f "s1"%string) =? 92 + int_of (f "s2"%string))
      then [(path, "initiation and response sizes must differ"%string)] else []).

(** ** Header ranges *)

(** The one spelling of a range. *)
Definition range_text (lo hi : Z) : list ascii :=
  if lo =? hi then dec_chars lo else dec_chars lo ++ dash :: dec_chars hi.

Lemma lang_lit1 c l : lang (RLit_chars [c]) l <-> l = [c].
Proof.
  simpl. split.
  - intros (d & -> & Hd). bprop. by subst.
  - intros ->. exists c. by rewrite bool_decide_true.
Qed.

Lemma nonzero_digit c : between 49 57 c = true <-> is_digit c = true /\ digit_val c <> 0.
Proof.
  unfold digit_val, is_digit, between. destruct (Z.leb_spec 48 (ord c)), (Z.leb_spec 49 (ord c)),
    (Z.leb_spec (ord c) 57); simpl; split; try done; try lia; intros [? ?]; try done; lia.
Qed.

Lemma lang_decimal l :
  lang DECIMAL l <-> canonical_digits l /\ (length l <= 10)%nat.
Proof.
  unfold DECIMAL, canonical_digits. change (RLit "0") with (RLit_chars ["0"%char]).
  cbn [lang]. rewrite lang_lit1. split.
  - intros [->|(u & v & -> & (c & -> & Hc) & Hv)]; [by split; [split; [repeat constructor|left]|simpl; lia]|].
    apply lang_cls_rep in Hv as [Hn Hv]. simpl. apply nonzero_digit in Hc as [Hd Hc].
    split; [|lia]. split; [by constructor|]. right. by exists c, v.
  - intros [[Hd [->|(c & k & -> & Hc)]] Hn]; [by left|]. right.
    apply Forall_cons in Hd as [Hd Hk]. exists [c], k. split_and!; [done| |].
    + exists c. split; [done|]. by apply nonzero_digit.
    + apply lang_cls_rep. simpl in Hn. split; [lia|done].
Qed.

Lemma digits_no_dash l : Forall (fun c => is_digit c = true) l -> dash ∉ l.
Proof. rewrite Forall_forall. intros H Hin. by apply H in Hin. Qed.

Lemma lang_header l :
  lang HEADER_PATTERN l <->
  exists a, lang DECIMAL a /\ (l = a \/ exists b, lang DECIMAL b /\ l = a ++ dash :: b).
Proof.
  unfold HEADER_PATTERN. change (RLit "-") with (RLit_chars [dash]).
  cbn [lang ROpt]. split.
  - intros (a & v & -> & Ha & [(u & b & -> & Hu & Hb)| ->]); exists a; split; try done.
    + right. exists b. apply lang_lit1 in Hu as ->. by split.
    + left. by rewrite app_nil_r.
  - intros (a & Ha & [-> |(b & Hb & ->)]); exists a.
    + exists []. rewrite app_nil_r. auto.
    + exists (dash :: b). split_and!; [done|done|]. left. exists [dash], b. by rewrite lang_lit1.
Qed.

Lemma lang_decimal_bound z : 0 <= z <= MAX_UINT32 -> lang DECIMAL (dec_chars z).
Proof.
  intros Hz. apply lang_decimal. split; [apply dec_chars_canonical; lia|].
  unfold MAX_UINT32 in Hz. apply (to_digits_length 10 ltac:(lia)); [lia|].
  change (10 ^ Z.of_nat 10) with 10000000000. lia.
Qed.

Lemma header_range_nat s lo hi :
  header_range (VStr s) = Ok (lo, hi) <->
  0 <= lo <= hi /\ hi <= MAX_UINT32 /\ chars s = range_text lo hi.
Proof.
  unfold header_range, range_text. cbn [is_str negb str_of orb].
  rewrite raise_if_seq_Ok, negb_false_iff. unfold fullmatch.
  rewrite match_chars_lang, lang_header. rewrite raise_if_seq_Ok. split.
  - intros ((a & Ha & Hs) & Hb & Hr). apply Ok_inj in Hr. injection Hr as <- <-.
    apply lang_decimal in Ha as [Ha _]. pose proof (digits_no_dash a (proj1 Ha)) as Hda.
    destruct Hs as [Hs|(b & [Hbb _]%lang_decimal & Hs)]; rewrite Hs in *.
    + rewrite split_chars_none in * by done. simpl in *. bprop.
      pose proof (digits_val_nonneg 10 a ltac:(lia)). rewrite Z.eqb_refl, dec_chars_digits_val by done.
      split_and!; try lia; done.
    + pose proof (digits_no_dash b (proj1 Hbb)) as Hdb.
      rewrite split_chars_app, split_chars_none in * by done. simpl in *. bprop.
      pose proof (digits_val_nonneg 10 a ltac:(lia)).
      destruct (Z.eqb_spec (digits_val 10 a) (digits_val 10 b)); [done|].
      rewrite !dec_chars_digits_val by done. split_and!; try lia; done.
  - intros (Hlo & Hhi & ->). assert (dash ∉ dec_chars lo) as Hd1 by (apply digits_no_dash, dec_chars_digits; lia).
    assert (dash ∉ dec_chars hi) as Hd2 by (apply digits_no_dash, dec_chars_digits; lia).
    split; [|destruct (Z.eqb_spec lo hi) as [<-|Hne]].
    + exists (dec_chars lo). split; [apply lang_decimal_bound; lia|].
      destruct (lo =? hi); [by left|]. right. exists (dec_chars hi). split; [apply lang_decimal_bound; lia|done].
    + rewrite split_chars_none by done. simpl. rewrite dec_chars_val by lia.
      split; [|done]. rewrite orb_false_r. apply orb_false_iff. split; apply Z.ltb_ge; lia.
    + rewrite split_chars_app, split_chars_none by done. simpl. rewrite !dec_chars_val by lia.
      split; [|done]. rewrite !orb_false_iff. split_and!; [apply Z.ltb_ge; lia|apply Z.ltb_ge; lia|by apply Z.eqb_neq].
Qed.

(** ** Signature programs *)

Lemma strip_prefix_Some p l r : strip_prefix p l = Some r <-> l = p ++ r.
Proof.
  revert l. induction p as [|c p IH]; intros l; simpl; [split; congruence|].
  destruct l as [|d l]; [done|]. case_decide as Hcd.
  - subst. rewrite IH. split; [by intros ->|by intros [= ->]].
  - split; [done|]. by intros [= -> ->].
Qed.

Lemma span_chars_eq f l a b : span_chars f l = (a, b) -> l = a ++ b /\ Forall (fun c => f c = true) a.
Proof.
  revert a b. induction l as [|c l IH]; intros a b; simpl; [by intros [= <- <-]|].
  destruct (f c) eqn:Hc; [|by intros [= <- <-]].
  destruct (span_chars f l) as [u v]. intros [= <- <-].
  destruct (IH u v eq_refl) as [-> Hu]. split; [done|by constructor].
Qed.

Lemma span_chars_app f a c r :
  Forall (fun c => f c = true) a -> f c = false -> span_chars f (a ++ c :: r) = (a, c :: r).
Proof.
  intros Ha Hc. induction Ha as [|d a Hd Ha IH]; simpl; [by rewrite Hc|]. by rewrite Hd, IH.
Qed.

Definition run_ok (f : ascii -> bool) (ok : list ascii -> bool) (run : list ascii) : Prop :=
  Forall (fun c => f c = true) run /\ ok run = true.

Lemma closed_run_Some f ok l run r :
  f ">"%char = false ->
  closed_run f ok l = Some (run, r) <-> l = run ++ chars ">" ++ r /\ run_ok f ok run.
Proof.
  intros Hf. unfold closed_run. split.
  - destruct (span_chars f l) as [u v] eqn:Hs. destruct (ok u) eqn:Hok; [|done].
    apply span_chars_eq in Hs as [-> Hu]. destruct (strip_prefix (chars ">") v) as [w|] eqn:Hw; [|done].
    apply strip_prefix_Some in Hw as ->. intros [= <- <-]. by repeat split.
  - intros [-> [Hrun Hok]]. simpl. rewrite span_chars_app, Hok by done. done.
Qed.

(** The token kinds [TOKEN] matches. *)
Definition token_wf (t : token) : Prop :=
  match t with
  | TBytes hex => run_ok is_hex_lower hex_run_ok hex
  | TRandom kind digits => kind ∈ ["r"; "rd"; "rc"]%string /\ run_ok is_digit length_run_ok digits
  | TTime => True
  end.

Lemma random_token_Some kind l t r :
  random_token kind l = Some (t, r) <->
  exists digits, t = TRandom kind digits /\ run_ok is_digit length_run_ok digits /\ l = token_text t ++ r.
Proof.
  unfold random_token. split.
  - destruct (strip_prefix _ l) as [l'|] eqn:Hl; [|done]. apply strip_prefix_Some in Hl as ->.
    simpl. destruct (closed_run _ _ l') as [[run r']|] eqn:Hr; [|done].
    apply closed_run_Some in Hr as [-> Hrun]; [|done]. intros [= <- <-]. exists run.
    split_and!; [done|done|]. cbn [token_text fst snd]. by rewrite <-!app_assoc.
  - intros (digits & -> & Hd & ->). cbn [token_text].
    assert (strip_prefix (chars "<" ++ chars kind ++ chars " ")
      ((chars "<" ++ chars kind ++ chars " " ++ digits ++ chars ">") ++ r)
      = Some (digits ++ chars ">" ++ r)) as ->.
    { apply strip_prefix_Some. by rewrite <-!app_assoc. }
    cbn [mbind option_bind].
    assert (closed_run is_digit length_run_ok (digits ++ chars ">" ++ r) = Some (digits, r)) as ->.
    { by apply closed_run_Some. }
    done.
Qed.

Lemma match_token_sound l t r : match_token l = Some (t, r) -> token_wf t /\ l = token_text t ++ r.
Proof.
  unfold match_token. destruct (strip_prefix (chars "<b 0x") l) as [l'|] eqn:Hb.
  - apply strip_prefix_Some in Hb as ->.
    destruct (closed_run _ _ l') as [[run r']|] eqn:Hr; [|done].
    apply closed_run_Some in Hr as [-> Hrun]; [|done]. intros [= <- <-]. split; [done|].
    cbn [token_text fst snd]. by rewrite <-!app_assoc.
  - assert (forall kind, kind ∈ ["r"; "rd"; "rc"]%string -> random_token kind l = Some (t, r) ->
      token_wf t /\ l = token_text t ++ r) as Hk.
    { intros kind Hin (d & -> & Hd & ?)%random_token_Some. split; [by split|done]. }
    destruct (random_token "r" l) as [[? ?]|] eqn:H1; [intros [= -> ->]; eapply Hk; [|done]; set_solver|].
    destruct (random_token "rd" l) as [[? ?]|] eqn:H2; [intros [= -> ->]; eapply Hk; [|done]; set_solver|].
    destruct (random_token "rc" l) as [[? ?]|] eqn:H3; [intros [= -> ->]; eapply Hk; [|done]; set_solver|].
    destruct (strip_prefix (chars "<t>") l) as [l'|] eqn:Ht; [|done]. apply strip_prefix_Some in Ht as ->.
    by intros [= <- <-].
Qed.

Lemma match_token_complete t r : token_wf t -> match_token (token_text t ++ r) = Some (t, r).
Proof.
  destruct t as [hex|kind digits|]; cbn [token_wf token_text].
  - intros Hhex. unfold match_token.
    assert (strip_prefix (chars "<b 0x") ((chars "<b 0x" ++ hex ++ chars ">") ++ r)
      = Some (hex ++ chars ">" ++ r)) as ->.
    { apply strip_prefix_Some. by rewrite <-!app_assoc. }
    assert (closed_run is_hex_lower hex_run_ok (hex ++ chars ">" ++ r) = Some (hex, r)) as ->.
    { by apply closed_run_Some. }
    done.
  - intros [Hk Hd].
    assert (random_token kind (token_text (TRandom kind digits) ++ r) = Some (TRandom kind digits, r)) as Hr.
    { apply random_token_Some. by exists digits. }
    cbn [token_text] in Hr. unfold match_token. rewrite !elem_of_cons in Hk.
    destruct Hk as [-> |[-> |[-> |[]%not_elem_of_nil]]]; rewrite Hr; try done.
    all: repeat match goal with |- context [random_token ?k ?l] => case_eq (random_token k l);
      [intros [? ?] (? & ? & ? & Hbad)%random_token_Some; discriminate Hbad|intros _] end; done.
  - intros _. done.
Qed.

(** ** Admitted programs *)

Definition token_ok (t : token) : Prop :=
  token_wf t /\ match t with TBytes hex => Z.of_nat (length hex) mod 2 = 0 | _ => True end.

(** The bytes a well-formed token generates. *)
Definition token_bytes (t : token) : Z :=
  match t with
  | TBytes hex => Z.of_nat (length hex) / 2
  | TRandom _ digits => digits_val 10 digits
  | TTime => 4
  end.

Definition program_text (ts : list token) : list ascii := concat (token_text <$> ts).
Definition program_bytes (ts : list token) : Z := foldr (fun t n => token_bytes t + n) 0 ts.

Lemma token_size_Ok t n : token_wf t -> token_size t = Ok n <-> token_ok t /\ n = token_bytes t.
Proof.
  unfold token_ok. destruct t as [hex|kind digits|]; cbn [token_size token_bytes]; intros Hwf.
  - rewrite raise_if_seq_Ok, negb_false_iff, Z.eqb_eq. split; [intros [? [= <-]]; auto|].
    intros [[_ ?] ->]. auto.
  - split; [by intros [= <-]|by intros [_ ->]].
  - split; [by intros [= <-]|by intros [_ ->]].
Qed.

Lemma token_bytes_nonneg t : 0 <= token_bytes t.
Proof.
  destruct t; simpl; [apply Z.div_pos; lia|apply digits_val_nonneg; lia|lia].
Qed.

Lemma program_bytes_nonneg ts : 0 <= program_bytes ts.
Proof. induction ts as [|t ts IH]; simpl; [lia|]. pose proof (token_bytes_nonneg t). lia. Qed.

Lemma token_text_pos t : (0 < length (token_text t))%nat.
Proof. destruct t; simpl; lia. Qed.

Lemma program_text_nil ts : [] = program_text ts -> ts = [].
Proof.
  destruct ts as [|t ts]; [done|]. unfold program_text. csimpl. pose proof (token_text_pos t).
  destruct (token_text t); [simpl in *; lia|done].
Qed.

Lemma signature_loop_Ok fuel l size count n :
  0 <= count <= 64 -> size <= 1280 -> (length l <= fuel)%nat ->
  signature_loop fuel l size count = Ok n <->
  exists ts, l = program_text ts /\ Forall token_ok ts /\ n = size + program_bytes ts /\
    n <= 1280 /\ count + Z.of_nat (length ts) <= 64.
Proof.
  assert (forall size count, 0 <= count <= 64 -> size <= 1280 -> Ok size = Ok n <->
    exists ts, [] = program_text ts /\ Forall token_ok ts /\ n = size + program_bytes ts /\
    n <= 1280 /\ count + Z.of_nat (length ts) <= 64) as Hnil.
  { clear. intros size count ? ?. split.
    - intros [= <-]. exists []. split_and!; simpl; auto; lia.
    - intros (ts & ->%program_text_nil & _ & -> & _). simpl. f_equal; lia. }
  revert l size count. induction fuel as [|fuel IH]; intros l size count Hc Hs Hf.
  { destruct l as [|c l]; [|simpl in Hf; lia]. by apply Hnil. }
  destruct l as [|c l]; [by apply Hnil|].
  cbn [signature_loop]. destruct (match_token (c :: l)) as [[t r]|] eqn:Hm.
  - apply match_token_sound in Hm as [Hwf Hl]. rewrite res_bind_Ok.
    assert (length r <= fuel)%nat as Hr.
    { pose proof (token_text_pos t). rewrite Hl, length_app in Hf. lia. }
    setoid_rewrite (token_size_Ok t); [|done]. setoid_rewrite raise_if_seq_Ok.
    pose proof (token_text_pos t) as Hpos. pose proof (token_bytes_nonneg t) as Hb. rewrite Hl. split.
    + intros (b & [Hok ->] & Hg & Hloop). bprop.
      apply IH in Hloop as (ts & -> & Hts & -> & ? & ?); [|lia|lia|done].
      exists (t :: ts). split_and!; [done|by constructor|simpl; lia|lia|simpl; lia].
    + intros ([|t' ts] & Hl' & Hts & -> & Hn & Hcount).
      { destruct (token_text t) eqn:?; [simpl in *; lia|done]. }
      apply Forall_cons in Hts as [Ht' Hts]. unfold program_text in Hl'. csimpl in Hl'.
      assert (match_token (token_text t ++ r) = Some (t, r)) as Hm1 by by apply match_token_complete.
      rewrite Hl', match_token_complete in Hm1 by apply Ht'. injection Hm1 as -> <-.
      exists (token_bytes t). pose proof (program_bytes_nonneg ts). cbn [length] in *.
      change (program_bytes (t :: ts)) with (token_bytes t + program_bytes ts) in *.
      split; [by split|]. split.
      * apply orb_false_iff. split; apply Z.ltb_ge; lia.
      * apply IH; [lia|lia|done|]. exists ts. split_and!; [done|done|lia|lia|lia].
  - split; [done|]. intros ([|t ts] & Hl & Hts & _); [done|].
    apply Forall_cons in Hts as [Ht _]. unfold program_text in Hl. csimpl in Hl.
    by rewrite Hl, match_token_complete in Hm by apply Ht.
Qed.

(** ** Profiles *)

(** Ranges that admit no common message type with the earlier ones. *)
Fixpoint fits (prior rs : list (Z * Z)) : Prop :=
  match rs with
  | [] => True
  | r :: rs => Forall (fun p => overlaps r p = false) prior /\ fits (prior ++ [r]) rs
  end.

Definition header_ok (raw : list (string * value)) (h : Z * string) (r : Z * Z) : Prop :=
  header_range (field raw h.2) = Ok r /\ (4 < r.1 \/ r = (h.1, h.1)).

Lemma profile_step_nil raw path e rs h st :
  profile_step false raw path (e, rs) h = st ->
  st.1 = [] -> e = [] /\ exists r, header_ok raw h r /\ Forall (fun p => overlaps r p = false) rs /\ st = ([], rs ++ [r]).
Proof.
  destruct h as [i name]. unfold profile_step, header_ok. cbn [andb fst snd].
  destruct (header_range (field raw name)) as [r|]; intros <-; cbn [fst].
  - intros [-> [He1 He2]%app_eq_nil]%app_eq_nil. split; [done|].
    exists r. rewrite He1, He2. split_and!; [done| |by apply existsb_false; case_match|done].
    destruct ((r.1 <=? 4) && negb (bool_decide (r = (i, i)))) eqn:Hb; [done|].
    apply andb_false_iff in Hb as [Hb|Hb]; bprop; [left; lia|by right].
  - by intros [_ ?]%app_eq_nil.
Qed.

Lemma profile_step_ok raw path rs h r :
  header_ok raw h r -> Forall (fun p => overlaps r p = false) rs ->
  profile_step false raw path ([], rs) h = ([], rs ++ [r]).
Proof.
  destruct h as [i name]. unfold profile_step, header_ok. cbn [andb fst snd].
  intros [-> Hr] ->%existsb_false.
  assert ((r.1 <=? 4) && negb (bool_decide (r = (i, i))) = false) as ->; [|done].
  destruct Hr as [Hr| ->]; [|by rewrite bool_decide_true, andb_false_r].
  apply andb_false_iff. left. by apply Z.leb_gt.
Qed.

Lemma profile_steps raw path hs e rs :
  (foldl (profile_step false raw path) (e, rs) hs).1 = [] <->
  e = [] /\ exists new, Forall2 (header_ok raw) hs new /\ fits rs new.
Proof.
  revert e rs. induction hs as [|h hs IH]; intros e rs; cbn [foldl].
  - cbn [fst]. split; [|by intros []]. intros ->. split; [done|]. by exists [].
  - destruct (profile_step false raw path (e, rs) h) as [e' rs'] eqn:Hstep. rewrite IH. split.
    + intros (-> & new & Hnew & Hfit).
      eapply profile_step_nil in Hstep as (-> & r & Hr & Hfr & Hst); [|done].
      injection Hst as ->. split; [done|]. exists (r :: new). split; [by constructor|]. by split.
    + intros (-> & [|r new] & Hnew & Hfit); [by inversion Hnew|].
      apply Forall2_cons in Hnew as [Hr Hnew]. destruct Hfit as [Hfr Hfit].
      rewrite (profile_step_ok _ _ _ _ r) in Hstep by done. injection Hstep as <- <-.
      split; [done|]. by exists new.
Qed.

Lemma omap_nil {A B} (f : A -> option B) l : omap f l = [] <-> Forall (fun x => f x = None) l.
Proof.
  induction l as [|x l IH]; csimpl; [by split; [constructor|]|]. rewrite Forall_cons.
  destruct (f x); [split; [done|by intros []]|]. rewrite IH. tauto.
Qed.

(** A signature program that is sent: tokens whose total stays within a packet. *)
Definition signature_ok (v : value) : Prop :=
  exists s ts, v = VStr s /\ chars s = program_text ts /\ Forall token_ok ts /\
    1 <= py_len s <= 4096 /\ (length ts <= 64)%nat /\ program_bytes ts <= 1280.

Lemma signature_size_nat s n :
  signature_size (VStr s) = Ok n <->
  1 <= py_len s <= 4096 /\ exists ts, chars s = program_text ts /\ Forall token_ok ts /\
    (length ts <= 64)%nat /\ program_bytes ts <= 1280 /\ n = program_bytes ts.
Proof.
  unfold signature_size. cbn [is_str negb orb str_of].
  rewrite raise_if_seq_Ok, negb_false_iff, andb_true_iff, !Z.leb_le.
  apply and_iff_compat_l. rewrite signature_loop_Ok by lia. split.
  - intros (ts & ? & ? & -> & ? & ?). exists ts. split_and!; try done; lia.
  - intros (ts & ? & ? & ? & ? & ->). exists ts. split_and!; try done; lia.
Qed.

Lemma signature_ok_iff v : is_ok (signature_size v) = true <-> signature_ok v.
Proof.
  unfold signature_ok. split.
  - destruct (signature_size v) as [n|] eqn:Hn; [|done]. intros _.
    destruct v as [| | | |s| |]; try (by unfold signature_size in Hn).
    apply signature_size_nat in Hn as (? & ts & ? & ? & ? & ? & _). by exists s, ts.
  - intros (s & ts & -> & ? & ? & ? & ? & ?).
    assert (signature_size (VStr s) = Ok (program_bytes ts)) as ->; [|done].
    apply signature_size_nat. split; [done|]. by exists ts.
Qed.

(** The four header ranges [h1..h4] of an admitted profile. *)
Definition headers_admitted (raw : list (string * value)) (rs : list (Z * Z)) : Prop :=
  length rs = 4%nat /\
  (forall i lo hi name, rs !! i = Some (lo, hi) -> HEADERS !! i = Some name ->
     0 <= lo <= hi /\ hi <= MAX_UINT32 /\ field raw name = VStr (of_chars (range_text lo hi)) /\
     (4 < lo \/ lo = Z.of_nat i + 1 /\ hi = lo)) /\
  (forall i j lo hi lo' hi' m, rs !! i = Some (lo, hi) -> rs !! j = Some (lo', hi') ->
     lo <= m <= hi -> lo' <= m <= hi' -> i = j).

Lemma header_range_inv v lo hi :
  header_range v = Ok (lo, hi) <->
  0 <= lo <= hi /\ hi <= MAX_UINT32 /\ v = VStr (of_chars (range_text lo hi)).
Proof.
  split.
  - intros H. destruct v as [| | | |s| |]; try done.
    apply header_range_nat in H as (? & ? & <-). by rewrite of_chars_chars.
  - intros (? & ? & ->). apply header_range_nat. by rewrite chars_of_chars.
Qed.

Lemma overlaps_false a b :
  a.1 <= a.2 -> b.1 <= b.2 -> overlaps a b = false <-> forall m, a.1 <= m <= a.2 -> b.1 <= m <= b.2 -> False.
Proof.
  intros Ha Hb. unfold overlaps. rewrite andb_false_iff, !Z.leb_gt. split; [intros ? m; lia|].
  intros H. destruct (Z.lt_ge_cases b.2 a.1); [by left|]. right.
  destruct (Z.lt_ge_cases a.2 b.1); [done|]. exfalso. apply (H (Z.max a.1 b.1)); lia.
Qed.

(** [fits] is pairwise disjointness. *)
Lemma fits_spec prior rs :
  Forall (fun r => r.1 <= r.2) (prior ++ rs) ->
  fits prior rs <->
  forall i j a b, (i < j)%nat -> (length prior <= j)%nat ->
    (prior ++ rs) !! i = Some a -> (prior ++ rs) !! j = Some b -> overlaps b a = false.
Proof.
  revert prior. induction rs as [|r rs IH]; intros prior Hr; cbn [fits].
  - split; [|done]. intros _ i j a b ? Hj _. rewrite app_nil_r. intros HL%lookup_lt_Some. lia.
  - rewrite IH by by rewrite <-app_assoc. rewrite <-app_assoc. cbn [app].
    assert ((prior ++ r :: rs) !! length prior = Some r) as Hmid by by rewrite list_lookup_middle.
    rewrite length_app. cbn [length]. split.
    + intros [Hf Hrest] i j a b Hij Hj Ha Hb. destruct (decide (j = length prior)) as [-> |Hne].
      * rewrite Hmid in Hb. injection Hb as <-. rewrite Forall_forall in Hf. apply Hf.
        apply (list_elem_of_lookup_2 _ i). by rewrite lookup_app_l in Ha by lia.
      * apply (Hrest i j); [lia|lia|done|done].
    + intros H. split; [|intros i j a b ? ?; apply H; lia]. apply Forall_forall. intros a Ha.
      apply list_elem_of_lookup_1 in Ha as [i Hi]. pose proof (lookup_lt_Some _ _ _ Hi).
      apply (H i (length prior)); [lia|lia|by apply lookup_app_l_Some|done].
Qed.

Lemma headers_fits rs :
  Forall (fun r => r.1 <= r.2) rs ->
  fits [] rs <-> forall i j lo hi lo' hi' m, rs !! i = Some (lo, hi) -> rs !! j = Some (lo', hi') ->
     lo <= m <= hi -> lo' <= m <= hi' -> i = j.
Proof.
  intros Hr. rewrite (fits_spec []) by done. cbn [app length]. rewrite Forall_lookup in Hr. split.
  - intros H i j lo hi lo' hi' m Hi Hj Hm Hm'.
    pose proof (Hr _ _ Hi) as Hri. pose proof (Hr _ _ Hj) as Hrj.
    destruct (Nat.lt_trichotomy i j) as [Hij|[?|Hij]]; [|done|]; exfalso.
    + pose proof (H i j _ _ Hij ltac:(lia) Hi Hj) as Ho. rewrite overlaps_false in Ho by done. by eapply (Ho m).
    + pose proof (H j i _ _ Hij ltac:(lia) Hj Hi) as Ho. rewrite overlaps_false in Ho by done. by eapply (Ho m).
  - intros H i j a b Hij _ Hi Hj. apply overlaps_false; [by eapply Hr|by eapply Hr|].
    intros m Hb Ha. destruct a, b. pose proof (H i j _ _ _ _ m Hi Hj Ha Hb). lia.
Qed.

Lemma headers_nil raw path :
  (foldl (profile_step false raw path) ([], []) indexed_headers).1 = [] <->
  exists rs, headers_admitted raw rs.
Proof.
  rewrite profile_steps. unfold headers_admitted, header_ok. split.
  - intros (_ & rs & Hrs & Hfit). exists rs.
    assert (length rs = 4%nat) as Hlen by by apply Forall2_length in Hrs.
    rewrite Forall2_lookup in Hrs.
    assert (forall i lo hi name, rs !! i = Some (lo, hi) -> HEADERS !! i = Some name ->
      0 <= lo <= hi /\ hi <= MAX_UINT32 /\ field raw name = VStr (of_chars (range_text lo hi)) /\
      (4 < lo \/ lo = Z.of_nat i + 1 /\ hi = lo)) as Hok.
    { intros i lo hi name Hi Hn. specialize (Hrs i). rewrite Hi in Hrs.
      inversion Hrs as [[z n] ? [Hr Hlo] Hix |]; subst. 
      assert (n = name /\ z = Z.of_nat i + 1) as [-> ->].
      { do 4 (destruct i as [|i]; [simpl in Hix, Hn; simplify_eq; split; [done|lia]|]). done. }
      apply header_range_inv in Hr as (? & ? & ?). split_and!; try done; try lia.
      destruct Hlo as [?|[= -> ->]]; [by left|by right]. }
    split_and!; [done|done|]. apply headers_fits; [|done]. apply Forall_lookup. intros i [lo hi] Hi.
    destruct (HEADERS !! i) as [name|] eqn:Hn; [destruct (Hok _ _ _ _ Hi Hn) as ((? & ?) & _); done|].
    apply lookup_lt_Some in Hi. apply lookup_ge_None in Hn. unfold HEADERS in Hn. simpl in Hn. lia.
  - intros (rs & Hlen & Hok & Hdis). split; [done|]. exists rs. split.
    + destruct rs as [|[a1 b1] [|[a2 b2] [|[a3 b3] [|[a4 b4] [|]]]]]; try done.
      assert (forall i lo hi z n, (indexed_headers !! i) = Some (z, n) -> HEADERS !! i = Some n ->
        z = Z.of_nat i + 1 -> [(a1, b1); (a2, b2); (a3, b3); (a4, b4)] !! i = Some (lo, hi) ->
        header_range (field raw n) = Ok (lo, hi) /\ (4 < lo \/ (lo, hi) = (z, z))) as Hall.
      { intros i lo hi z n _ Hn -> Hi. destruct (Hok i lo hi n Hi Hn) as (? & ? & ? & Hx).
        split; [by apply header_range_inv|]. destruct Hx as [?|[-> ->]]; [by left|by right]. }
      apply Forall2_cons; split; [by apply (Hall 0%nat)|]. apply Forall2_cons; split; [by apply (Hall 1%nat)|].
      apply Forall2_cons; split; [by apply (Hall 2%nat)|]. apply Forall2_cons; split; [by apply (Hall 3%nat)|].
      constructor.
    + apply headers_fits; [|done]. apply Forall_lookup. intros i [lo hi] Hi.
      pose proof (lookup_lt_Some _ _ _ Hi) as Hlt. rewrite Hlen in Hlt.
      destruct (HEADERS !! i) as [name|] eqn:Hn; [destruct (Hok _ _ _ _ Hi Hn) as ((? & ?) & _); done|].
      apply lookup_ge_None in Hn. unfold HEADERS in Hn. simpl in Hn. lia.
Qed.

Definition signatures_ok (raw : list (string * value)) : Prop :=
  forall name, name ∈ SIGNATURES -> name ∈ keys raw -> signature_ok (field raw name).

Lemma profile_errors_nil raw path :
  profile_errors false raw path = [] <->
  field raw "wire_profile" = VStr WIRE_PROFILE /\ (exists rs, headers_admitted raw rs) /\ signatures_ok raw.
Proof.
  unfold profile_errors, signatures_ok.
  assert ((if negb (py_eq (field raw "wire_profile") (VStr WIRE_PROFILE))
     then [(dotted path "wire_profile", "requires the supported AWG wire profile"%string)] else []) = []
     <-> field raw "wire_profile" = VStr WIRE_PROFILE) as Hw.
  { destruct (py_eq _ _) eqn:He; [apply py_eq_str in He; done|]. split; [done|].
    intros He'. apply py_eq_str in He'. congruence. }
  split.
  - intros [Hw' [He1 He2]%app_eq_nil]%app_eq_nil. split_and!; [tauto|by apply headers_nil in He1|].
    rewrite omap_nil, Forall_forall in He2. intros name Hn Hk. specialize (He2 _ Hn).
    apply mem_true in Hk. rewrite Hk in He2. apply signature_ok_iff.
    destruct (is_ok _); [done|discriminate He2].
  - intros (Hwp & Hh & Hs). apply Hw in Hwp. rewrite Hwp. eapply headers_nil in Hh. rewrite Hh.
    cbn [app]. apply omap_nil, Forall_forall. intros name Hn. specialize (Hs _ Hn).
    destruct (mem name (keys raw)) eqn:Hk; [|done]. apply mem_true in Hk.
    by rewrite (proj2 (signature_ok_iff _) (Hs Hk)).
Qed.

(** The junk and padding parameters after the defaults are filled in. *)
Definition parameters_ok (raw : list (string * value)) : Prop :=
  exists jc jmin jmax s1 s2,
    (forall name n, (name, n) ∈ [("jc", jc); ("jmin", jmin); ("jmax", jmax); ("s1", s1); ("s2", s2)]%string ->
       field (dmerge AWG_PARAMETERS raw) name = VInt n) /\
    0 <= jc <= 128 /\ 0 <= jmin <= jmax /\ jmax <= 1280 /\ 0 <= s1 <= 1280 /\ 0 <= s2 <= 1280 /\
    148 + s1 <> 92 + s2.

Lemma bounded_int v maximum :
  negb (type_is_int v) || negb ((0 <=? int_of v) && (int_of v <=? maximum)) = false <->
  exists z, v = VInt z /\ 0 <= z <= maximum.
Proof.
  rewrite orb_false_iff, !negb_false_iff, andb_true_iff, !Z.leb_le, type_is_int_true.
  split; [intros [[z ->] ?]; by exists z|intros (z & -> & ?); eauto].
Qed.

Lemma if_nil {A} (b : bool) (x : A) : (if b then [x] else []) = [] <-> b = false.
Proof. by destruct b. Qed.

Lemma bounded_ints raw path :
  omap (fun name =>
       if negb (type_is_int (field raw name)) || negb ((0 <=? int_of (field raw name)) && (int_of (field raw name) <=? if bool_decide (name = "jc"%string) then 128 else 1280))
       then Some (dotted path name, "invalid bounded integer"%string) else None) (keys AWG_PARAMETERS) = [] <->
  forall name, name ∈ keys AWG_PARAMETERS ->
    exists z, field raw name = VInt z /\ 0 <= z <= (if bool_decide (name = "jc"%string) then 128 else 1280).
Proof.
  rewrite omap_nil, Forall_forall. split; intros H name Hn; specialize (H _ Hn).
  - apply bounded_int. by destruct (_ || _).
  - apply bounded_int in H. by rewrite H.
Qed.

Lemma parameter_errors_nil raw path :
  parameter_errors false raw path = [] <->
  profile_errors false raw path = [] /\ parameters_ok raw.
Proof.
  unfold parameter_errors. cbv zeta beta. set (e := dmerge AWG_PARAMETERS raw). split.
  - intros [Hp [Hb [Hj Hs]%app_eq_nil]%app_eq_nil]%app_eq_nil. split; [done|].
    pose proof (proj1 (bounded_ints e path) Hb) as Hall. clear Hb. rename Hall into Hb. apply if_nil in Hj, Hs.
    destruct (Hb "jc"%string ltac:(set_solver)) as (jc & E1 & ?).
    destruct (Hb "jmin"%string ltac:(set_solver)) as (jmin & E2 & ?).
    destruct (Hb "jmax"%string ltac:(set_solver)) as (jmax & E3 & ?).
    destruct (Hb "s1"%string ltac:(set_solver)) as (s1 & E4 & ?).
    destruct (Hb "s2"%string ltac:(set_solver)) as (s2 & E5 & ?).
    rewrite E2, E3 in Hj. rewrite E4, E5 in Hs. cbn [type_is_int int_of andb] in Hj, Hs.
    exists jc, jmin, jmax, s1, s2. cbn [bool_decide] in *. bprop.
    split; [|repeat match goal with H : context [bool_decide ?P] |- _ => simpl in H end; simpl in *; lia].
    intros name n. rewrite !elem_of_cons. intros Hin.
    repeat (destruct Hin as [[= -> ->]|Hin]; [done|]). by apply not_elem_of_nil in Hin.
  - intros (-> & jc & jmin & jmax & s1 & s2 & Hf & ?).
    pose proof (Hf "jc"%string jc ltac:(set_solver)) as E1.
    pose proof (Hf "jmin"%string jmin ltac:(set_solver)) as E2.
    pose proof (Hf "jmax"%string jmax ltac:(set_solver)) as E3.
    pose proof (Hf "s1"%string s1 ltac:(set_solver)) as E4.
    pose proof (Hf "s2"%string s2 ltac:(set_solver)) as E5. fold e in E1, E2, E3, E4, E5.
    cbn [app]. match goal with |- ?a ++ _ = [] => assert (a = []) as -> end; cbn [app].
    2: { rewrite E2, E3, E4, E5. cbn [type_is_int int_of andb].
      destruct (Z.ltb_spec jmax jmin); [lia|]. destruct (Z.eqb_spec (148 + s1) (92 + s2)); [lia|done]. }
    apply (proj2 (bounded_ints e path)). intros name Hn. unfold keys, AWG_PARAMETERS in Hn. csimpl in Hn. rewrite !elem_of_cons in Hn.
      repeat (destruct Hn as [-> |Hn]; [eexists; split; [eassumption|simpl; lia]|]). by apply not_elem_of_nil in Hn.
Qed.

(** [signature_size] accepts a text exactly when it is a sequence of at most
    64 well-formed tokens of at most 4096 characters that generates at most
    1280 bytes, and it returns the number of bytes generated. *)
Theorem signature_size_iff (s : string) (n : Z) :
  signature_size (VStr s) = Ok n <->
  1 <= py_len s <= 4096 /\ exists ts, chars s = program_text ts /\ Forall token_ok ts /\
    (length ts <= 64)%nat /\ program_bytes ts <= 1280 /\ n = program_bytes ts.
Proof. apply signature_size_nat. Qed.

(** An AmneziaWG profile is admitted without a diagnostic exactly when it
    names the supported wire profile, its four header values are canonical
    range texts within 32 bits that are above the standard message types or
    equal to their own and no message type falls into two of them, every
    signature program present is a bounded token sequence, and the junk and
    padding parameters are ordered, bounded and keep the initiation and the
    response distinguishable by size. *)
Theorem awg_profile_iff (raw : list (string * value)) (path : string) :
  parameter_errors false raw path = [] <->
  field raw "wire_profile" = VStr WIRE_PROFILE /\ (exists rs, headers_admitted raw rs) /\
  signatures_ok raw /\ parameters_ok raw.
Proof. rewrite parameter_errors_nil, profile_errors_nil. tauto. Qed.

Definition sample_profile : list (string * value) :=
  [("wire_profile", VStr WIRE_PROFILE); ("h1", VStr "5-1000"); ("h2", VStr "1001"); ("h3", VStr "3");
   ("h4", VStr "2000-4294967295"); ("i1", VStr "<b 0xc0ffee><rd 12><t>"); ("s1", VInt 15)]%string.

Example sample_profile_admitted : parameter_errors false sample_profile "awg" = [].
Proof. vm_compute. reflexivity. Qed.
Example sample_profile_s2 :
  parameter_errors false (dset "s2" (VInt 71) sample_profile) "awg"
  = [("awg", "initiation and response sizes must differ")]%string.
Proof. vm_compute. reflexivity. Qed.
Example sample_profile_overlap :
  parameter_errors false (dset "h3" (VStr "900-901") sample_profile) "awg"
  = [("awg", "header ranges must be pairwise disjoint")]%string.
Proof. vm_compute. reflexivity. Qed.
Example sample_profile_unreviewed :
  source_errors sample_profile [] "awg" = [("awg", "signature programs require the reviewed source pair")]%string.
Proof. vm_compute. reflexivity. Qed.
