(* ===== verification/IPNet.v ===== *)
(** * IP networks and interfaces

    [ipaddress.ip_network] (strict) and [ipaddress.ip_interface] on strings:
    the prefix forms each family accepts, host bits, and the address range of a
    network.  [None] is the [ValueError]. *)

From S2P Require Import Prelude PyValue PyStr IPAddr.
#[local] Open Scope Z_scope.

(** [network_address] (which keeps the scope identifier it was written with)
    and [prefixlen]. *)
Record network := Network { nw_addr : ipaddr; nw_len : Z }.
#[global] Instance network_eq_dec : EqDecision network.
Proof. solve_decision. Defined.

Definition slash : ascii := "/"%char.

(** [_prefix_from_prefix_string]; [int] refuses more than 4300 digits. *)
Definition prefix_digits (maximum : Z) (l : list ascii) : option Z :=
  if Nat.eqb (length l) 0 || negb (forallb is_digit l) || (4300 <? Z.of_nat (length l)) then None
  else let n := digits_val 10 l in if maximum <? n then None else Some n.

(** [_prefix_from_ip_int]: ones followed by zeros. *)
Definition prefix_of_mask (z : Z) : option Z :=
  head (filter (fun len => netmask V4 len = z) (Z.of_nat <$> seq 0 33)).

(** [_make_netmask]: an IPv4 prefix may be a dotted netmask or hostmask. *)
Definition prefix_length (v : ipver) (l : list ascii) : option Z :=
  match prefix_digits (ip_width v) l, v with
  | Some n, _ => Some n
  | None, V6 => None
  | None, V4 =>
      z ← parse_ipv4_chars l;
      match prefix_of_mask z with
      | Some n => Some n
      | None => prefix_of_mask (Z.lxor z (Z.ones 32))
      end
  end.

(** [_split_addr_prefix] *)
Definition split_prefix (v : ipver) (s : string) : option (string * Z) :=
  match split_chars slash (chars s) with
  | [addr] => Some (of_chars addr, ip_width v)
  | [addr; mask] => n ← prefix_length v mask; Some (of_chars addr, n)
  | _ => None
  end.

Definition parse_ip (v : ipver) (s : string) : option ipaddr :=
  match v with V4 => parse_ipv4 s | V6 => parse_ipv6 s end.

Definition mask_int (v : ipver) (len z : Z) : Z := Z.land z (netmask v len).

(** [IPv4Network(s)], [IPv6Network(s)] with [strict=True]. *)
Definition parse_network (v : ipver) (s : string) : option network :=
  x ← split_prefix v s;
  a ← parse_ip v x.1;
  if decide (mask_int v x.2 (ip_int a) = ip_int a) then Some (Network a x.2) else None.

(** [ipaddress.ip_network(s, strict=True)] *)
Definition ip_network (s : string) : option network :=
  match parse_network V4 s with Some n => Some n | None => parse_network V6 s end.

(** An interface: its address without scope ([.ip]) and its network. *)
Record interface := Interface { if_ip : ipaddr; if_network : network }.

Definition parse_interface (v : ipver) (s : string) : option interface :=
  x ← split_prefix v s;
  a ← parse_ip v x.1;
  let base := mask_int v x.2 (ip_int a) in
  Some (Interface (IP v (ip_int a) None)
    (Network (if decide (base = ip_int a) then a else IP v base None) x.2)).

Definition ip_interface (s : string) : option interface :=
  match parse_interface V4 s with Some i => Some i | None => parse_interface V6 s end.

(** [str(network)] *)
Definition network_str (n : network) : string :=
  (ip_str (nw_addr n) +:+ "/" +:+ of_chars (dec_chars (nw_len n)))%string.

Definition nw_ver (n : network) : ipver := ip_ver (nw_addr n).
Definition nw_first (n : network) : Z := ip_int (nw_addr n).
(** [int(network.broadcast_address)] *)
Definition nw_last (n : network) : Z := Z.lor (nw_first n) (Z.ones (ip_width (nw_ver n) - nw_len n)).

(** [address in network] *)
Definition nw_contains (n : network) (a : ipaddr) : bool :=
  bool_decide (ip_ver a = nw_ver n) && (mask_int (nw_ver n) (nw_len n) (ip_int a) =? nw_first n).

Definition network_wf (n : network) : Prop :=
  ip_wf (nw_addr n) /\ 0 <= nw_len n <= ip_width (nw_ver n) /\
  nw_first n mod 2 ^ (ip_width (nw_ver n) - nw_len n) = 0.

Example net_ex1 : network_str <$> ip_network "10.1.0.0/255.255.0.0" = Some "10.1.0.0/16"%string.
Proof. vm_compute. reflexivity. Qed.
Example net_ex2 : ip_network "10.1.0.1/16" = None /\ network_str <$> ip_network "fd00::/064" = Some "fd00::/64"%string.
Proof. vm_compute. auto. Qed.
Example net_ex3 : network_str <$> ip_network "10.1.2.0/0.0.0.255" = Some "10.1.2.0/24"%string.
Proof. vm_compute. reflexivity. Qed.
Example net_ex4 : (fun n => (nw_first n, nw_last n)) <$> ip_network "10.1.2.0/24" = Some (mk4 10 1 2 0, mk4 10 1 2 255).
Proof. vm_compute. reflexivity. Qed.

(** ** Parsed networks are well formed *)

Lemma parse_ip_wf v s a : parse_ip v s = Some a -> ip_wf a /\ ip_ver a = v.
Proof. destruct v; simpl; [by intros (? & ? & _)%parse_ipv4_wf|apply parse_ipv6_wf]. Qed.

Lemma prefix_digits_range m l n : prefix_digits m l = Some n -> 0 <= n <= m.
Proof.
  unfold prefix_digits. destruct (_ || _); [done|]. destruct (Z.ltb_spec m (digits_val 10 l)); [done|].
  intros [= <-]. split; [apply digits_val_nonneg; lia|done].
Qed.

Lemma prefix_of_mask_range z n : prefix_of_mask z = Some n -> 0 <= n <= 32.
Proof.
  unfold prefix_of_mask. intros H. apply head_Some_elem_of, list_elem_of_filter in H as [_ H].
  apply list_elem_of_fmap in H as (k & -> & Hk). apply elem_of_seq in Hk. lia.
Qed.

Lemma prefix_length_range v l n : prefix_length v l = Some n -> 0 <= n <= ip_width v.
Proof.
  unfold prefix_length. destruct (prefix_digits _ _) eqn:Hd; [intros [= <-]; by apply prefix_digits_range in Hd|].
  destruct v; [|done]. destruct (parse_ipv4_chars l) as [z|]; [|done]. cbn [mbind option_bind].
  destruct (prefix_of_mask z) eqn:Hm; [intros [= <-]; by apply prefix_of_mask_range in Hm|].
  apply prefix_of_mask_range.
Qed.

Lemma split_prefix_range v s x : split_prefix v s = Some x -> 0 <= x.2 <= ip_width v.
Proof.
  unfold split_prefix. destruct (split_chars _ _) as [|a [|b []]]; try done.
  - intros [= <-]. destruct v; simpl; lia.
  - destruct (prefix_length v b) eqn:Hp; [|done]. intros [= <-]. by apply prefix_length_range in Hp.
Qed.

Lemma mask_int_aligned v len z :
  0 <= z < 2 ^ ip_width v -> 0 <= len <= ip_width v ->
  mask_int v len z = z -> z mod 2 ^ (ip_width v - len) = 0.
Proof.
  intros Hz Hl. unfold mask_int. rewrite land_netmask by done. intros <-.
  apply Z.mod_mul. assert (0 < 2 ^ (ip_width v - len)); [|lia]. apply Z.pow_pos_nonneg; lia.
Qed.

Lemma parse_network_wf v s n : parse_network v s = Some n -> network_wf n /\ nw_ver n = v.
Proof.
  unfold parse_network, network_wf, nw_ver, nw_first. destruct (split_prefix v s) as [[addr len]|] eqn:Hs; [|done].
  cbn [mbind option_bind fst snd]. apply split_prefix_range in Hs.
  destruct (parse_ip v addr) as [a|] eqn:Ha; [|done]. apply parse_ip_wf in Ha as [Ha <-].
  cbn [mbind option_bind]. case_decide as Hm; [|done]. intros [= <-]. cbn [nw_addr nw_len].
  split_and!; try done; try apply Hs. apply mask_int_aligned; [apply Ha|done|done].
Qed.

Lemma ip_network_wf s n : ip_network s = Some n -> network_wf n.
Proof.
  unfold ip_network. destruct (parse_network V4 s) eqn:H4; [intros [= <-]|intros H4'];
    by eapply parse_network_wf.
Qed.

(** A well-formed network is the integer range from its address to its
    broadcast address. *)
Lemma nw_last_eq n : network_wf n -> nw_last n = nw_first n + 2 ^ (ip_width (nw_ver n) - nw_len n) - 1.
Proof.
  intros ([[Ha _] _] & Hl & Hm). unfold nw_last. set (k := ip_width (nw_ver n) - nw_len n) in *.
  assert (0 <= k) by lia. assert (0 < 2 ^ k) by (apply Z.pow_pos_nonneg; lia).
  apply Z.mod_divide in Hm as [q Hq]; [|lia]. rewrite Hq.
  rewrite <-Z.shiftl_mul_pow2 by done. pose proof (Z.add_lor_land (Z.shiftl q k) (Z.ones k)) as Hor.
  assert (Z.land (Z.shiftl q k) (Z.ones k) = 0) as Hz; [|rewrite Hz, Z.ones_equiv in Hor; rewrite Z.ones_equiv; lia].
  apply Z.bits_inj'. intros i Hi. rewrite Z.land_spec, Z.bits_0, Z.shiftl_spec by lia.
  destruct (Z.ltb_spec i k); [by rewrite Z.testbit_neg_r by lia|].
  rewrite Z.ones_spec_high by lia. apply andb_false_r.
Qed.

Lemma nw_range n : network_wf n -> 0 <= nw_first n <= nw_last n.
Proof.
  intros Hn. rewrite nw_last_eq by done. destruct Hn as ([[Ha _] _] & Hl & _). unfold nw_first.
  assert (0 < 2 ^ (ip_width (nw_ver n) - nw_len n)) by (apply Z.pow_pos_nonneg; lia). lia.
Qed.

Lemma nw_contains_range n a :
  network_wf n -> ip_wf a -> nw_contains n a = true <-> ip_ver a = nw_ver n /\ nw_first n <= ip_int a <= nw_last n.
Proof.
  intros Hn Ha. rewrite nw_last_eq by done. destruct Hn as (Hw & Hl & Hm).
  pose proof (in_net_range (Net (nw_ver n) (nw_first n) (nw_len n)) a Ha) as Hr.
  unfold net_aligned, in_range, in_net in Hr. cbn [net_ver net_base net_len] in Hr.
  unfold nw_contains, mask_int. rewrite Hr; [split; intros []; split; auto; lia|].
  rewrite Hm, Z.eqb_refl, !andb_true_iff, !Z.leb_le. lia.
Qed.

Lemma ip_interface_wf s i : ip_interface s = Some i -> ip_wf (if_ip i) /\ ip_scope (if_ip i) = None.
Proof.
  assert (forall v, parse_interface v s = Some i -> ip_wf (if_ip i) /\ ip_scope (if_ip i) = None) as Hv.
  { intros v. unfold parse_interface. destruct (split_prefix v s) as [[addr len]|]; [|done].
    cbn [mbind option_bind fst snd]. destruct (parse_ip v addr) as [a|] eqn:Ha; [|done].
    apply parse_ip_wf in Ha as [[Ha _] Hver]. cbn [mbind option_bind]. intros [= <-]. cbn.
    split; [|done]. split; [|done]. by rewrite <-Hver. }
  unfold ip_interface. destruct (parse_interface V4 s) eqn:H4; [intros [= ->]|]; by eapply Hv.
Qed.
