(* ===== verification/Base64.v ===== *)
(** * Base64

    [base64.b64encode] and the strict [base64.b64decode(..., validate=True)]
    over either alphabet.  The decoder accepts whole quanta with at most two
    closing pads; Python's is laxer on a few malformed texts, but every caller
    modelled here re-encodes the result and compares, which refuses those. *)

From S2P Require Import Prelude PyStr.
#[local] Open Scope Z_scope.

(** The characters of the last two digits: ["+/"] or ["-_"]. *)
Record alphabet := Alphabet { c62 : ascii; c63 : ascii }.
Definition standard : alphabet := Alphabet "+" "/".
Definition urlsafe : alphabet := Alphabet "-" "_".
Definition pad : ascii := "="%char.

Definition b64_char (a : alphabet) (z : Z) : ascii :=
  if z <? 26 then chr (z + 65)
  else if z <? 52 then chr (z + 71)
  else if z <? 62 then chr (z - 4)
  else if z =? 62 then c62 a else c63 a.

Definition b64_val (a : alphabet) (c : ascii) : option Z :=
  if is_upper c then Some (ord c - 65)
  else if is_lower c then Some (ord c - 71)
  else if is_digit c then Some (ord c + 4)
  else if bool_decide (c = c62 a) then Some 62
  else if bool_decide (c = c63 a) then Some 63 else None.

Fixpoint b64encode (a : alphabet) (l : list Z) : list ascii :=
  match l with
  | x :: y :: z :: l =>
      b64_char a (x / 4) :: b64_char a (x mod 4 * 16 + y / 16)
      :: b64_char a (y mod 16 * 4 + z / 64) :: b64_char a (z mod 64) :: b64encode a l
  | [x; y] =>
      [b64_char a (x / 4); b64_char a (x mod 4 * 16 + y / 16); b64_char a (y mod 16 * 4); pad]
  | [x] => [b64_char a (x / 4); b64_char a (x mod 4 * 16); pad; pad]
  | [] => []
  end.

Definition quantum (p q : Z) : Z := p * 4 + q / 16.
Definition quantum2 (q r : Z) : Z := q mod 16 * 16 + r / 4.

Fixpoint b64decode (a : alphabet) (l : list ascii) : option (list Z) :=
  match l with
  | [] => Some []
  | c1 :: c2 :: c3 :: c4 :: l =>
      p ← b64_val a c1; q ← b64_val a c2;
      match l, b64_val a c3, b64_val a c4 with
      | _, Some r, Some s =>
          rest ← b64decode a l; Some (quantum p q :: quantum2 q r :: (r mod 4 * 64 + s) :: rest)
      | [], Some r, None => if decide (c4 = pad) then Some [quantum p q; quantum2 q r] else None
      | [], None, None => if decide (c3 = pad /\ c4 = pad) then Some [quantum p q] else None
      | _, _, _ => None
      end
  | _ => None
  end.

(** ** Round trip *)

Class GoodAlphabet (a : alphabet) : Prop := {
  alphabet_62 : b64_val a (c62 a) = Some 62;
  alphabet_63 : b64_val a (c63 a) = Some 63;
  alphabet_pad : b64_val a pad = None
}.
#[global] Instance standard_good : GoodAlphabet standard.
Proof. by constructor. Qed.
#[global] Instance urlsafe_good : GoodAlphabet urlsafe.
Proof. by constructor. Qed.

Lemma b64_val_char a `{!GoodAlphabet a} z : 0 <= z < 64 -> b64_val a (b64_char a z) = Some z.
Proof.
  intros Hz. unfold b64_char.
  destruct (Z.ltb_spec z 26); [|destruct (Z.ltb_spec z 52); [|destruct (Z.ltb_spec z 62)]].
  1-3: unfold b64_val, is_upper, is_lower, is_digit, between; rewrite !ord_chr by lia;
       repeat (match goal with |- context [(?x <=? ?y)%Z] => destruct (Z.leb_spec x y) end; try lia; simpl);
       f_equal; lia.
  destruct (Z.eqb_spec z 62) as [-> |]; [apply alphabet_62|].
  replace z with 63 by lia. apply alphabet_63.
Qed.

Lemma b64_val_range a c z : b64_val a c = Some z -> 0 <= z < 64.
Proof.
  unfold b64_val, is_upper, is_lower, is_digit, between. pose proof (ord_range c).
  repeat match goal with |- context [(?x <=? ?y)%Z] => destruct (Z.leb_spec x y) end; simpl;
    repeat case_bool_decide; intros [= <-]; lia.
Qed.

Ltac b64_arith := unfold quantum, quantum2; Z.to_euclidean_division_equations; lia.

Lemma decode_encode a `{!GoodAlphabet a} l :
  bytes_wf l -> b64decode a (b64encode a l) = Some l.
Proof.
  remember (length l) as n eqn:Hn. revert l Hn.
  induction (lt_wf n) as [n _ IH]. intros l Hn Hl.
  destruct l as [|x [|y [|z l]]]; [done| | |].
  all: repeat (apply Forall_cons in Hl as [? Hl]); cbv beta in *; cbn [b64encode b64decode].
  - rewrite !b64_val_char by first [done|b64_arith]. cbn [mbind option_bind]. rewrite !alphabet_pad.
    rewrite decide_True by done. do 2 f_equal. b64_arith.
  - rewrite !b64_val_char by first [done|b64_arith]. cbn [mbind option_bind]. rewrite alphabet_pad.
    rewrite decide_True by done. f_equal. f_equal; [b64_arith|f_equal; b64_arith].
  - rewrite !b64_val_char by first [done|b64_arith]. cbn [mbind option_bind].
    assert (b64decode a (b64encode a l) = Some l) as Hrest.
    { apply (IH (length l)); [simpl in Hn; lia|done|done]. }
    rewrite Hrest. destruct (b64encode a l); cbn [mbind option_bind];
      (f_equal; f_equal; [b64_arith|f_equal; [b64_arith|f_equal; b64_arith]]).
Qed.

Lemma decode_bytes a l k : b64decode a l = Some k -> bytes_wf k.
Proof.
  remember (length l) as n eqn:Hn. revert l k Hn.
  induction (lt_wf n) as [n _ IH]. intros l k Hn.
  destruct l as [|c1 [|c2 [|c3 [|c4 l]]]]; try done; [intros [= <-]; constructor|].
  cbn [b64decode]. destruct (b64_val a c1) as [p|] eqn:Hp; [|done].
  destruct (b64_val a c2) as [q|] eqn:Hq; [|done]. cbn [mbind option_bind].
  apply b64_val_range in Hp, Hq.
  destruct (b64_val a c3) as [r|] eqn:Hr; [apply b64_val_range in Hr|];
    destruct (b64_val a c4) as [s|] eqn:Hs; try (apply b64_val_range in Hs).
  - destruct (b64decode a l) as [rest|] eqn:Hrest; [|by destruct l].
    intros Hk. assert (k = quantum p q :: quantum2 q r :: (r mod 4 * 64 + s) :: rest) as -> by (destruct l; simpl in Hk; congruence).
    apply (IH (length l)) in Hrest; [|simpl in Hn; lia|done].
    repeat constructor; try b64_arith; done.
  - destruct l; [|done]. case_decide; [|done]. intros [= <-]. repeat constructor; b64_arith.
  - by destruct l.
  - destruct l; [|done]. case_decide; [|done]. intros [= <-]. repeat constructor; b64_arith.
Qed.

(** Canonical texts: those that decode and re-encode to themselves. *)
Definition canonical_b64 (a : alphabet) (l : list ascii) : option (list Z) :=
  k ← b64decode a l; if decide (b64encode a k = l) then Some k else None.

Lemma canonical_b64_Some a `{!GoodAlphabet a} l k :
  canonical_b64 a l = Some k <-> bytes_wf k /\ l = b64encode a k.
Proof.
  unfold canonical_b64. split.
  - destruct (b64decode a l) as [k'|] eqn:Hd; [|done]. cbn [mbind option_bind].
    case_decide as He; [|done]. intros [= <-]. split; [by eapply decode_bytes|done].
  - intros [Hk ->]. rewrite decode_encode by done. cbn [mbind option_bind]. by rewrite decide_True.
Qed.

Example b64_foob : b64encode standard [102; 111; 111; 98] = chars "Zm9vYg==".
Proof. reflexivity. Qed.
Example b64_dec : b64decode standard (chars "Zm9vYmE=") = Some [102; 111; 111; 98; 97].
Proof. reflexivity. Qed.
