(* ===== verification/AwgContract.v ===== *)
(** * The AmneziaWG instance contract

    [scripts/transport_semantics.py]: the instance authority
    ([effective_awg_instances]) and its admission ([awg_errors]): interface
    names, ports and addresses, key material, and the address claims of every
    peer, checked for overlaps by one sweep over the sorted claims. *)

From stdpp Require Import sorting.
From S2P Require Import Prelude PyValue PyStr Regex Base64 IPAddr IPNet AwgProfile.
#[local] Open Scope Z_scope.

Notation dict := (list (string * value)) (only parsing).

Definition is_placeholder (v : value) : bool := is_str v && fullmatch PLACEHOLDER (str_of v).

(** [key_valid] *)
Definition key_valid (allow_placeholders : bool) (v : value) : bool :=
  if is_str v && allow_placeholders && fullmatch PLACEHOLDER (str_of v) then true
  else if negb (is_str v) then false
  else match canonical_b64 standard (chars (str_of v)) with
  | Some raw => Nat.eqb (length raw) 32 && existsb (fun b => negb (b =? 0)) raw
  | None => false
  end.

(** [awg_dns_valid] *)
Definition awg_dns_valid (v : value) : bool :=
  if negb (is_list v)
     || negb ((1 <=? Z.of_nat (length (list_of v))) && (Z.of_nat (length (list_of v)) <=? 4)) then false
  else match py_set (list_of v) with
  | Raise _ => false
  | Ok distinct =>
      Nat.eqb (length distinct) (length (list_of v))
      && forallb (fun server =>
           is_str server &&
           match parse_ipv4 (str_of server) with
           | Some a => is_global a && bool_decide (ip_str a = str_of server)
           | None => false
           end) (list_of v)
  end.

Definition interface_char (c : ascii) : bool := is_alnum c || one_of "_.-" c.
(** [[A-Za-z0-9][A-Za-z0-9_.-]{0,14}\Z] *)
Definition INTERFACE : re := RCat (RCls is_alnum) (RClsRep interface_char 0 14).

Definition AWG_MTU_MIN : Z := 1280.
Definition AWG_MTU_MAX : Z := 1420.
Definition AWG_MTU_DEFAULT : Z := 1420.

Definition instance_fields : list string :=
  (["name"; "listen_port"; "address_v4"; "address_v6"; "server_private_key"; "peers";
    "mtu"; "s3"; "s4"; "wire_profile"]%string ++ keys AWG_PARAMETERS ++ HEADERS ++ SIGNATURES).

(** One effective instance: defaults below the cohort below the role defaults
    below the instance itself. *)
Definition effective_instance (defaults cohort item : dict) : dict :=
  let mtu := default (default (VInt AWG_MTU_DEFAULT) (dget "mtu" defaults)) (dget "mtu" cohort) in
  dmerge (dmerge (dmerge (dmerge AWG_PARAMETERS
      [("mtu", mtu); ("dns_servers", VList [VStr "1.1.1.1"; VStr "1.0.0.1"])]%string)
      (filter (fun kv => mem kv.1 instance_fields && negb (mem kv.1 ["name"; "mtu"]%string)) cohort))
      (filter (fun kv => mem kv.1 ["listen_port"; "address_v4"; "address_v6"; "dns_servers"]%string) defaults))
      item.

(** [effective_awg_instances] *)
Definition effective_awg_instances (raw defaults cohort : value) : res (list dict) :=
  let bad := value_error "invalid-awg-contract" in
  raise_if (negb (is_dict raw) || negb (same_set (keys (dict_of raw)) ["instances"%string])) bad ;;;
  let instances := field (dict_of raw) "instances" in
  raise_if (negb (is_list instances) || Nat.eqb (length (list_of instances)) 0
            || negb (forallb is_dict (list_of instances))) bad ;;;
  let items := dict_of <$> list_of instances in
  raise_if (negb (forallb (fun item => subset (keys item) instance_fields) items)) bad ;;;
  raise_if (negb (subset (keys (dict_of cohort)) instance_fields)
            || existsb (fun name => mem name (keys (dict_of defaults))) SIGNATURES)
    (value_error "unsupported-awg-policy") ;;;
  Ok (effective_instance (dict_of defaults) (dict_of cohort) <$> items).

(** ** Admission *)

(** A peer's address claim: family, first and last address, where it was made. *)
Record claim := Claim { cl_version : Z; cl_start : Z; cl_end : Z; cl_path : string }.

(** The sets [awg_errors] accumulates over the instances. *)
Record awg_state := Awg {
  aw_errors : list diag;
  aw_names : list string;
  aw_ports : list Z;
  aw_claims : list claim;
  aw_servers : list (Z * Z);              (* [server_addresses] *)
  aw_owners : list (string * string);     (* [key_owners] *)
  aw_devices : list string                (* [device_names] *)
}.

Definition awg_init : awg_state := Awg [] [] [] [] [] [] [].

Definition reports (l : list diag) (s : awg_state) : awg_state :=
  Awg (aw_errors s ++ l) (aw_names s) (aw_ports s) (aw_claims s) (aw_servers s) (aw_owners s) (aw_devices s).
Definition report (b : bool) (d : diag) (s : awg_state) : awg_state :=
  if b then reports [d] s else s.
Definition add_name (n : string) (s : awg_state) : awg_state :=
  Awg (aw_errors s) (n :: aw_names s) (aw_ports s) (aw_claims s) (aw_servers s) (aw_owners s) (aw_devices s).
Definition add_port (p : Z) (s : awg_state) : awg_state :=
  Awg (aw_errors s) (aw_names s) (p :: aw_ports s) (aw_claims s) (aw_servers s) (aw_owners s) (aw_devices s).
Definition add_claim (c : claim) (s : awg_state) : awg_state :=
  Awg (aw_errors s) (aw_names s) (aw_ports s) (aw_claims s ++ [c]) (aw_servers s) (aw_owners s) (aw_devices s).
Definition add_server (a : Z * Z) (s : awg_state) : awg_state :=
  Awg (aw_errors s) (aw_names s) (aw_ports s) (aw_claims s) (a :: aw_servers s) (aw_owners s) (aw_devices s).
Definition set_owner (key name : string) (s : awg_state) : awg_state :=
  Awg (aw_errors s) (aw_names s) (aw_ports s) (aw_claims s) (aw_servers s) (dset key name (aw_owners s)) (aw_devices s).
Definition add_device (n : string) (s : awg_state) : awg_state :=
  Awg (aw_errors s) (aw_names s) (aw_ports s) (aw_claims s) (aw_servers s) (aw_owners s) (n :: aw_devices s).

Definition instances_path : string := "amneziawg_secrets.instances".
Definition indexed (path : string) (i : nat) : string := dotted path (str_of_Z (Z.of_nat i)).

(** The forward guard of one layer: the S3 and S4 paddings stay zero. *)
Definition forward_guard (layer : dict) : list diag :=
  omap (fun name =>
    let v := default (VInt 0) (dget name layer) in
    if type_is_int v && (int_of v =? 0) then None
    else Some ("amneziawg_secrets", "S3/S4 must remain zero")%string) ["s3"; "s4"]%string.

Definition instance_basics (defaults : dict) (path : string) (item : dict) (s : awg_state) : awg_state :=
  let f := fun name => field item name in
  let s := report (negb (type_is_int (f "mtu"%string)
      && ((AWG_MTU_MIN <=? int_of (f "mtu"%string)) && (int_of (f "mtu"%string) <=? AWG_MTU_MAX))))
    (dotted path "mtu", "requires an integer from 1280 through 1420"%string) s in
  let s := report (negb (awg_dns_valid (f "dns_servers"%string)))
    ("amneziawg.dns_servers", "requires one to four distinct global IPv4 DNS addresses")%string s in
  let name := f "name"%string in
  let s :=
    if negb (is_str name) || negb (fullmatch INTERFACE (str_of name))
    then reports [(dotted path "name", "invalid interface name"%string)] s
    else if mem (str_of name) (aw_names s) then reports [(instances_path, "duplicate name"%string)] s
    else add_name (str_of name) s in
  let port := default (field defaults "listen_port") (dget "listen_port" item) in
  if is_none port then s
  else if negb (type_is_int port) || negb ((1 <=? int_of port) && (int_of port <=? 65535))
  then reports [(dotted path "listen_port", "invalid port"%string)] s
  else if bool_decide (int_of port ∈ aw_ports s)
  then reports [(instances_path, "duplicate listen_port"%string)] s
  else add_port (int_of port) s.

Definition address_field (v : ipver) : string :=
  match v with V4 => "address_v4" | V6 => "address_v6" end.

(** The interface address an instance may have. *)
Definition instance_interface (version : ipver) (v : value) : option interface :=
  if negb (is_str v) then None else
  i ← ip_interface (str_of v);
  if bool_decide (ip_ver (if_ip i) = version) && negb (is_multicast (if_ip i))
     && negb (is_unspecified (if_ip i)) && negb (is_loopback (if_ip i)) && negb (is_link_local (if_ip i))
  then Some i else None.

Definition instance_address (path : string) (item : dict) (s : awg_state) (version : ipver) : awg_state :=
  let name := address_field version in
  match dget name item with
  | None => reports [(dotted path name, "both server address families are required"%string)] s
  | Some v =>
      match instance_interface version v with
      | Some i => add_server (ver_num version, ip_int (if_ip i)) s
      | None => reports [(dotted path name, "invalid interface address family or CIDR"%string)] s
      end
  end.

(** *** Peers *)

(** [local_names], [local_keys], [local_psks] *)
Record local_sets := Local { lo_names : list string; lo_keys : list string; lo_psks : list string }.

Definition peer_kind (peer : dict) : value := default (VStr "device") (dget "address_kind" peer).
Definition is_device (peer : dict) : bool := py_eq (peer_kind peer) (VStr "device").

Definition peer_name_step (path peer_path : string) (peer : dict) (x : awg_state * local_sets)
    : awg_state * local_sets :=
  let '(s, l) := x in
  let name := field peer "name" in
  let '(s, l) :=
    if negb (is_str name) || bool_decide (str_of name = ""%string)
    then (reports [(dotted peer_path "name", "invalid device name"%string)] s, l)
    else if mem (str_of name) (lo_names l) then (reports [(dotted path "peers", "duplicate name"%string)] s, l)
    else (s, Local (str_of name :: lo_names l) (lo_keys l) (lo_psks l)) in
  if is_device peer && is_str name then
    (add_device (str_of name)
       (report (mem (str_of name) (aw_devices s))
          (dotted path "peers", "duplicate device name across instances"%string) s), l)
  else (s, l).

(** One of the two key fields of a peer; [seen] is the instance's set for it. *)
Definition peer_key_step (allow : bool) (path peer_path : string) (server_key : value) (peer : dict)
    (name : string) (x : awg_state * list string) : awg_state * list string :=
  let '(s, seen) := x in
  let v := field peer name in
  if negb (key_valid allow v)
  then (reports [(dotted peer_path name, "invalid canonical 32-byte key"%string)] s, seen)
  else if allow && fullmatch PLACEHOLDER (str_of v) then (s, seen)
  else
    let key := str_of v in
    let peer_name := field peer "name" in
    let s := report (mem key seen) (dotted path "peers", ("duplicate " +:+ name)%string) s in
    let s := report (match dget key (aw_owners s) with
                     | Some previous => negb (py_eq (VStr previous) peer_name)
                     | None => false
                     end) (dotted path "peers", "key material reused between devices"%string) s in
    let s := if is_str peer_name then set_owner key (str_of peer_name) s else s in
    (report (py_eq v server_key) (peer_path, "server and peer key material must differ"%string) s,
     key :: seen).

Definition peer_keys_step (allow : bool) (path peer_path : string) (server_key : value) (peer : dict)
    (x : awg_state * local_sets) : awg_state * local_sets :=
  let '(s, l) := x in
  let '(s, keys) := peer_key_step allow path peer_path server_key peer "public_key" (s, lo_keys l) in
  let '(s, psks) := peer_key_step allow path peer_path server_key peer "preshared_key" (s, lo_psks l) in
  let s := report (py_eq (field peer "public_key") (field peer "preshared_key"))
    (peer_path, "peer public and preshared keys must differ"%string) s in
  (s, Local (lo_names l) keys psks).

(** The addresses of the instance's own network a device may not take. *)
Definition reserved_addresses (i : interface) : list ipaddr :=
  [if_ip i; nw_addr (if_network i)]
  ++ (if bool_decide (nw_ver (if_network i) = V4) then [IP V4 (nw_last (if_network i)) None] else []).

(** A single unreserved host of the instance's network.  [ip_interface] of an
    integer is a network of one reserved address, and no other value has an
    interface, so only strings can admit a device. *)
Definition device_host (server : value) (n : network) : bool :=
  match (if is_str server then ip_interface (str_of server) else None) with
  | None => false
  | Some i =>
      (nw_len n =? ip_width (nw_ver n)) && nw_contains (if_network i) (nw_addr n)
      && negb (bool_decide (nw_addr n ∈ reserved_addresses i))
      && negb (is_multicast (nw_addr n)) && negb (is_loopback (nw_addr n))
      && negb (is_link_local (nw_addr n)) && negb (is_unspecified (nw_addr n))
  end.

Definition family_version (family : string) : ipver :=
  if bool_decide (family = "ipv4"%string) then V4 else V6.

(** The network of one [allowed_ips] entry, when it is admitted. *)
Definition peer_network (item : dict) (device : bool) (family : string) (prefix : value) : option network :=
  let version := family_version family in
  if negb (is_str prefix) then None else
  n ← ip_network (str_of prefix);
  if negb (bool_decide (nw_ver n = version)) || negb (bool_decide (network_str n = str_of prefix)) then None
  else if device then
    server ← dget (address_field version) item;
    if device_host server n then Some n else None
  else Some n.

Definition claim_of (path : string) (n : network) : claim :=
  Claim (ver_num (nw_ver n)) (nw_first n) (nw_last n) path.

Definition prefix_step (item : dict) (device : bool) (peer_path : string) (s : awg_state)
    (entry : string * value) : awg_state :=
  let path := dotted (dotted peer_path "allowed_ips") entry.1 in
  match peer_network item device entry.1 entry.2 with
  | None => reports [(path, "requires a canonical family prefix; devices need an unreserved host in their instance pool"%string)] s
  | Some n => add_claim (claim_of path n) s
  end.

Definition FAMILIES : list string := ["ipv4"; "ipv6"]%string.

Definition peer_addresses (item : dict) (peer_path : string) (peer : dict) (s : awg_state) : awg_state :=
  let device := is_device peer in
  let s := report (negb device && negb (py_eq (peer_kind peer) (VStr "routed")))
    (dotted peer_path "address_kind", "unsupported address kind"%string) s in
  let prefixes := field peer "allowed_ips" in
  if negb (is_dict prefixes) || Nat.eqb (length (dict_of prefixes)) 0
     || negb (subset (keys (dict_of prefixes)) FAMILIES)
     || (device && negb (same_set (keys (dict_of prefixes)) FAMILIES))
  then reports [(dotted peer_path "allowed_ips", "requires typed address families; devices require both"%string)] s
  else foldl (prefix_step item device peer_path) s (dict_of prefixes).

Definition peer_step (allow : bool) (path : string) (item : dict) (x : awg_state * local_sets)
    (p : nat * dict) : awg_state * local_sets :=
  let '(index, peer) := p in
  let peer_path := indexed (dotted path "peers") index in
  let x := peer_name_step path peer_path peer x in
  let '(s, l) := peer_keys_step allow path peer_path (field item "server_private_key") peer x in
  (peer_addresses item peer_path peer s, l).

(** *** Instances *)

Definition instance_step (allow : bool) (defaults source : dict) (s : awg_state) (p : nat * dict) : awg_state :=
  let '(index, item) := p in
  let path := indexed instances_path index in
  let s := instance_basics defaults path item s in
  let s := foldl (instance_address path item) s [V4; V6] in
  let s := reports (parameter_errors allow item path) s in
  let s := reports (source_errors item source path) s in
  let s := report (negb (key_valid allow (field item "server_private_key")))
    (dotted path "server_private_key", "invalid canonical 32-byte key"%string) s in
  let peers := field item "peers" in
  if negb (is_list peers) || negb (forallb is_dict (list_of peers))
  then reports [(dotted path "peers", "must be a peer collection"%string)] s
  else (foldl (peer_step allow path item) (s, Local [] [] []) (imap pair (dict_of <$> list_of peers))).1.

(** *** The sweep over the sorted claims *)

(** Tuples compare lexicographically. *)
Definition claim_le (a b : claim) : Prop :=
  cl_version a < cl_version b \/ cl_version a = cl_version b /\
  (cl_start a < cl_start b \/ cl_start a = cl_start b /\
   (cl_end a < cl_end b \/ cl_end a = cl_end b /\ str_le (cl_path a) (cl_path b))).
#[export] Instance claim_le_dec : RelDecision claim_le.
Proof. intros a b. unfold claim_le. apply _. Defined.

Definition sweep_step (servers : list (Z * Z)) (st : list diag * Z * Z) (c : claim) : list diag * Z * Z :=
  let '(errors, family, previous_end) := st in
  let e1 := if existsb (fun a => (cl_version c =? a.1) && (cl_start c <=? a.2) && (a.2 <=? cl_end c)) servers
            then [(cl_path c, "peer prefix contains an instance server address"%string)] else [] in
  let previous_end := if negb (cl_version c =? family) then -1 else previous_end in
  let e2 := if cl_start c <=? previous_end
            then [(cl_path c, "conflicting peer address claim"%string)] else [] in
  (errors ++ e1 ++ e2, cl_version c, Z.max previous_end (cl_end c)).

Definition sweep (servers : list (Z * Z)) (claims : list claim) : list diag :=
  (foldl (sweep_step servers) ([], 0, -1) (merge_sort claim_le claims)).1.1.

(** [awg_errors] *)
Definition awg_errors (allow_placeholders : bool) (source : dict) (raw defaults cohort : value) : list diag :=
  if negb (is_dict raw) then [("amneziawg_secrets", "must be a mapping")]%string
  else match effective_awg_instances raw defaults cohort with
  | Raise _ => [(instances_path, "must be the sole nonempty instance authority"%string)]
  | Ok instances =>
      let guards := mjoin (forward_guard <$> [dict_of raw; dict_of defaults; dict_of cohort] ++ instances) in
      let s := foldl (instance_step allow_placeholders (dict_of defaults) source)
                 (reports guards awg_init) (imap pair instances) in
      aw_errors s ++ sweep (aw_servers s) (aw_claims s)
  end.

(** ** The sweep finds exactly the overlaps *)

Definition claims_overlap (a b : claim) : Prop :=
  cl_version a = cl_version b /\ cl_start a <= cl_end b /\ cl_start b <= cl_end a.
Definition claims_apart (a b : claim) : Prop := ~ claims_overlap a b.
#[export] Instance claims_apart_sym : Symmetric claims_apart.
Proof. intros a b Hab [? [? ?]]. by apply Hab. Qed.

Definition claim_wf (c : claim) : Prop := 0 < cl_version c /\ 0 <= cl_start c <= cl_end c.

Definition avoids (servers : list (Z * Z)) (c : claim) : Prop :=
  forall v a, (v, a) ∈ servers -> v = cl_version c -> cl_start c <= a <= cl_end c -> False.

#[export] Instance claim_le_trans : Transitive claim_le.
Proof.
  intros a b c. unfold claim_le.
  intros [?|[? [?|[? [?|[? Hab]]]]]] [?|[? [?|[? [?|[? Hbc]]]]]]; try lia.
  pose proof (transitivity (R := str_le) Hab Hbc). right. split; [lia|]. right. split; [lia|]. right. by split; [lia|].
Qed.
#[export] Instance claim_le_total : Total claim_le.
Proof.
  intros a b. unfold claim_le.
  destruct (Z.lt_trichotomy (cl_version a) (cl_version b)) as [?|[? |?]]; [auto| |auto].
  destruct (Z.lt_trichotomy (cl_start a) (cl_start b)) as [?|[? |?]]; [auto| |auto 6].
  destruct (Z.lt_trichotomy (cl_end a) (cl_end b)) as [?|[? |?]]; [auto 8| |auto 8].
  destruct (total str_le (cl_path a) (cl_path b)); auto 10.
Qed.

(** What the sweep remembers of the claims it passed. *)
Record swept (passed : list claim) (family previous_end : Z) : Prop := {
  sw_version : forall d, d ∈ passed -> cl_version d <= family;
  sw_end : forall d, d ∈ passed -> cl_version d = family -> cl_end d <= previous_end;
  sw_family : family = 0 \/ exists d, d ∈ passed /\ cl_version d = family;
  sw_attained : previous_end = -1 \/ exists d, d ∈ passed /\ cl_version d = family /\ cl_end d = previous_end
}.

Lemma sweep_conflict passed family previous_end c :
  swept passed family previous_end -> claim_wf c -> (forall d, d ∈ passed -> claim_wf d /\ claim_le d c) ->
  (cl_start c <=? (if negb (cl_version c =? family) then -1 else previous_end)) = false <->
  Forall (fun d => claims_apart d c) passed.
Proof.
  intros Hs [Hv Hc] Hp. rewrite Forall_forall, Z.leb_gt. unfold claims_apart, claims_overlap.
  destruct (Z.eqb_spec (cl_version c) family) as [Heq|Hne]; cbn [negb].
  - split.
    + intros Hlt d Hd (Hdv & _ & ?). pose proof (sw_end _ _ _ Hs d Hd). lia.
    + intros Hap. destruct (sw_attained _ _ _ Hs) as [-> |(d & Hd & Hdv & Hde)]; [lia|].
      destruct (Hp d Hd) as [[_ ?] Hle]. destruct (Z.lt_ge_cases previous_end (cl_start c)); [done|].
      exfalso. apply (Hap d Hd). unfold claim_le in Hle. lia.
  - split; [|intros _; lia]. intros _ d Hd (Hdv & _ & _). apply Hne.
    pose proof (sw_version _ _ _ Hs d Hd). destruct (sw_family _ _ _ Hs) as [-> |(d' & Hd' & Hdv')]; [lia|].
    destruct (Hp d' Hd') as [_ Hle]. unfold claim_le in Hle. lia.
Qed.

Lemma sweep_advance passed family previous_end c :
  swept passed family previous_end -> claim_wf c -> (forall d, d ∈ passed -> claim_wf d /\ claim_le d c) ->
  swept (passed ++ [c]) (cl_version c)
    (Z.max (if negb (cl_version c =? family) then -1 else previous_end) (cl_end c)).
Proof.
  intros Hs [Hv Hc] Hp.
  assert (forall d, d ∈ passed ++ [c] -> d ∈ passed \/ d = c) as Hin.
  { intros d [?| ->%list_elem_of_singleton]%elem_of_app; auto. }
  assert (c ∈ passed ++ [c]) as Hlast by (apply elem_of_app; right; by apply list_elem_of_singleton).
  assert (forall d, d ∈ passed -> cl_version d <= cl_version c) as Hle.
  { intros d Hd. destruct (Hp d Hd) as [_ Hdc]. unfold claim_le in Hdc. lia. }
  split.
  - intros d [Hd| ->]%Hin; [auto|lia].
  - intros d [Hd| ->]%Hin Hdv; [|lia]. pose proof (sw_version _ _ _ Hs d Hd). pose proof (Hle d Hd).
    destruct (Z.eqb_spec (cl_version c) family) as [Heq|Hne]; cbn [negb].
    + pose proof (sw_end _ _ _ Hs d Hd). lia.
    + exfalso. destruct (sw_family _ _ _ Hs) as [-> |(d' & Hd' & Hdv')]; [lia|].
      pose proof (Hle d' Hd'). lia.
  - right. exists c. auto.
  - right. destruct (Z.eqb_spec (cl_version c) family) as [Heq|Hne]; cbn [negb].
    + destruct (Z.le_gt_cases previous_end (cl_end c)); [exists c; split_and!; auto; lia|].
      destruct (sw_attained _ _ _ Hs) as [-> |(d & Hd & Hdv & Hde)]; [lia|].
      exists d. split_and!; [apply elem_of_app; by left|lia|lia].
    + exists c. split_and!; auto; lia.
Qed.

Lemma sweep_server_test servers c :
  existsb (fun a => (cl_version c =? a.1) && (cl_start c <=? a.2) && (a.2 <=? cl_end c)) servers = false <->
  avoids servers c.
Proof.
  rewrite existsb_false, Forall_forall. unfold avoids. split.
  - intros H v a Hin Hv Ha. specialize (H _ Hin). cbn [fst snd] in H.
    rewrite !andb_false_iff, Z.eqb_neq, !Z.leb_gt in H. lia.
  - intros H [v a] Hin. cbn [fst snd]. rewrite !andb_false_iff, Z.eqb_neq, !Z.leb_gt.
    destruct (Z.eq_dec (cl_version c) v); [|auto]. destruct (Z.lt_ge_cases a (cl_start c)); [auto|].
    destruct (Z.lt_ge_cases (cl_end c) a); [auto|]. exfalso. eapply H; eauto.
Qed.

Lemma sweep_fold servers l passed e family previous_end :
  swept passed family previous_end ->
  Forall claim_wf passed -> Forall claim_wf l -> StronglySorted claim_le l ->
  (forall d c, d ∈ passed -> c ∈ l -> claim_le d c) ->
  (foldl (sweep_step servers) (e, family, previous_end) l).1.1 = [] <->
  e = [] /\ Forall (avoids servers) l /\ ForallOrdPairs claims_apart l /\
  (forall d c, d ∈ passed -> c ∈ l -> claims_apart d c).
Proof.
  revert passed e family previous_end.
  induction l as [|c l IH]; intros passed e family previous_end Hs Hwp Hwl Hsort Hle.
  { cbn [foldl fst]. split; [intros ->|by intros []]. split_and!; [done|constructor|constructor|].
    by intros ? ? ? ?%not_elem_of_nil. }
  apply Forall_cons in Hwl as [Hc Hwl]. apply StronglySorted_cons in Hsort as [Hcl Hsort].
  assert (forall d, d ∈ passed -> claim_wf d /\ claim_le d c) as Hp.
  { intros d Hd. split; [by eapply Forall_forall in Hwp|]. apply Hle; [done|left]. }
  pose proof (sweep_conflict _ _ _ _ Hs Hc Hp) as Hconf.
  pose proof (sweep_advance _ _ _ _ Hs Hc Hp) as Hnext.
  cbn [foldl sweep_step]. rewrite (IH (passed ++ [c]) _ _ _ Hnext); [|..].
  - pose proof (sweep_server_test servers c) as Hserv. rewrite Forall_cons. split.
    + intros ([-> [He1 He2]%app_eq_nil]%app_eq_nil & Hav & Hord & Hap).
      assert (avoids servers c) as Hac by (apply Hserv; by destruct (existsb _ _)).
      assert (Forall (fun d => claims_apart d c) passed) as Hpc by (apply Hconf; by destruct (cl_start c <=? _)).
      split_and!; [done|done|done| |].
      * constructor; [|done]. apply Forall_forall. intros d Hd. apply Hap; [apply elem_of_app; right; left|done].
      * intros d x Hd [-> |Hx]%elem_of_cons; [by eapply Forall_forall in Hpc|].
        apply Hap; [apply elem_of_app; by left|done].
    + intros (-> & [Hac Hav] & Hord & Hap). inversion Hord as [|? ? Hcl' Hord']; subst.
      rewrite (proj2 Hserv Hac), (proj2 Hconf); [split_and!; [done|done|done|]|].
      * intros d x [Hd| ->%list_elem_of_singleton]%elem_of_app Hx; [apply Hap; [done|by right]|].
        by eapply Forall_forall in Hcl'.
      * apply Forall_forall. intros d Hd. apply Hap; [done|left].
  - apply Forall_app; split; [done|by constructor].
  - done.
  - done.
  - intros d x [Hd| ->%list_elem_of_singleton]%elem_of_app Hx; [apply Hle; [done|by right]|].
    by eapply Forall_forall in Hcl.
Qed.

Lemma sweep_nil servers claims :
  Forall claim_wf claims ->
  sweep servers claims = [] <-> Forall (avoids servers) claims /\ ForallOrdPairs claims_apart claims.
Proof.
  intros Hwf. pose proof (merge_sort_Permutation claim_le claims) as Hp.
  unfold sweep. rewrite (sweep_fold servers _ []).
  - split.
    + intros (_ & Hav & Hord & _). split; [by rewrite <-Hp|by apply (ForallOrdPairs_perm _ _ _ Hp)].
    + intros [Hav Hord]. split_and!; [done|by rewrite Hp|by apply (ForallOrdPairs_perm _ _ _ (symmetry Hp))|].
      by intros ? ? ?%not_elem_of_nil.
  - constructor; [by intros ? ?%not_elem_of_nil|by intros ? ?%not_elem_of_nil|by left|by left].
  - constructor.
  - by rewrite Hp.
  - apply StronglySorted_merge_sort; apply _.
  - by intros ? ? ?%not_elem_of_nil.
Qed.

(** ** Clean runs

    A run of [awg_errors] without diagnostics is a run of clean steps; each
    step lemma says what a clean step checked and how it changed the state. *)

Definition clean (s : awg_state) : Prop := aw_errors s = [].

Lemma reports_clean l s : clean (reports l s) <-> clean s /\ l = [].
Proof. unfold clean, reports. cbn. split; [apply app_eq_nil|by intros [-> ->]]. Qed.
Lemma report_clean b d s : clean (report b d s) <-> clean s /\ b = false.
Proof. destruct b; cbn [report]; [rewrite reports_clean|]; intuition congruence. Qed.
Lemma reports_nil s : reports [] s = s.
Proof. destruct s. unfold reports. cbn. by rewrite app_nil_r. Qed.

Lemma add_name_clean n s : clean (add_name n s) <-> clean s. Proof. done. Qed.
Lemma add_port_clean n s : clean (add_port n s) <-> clean s. Proof. done. Qed.
Lemma add_claim_clean c s : clean (add_claim c s) <-> clean s. Proof. done. Qed.
Lemma add_server_clean a s : clean (add_server a s) <-> clean s. Proof. done. Qed.
Lemma set_owner_clean k n s : clean (set_owner k n s) <-> clean s. Proof. done. Qed.
Lemma add_device_clean n s : clean (add_device n s) <-> clean s. Proof. done. Qed.
Create HintDb awg.
#[export] Hint Rewrite reports_clean report_clean add_name_clean add_port_clean add_claim_clean
  add_server_clean set_owner_clean add_device_clean : awg.
(** [clean_no]: the run reported something, against its cleanness. *)
Ltac clean_no := cbn [fst]; autorewrite with awg; intuition discriminate.

Definition pname (peer : dict) : string := str_of (field peer "name").
Definition ppublic (peer : dict) : string := str_of (field peer "public_key").
Definition pshared (peer : dict) : string := str_of (field peer "preshared_key").

Definition named (peer : dict) : Prop := field peer "name" = VStr (pname peer) /\ pname peer <> ""%string.

Lemma peer_name_clean path peer_path peer s l r :
  peer_name_step path peer_path peer (s, l) = r -> clean r.1 ->
  clean s /\ named peer /\ pname peer ∉ lo_names l /\ (is_device peer = true -> pname peer ∉ aw_devices s) /\
  r = (if is_device peer then add_device (pname peer) s else s,
       Local (pname peer :: lo_names l) (lo_keys l) (lo_psks l)).
Proof.
  unfold peer_name_step, named, pname. intros <-.
  destruct (field peer "name") as [| | | |n| |]; cbn [is_str str_of negb orb];
    try (destruct (is_device peer); cbn [andb]; clean_no).
  case_bool_decide as Hn; cbn [orb]; [destruct (is_device peer); cbn [andb]; clean_no|].
  destruct (mem n (lo_names l)) eqn:Hl; destruct (is_device peer) eqn:Hd; cbn [andb fst]; try clean_no;
    autorewrite with awg; apply mem_false in Hl.
  - intros [Hs Hm]. rewrite Hm. apply mem_false in Hm. by split_and!.
  - intros Hs. by split_and!.
Qed.

Definition owner_free (owners : list (string * string)) (key name : string) : Prop :=
  dget key owners = None \/ dget key owners = Some name.

Lemma peer_key_clean path peer_path server_key peer f s seen r :
  named peer ->
  peer_key_step false path peer_path server_key peer f (s, seen) = r -> clean r.1 ->
  let key := str_of (field peer f) in
  clean s /\ field peer f = VStr key /\ key_valid false (VStr key) = true /\ key ∉ seen /\
  owner_free (aw_owners s) key (pname peer) /\ server_key <> VStr key /\
  r = (set_owner key (pname peer) s, key :: seen).
Proof.
  intros [Hname _]. unfold peer_key_step. intros <-. destruct (key_valid false (field peer f)) eqn:Hk; cbn [negb].
  2: { cbn [fst]. rewrite reports_clean. by intros [_ ?]. }
  cbn [andb fst]. rewrite Hname. cbn [is_str str_of]. intros [Hc Hserver]%report_clean.
  assert (exists k, field peer f = VStr k) as [k Hv].
  { destruct (field peer f); try (by cbn in Hk). eauto. }
  rewrite Hv in *. cbn [str_of] in *. cbv zeta.
  change (clean (report (match dget k (aw_owners (report (mem k seen) (dotted path "peers", ("duplicate " +:+ f)%string) s)) with
     | Some previous => negb (py_eq (VStr previous) (VStr (pname peer))) | None => false end)
     (dotted path "peers", "key material reused between devices"%string)
     (report (mem k seen) (dotted path "peers", ("duplicate " +:+ f)%string) s))) in Hc.
  rewrite !report_clean in Hc. destruct Hc as [[Hs Hseen] Howner]. rewrite Hseen in Howner |- *. cbn [report] in *.
  rewrite Howner, Hserver. cbn [report]. apply mem_false in Hseen.
  split_and!; try done.
  - unfold owner_free. destruct (dget k (aw_owners s)) as [p|]; [|by left]. right.
    apply negb_false_iff, py_eq_str in Howner. congruence.
  - intros ->. assert (py_eq (VStr k) (VStr k) = true); [by apply py_eq_str|congruence].
Qed.

Definition keyed (server_key : value) (peer : dict) : Prop :=
  field peer "public_key" = VStr (ppublic peer) /\ field peer "preshared_key" = VStr (pshared peer) /\
  key_valid false (VStr (ppublic peer)) = true /\ key_valid false (VStr (pshared peer)) = true /\
  ppublic peer <> pshared peer /\ server_key <> VStr (ppublic peer) /\ server_key <> VStr (pshared peer).

Lemma peer_keys_clean path peer_path server_key peer s l r :
  named peer ->
  peer_keys_step false path peer_path server_key peer (s, l) = r -> clean r.1 ->
  clean s /\ keyed server_key peer /\ ppublic peer ∉ lo_keys l /\ pshared peer ∉ lo_psks l /\
  owner_free (aw_owners s) (ppublic peer) (pname peer) /\
  owner_free (dset (ppublic peer) (pname peer) (aw_owners s)) (pshared peer) (pname peer) /\
  r = (set_owner (pshared peer) (pname peer) (set_owner (ppublic peer) (pname peer) s),
       Local (lo_names l) (ppublic peer :: lo_keys l) (pshared peer :: lo_psks l)).
Proof.
  intros Hn. unfold peer_keys_step.
  destruct (peer_key_step false path peer_path server_key peer "public_key" (s, lo_keys l)) as [s1 k1] eqn:H1.
  destruct (peer_key_step false path peer_path server_key peer "preshared_key" (s1, lo_psks l)) as [s2 k2] eqn:H2.
  intros <-. cbn [fst]. rewrite report_clean. intros [Hc Hne].
  eapply peer_key_clean in H2; [|done|done]. cbv zeta in H2. destruct H2 as (Hc1 & F2 & V2 & N2 & O2 & S2 & E2).
  eapply peer_key_clean in H1; [|done|done]. cbv zeta in H1. destruct H1 as (Hc0 & F1 & V1 & N1 & O1 & S1 & E1).
  injection E1 as -> ->. injection E2 as -> ->. unfold keyed, ppublic, pshared.
  split_and!; try done; [|by rewrite Hne].
  intros Heq. rewrite F1, F2, Heq in Hne. simpl in Hne. by bprop.
Qed.

(** The networks a peer's entries denote. *)
Definition peer_networks (item peer : dict) : list network :=
  omap (fun e => peer_network item (is_device peer) e.1 e.2) (dict_of (field peer "allowed_ips")).

Definition claims_for (c : claim) (n : network) : Prop := c = claim_of (cl_path c) n.

Definition with_claims (cs : list claim) (s : awg_state) : awg_state :=
  Awg (aw_errors s) (aw_names s) (aw_ports s) (aw_claims s ++ cs) (aw_servers s) (aw_owners s) (aw_devices s).

Lemma prefixes_clean item device peer_path l s :
  clean (foldl (prefix_step item device peer_path) s l) ->
  clean s /\ Forall (fun e => is_Some (peer_network item device e.1 e.2)) l /\
  exists cs, Forall2 claims_for cs (omap (fun e => peer_network item device e.1 e.2) l) /\
    foldl (prefix_step item device peer_path) s l = with_claims cs s.
Proof.
  revert s. induction l as [|e l IH]; intros s; cbn [foldl].
  - intros Hs. split_and!; [done|constructor|]. exists []. split; [constructor|].
    unfold with_claims. rewrite app_nil_r. by destruct s.
  - intros (Hs & Hl & cs & Hcs & ->)%IH. unfold prefix_step in *. csimpl.
    destruct (peer_network item device e.1 e.2) as [n|] eqn:Hn; [|by apply reports_clean in Hs as [_ ?]].
    split_and!; [done|by constructor|]. exists (claim_of (dotted (dotted peer_path "allowed_ips") e.1) n :: cs).
    split; [by constructor|]. unfold with_claims. cbn. by rewrite <-app_assoc.
Qed.

(** The address families of a peer and every entry's admission. *)
Definition addressed (item peer : dict) : Prop :=
  (is_device peer = true \/ peer_kind peer = VStr "routed") /\
  exists prefixes, field peer "allowed_ips" = VDict prefixes /\ prefixes <> [] /\
    (forall k, k ∈ keys prefixes -> k ∈ FAMILIES) /\
    (is_device peer = true -> forall k, k ∈ FAMILIES -> k ∈ keys prefixes) /\
    Forall (fun e => is_Some (peer_network item (is_device peer) e.1 e.2)) prefixes.

Lemma peer_addresses_clean item peer_path peer s :
  clean (peer_addresses item peer_path peer s) ->
  clean s /\ addressed item peer /\
  exists cs, Forall2 claims_for cs (peer_networks item peer) /\
    peer_addresses item peer_path peer s = with_claims cs s.
Proof.
  unfold peer_addresses, addressed, peer_networks.
  destruct (_ || _ || _ || _) eqn:Hg; [clean_no|].
  intros (Hs & Hl & cs & Hcs & ->)%prefixes_clean. apply report_clean in Hs as [Hs Hk]. rewrite Hk in *.
  cbn [report] in *. rewrite !orb_false_iff, !negb_false_iff in Hg. destruct Hg as [[[Hd Hn] Hsub] Hfam].
  apply is_dict_true in Hd as [d Hd]. rewrite Hd in *. cbn [dict_of] in *.
  split_and!; [done| |exists d; split_and!; try done|by exists cs].
  - destruct (is_device peer); [by left|]. right. apply py_eq_str, negb_false_iff. apply Hk.
  - by intros ->.
  - by apply subset_true.
  - intros Hdev. rewrite Hdev in Hfam. cbn [andb] in Hfam. apply negb_false_iff in Hfam.
    intros k Hin. by apply (proj1 (same_set_true _ _) Hfam).
Qed.

Definition peer_ok (item peer : dict) : Prop :=
  named peer /\ keyed (field item "server_private_key") peer /\ addressed item peer.

Lemma peer_step_clean path item s l i peer r :
  peer_step false path item (s, l) (i, peer) = r -> clean r.1 ->
  clean s /\ peer_ok item peer /\
  pname peer ∉ lo_names l /\ ppublic peer ∉ lo_keys l /\ pshared peer ∉ lo_psks l /\
  (is_device peer = true -> pname peer ∉ aw_devices s) /\
  owner_free (aw_owners s) (ppublic peer) (pname peer) /\
  owner_free (dset (ppublic peer) (pname peer) (aw_owners s)) (pshared peer) (pname peer) /\
  exists cs, Forall2 claims_for cs (peer_networks item peer) /\
  r = (Awg [] (aw_names s) (aw_ports s) (aw_claims s ++ cs) (aw_servers s)
         (dset (pshared peer) (pname peer) (dset (ppublic peer) (pname peer) (aw_owners s)))
         (if is_device peer then pname peer :: aw_devices s else aw_devices s),
       Local (pname peer :: lo_names l) (ppublic peer :: lo_keys l) (pshared peer :: lo_psks l)).
Proof.
  unfold peer_step.
  destruct (peer_name_step path (indexed (dotted path "peers") i) peer (s, l)) as [s1 l1] eqn:H1.
  destruct (peer_keys_step false path (indexed (dotted path "peers") i) (field item "server_private_key") peer (s1, l1))
    as [s2 l2] eqn:H2. intros <-. cbn [fst]. intros (Hc2 & Ha & cs & Hcs & ->)%peer_addresses_clean.
  assert (clean s1 /\ named peer) as [Hc1 Hn].
  { assert (clean s1) as Hc1; [|split; [done|by eapply peer_name_clean in H1 as (_ & ? & _)]].
    revert Hc2. change s2 with (s2, l2).1. rewrite <-H2. unfold peer_keys_step, peer_key_step.
    repeat case_match; simplify_eq; cbn [fst]; autorewrite with awg; tauto. }
  eapply peer_name_clean in H1 as (Hs & _ & Hnn & Hdev & E1); [|done]. injection E1 as -> ->.
  eapply peer_keys_clean in H2 as (_ & Hk & Hk1 & Hk2 & Ho1 & Ho2 & E2); [|done|done]. injection E2 as -> ->.
  split_and!; try done; try (by destruct (is_device peer)).
  exists cs. split; [done|]. unfold clean in Hs. by destruct (is_device peer); unfold with_claims; cbn; rewrite Hs.
Qed.

(** *** The peers of one instance *)

(** What a clean run has established for the peers it processed, given with
    their instances. *)
Record run (all : list (dict * dict)) (s : awg_state) : Prop := {
  run_clean : clean s;
  run_ok : Forall (fun x => peer_ok x.1 x.2) all;
  run_claims : Forall2 claims_for (aw_claims s) (all ≫= fun x => peer_networks x.1 x.2);
  run_owners : Forall (fun x => dget (ppublic x.2) (aw_owners s) = Some (pname x.2)
                             /\ dget (pshared x.2) (aw_owners s) = Some (pname x.2)) all;
  run_devices : NoDup (aw_devices s) /\ aw_devices s ≡ₚ pname <$> filter (fun p => is_device p = true) all.*2
}.

Definition frame (s t : awg_state) : Prop :=
  aw_names s = aw_names t /\ aw_ports s = aw_ports t /\ aw_servers s = aw_servers t.

Lemma owner_kept k key name owners n :
  dget k owners = Some n -> owner_free owners key name -> dget k (dset key name owners) = Some n.
Proof.
  intros Hk Ho. rewrite dget_dset. case_decide as Heq; [|done]. subst.
  destruct Ho as [Ho|Ho]; congruence.
Qed.

Lemma run_step all s item peer path l i r :
  run all s -> peer_step false path item (s, l) (i, peer) = r -> clean r.1 ->
  run (all ++ [(item, peer)]) r.1 /\ frame r.1 s /\
  pname peer ∉ lo_names l /\ ppublic peer ∉ lo_keys l /\ pshared peer ∉ lo_psks l /\
  r.2 = Local (pname peer :: lo_names l) (ppublic peer :: lo_keys l) (pshared peer :: lo_psks l).
Proof.
  intros [_ Hok Hcl Hown [Hnd Hdev]] Hr Hc.
  apply peer_step_clean in Hr as (_ & Hpo & H1 & H2 & H3 & H4 & Ho1 & Ho2 & cs & Hcs & ->); [|done].
  cbn [fst snd]. split_and!; try done. split; cbn [aw_claims aw_owners aw_devices].
  - done.
  - apply Forall_app_2; [done|by apply Forall_singleton].
  - rewrite bind_app. apply Forall2_app; [done|]. cbn. by rewrite app_nil_r.
  - apply Forall_app_2.
    + eapply Forall_impl; [exact Hown|]. intros [it p] [Hp Hs]. cbn [snd] in *.
      split; (apply owner_kept; [apply owner_kept|]; done).
    + apply Forall_singleton. cbn [snd]. rewrite !dget_dset. repeat case_decide; split; congruence.
  - rewrite fmap_app, filter_app, fmap_app. change [(item, peer)].*2 with [peer].
    destruct (is_device peer) eqn:Hd.
    + rewrite filter_cons_True by done. split; [constructor; [by apply H4|done]|].
      rewrite Hdev. cbn. by rewrite Permutation_app_comm.
    + rewrite filter_cons_False by by rewrite Hd. cbn. by rewrite app_nil_r.
Qed.

Record locals (ps : list dict) (l : local_sets) : Prop := {
  lc_names : NoDup (pname <$> ps) /\ forall x, x ∈ lo_names l <-> x ∈ pname <$> ps;
  lc_keys : NoDup (ppublic <$> ps) /\ forall x, x ∈ lo_keys l <-> x ∈ ppublic <$> ps;
  lc_psks : NoDup (pshared <$> ps) /\ forall x, x ∈ lo_psks l <-> x ∈ pshared <$> ps
}.

Lemma nodup_snoc_iff {A} (f : A -> string) (ps : list A) p (seen : list string) :
  NoDup (f <$> ps) /\ (forall x, x ∈ seen <-> x ∈ f <$> ps) -> f p ∉ seen ->
  NoDup (f <$> (ps ++ [p])) /\ (forall x, x ∈ f p :: seen <-> x ∈ f <$> (ps ++ [p])).
Proof.
  intros [Hn Hs] Hp. rewrite fmap_app. cbn. split.
  - apply NoDup_app. split_and!; [done| |by apply NoDup_singleton].
    intros x Hx ->%list_elem_of_singleton. by apply Hp, Hs.
  - intros x. rewrite elem_of_cons, elem_of_app, Hs, list_elem_of_singleton. tauto.
Qed.

Lemma peer_step_mono path item p x : clean (peer_step false path item x p).1 -> clean x.1.
Proof. destruct x as [s l], p as [i peer]. intros H. by eapply peer_step_clean in H as [? _]. Qed.

Lemma peers_run all s item path ps :
  run all s ->
  clean (foldl (peer_step false path item) (s, Local [] [] []) (imap pair ps)).1 ->
  let r := foldl (peer_step false path item) (s, Local [] [] []) (imap pair ps) in
  run (all ++ (pair item <$> ps)) r.1 /\ frame r.1 s /\ locals ps r.2.
Proof.
  intros Hrun Hall. cbv zeta.
  assert (forall l : list dict, (imap pair l).*2 = l) as Hsnd.
  { intros l. apply list_eq. intros i. rewrite list_lookup_fmap, list_lookup_imap. by destruct (l !! i). }
  pose proof (foldl_clean_ind (fun x : awg_state * local_sets => clean x.1)
    (fun d x => run (all ++ (pair item <$> d.*2)) x.1 /\ frame x.1 s /\ locals d.*2 x.2)
    (peer_step false path item) (imap pair ps) (s, Local [] [] [])) as Hind.
  cbv beta in Hind; rewrite Hsnd in Hind. apply Hind; clear Hind.
  - intros p x. apply peer_step_mono.
  - intros d [i peer] [s1 l1] (Hr & Hf & [Hl1 Hl2 Hl3]) Hc. cbn [fst snd] in *.
    destruct (run_step _ _ item peer path l1 i _ Hr eq_refl Hc) as (Hr' & Hf' & Hn1 & Hn2 & Hn3 & ->).
    rewrite fmap_app. cbn [fmap list_fmap snd]. rewrite fmap_app, app_assoc. split_and!; [done| |].
    + unfold frame in *. intuition congruence.
    + split; cbn [lo_names lo_keys lo_psks]; by apply nodup_snoc_iff.
  - done.
  - cbn. rewrite app_nil_r. split_and!; [done|done|]. repeat split; try constructor; set_solver.
Qed.

(** *** Instances *)

Definition iname (item : dict) : string := str_of (field item "name").
Definition iport_value (defaults item : dict) : value :=
  default (field defaults "listen_port") (dget "listen_port" item).
(** The port an instance occupies, when it has one. *)
Definition iport (defaults item : dict) : option Z :=
  let v := iport_value defaults item in if is_none v then None else Some (int_of v).

Definition basics_ok (defaults item : dict) : Prop :=
  (exists mtu, field item "mtu" = VInt mtu /\ AWG_MTU_MIN <= mtu <= AWG_MTU_MAX) /\
  awg_dns_valid (field item "dns_servers") = true /\
  field item "name" = VStr (iname item) /\ fullmatch INTERFACE (iname item) = true /\
  forall p, iport defaults item = Some p -> iport_value defaults item = VInt p /\ 1 <= p <= 65535.

Definition push_port (o : option Z) (ports : list Z) : list Z :=
  match o with Some p => p :: ports | None => ports end.

Lemma basics_clean defaults path item s :
  clean (instance_basics defaults path item s) ->
  clean s /\ basics_ok defaults item /\ iname item ∉ aw_names s /\
  (forall p, iport defaults item = Some p -> p ∉ aw_ports s) /\
  instance_basics defaults path item s =
    Awg [] (iname item :: aw_names s) (push_port (iport defaults item) (aw_ports s))
      (aw_claims s) (aw_servers s) (aw_owners s) (aw_devices s).
Proof.
  unfold instance_basics, basics_ok, iport. fold (iport_value defaults item).
  set (s2 := report _ ("amneziawg.dns_servers", _)%string _).
  assert (clean s2 -> clean s /\ (exists mtu, field item "mtu" = VInt mtu /\ AWG_MTU_MIN <= mtu <= AWG_MTU_MAX) /\
    awg_dns_valid (field item "dns_servers") = true /\ s2 = s) as H2.
  { subst s2. intros [[Hs Hm]%report_clean Hd]%report_clean. rewrite Hm, Hd. cbn [report].
    apply negb_false_iff, andb_true_iff in Hm as [[z Hz]%type_is_int_true Hm]. rewrite Hz in *.
    cbn [int_of] in Hm. apply andb_true_iff in Hm as [? ?]. bprop.
    split_and!; try done; by exists z. }
  clearbody s2.
  destruct (negb (is_str (field item "name")) || _) eqn:Hname.
  { repeat case_match; clean_no. }
  apply orb_false_iff in Hname as [[n Hn]%negb_false_iff%is_str_true Hre%negb_false_iff].
  unfold iname. rewrite Hn in *. cbn [str_of] in *.
  destruct (mem n (aw_names s2)) eqn:Hmem; [repeat case_match; clean_no|].
  apply mem_false in Hmem. set (v := iport_value defaults item) in *.
  destruct (is_none v) eqn:Hv.
  - intros (Hs & Hm & Hd & ->)%H2. split_and!; try done. unfold add_name. unfold clean in Hs. by rewrite Hs.
  - destruct (negb (type_is_int v) || _) eqn:Hp; [clean_no|].
    apply orb_false_iff in Hp as [[p Hp]%negb_false_iff%type_is_int_true Hr%negb_false_iff].
    rewrite Hp in *. cbn [int_of] in *. apply andb_true_iff in Hr as [Hr1%Z.leb_le Hr2%Z.leb_le].
    case_bool_decide as Hin; [clean_no|]. autorewrite with awg.
    intros (Hs & Hm & Hd & ->)%H2. split_and!; try done.
    + by intros p' [= <-].
    + by intros p' [= <-].
    + unfold add_port, add_name. unfold clean in Hs. cbn. by rewrite Hs.
Qed.

(** The interface of an instance in a family. *)
Definition interface_of (item : dict) (version : ipver) : option interface :=
  v ← dget (address_field version) item; instance_interface version v.

Lemma address_clean path item s version :
  clean (instance_address path item s version) ->
  clean s /\ exists i, interface_of item version = Some i /\
  instance_address path item s version = add_server (ver_num version, ip_int (if_ip i)) s.
Proof.
  unfold instance_address, interface_of. destruct (dget _ item) as [v|]; [|clean_no].
  cbn [mbind option_bind]. destruct (instance_interface version v) as [i|]; [|clean_no].
  intros Hs. split; [done|]. by exists i.
Qed.

Lemma addresses_clean path item s :
  clean (foldl (instance_address path item) s [V4; V6]) ->
  clean s /\ exists i4 i6, interface_of item V4 = Some i4 /\ interface_of item V6 = Some i6 /\
  foldl (instance_address path item) s [V4; V6] =
    add_server (6, ip_int (if_ip i6)) (add_server (4, ip_int (if_ip i4)) s).
Proof.
  cbn [foldl]. intros (Hc & i6 & H6 & ->)%address_clean.
  apply address_clean in Hc as (Hs & i4 & H4 & ->). split; [done|]. by exists i4, i6.
Qed.

Definition peers_of (item : dict) : list dict := dict_of <$> list_of (field item "peers").

(** Everything a clean step established about an instance. *)
Definition instance_ok (defaults source item : dict) : Prop :=
  basics_ok defaults item /\
  (exists i4 i6, interface_of item V4 = Some i4 /\ interface_of item V6 = Some i6) /\
  (forall path, parameter_errors false item path = []) /\
  (exists path, source_errors item source path = []) /\
  key_valid false (field item "server_private_key") = true /\
  Forall (peer_ok item) (peers_of item) /\
  NoDup (pname <$> peers_of item) /\ NoDup (ppublic <$> peers_of item) /\ NoDup (pshared <$> peers_of item).

(** Every peer of the given instances, with its instance. *)
Definition all_peers (items : list dict) : list (dict * dict) :=
  items ≫= fun item => pair item <$> peers_of item.

Lemma parameter_errors_path raw path path' :
  parameter_errors false raw path = [] -> parameter_errors false raw path' = [].
Proof. rewrite !parameter_errors_nil, !profile_errors_nil. tauto. Qed.

Lemma peers_run_nil item path s ps :
  clean (foldl (peer_step false path item) (s, Local [] [] []) ps).1 -> clean s.
Proof.
  intros Hc. change s with (s, Local [] [] []).1.
  eapply (foldl_clean (fun x : awg_state * local_sets => clean x.1)); [|exact Hc].
  intros p x. apply peer_step_mono.
Qed.

(** What a clean run has established for the instances it processed. *)
Record contract (defaults source : dict) (items : list dict) (s : awg_state) : Prop := {
  ct_run : run (all_peers items) s;
  ct_ok : Forall (instance_ok defaults source) items;
  ct_names : NoDup (iname <$> items) /\ forall x, x ∈ aw_names s <-> x ∈ iname <$> items;
  ct_ports : NoDup (omap (iport defaults) items) /\ forall x, x ∈ aw_ports s <-> x ∈ omap (iport defaults) items;
  ct_servers : forall v a, (v, a) ∈ aw_servers s <->
    exists item version i, item ∈ items /\ interface_of item version = Some i /\
      v = ver_num version /\ a = ip_int (if_ip i)
}.

Lemma run_frame all s names ports servers :
  run all s -> run all (Awg [] names ports (aw_claims s) servers (aw_owners s) (aw_devices s)).
Proof. intros [Hc Hok Hcl Ho Hd]. by split. Qed.

Lemma instance_step_clean defaults source s i item :
  clean (instance_step false defaults source s (i, item)) ->
  clean s /\ basics_ok defaults item /\ iname item ∉ aw_names s /\
  (forall p, iport defaults item = Some p -> p ∉ aw_ports s) /\
  key_valid false (field item "server_private_key") = true /\
  (forall path, parameter_errors false item path = []) /\
  (exists path, source_errors item source path = []) /\
  exists i4 i6, interface_of item V4 = Some i4 /\ interface_of item V6 = Some i6 /\
  instance_step false defaults source s (i, item) =
    (foldl (peer_step false (indexed instances_path i) item)
      (Awg [] (iname item :: aw_names s) (push_port (iport defaults item) (aw_ports s)) (aw_claims s)
         ((6, ip_int (if_ip i6)) :: (4, ip_int (if_ip i4)) :: aw_servers s) (aw_owners s) (aw_devices s),
       Local [] [] []) (imap pair (peers_of item))).1.
Proof.
  unfold instance_step, peers_of. set (path := indexed instances_path i).
  destruct (negb (is_list (field item "peers")) || _) eqn:Hp; [clean_no|].
  intros Hc. pose proof (peers_run_nil _ _ _ _ Hc) as Hk. autorewrite with awg in Hk.
  destruct Hk as [[[Ha Hpe] Hse] Hkey]. rewrite Hpe, Hse, Hkey in *. rewrite !reports_nil in *. cbn [report] in *.
  apply addresses_clean in Ha as (Hb & i4 & i6 & H4 & H6 & Ea). rewrite Ea in *.
  apply basics_clean in Hb as (Hs & Hok & Hn & Hport & Eb). rewrite Eb in *.
  split_and!; try done.
  - by apply negb_false_iff.
  - intros path'. by eapply parameter_errors_path.
  - by exists path.
  - by exists i4, i6.
Qed.

Lemma omap_snoc {A B} (f : A -> option B) l x :
  omap f (l ++ [x]) = omap f l ++ match f x with Some y => [y] | None => [] end.
Proof. rewrite omap_app. by f_equal. Qed.

Lemma contract_servers items item s i4 i6 :
  (forall v a, (v, a) ∈ aw_servers s <->
    exists item version i, item ∈ items /\ interface_of item version = Some i /\
      v = ver_num version /\ a = ip_int (if_ip i)) ->
  interface_of item V4 = Some i4 -> interface_of item V6 = Some i6 ->
  forall v a, (v, a) ∈ (6, ip_int (if_ip i6)) :: (4, ip_int (if_ip i4)) :: aw_servers s <->
    exists item' version i, item' ∈ items ++ [item] /\ interface_of item' version = Some i /\
      v = ver_num version /\ a = ip_int (if_ip i).
Proof.
  intros Hs H4 H6 v a. rewrite !elem_of_cons, Hs. split.
  - intros [[= -> ->]|[[= -> ->]|(it & ver & i & Hin & Hi & -> & ->)]].
    + exists item, V6, i6. split_and!; try done. apply elem_of_app. right. by apply list_elem_of_singleton.
    + exists item, V4, i4. split_and!; try done. apply elem_of_app. right. by apply list_elem_of_singleton.
    + exists it, ver, i. split_and!; try done. apply elem_of_app. by left.
  - intros (it & ver & i & [Hin| ->%list_elem_of_singleton]%elem_of_app & Hi & -> & ->).
    + right. right. by exists it, ver, i.
    + destruct ver; simplify_eq; auto.
Qed.

Lemma contract_step defaults source items s i item :
  contract defaults source items s ->
  clean (instance_step false defaults source s (i, item)) ->
  contract defaults source (items ++ [item]) (instance_step false defaults source s (i, item)).
Proof.
  intros [Hrun Hok [Hnn Hns] [Hpn Hps] Hserv] Hc. pose proof Hc as Hall.
  apply instance_step_clean in Hc as (_ & Hb & Hn & Hp & Hk & Hpar & Hsrc & i4 & i6 & H4 & H6 & E).
  rewrite E in *. set (s1 := Awg [] _ _ _ _ _ _) in *.
  pose proof (run_frame _ s (iname item :: aw_names s) (push_port (iport defaults item) (aw_ports s))
    ((6, ip_int (if_ip i6)) :: (4, ip_int (if_ip i4)) :: aw_servers s) Hrun) as Hrun1. fold s1 in Hrun1.
  destruct (peers_run _ _ item _ _ Hrun1 Hall) as (Hr & (Fn & Fp & Fs) & [Ln Lk Lp]).
  split.
  - unfold all_peers. rewrite bind_app. cbn. by rewrite app_nil_r.
  - apply Forall_app_2; [done|]. apply Forall_singleton. unfold instance_ok. split_and!; try done; [eauto|..].
    + destruct Hr as [_ Hpo _ _ _]. apply Forall_app in Hpo as [_ Hpo].
      apply Forall_fmap in Hpo. by eapply Forall_impl; [exact Hpo|].
    + apply Ln.
    + apply Lk.
    + apply Lp.
  - rewrite Fn. by apply nodup_snoc_iff.
  - rewrite Fp, omap_snoc. subst s1. cbn [aw_ports]. unfold push_port. destruct (iport defaults item) as [p|] eqn:Hport.
    + split; [apply NoDup_app; split_and!; [done| |by apply NoDup_singleton]|].
      * intros x Hx ->%list_elem_of_singleton. by apply (Hp p eq_refl), Hps.
      * intros x. rewrite elem_of_cons, elem_of_app, Hps, list_elem_of_singleton. tauto.
    + by rewrite app_nil_r.
  - rewrite Fs. by apply contract_servers.
Qed.

Lemma contract_init defaults source : contract defaults source [] awg_init.
Proof.
  split; cbn.
  - split; [done|constructor|constructor|constructor|]. split; [constructor|done].
  - constructor.
  - split; [constructor|set_solver].
  - split; [constructor|set_solver].
  - intros v a. split; [by intros ?%not_elem_of_nil|]. by intros (? & ? & ? & ?%not_elem_of_nil & _).
Qed.

Lemma awg_errors_nil source raw defaults cohort :
  awg_errors false source raw defaults cohort = [] ->
  exists instances s, effective_awg_instances raw defaults cohort = Ok instances /\
    contract (dict_of defaults) source instances s /\ sweep (aw_servers s) (aw_claims s) = [] /\
    Forall (fun layer => forward_guard layer = []) ([dict_of raw; dict_of defaults; dict_of cohort] ++ instances).
Proof.
  unfold awg_errors. destruct (negb (is_dict raw)); [done|].
  destruct (effective_awg_instances raw defaults cohort) as [instances|]; [|done]. cbv zeta.
  set (guards := mjoin _). set (s := foldl _ _ _). intros [Hs Hsweep]%app_eq_nil.
  assert (forall p s, clean (instance_step false (dict_of defaults) source s p) -> clean s) as Hmono.
  { intros [i item] s0 H. by apply instance_step_clean in H as [? _]. }
  assert (guards = []) as Hg.
  { pose proof (foldl_clean clean _ _ _ Hmono Hs) as Hc. by apply reports_clean in Hc as [_ ?]. }
  exists instances, s. split_and!; [done| |done|].
  - subst s. rewrite Hg, reports_nil in *.
    pose proof (foldl_clean_ind clean (fun d x => contract (dict_of defaults) source d.*2 x)
      (instance_step false (dict_of defaults) source) (imap pair instances) awg_init Hmono) as Hind.
    revert Hind. cbv beta. replace ((imap pair instances).*2) with instances; [intros Hind|].
    + apply Hind; [|done|apply contract_init].
      intros d [i item] s Hd Hc. rewrite fmap_app. by apply contract_step.
    + apply list_eq. intros i. rewrite list_lookup_fmap, list_lookup_imap. by destruct (instances !! i).
  - subst guards. apply Forall_forall. intros layer Hin. destruct (forward_guard layer) as [|d l] eqn:Hl; [done|].
    exfalso. assert (d ∈ mjoin (forward_guard <$> [dict_of raw; dict_of defaults; dict_of cohort] ++ instances)) as Hd.
    { apply list_elem_of_join. exists (d :: l). split; [left|]. rewrite <-Hl. by apply list_elem_of_fmap_2. }
    rewrite Hg in Hd. by apply not_elem_of_nil in Hd.
Qed.

(** ** What admission guarantees *)

(** Every network handed to a peer, over all instances. *)
Definition contract_networks (instances : list dict) : list network :=
  all_peers instances ≫= fun x => peer_networks x.1 x.2.

Lemma peer_network_wf item device family prefix n :
  peer_network item device family prefix = Some n -> network_wf n /\ nw_ver n = family_version family.
Proof.
  unfold peer_network. destruct (negb (is_str prefix)); [done|].
  destruct (ip_network (str_of prefix)) as [m|] eqn:Hm; [|done]. cbn [mbind option_bind].
  apply ip_network_wf in Hm. destruct (negb (bool_decide _) || _) eqn:Hg; [done|].
  apply orb_false_iff in Hg as [Hv _]. bprop. destruct device.
  - destruct (dget _ item) as [v|]; [|done]. cbn [mbind option_bind]. destruct (device_host v m); [|done].
    by intros [= <-].
  - by intros [= <-].
Qed.

Lemma contract_networks_wf instances n : n ∈ contract_networks instances -> network_wf n.
Proof.
  intros Hn. apply list_elem_of_bind in Hn as ([item peer] & Hn & _).
  unfold peer_networks in Hn. apply list_elem_of_omap in Hn as (e & _ & He). by eapply peer_network_wf.
Qed.

Lemma claim_of_wf path n : network_wf n -> claim_wf (claim_of path n).
Proof. intros Hn. pose proof (nw_range n Hn). split; cbn; [destruct (nw_ver n); simpl; lia|lia]. Qed.

Lemma ForallOrdPairs_lookup {A} (R : A -> A -> Prop) l i j x y :
  ForallOrdPairs R l -> l !! i = Some x -> l !! j = Some y -> (i < j)%nat -> R x y.
Proof.
  intros Hl. revert i j. induction Hl as [|z l Hz Hl IH]; intros [|i] [|j]; simpl; try done; try lia.
  - intros [= ->] Hj _. eapply Forall_forall in Hz; [done|]. by eapply list_elem_of_lookup_2.
  - intros. eapply IH; eauto. lia.
Qed.

Lemma apart_disjoint p q n m a :
  network_wf n -> network_wf m -> claims_apart (claim_of p n) (claim_of q m) ->
  ip_wf a -> nw_contains n a = true -> nw_contains m a = true -> False.
Proof.
  intros Hn Hm Hap Ha [Hvn Hrn]%nw_contains_range [Hvm Hrm]%nw_contains_range; try done.
  apply Hap. unfold claims_overlap, claim_of. cbn. rewrite <-Hvn, <-Hvm. split; [done|lia].
Qed.

Lemma contract_disjoint defaults source instances s :
  contract defaults source instances s -> sweep (aw_servers s) (aw_claims s) = [] ->
  (forall k l n m a, contract_networks instances !! k = Some n -> contract_networks instances !! l = Some m ->
     ip_wf a -> nw_contains n a = true -> nw_contains m a = true -> k = l) /\
  (forall n item version i, n ∈ contract_networks instances -> item ∈ instances ->
     interface_of item version = Some i -> nw_contains n (if_ip i) = false).
Proof.
  intros [[_ _ Hcl _ _] _ _ _ Hserv] Hsweep. fold (contract_networks instances) in Hcl.
  assert (Forall claim_wf (aw_claims s)) as Hwf.
  { apply Forall_lookup. intros i c Hi. eapply Forall2_lookup_l in Hcl as (n & Hn & ->); [|done].
    apply claim_of_wf, (contract_networks_wf instances). by eapply list_elem_of_lookup_2. }
  apply sweep_nil in Hsweep as [Hav Hord]; [|done].
  assert (forall k n, contract_networks instances !! k = Some n ->
    network_wf n /\ exists p, aw_claims s !! k = Some (claim_of p n)) as Hlk.
  { intros k n Hk. pose proof Hk as Hk'. eapply Forall2_lookup_r in Hk as (c & Hc & Hcn); [|exact Hcl].
    split; [by eapply contract_networks_wf, list_elem_of_lookup_2|]. exists (cl_path c). by rewrite Hc, Hcn. }
  split.
  - intros k l n m a Hk Hl Ha Hna Hma. destruct (Hlk _ _ Hk) as (Hn & p & Hp), (Hlk _ _ Hl) as (Hm & q & Hq).
    destruct (Nat.lt_trichotomy k l) as [Hlt|[?|Hlt]]; [|done|]; exfalso.
    + eapply (apart_disjoint p q n m a); eauto. by eapply ForallOrdPairs_lookup.
    + eapply (apart_disjoint q p m n a); eauto. by eapply ForallOrdPairs_lookup.
  - intros n item version i Hn Hitem Hi. apply not_true_is_false. intros Hc.
    apply list_elem_of_lookup_1 in Hn as [k Hk]. destruct (Hlk _ _ Hk) as (Hn & p & Hp).
    assert (ip_wf (if_ip i) /\ ip_ver (if_ip i) = version) as [Hwi Hvi].
    { unfold interface_of, instance_interface in Hi. destruct (dget _ item) as [v|]; [|done]. cbn [mbind option_bind] in Hi.
      destruct (negb (is_str v)); [done|]. destruct (ip_interface (str_of v)) as [j|] eqn:Hj; [|done].
      cbn [mbind option_bind] in Hi. destruct (_ && _) eqn:Hg in Hi; [|done]. injection Hi as ->.
      apply ip_interface_wf in Hj as [? _]. rewrite !andb_true_iff in Hg. destruct Hg as [[[[Hg _] _] _] _]. by bprop. }
    apply nw_contains_range in Hc as [Hv Hr]; [|done|done].
    eapply Forall_lookup in Hav; [|exact Hp].
    apply (Hav (ver_num version) (ip_int (if_ip i))); [|by cbn; rewrite <-Hv, Hvi|done].
    apply Hserv. by exists item, version, i.
Qed.

(** A device's host: one unreserved address of its instance's own network. *)
Lemma device_network item family prefix n i :
  peer_network item true family prefix = Some n ->
  interface_of item (family_version family) = Some i ->
  nw_len n = ip_width (nw_ver n) /\ nw_contains (if_network i) (nw_addr n) = true /\
  nw_addr n ∉ reserved_addresses i.
Proof.
  unfold peer_network, interface_of. destruct (negb (is_str prefix)); [done|].
  destruct (ip_network (str_of prefix)) as [m|] eqn:Hm; [|done]. cbn [mbind option_bind].
  destruct (_ || _); [done|]. destruct (dget _ item) as [v|]; [|done]. cbn [mbind option_bind].
  destruct (device_host v m) eqn:Hd; [|done]. intros [= <-]. unfold instance_interface.
  destruct (is_str v) eqn:Hs; [|done]. cbn [negb]. unfold device_host in Hd. rewrite Hs in Hd.
  destruct (ip_interface (str_of v)) as [j|]; [|done]. cbn [mbind option_bind].
  destruct (_ && _ && _ && _ && negb (is_link_local (if_ip j))); [|done]. intros [= ->].
  rewrite !andb_true_iff in Hd. destruct Hd as [[[[[[Hl Hc] Hr] _] _] _] _]. bprop. auto.
Qed.

(** An address that is not among the reserved ones differs from them as a number,
    where it is written with the same scope identifier. *)
Lemma unreserved_number n i :
  network_wf n -> nw_contains (if_network i) (nw_addr n) = true -> nw_addr n ∉ reserved_addresses i ->
  (ip_scope (nw_addr n) = ip_scope (nw_addr (if_network i)) -> nw_first n <> nw_first (if_network i)) /\
  (nw_ver n = V4 -> nw_first n <> nw_last (if_network i)).
Proof.
  intros [[_ Hw] _] [Hver%bool_decide_eq_true _]%andb_true_iff Hr. unfold reserved_addresses in Hr.
  assert (nw_ver n = nw_ver (if_network i)) as Hv by exact Hver. rewrite <-Hv in Hr. split.
  - intros Hsc Hz. assert (nw_addr n = nw_addr (if_network i)) as He.
    { unfold nw_ver, nw_first in *. destruct (nw_addr n), (nw_addr (if_network i)). cbn in *. congruence. }
    apply Hr. rewrite He. set_solver.
  - intros H4 Hz. apply Hr, elem_of_app. right. rewrite bool_decide_eq_true_2 by done. apply list_elem_of_singleton.
    rewrite <-Hz. unfold nw_ver, nw_first in *. specialize (Hw H4). destruct (nw_addr n). cbn in *. congruence.
Qed.

(** Key texts: canonical base64 of 32 bytes that are not all zero. *)
Definition key_text (s : string) : Prop :=
  exists raw, bytes_wf raw /\ length raw = 32%nat /\ Exists (fun b => b <> 0) raw /\ chars s = b64encode standard raw.

Lemma key_valid_iff s : key_valid false (VStr s) = true <-> key_text s.
Proof.
  unfold key_valid, key_text. cbn [is_str andb negb str_of]. split.
  - destruct (canonical_b64 standard (chars s)) as [raw|] eqn:Hc; [|done].
    apply canonical_b64_Some in Hc as [Hb Hs]; [|apply _]. intros [Hl He]%andb_true_iff. bprop.
    exists raw. split_and!; [done|done| |done]. apply existsb_true in He.
    eapply Exists_impl; [exact He|]. intros b Hne. cbn in Hne. by bprop.
  - intros (raw & Hb & Hl & He & Hs).
    assert (canonical_b64 standard (chars s) = Some raw) as ->.
    { by apply canonical_b64_Some; [apply _|]. }
    rewrite Hl. cbn [Nat.eqb andb]. apply existsb_true. eapply Exists_impl; [exact He|].
    intros b Hne. cbn. by apply negb_true_iff, Z.eqb_neq.
Qed.

(** The key material of a peer. *)
Definition peer_keys (peer : dict) : list string := [ppublic peer; pshared peer].


(** In an AmneziaWG contract admitted without a diagnostic the identities are
    unambiguous: interface names and listening ports are distinct, device names
    are distinct over all instances, every key is the canonical text of a
    nonzero 32-byte value and differs from the server's and from its peer's
    other key, no key of an instance is used twice for the same purpose, and
    two peers that share any key are the same device. *)
Theorem awg_identities (source : dict) (raw defaults cohort : value)
    (H : awg_errors false source raw defaults cohort = []) :
  exists instances, effective_awg_instances raw defaults cohort = Ok instances /\
    NoDup (iname <$> instances) /\ NoDup (omap (iport (dict_of defaults)) instances) /\
    NoDup (pname <$> filter (fun p => is_device p = true) (all_peers instances).*2) /\
    (forall item peer, (item, peer) ∈ all_peers instances ->
       Forall (fun k => key_text k /\ field item "server_private_key" <> VStr k) (peer_keys peer) /\
       ppublic peer <> pshared peer) /\
    (forall item, item ∈ instances -> NoDup (ppublic <$> peers_of item) /\ NoDup (pshared <$> peers_of item)) /\
    (forall x y k, x ∈ all_peers instances -> y ∈ all_peers instances ->
       k ∈ peer_keys x.2 -> k ∈ peer_keys y.2 -> pname x.2 = pname y.2).
Proof.
  apply awg_errors_nil in H as (instances & s & He & Hct & _ & _). exists instances. split; [done|].
  destruct Hct as [[_ Hok _ Hown [Hnd Hdev]] Hio [Hn _] [Hp _] _]. rewrite Forall_forall in Hok; rewrite Forall_forall in Hown; rewrite Forall_forall in Hio.
  split_and!; [done|done|by rewrite <-Hdev| | |].
  - intros item peer Hin. destruct (Hok _ Hin) as (_ & (_ & _ & K1 & K2 & Hne & S1 & S2) & _). cbn [fst snd] in *.
    apply key_valid_iff in K1, K2. by repeat constructor.
  - intros item Hin. by destruct (Hio _ Hin) as (_ & _ & _ & _ & _ & _ & _ & ? & ?).
  - assert (forall x k, x ∈ all_peers instances -> k ∈ peer_keys x.2 -> dget k (aw_owners s) = Some (pname x.2)) as Hk.
    { intros x k Hx Hk. destruct (Hown _ Hx). unfold peer_keys in Hk.
      rewrite !elem_of_cons in Hk. destruct Hk as [-> |[-> |[]%not_elem_of_nil]]; done. }
    intros x y k Hx Hy Hkx Hky. pose proof (Hk _ _ Hx Hkx). pose proof (Hk _ _ Hy Hky). congruence.
Qed.

(** The sweep over the claims in sorted order reports nothing exactly when no
    claim contains a server address and no two claims overlap. *)
Theorem sweep_iff (servers : list (Z * Z)) (claims : list claim) (H : Forall claim_wf claims) :
  sweep servers claims = [] <-> Forall (avoids servers) claims /\ ForallOrdPairs claims_apart claims.
Proof. by apply sweep_nil. Qed.

(** ** A concrete contract *)

Definition sample_key (n : Z) : value :=
  VStr (of_chars (b64encode standard (n :: replicate 31 7))).

Definition sample_peer (name : string) (public shared : Z) (v4 v6 : string) : value :=
  VDict [("name", VStr name); ("public_key", sample_key public); ("preshared_key", sample_key shared);
         ("allowed_ips", VDict [("ipv4", VStr v4); ("ipv6", VStr v6)])]%string.

Definition sample_instance (name : string) (port : Z) (v4 v6 : string) (key : Z) (peers : list value) : value :=
  VDict (sample_profile ++
    [("name", VStr name); ("listen_port", VInt port); ("address_v4", VStr v4); ("address_v6", VStr v6);
     ("server_private_key", sample_key key); ("peers", VList peers)]%string).

Definition sample_contract : value :=
  VDict [("instances", VList
    [sample_instance "awg0" 51820 "10.8.0.1/24" "fd00:8::1/64" 1
       [sample_peer "phone" 2 3 "10.8.0.2/32" "fd00:8::2/128"; sample_peer "laptop" 4 5 "10.8.0.3/32" "fd00:8::3/128"];
     sample_instance "awg1" 51821 "10.9.0.1/24" "fd00:9::1/64" 6
       [sample_peer "tablet" 8 9 "10.9.0.2/32" "fd00:9::2/128"]])]%string.

Definition sample_source : dict :=
  [("amneziawg_go_commit", VStr RANGE_SOURCE); ("amneziawg_tools_commit", VStr RANGE_TOOLS)]%string.

Lemma sample_contract_admitted : awg_errors false sample_source sample_contract VNone VNone = [].
Proof. vm_compute. reflexivity. Qed.


Lemma awg_identities_witness :
  awg_errors false sample_source sample_contract VNone VNone = [] /\
  exists instances, effective_awg_instances sample_contract VNone VNone = Ok instances /\ NoDup (iname <$> instances).
Proof.
  split; [exact sample_contract_admitted|].
  destruct (awg_identities sample_source sample_contract VNone VNone sample_contract_admitted) as (i & Hi & Hn & _).
  exists i. split; [exact Hi|exact Hn].
Defined.

Definition sample_claims : list claim :=
  [Claim 6 5 9 "b"; Claim 4 10 20 "a"; Claim 4 21 21 "c"]%string.
Lemma sample_claims_wf : Forall claim_wf sample_claims.
Proof. repeat constructor; cbn; lia. Qed.
Lemma sweep_iff_witness :
  Forall claim_wf sample_claims /\ Forall (avoids [(4, 22)]) sample_claims /\ ForallOrdPairs claims_apart sample_claims.
Proof.
  split; [exact sample_claims_wf|].
  apply (sweep_iff [(4, 22)] sample_claims sample_claims_wf). vm_compute. reflexivity.
Defined.

(** An overlap and a second use of a key are both reported. *)
Example sample_overlap :
  awg_errors false sample_source (VDict [("instances", VList
    [sample_instance "awg0" 51820 "10.8.0.1/24" "fd00:8::1/64" 1
       [sample_peer "phone" 2 3 "10.8.0.2/32" "fd00:8::2/128"; sample_peer "laptop" 4 2 "10.8.0.2/32" "fd00:8::3/128"]])])%string
    VNone VNone
  = [("amneziawg_secrets.instances.0.peers", "key material reused between devices");
     ("amneziawg_secrets.instances.0.peers.1.allowed_ips.ipv4", "conflicting peer address claim")]%string.
Proof. vm_compute. reflexivity. Qed.

(** A scope identifier survives the canonical-spelling check, and a scoped
    address is not equal to the unscoped reserved one: the network's own anycast
    address is admitted for a device. *)
Example sample_scoped_reserved :
  awg_errors false sample_source (VDict [("instances", VList
    [sample_instance "awg0" 51820 "10.8.0.1/24" "fd00:8::1/64" 1
       [sample_peer "phone" 2 3 "10.8.0.2/32" "fd00:8::%x/128"]])])%string VNone VNone = [].
Proof. vm_compute. reflexivity. Qed.
Example sample_unscoped_reserved :
  awg_errors false sample_source (VDict [("instances", VList
    [sample_instance "awg0" 51820 "10.8.0.1/24" "fd00:8::1/64" 1
       [sample_peer "phone" 2 3 "10.8.0.2/32" "fd00:8::/128"]])])%string VNone VNone <> [].
Proof. vm_compute. discriminate. Qed.
