(* ===== verification/TransportIdentity.v ===== *)
(** * Transport identities

    [scripts/transport_semantics.py]: the identities and credentials of the
    transports.  Xray clients and cohorts ([cohort_errors]), service credentials
    ([egress_errors]), the FakeTLS secret ([mtg_errors]), host names and ACME
    authorities, and the ECH configuration list ([ech_config]). *)

From S2P Require Import Prelude PyValue PyStr Regex Base64 IPAddr AwgProfile AwgContract.
#[local] Open Scope Z_scope.

(** ** Names *)

Definition name_char (c : ascii) : bool := is_lower c || is_digit c.
Definition name_inner (c : ascii) : bool := name_char c || one_of "-" c.
(** [[a-z0-9](?:[a-z0-9-]{0,61}[a-z0-9])?] *)
Definition DNS_LABEL : re :=
  RCat (RCls name_char) (ROpt (RCat (RClsRep name_inner 0 61) (RCls name_char))).
Definition DNS_LABELS : re := RCat (RStar (RCat DNS_LABEL (RLit "."))) DNS_LABEL.
(** [DNS_NAME.fullmatch(s)]; the look-ahead bounds the length. *)
Definition dns_name (s : string) : bool :=
  Nat.leb (length (chars s)) 253 && fullmatch DNS_LABELS s.

(** [hostname_valid] *)
Definition hostname_valid (v : value) : bool :=
  if negb (is_str v) || negb (dns_name (str_of v)) then false
  else match ip_address (str_of v) with Some _ => false | None => true end.

Definition path_char (c : ascii) : bool := is_alnum c || one_of "_-" c.
(** [/[A-Za-z0-9_-]+(?:/[A-Za-z0-9_-]+)*] *)
Definition XHTTP_PATH : re :=
  let segment := RCat (RLit "/") (RPlus (RCls path_char)) in RCat segment (RStar segment).
Definition PUBLISHED_XHTTP_PATH : string := "/app-sync".

(** [xhttp_path_valid] *)
Definition xhttp_path_valid (v : value) : bool :=
  is_str v && (py_len (str_of v) <=? 256) && fullmatch XHTTP_PATH (str_of v).

(** [served_origin] *)
Definition served_origin (host port : value) : res string :=
  raise_if (negb (is_str host) || negb (dns_name (str_of host)) || negb (type_is_int port)
            || negb ((1 <=? int_of port) && (int_of port <=? 65535)))
    (value_error "invalid-primary-origin") ;;;
  Ok ("https://" +:+ str_of host +:+ (if (int_of port =? 443)%Z then "" else ":" +:+ str_of_Z (int_of port)))%string.

(** ** ACME authorities *)

(** The encodings of the white space outside ASCII that [\s] matches. *)
Definition unicode_spaces : list (list Z) :=
  [[0xC2; 0x85]; [0xC2; 0xA0]; [0xE1; 0x9A; 0x80]; [0xE2; 0x80; 0xA8]; [0xE2; 0x80; 0xA9];
   [0xE2; 0x80; 0xAF]; [0xE2; 0x81; 0x9F]; [0xE3; 0x80; 0x80]]
  ++ ((fun k => [0xE2; 0x80; 0x80 + Z.of_nat k]) <$> seq 0 11).

Fixpoint tails {A} (l : list A) : list (list A) :=
  match l with [] => [[]] | _ :: l' => l :: tails l' end.

(** Some character of the text is white space. *)
Definition has_space (l : list ascii) : bool :=
  existsb is_space l ||
  existsb (fun t => existsb (fun w => prefix_of (chr <$> w) t) unicode_spaces) (tails l).

(** [[^\s@]+@[^\s@]+\.[^\s@]+] *)
Definition email_char (c : ascii) : bool := negb (one_of "@" c).
Definition EMAIL : re :=
  RCat (RPlus (RCls email_char)) (RCat (RLit "@")
    (RCat (RPlus (RCls email_char)) (RCat (RLit ".") (RPlus (RCls email_char))))).
Definition email_ok (s : string) : bool := negb (has_space (chars s)) && fullmatch EMAIL s.

(** [managed_http_acme]; a lower-case name equals its [lower()]. *)
Definition managed_http_acme (raw primary : value) : res value :=
  let d := dict_of raw in
  let email := field d "email" in
  let domains := field d "domains" in
  raise_if (negb (is_dict raw) || negb (same_set (keys d) ["email"; "domains"]%string)
            || negb (is_str email) || (254 <? py_len (str_of email)) || negb (email_ok (str_of email))
            || negb (is_list domains)
            || negb ((1 <=? Z.of_nat (length (list_of domains))) && (Z.of_nat (length (list_of domains)) <=? 4))
            || existsb (fun name => negb (hostname_valid name) || (253 <? py_len (str_of name))
                                    || negb (bool_decide (str_of name = lower (str_of name)))) (list_of domains)
            || negb (py_eq (default VNone (head (list_of domains))) primary)
            || negb (all_distinct (list_of domains)))
    (value_error "invalid-http-acme-authority") ;;;
  Ok raw.

(** [hysteria_native_acme] *)
Definition hysteria_native_acme (raw : value) : res value :=
  let d := dict_of raw in
  raise_if (negb (is_dict raw) || negb (same_set (keys d) ["domains"; "email"; "ca"; "dir"; "type"; "http"]%string)
            || negb (py_eq (field d "ca") (VStr "letsencrypt"))
            || negb (py_eq (field d "dir") (VStr "/var/lib/hysteria/acme"))
            || negb (py_eq (field d "type") (VStr "http"))
            || negb (py_eq (field d "http") (VDict [("altPort"%string, VInt 80)]))
            || negb (type_is_int (field (dict_of (field d "http")) "altPort"))
            || negb (is_list (field d "domains"))
            || negb (Nat.eqb (length (list_of (field d "domains"))) 1))
    (value_error "invalid-native-acme-authority") ;;;
  managed_http_acme (VDict [("domains", field d "domains"); ("email", field d "email")]%string)
    (default VNone (head (list_of (field d "domains")))) ;;;
  Ok raw.

(** ** The FakeTLS secret *)

Definition hex_pair : re := RCat (RCls is_hex) (RCls is_hex).
(** [bytes.fromhex] of an even run of hexadecimal digits. *)
Fixpoint fromhex (l : list ascii) : list Z :=
  match l with
  | a :: b :: l => (digit_val (lower_char a) * 16 + digit_val (lower_char b)) :: fromhex l
  | _ => []
  end.

Definition secret_char (c : ascii) : bool := is_alnum c || one_of "_-" c.

(** The bytes of the secret: hexadecimal, or unpadded URL-safe base64 in its
    canonical form. *)
Definition mtg_bytes (s : string) : option (list Z) :=
  if fullmatch (RPlus hex_pair) s then Some (fromhex (chars s))
  else if negb (fullmatch (RPlus (RCls secret_char)) s) then None
  else
    decoded ← b64decode urlsafe (chars s ++ replicate (Z.to_nat ((- Z.of_nat (length (chars s))) mod 4)) pad);
    if decide (chars (rstrip (one_of "=") (of_chars (b64encode urlsafe decoded))) = chars s)
    then Some decoded else None.

(** [decoded[17:].decode("ascii")] *)
Definition ascii_text (l : list Z) : option string :=
  if forallb (fun b => b <? 128) l then Some (of_chars (chr <$> l)) else None.

Definition mtg_host (decoded : list Z) : option string :=
  if Nat.ltb (length decoded) 18 || negb (default 0 (head decoded) =? 0xee)
     || negb (existsb (fun b => negb (b =? 0)) (take 16 (drop 1 decoded))) then None
  else
    host ← ascii_text (drop 17 decoded);
    if contains_char "." host && hostname_valid (VStr (lower host)) then Some host else None.

(** [mtg_errors] *)
Definition mtg_errors (allow_placeholders : bool) (raw : value) : list diag :=
  let v := if is_dict raw then field (dict_of raw) "mtproto_secret" else VNone in
  if is_str v && allow_placeholders && fullmatch PLACEHOLDER (str_of v) then []
  else
    match (if negb (is_str v) || negb ((1 <=? py_len (str_of v)) && (py_len (str_of v) <=? 540)) then None
           else decoded ← mtg_bytes (str_of v); mtg_host decoded) with
    | Some _ => []
    | None => [("probe_matrix_target_secrets.mtproto_secret",
                "requires FakeTLS prefix, a nonzero sixteen-byte key and a valid hostname")%string]
    end.

Example hostname_ex : hostname_valid (VStr "a-b.example.org") = true /\ hostname_valid (VStr "10.0.0.1") = false
  /\ hostname_valid (VStr "-a.org") = false.
Proof. vm_compute. auto. Qed.
Example mtg_ex : mtg_errors false (VDict [("mtproto_secret", VStr "ee00000000000000000000000000000001612e6465")]%string) = [].
Proof. vm_compute. reflexivity. Qed.
Example email_ex : email_ok "ops@example.org" = true /\ email_ok "a b@c.d" = false /\ email_ok "a@b@c.d" = false.
Proof. vm_compute. auto. Qed.

(** ** Xray clients and cohorts *)

(** [(?:[0-9a-fA-F]{2}){1,8}] *)
Definition SHORT_ID : re := RRep hex_pair 1 8.
(** [[0-9a-fA-F]{8}(?:-[0-9a-fA-F]{4}){3}-[0-9a-fA-F]{12}] *)
Definition UUID : re :=
  RCat (RClsRep is_hex 8 8) (RCat (RRep (RCat (RLit "-") (RClsRep is_hex 4 4)) 3 3)
    (RCat (RLit "-") (RClsRep is_hex 12 12))).

(** [bytes.fromhex(value).ljust(8, b"\0")] *)
Definition short_id_wire (s : string) : list Z :=
  let raw := fromhex (chars s) in raw ++ replicate (8 - length raw) 0.

(** The bytes of a UUID, without the two the pinned Xray reserves for routing. *)
Definition authentication_id (s : string) : list Z :=
  let raw := fromhex (filter (fun c => c <> "-"%char) (chars s)) in take 6 raw ++ [0; 0] ++ drop 8 raw.

Definition wire_step (allow : bool) (st : list diag * list (list Z)) (p : nat * dict) : list diag * list (list Z) :=
  let '(errors, ids) := st in
  let v := field p.2 "short_id" in
  if is_str v && allow && fullmatch PLACEHOLDER (str_of v) then st
  else if negb (is_str v) || negb (fullmatch SHORT_ID (str_of v))
  then (errors ++ [(dotted (indexed "xray.clients" p.1) "short_id",
          "must be nonempty even-length hex of at most eight bytes"%string)], ids)
  else
    let id := short_id_wire (str_of v) in
    (errors ++ (if bool_decide (id ∈ ids) then [("xray.clients", "duplicate short_id wire value")%string] else []),
     id :: ids).

Definition uuid_step (st : list diag * list (list Z)) (item : dict) : list diag * list (list Z) :=
  let '(errors, ids) := st in
  let v := field item "uuid" in
  if negb (is_str v) || negb (fullmatch UUID (str_of v)) then st
  else
    let id := authentication_id (str_of v) in
    (errors ++ (if bool_decide (id ∈ ids)
                then [("xray.clients", "duplicate UUID authentication identity")%string] else []),
     id :: ids).

Definition reference_errors (path : string) (known : list string) (refs : value) : list diag :=
  if negb (is_list refs) then [(path, "explicit client references are required"%string)]
  else if existsb (fun r => negb (is_str r) || bool_decide (str_of r = ""%string)) (list_of refs)
  then [(path, "invalid client reference"%string)]
  else
    (if negb (all_distinct (list_of refs)) then [(path, "duplicate client reference"%string)] else [])
    ++ (if existsb (fun r => negb (mem (str_of r) known)) (list_of refs)
        then [(path, "unknown xray client reference"%string)] else []).

Definition cohort_step (known : list string) (st : list diag * list string) (p : nat * value)
    : list diag * list string :=
  let '(errors, names) := st in
  let '(index, item) := p in
  let get k := if is_dict item then field (dict_of item) k else VNone in
  let name := get "name"%string in
  let '(e1, names) :=
    if negb (is_str name) || bool_decide (str_of name = ""%string)
    then ([(dotted (indexed "xray.cohorts" index) "name", "invalid cohort name"%string)], names)
    else if mem (str_of name) names then ([("xray.cohorts", "duplicate name")%string], names)
    else ([], str_of name :: names) in
  (errors ++ e1 ++ reference_errors (dotted (indexed "xray.cohorts" index) "clients") known (get "clients"%string), names).


(** [cohort_errors] *)
Definition cohort_errors (allow_placeholders : bool) (raw : value) : list diag :=
  if negb (is_dict raw) then [("xray", "must be a mapping")%string] else
  let clients := get_default (dict_of raw) "clients" (VList []) in
  let cohorts := get_default (dict_of raw) "cohorts" (VList []) in
  if negb (is_list clients) || negb (forallb is_dict (list_of clients))
  then [("xray.clients", "must be a client collection")%string] else
  let items := dict_of <$> list_of clients in
  let e1 := (foldl (wire_step allow_placeholders) ([], []) (imap pair items)).1 in
  let e2 := (foldl uuid_step ([], []) items).1 in
  let names := (fun item => field item "name") <$> items in
  let string_names := str_of <$> filter (fun v => is_str v = true) names in
  let e3 := if existsb (fun v => negb (is_str v) || bool_decide (str_of v = ""%string)) names
            then [("xray.clients", "invalid client name")%string] else [] in
  let e4 := if negb (nodup_str string_names) then [("xray.clients", "duplicate name")%string] else [] in
  let errors := e1 ++ e2 ++ e3 ++ e4 in
  if negb (is_list cohorts) then errors ++ [("xray.cohorts", "must be a cohort collection")%string]
  else (foldl (cohort_step string_names) (errors, []) (imap pair (list_of cohorts))).1.

(** ** Service credentials *)

Definition EGRESS_CREDENTIALS : list string :=
  ["direct_xray_password"; "direct_hysteria_password"; "warp_xray_password";
   "direct_gateway_password"; "warp_gateway_password"]%string.

Definition flag (vpn : dict) (k : string) (dflt : bool) : bool := truthy (get_default vpn k (VBool dflt)).

(** Which credentials the enabled services need. *)
Definition needed_credentials (vpn : dict) (xray hysteria : bool) : list string :=
  ["direct_gateway_password"%string]
  ++ (if xray then ["direct_xray_password"%string] else [])
  ++ (if hysteria then ["direct_hysteria_password"%string] else [])
  ++ (if xray && flag vpn "enable_warp_outbound" false
      then ["warp_xray_password"; "warp_gateway_password"]%string else []).

Definition printable (c : ascii) : bool := between 32 126 c.

Definition credential_step (allow : bool) (raw : dict) (needed : list string)
    (st : list diag * list string) (name : string) : list diag * list string :=
  let '(errors, values) := st in
  let path := dotted "transport_egress_secrets" name in
  match dget name raw with
  | None => (errors ++ (if mem name needed then [(path, "required for enabled path"%string)] else []), values)
  | Some v =>
      if allow && is_str v && fullmatch PLACEHOLDER (str_of v) then st
      else if negb (is_str v) || negb ((32 <=? py_len (str_of v)) && (py_len (str_of v) <=? 128))
              || negb (all_chars printable (str_of v)) || fullmatch PLACEHOLDER (str_of v)
      then (errors ++ [(path, "must be a non-placeholder printable ASCII credential of 32 to 128 bytes"%string)], values)
      else if mem (str_of v) values
      then (errors ++ [(path, "service credentials must be distinct"%string)], values)
      else (errors, str_of v :: values)
  end.

(** [egress_errors] *)
Definition egress_errors (required allow_placeholders : bool) (raw vpn : value) : list diag :=
  let vpn := dict_of vpn in
  let xray := flag vpn "enable_xray_reality" true || flag vpn "enable_nginx_xhttp" false in
  let hysteria := flag vpn "enable_hysteria" false in
  let active := required && (xray || hysteria) in
  if active && negb (flag vpn "enable_transport_egress" true)
  then [("vpn.enable_transport_egress", "required for enabled proxy transports")%string]
  else if is_none raw && negb active then []
  else if negb (is_dict raw) then [("transport_egress_secrets", "must be a credential mapping")%string]
  else
    let e0 := if negb (subset (keys (dict_of raw)) EGRESS_CREDENTIALS)
              then [("transport_egress_secrets", "unknown credential field")%string] else [] in
    let needed := if active then needed_credentials vpn xray hysteria else [] in
    (foldl (credential_step allow_placeholders (dict_of raw) needed) (e0, []) EGRESS_CREDENTIALS).1.

(** ** What admitted clients and cohorts look like *)

Definition client_items (d : dict) : list dict := dict_of <$> list_of (get_default d "clients" (VList [])).
Definition cohort_values (d : dict) : list value := list_of (get_default d "cohorts" (VList [])).
Definition short_id_of (item : dict) : string := str_of (field item "short_id").

(** The authentication identity of a client that declares a UUID. *)
Definition client_uuid (item : dict) : option (list Z) :=
  let v := field item "uuid" in
  if is_str v && fullmatch UUID (str_of v) then Some (authentication_id (str_of v)) else None.

Definition cohort_name (v : value) : option string :=
  let n := field (dict_of v) "name" in
  if is_str n && negb (bool_decide (str_of n = ""%string)) then Some (str_of n) else None.

Definition short_id_ok (item : dict) : Prop :=
  exists s, field item "short_id" = VStr s /\ fullmatch SHORT_ID s = true.

(** A cohort: a name, and distinct references to known clients. *)
Definition cohort_ok (known : list string) (v : value) : Prop :=
  exists c refs, v = VDict c /\ cohort_name v <> None /\ field c "clients" = VList (VStr <$> refs) /\
    NoDup refs /\ forall r, r ∈ refs -> r ∈ known.

Lemma reference_errors_nil path known v :
  reference_errors path known v = [] ->
  exists refs, v = VList (VStr <$> refs) /\ NoDup refs /\ forall r, r ∈ refs -> r ∈ known.
Proof.
  unfold reference_errors. destruct (is_list v) eqn:Hl; [|done]. apply is_list_true in Hl as [l ->].
  cbn [negb list_of]. destruct (existsb _ l) eqn:He; [done|]. intros [Hd Hk]%app_eq_nil.
  assert (forallb is_str l = true) as Hs.
  { apply forallb_true. apply existsb_false in He. eapply Forall_impl; [exact He|].
    intros v [Hv _]%orb_false_iff. by apply negb_false_iff. }
  apply forallb_is_str in Hs. set (refs := str_of <$> l) in *. exists refs. rewrite Hs in Hd |- *.
  split; [done|]. destruct (all_distinct (VStr <$> refs)) eqn:Hn; [|done]. apply all_distinct_strs in Hn.
  split; [done|]. destruct (existsb (fun r => negb (mem (str_of r) known)) l) eqn:Hm; [done|].
  apply existsb_false in Hm. rewrite Forall_forall in Hm. intros r Hr.
  subst refs. apply list_elem_of_fmap in Hr as (v & -> & Hv). apply mem_true, negb_false_iff, Hm, Hv.
Qed.

Lemma if_snoc_nil {A} (l : list A) (b : bool) (x : A) : l ++ (if b then [x] else []) = [] -> l = [] /\ b = false.
Proof. destruct b; [by intros [_ ?]%app_eq_nil|by rewrite app_nil_r]. Qed.

Lemma wire_step_ok e ids p e' ids' :
  wire_step false (e, ids) p = (e', ids') -> e' = [] ->
  e = [] /\ short_id_ok p.2 /\ (short_id_wire (short_id_of p.2) ∉ ids /\ ids' = short_id_wire (short_id_of p.2) :: ids).
Proof.
  unfold wire_step, short_id_ok, short_id_of. rewrite andb_false_r. cbn [andb].
  destruct (field p.2 "short_id") as [| | | |s| |]; cbn [is_str negb orb str_of];
    try (intros [= <- <-]; by intros [_ ?]%app_eq_nil).
  destruct (fullmatch SHORT_ID s) eqn:Hs; cbn [negb]; [|intros [= <- <-]; by intros [_ ?]%app_eq_nil].
  intros [= <- <-] [-> Hin]%if_snoc_nil. bprop. split_and!; eauto.
Qed.

Lemma uuid_step_ok e ids item e' ids' :
  uuid_step (e, ids) item = (e', ids') -> e' = [] ->
  e = [] /\ True /\ match client_uuid item with Some k => k ∉ ids /\ ids' = k :: ids | None => ids' = ids end.
Proof.
  unfold uuid_step, client_uuid. destruct (is_str (field item "uuid")); cbn [negb orb andb]; [|by intros [= <- <-]].
  destruct (fullmatch UUID _); cbn [negb]; [|by intros [= <- <-]].
  intros [= <- <-] [-> Hin]%if_snoc_nil. by bprop.
Qed.

Lemma cohort_step_ok known e names p e' names' :
  cohort_step known (e, names) p = (e', names') -> e' = [] ->
  e = [] /\ cohort_ok known p.2 /\
  match cohort_name p.2 with Some k => k ∉ names /\ names' = k :: names | None => names' = names end.
Proof.
  destruct p as [i v]. unfold cohort_step, cohort_ok, cohort_name. cbn [snd].
  destruct (is_dict v) eqn:Hd; [apply is_dict_true in Hd as [c ->]|]; cbn [dict_of].
  2: { cbn. intros [= <- <-]. by intros [_ [=]]%app_eq_nil. }
  destruct (field c "name") as [| | | |n| |]; cbn [is_str negb orb andb str_of];
    try (intros [= <- <-]; by intros [_ [=]]%app_eq_nil).
  case_bool_decide as Hn; [intros [= <- <-]; by intros [_ [=]]%app_eq_nil|]. cbn [negb].
  destruct (mem n names) eqn:Hm; intros [= <- <-]; [by intros [_ [=]]%app_eq_nil|].
  cbn [app]. intros [-> (refs & Hr & Hnd & Hk)%reference_errors_nil]%app_eq_nil. apply mem_false in Hm.
  split_and!; try done. by exists c, refs.
Qed.

Lemma cohort_steps_clean known l e names :
  (foldl (cohort_step known) (e, names) l).1 = [] -> e = [].
Proof.
  apply (foldl_clean (fun s : list diag * list string => s.1 = [])). intros x [e0 ns].
  destruct (cohort_step known (e0, ns) x) as [e' ns'] eqn:Hs. intros He.
  by apply cohort_step_ok in Hs as [? _].
Qed.

Lemma cohort_errors_inv raw :
  cohort_errors false raw = [] ->
  exists d, raw = VDict d /\
    (foldl (wire_step false) ([], []) (imap pair (client_items d))).1 = [] /\
    (foldl uuid_step ([], []) (client_items d)).1 = [] /\
    let names := (fun item => field item "name") <$> client_items d in
    let known := str_of <$> filter (fun v => is_str v = true) names in
    existsb (fun v => negb (is_str v) || bool_decide (str_of v = ""%string)) names = false /\
    NoDup known /\
    (foldl (cohort_step known) ([], []) (imap pair (cohort_values d))).1 = [].
Proof.
  unfold cohort_errors. destruct (is_dict raw) eqn:Hd; [|done]. apply is_dict_true in Hd as [d ->].
  cbn [negb dict_of]. cbv zeta. fold (client_items d). fold (cohort_values d).
  destruct (_ || _); [done|]. set (e1 := foldl (wire_step false) _ _). set (e2 := foldl uuid_step _ _).
  set (names := (fun item => field item "name") <$> client_items d). set (known := str_of <$> _).
  set (e3 := if existsb _ names then _ else _). set (e4 := if negb (nodup_str known) then _ else _).
  destruct (negb (is_list _)); intros H.
  { apply app_eq_nil in H as [_ ?]. done. }
  pose proof (cohort_steps_clean _ _ _ _ H) as He. rewrite He in H.
  apply app_eq_nil in He as [H1 [H2 [H3 H4]%app_eq_nil]%app_eq_nil].
  exists d. split_and!; try done.
  - fold names. subst e3. destruct (existsb _ names); [discriminate H3|done].
  - fold names. fold known. subst e4. apply nodup_str_true. destruct (nodup_str known); [done|discriminate H4].
Qed.

Lemma imap_pair_snd {A} (l : list A) : (imap pair l).*2 = l.
Proof. apply list_eq. intros i. rewrite list_lookup_fmap, list_lookup_imap. by destruct (l !! i). Qed.

Lemma omap_Some {A B} (f : A -> B) (l : list A) : omap (fun x => Some (f x)) l = f <$> l.
Proof. induction l as [|x l IH]; [done|]. csimpl. by rewrite IH. Qed.

Lemma omap_snd {A B} (f : A -> option B) (l : list (nat * A)) : omap (fun p => f p.2) l = omap f l.*2.
Proof. induction l as [|[i x] l IH]; [done|]. csimpl. by rewrite IH. Qed.

(** An Xray section admitted without a diagnostic has unambiguous identities:
    every client has a well-formed short identifier and no two are equal on the
    wire (after zero padding), no two declared UUIDs authenticate the same
    identity, names are distinct and nonempty, and every cohort has its own name
    and refers to distinct existing clients. *)
Theorem cohort_identities (raw : value) (H : cohort_errors false raw = []) :
  exists d, raw = VDict d /\
    Forall short_id_ok (client_items d) /\ NoDup ((fun c => short_id_wire (short_id_of c)) <$> client_items d) /\
    NoDup (omap client_uuid (client_items d)) /\
    (exists names, (fun item => field item "name") <$> client_items d = VStr <$> names /\
       NoDup names /\ ~ ""%string ∈ names /\ Forall (cohort_ok names) (cohort_values d)) /\
    NoDup (omap cohort_name (cohort_values d)).
Proof.
  apply cohort_errors_inv in H as (d & -> & Hw & Hu & Hn). cbv zeta in Hn. destruct Hn as (Hne & Hnd & Hc).
  exists d. split; [done|].
  apply (foldl_distinct (fun p : nat * dict => Some (short_id_wire (short_id_of p.2))) (fun p => short_id_ok p.2)) in Hw as (_ & Hw1 & Hw2).
  2: { intros e ids p e' ids'. apply wire_step_ok. }
  apply (foldl_distinct client_uuid (fun _ => True)) in Hu as (_ & _ & Hu).
  2: { intros e ids p e' ids'. apply uuid_step_ok. }
  set (known := str_of <$> _) in *.
  apply (foldl_distinct (fun p : nat * value => cohort_name p.2) (fun p => cohort_ok known p.2)) in Hc as (_ & Hc1 & Hc2).
  2: { intros e ids p e' ids'. apply cohort_step_ok. }
  rewrite (omap_snd (fun c => Some (short_id_wire (short_id_of c)))), imap_pair_snd, omap_Some in Hw2.
  rewrite omap_snd, imap_pair_snd in Hc2.
  split_and!; try done.
  - rewrite <-(imap_pair_snd (client_items d)). by apply Forall_fmap.
  - exists known. set (names := (fun item => field item "name") <$> client_items d) in *.
    apply existsb_false in Hne. assert (forallb is_str names = true) as Hs.
    { apply forallb_true. eapply Forall_impl; [exact Hne|]. intros v [Hv _]%orb_false_iff. by apply negb_false_iff. }
    assert (filter (fun v => is_str v = true) names = names) as Hf by (apply filter_all, forallb_true, Hs).
    subst known. rewrite Hf in *. split_and!; [by apply forallb_is_str|done| |].
    + intros (v & Hv & Hin)%list_elem_of_fmap. eapply Forall_forall in Hne; [|exact Hin].
      apply orb_false_iff in Hne as [_ Hne]. bprop. by apply Hne.
    + rewrite <-(imap_pair_snd (cohort_values d)). by apply Forall_fmap.
Qed.

Definition sample_xray : value :=
  VDict [("clients", VList [VDict [("name", VStr "a"); ("short_id", VStr "01"); ("uuid", VStr "00000000-0000-4000-8000-000000000001")];
                           VDict [("name", VStr "b"); ("short_id", VStr "0102")]]);
         ("cohorts", VList [VDict [("name", VStr "all"); ("clients", VList [VStr "a"; VStr "b"])]])]%string.
Lemma sample_xray_admitted : cohort_errors false sample_xray = [].
Proof. vm_compute. reflexivity. Qed.
Lemma cohort_identities_witness :
  cohort_errors false sample_xray = [] /\ exists d, sample_xray = VDict d /\ NoDup (omap client_uuid (client_items d)).
Proof.
  split; [exact sample_xray_admitted|].
  destruct (cohort_identities sample_xray sample_xray_admitted) as (d & Hd & _ & _ & Hu & _). exists d. split; [exact Hd|exact Hu].
Defined.
(** A short identifier and its zero-padded spelling are the same on the wire. *)
Example sample_xray_padded :
  cohort_errors false (VDict [("clients", VList [VDict [("name", VStr "a"); ("short_id", VStr "01")];
                                                VDict [("name", VStr "b"); ("short_id", VStr "0100")]])]%string)
  = [("xray.clients", "duplicate short_id wire value")]%string.
Proof. vm_compute. reflexivity. Qed.

(** ** What admitted service credentials look like *)

Definition credential_ok (v : value) : Prop :=
  exists s, v = VStr s /\ 32 <= py_len s <= 128 /\ all_chars printable s = true /\ fullmatch PLACEHOLDER s = false.

Lemma credential_step_ok raw needed e ids name e' ids' :
  credential_step false raw needed (e, ids) name = (e', ids') -> e' = [] ->
  e = [] /\
  match dget name raw with Some v => credential_ok v | None => name ∉ needed end /\
  match str_of <$> dget name raw with Some k => k ∉ ids /\ ids' = k :: ids | None => ids' = ids end.
Proof.
  unfold credential_step, credential_ok. destruct (dget name raw) as [v|]; csimpl.
  - destruct v as [| | | |s| |]; cbn [is_str negb orb andb str_of];
      try (intros [= <- <-]; by intros [_ [=]]%app_eq_nil).
    destruct (_ || _ || _) eqn:Hg; [intros [= <- <-]; by intros [_ [=]]%app_eq_nil|].
    destruct (mem s ids) eqn:Hm; [intros [= <- <-]; by intros [_ [=]]%app_eq_nil|].
    intros [= <- <-] ->. apply mem_false in Hm. rewrite !orb_false_iff, !negb_false_iff, andb_true_iff, !Z.leb_le in Hg.
    split_and!; try done. exists s. tauto.
  - intros [= <- <-] [-> Hn]%if_snoc_nil. apply mem_false in Hn. done.
Qed.

(** The services a deployment runs. *)
Definition runs_xray (vpn : dict) : bool := flag vpn "enable_xray_reality" true || flag vpn "enable_nginx_xhttp" false.
Definition runs_hysteria (vpn : dict) : bool := flag vpn "enable_hysteria" false.

(** Service credentials admitted without a diagnostic: when the egress is
    required and a proxy transport runs, the egress is enabled and every
    credential the running services need is present; and whenever credentials
    are declared, none is unknown, each is a printable secret of 32 to 128
    characters and no two are equal. *)
Theorem egress_credentials (required : bool) (raw vpn : value)
    (H : egress_errors required false raw vpn = []) :
  (required = true -> runs_xray (dict_of vpn) || runs_hysteria (dict_of vpn) = true ->
     flag (dict_of vpn) "enable_transport_egress" true = true /\
     exists d, raw = VDict d /\
       forall name, name ∈ needed_credentials (dict_of vpn) (runs_xray (dict_of vpn)) (runs_hysteria (dict_of vpn)) ->
         name ∈ EGRESS_CREDENTIALS -> exists v, dget name d = Some v /\ credential_ok v) /\
  (forall d, raw = VDict d ->
     (forall k, k ∈ keys d -> k ∈ EGRESS_CREDENTIALS) /\
     (forall name v, name ∈ EGRESS_CREDENTIALS -> dget name d = Some v -> credential_ok v) /\
     NoDup (omap (fun name => str_of <$> dget name d) EGRESS_CREDENTIALS)).
Proof.
  unfold egress_errors in H. fold (runs_xray (dict_of vpn)) in H. fold (runs_hysteria (dict_of vpn)) in H.
  set (x := runs_xray (dict_of vpn)) in *. set (h := runs_hysteria (dict_of vpn)) in *.
  cbv zeta in H. destruct (required && (x || h) && _) eqn:Ha; [done|].
  destruct (is_none raw && negb (required && (x || h))) eqn:Hn.
  { apply andb_true_iff in Hn as [Hn Hact%negb_true_iff]. split; [intros -> Hxh; by rewrite Hxh in Hact|].
    intros d ->. done. }
  destruct (is_dict raw) eqn:Hd; [|done]. cbn [negb] in H. apply is_dict_true in Hd as [d ->]. cbn [dict_of] in H.
  set (needed := if required && (x || h) then _ else _) in H.
  apply (foldl_distinct (fun name => str_of <$> dget name d)
    (fun name => match dget name d with Some v => credential_ok v | None => name ∉ needed end)) in H as (He & Hok & Hnd).
  2: { intros e ids name e' ids'. apply credential_step_ok. }
  rewrite Forall_forall in Hok. split.
  - intros -> Hxh. rewrite Hxh in *. cbn [andb] in *. apply negb_false_iff in Ha. split; [done|].
    exists d. split; [done|]. intros name Hin He'. specialize (Hok name He').
    destruct (dget name d) as [v|]; [by exists v|]. exfalso. apply Hok. unfold needed. by rewrite Hxh.
  - intros d' [= <-]. split_and!; [|intros name v Hin Hv; specialize (Hok name Hin); by rewrite Hv in Hok|done].
    apply subset_true. destruct (subset (keys d) EGRESS_CREDENTIALS); [done|discriminate He].
Qed.

Definition sample_secret (c : ascii) : value := VStr (of_chars (replicate 32 c)).
Definition sample_credentials : value :=
  VDict [("direct_gateway_password", sample_secret "a"); ("direct_xray_password", sample_secret "b")]%string.
Lemma sample_credentials_admitted : egress_errors true false sample_credentials (VDict []) = [].
Proof. vm_compute. reflexivity. Qed.
Lemma egress_credentials_witness :
  egress_errors true false sample_credentials (VDict []) = [] /\
  flag [] "enable_transport_egress" true = true.
Proof.
  split; [exact sample_credentials_admitted|].
  destruct (egress_credentials true sample_credentials (VDict []) sample_credentials_admitted) as [Hr _].
  apply (Hr eq_refl eq_refl).
Defined.
Example sample_credentials_reused :
  egress_errors true false (VDict [("direct_gateway_password", sample_secret "a"); ("direct_xray_password", sample_secret "a")]%string) (VDict [])
  = [("transport_egress_secrets.direct_gateway_password", "service credentials must be distinct")]%string.
Proof. vm_compute. reflexivity. Qed.
