(* ===== verification/EchConfig.v ===== *)
(** * The ECH configuration list

    [scripts/transport_semantics.py], [ech_config]: the supported
    X25519/HKDF-SHA256 [ECHConfigList] wire contract.  The parser is proved to
    accept exactly the encodings of lists of well-formed configurations. *)

From S2P Require Import Prelude PyValue PyStr Regex Base64 AwgProfile TransportIdentity.
#[local] Open Scope Z_scope.

(** [int.from_bytes(l, 'big')] *)
Definition from_bytes (l : list Z) : Z := foldl (fun acc b => acc * 256 + b) 0 l.

(** [vector(blob, width)]: a length-prefixed string and the rest. *)
Definition vector (blob : list Z) (width : nat) : option (list Z * list Z) :=
  if Nat.ltb (length blob) width then None
  else
    let size := from_bytes (take width blob) in
    if Z.of_nat (length blob) - Z.of_nat width <? size then None
    else let n := Z.to_nat size in
         Some (take n (drop width blob), drop (width + n) blob).

(** One pass of the cipher suite loop over steps of four bytes. *)
Fixpoint suites_ok (fuel : nat) (l : list Z) : bool :=
  match l, fuel with
  | [], _ => true
  | _, O => false
  | _, S fuel =>
      bool_decide (take 2 l = [0; 1])
      && existsb (fun aead => bool_decide (take 2 (drop 2 l) = aead)) [[0; 1]; [0; 2]; [0; 3]]
      && suites_ok fuel (drop 4 l)
  end.

(** The body of the [while] loop: one configuration, its identifier and name,
    and the remaining bytes. *)
Definition parse_config (ids : list Z) (configs : list Z) : option (Z * string * list Z) :=
  let version := take 2 configs in
  x ← vector (drop 2 configs) 2;
  let '(body, configs) := x in
  if negb (bool_decide (version = [0xfe; 0x0d])) || Nat.ltb (length body) 3
     || bool_decide (default 0 (head body) ∈ ids) || negb (bool_decide (take 2 (drop 1 body) = [0; 0x20])) then None
  else
  let id := default 0 (head body) in
  x ← vector (drop 3 body) 2;
  let '(public, body) := x in
  x ← vector body 2;
  let '(suites, body) := x in
  if negb (Nat.eqb (length public) 32) || Nat.eqb (length suites) 0
     || negb (Nat.eqb (Nat.modulo (length suites) 4) 0) || Nat.eqb (length body) 0 then None
  else if negb (suites_ok (length suites) suites) then None
  else
  x ← vector (drop 1 body) 1;
  let '(name, body) := x in
  x ← vector body 2;
  let '(extensions, body) := x in
  name ← ascii_text name;
  if negb (Nat.eqb (length body) 0) || negb (Nat.eqb (length extensions) 0)
     || negb (hostname_valid (VStr name)) then None
  else Some (id, name, configs).

(** The loop over the configurations; each consumes bytes, so their number is
    enough fuel. *)
Fixpoint parse_configs (fuel : nat) (ids : list Z) (result : list string) (configs : list Z) : option (list string) :=
  match configs, fuel with
  | [], _ => Some result
  | _, O => None
  | _, S fuel =>
      x ← parse_config ids configs;
      let '(id, name, configs) := x in
      if Nat.leb 4 (length result) then None
      else parse_configs fuel (id :: ids) (result ++ [name]) configs
  end.

(** [ech_config] *)
Definition ech_config (raw : value) : res (list string) :=
  of_option
    (if negb (is_str raw) || negb ((1 <=? py_len (str_of raw)) && (py_len (str_of raw) <=? 16384)) then None
     else
       data ← canonical_b64 standard (chars (str_of raw));
       x ← vector data 2;
       let '(configs, rest) := x in
       if negb (Nat.eqb (length rest) 0) || Nat.eqb (length configs) 0 then None
       else parse_configs (length configs) [] [] configs)
    (value_error "invalid-ech-config").

(** ** The wire contract as an encoder *)

(** A configuration: identifier, public key, AEAD numbers, maximum name length
    and public name. *)
Record ech := Ech { e_id : Z; e_public : list Z; e_aeads : list Z; e_max : Z; e_name : string }.

Definition vec1 (l : list Z) : list Z := Z.of_nat (length l) :: l.
Definition vec2 (l : list Z) : list Z := Z.of_nat (length l) / 256 :: Z.of_nat (length l) mod 256 :: l.

Definition suite (aead : Z) : list Z := [0; 1; 0; aead].
Definition encode_body (e : ech) : list Z :=
  [e_id e; 0; 0x20] ++ vec2 (e_public e) ++ vec2 (mjoin (suite <$> e_aeads e))
  ++ [e_max e] ++ vec1 (ord <$> chars (e_name e)) ++ vec2 [].
Definition encode_config (e : ech) : list Z := [0xfe; 0x0d] ++ vec2 (encode_body e).
Definition encode_configs (l : list ech) : list Z := mjoin (encode_config <$> l).

Definition is_octet (z : Z) : Prop := 0 <= z < 256.
Record ech_wf (e : ech) : Prop := {
  ew_id : is_octet (e_id e);
  ew_public : length (e_public e) = 32%nat /\ bytes_wf (e_public e);
  ew_aeads : e_aeads e <> [] /\ Forall (fun a => 1 <= a <= 3) (e_aeads e);
  ew_max : is_octet (e_max e);
  ew_name : hostname_valid (VStr (e_name e)) = true;
  ew_size : Z.of_nat (length (encode_body e)) < 65536
}.

Definition sample_ech : ech := Ech 7 (replicate 32 9) [1; 3] 64 "front.example.org".
Definition sample_ech_text : string := of_chars (b64encode standard (vec2 (encode_configs [sample_ech]))).
Example ech_config_ex : ech_config (VStr sample_ech_text) = Ok ["front.example.org"%string].
Proof. vm_compute. reflexivity. Qed.

(** ** Length-prefixed strings *)

Lemma vec2_length l : length (vec2 l) = (2 + length l)%nat.
Proof. done. Qed.

Lemma vector_vec2 l r : Z.of_nat (length l) < 65536 -> vector (vec2 l ++ r) 2 = Some (l, r).
Proof.
  intros Hl. unfold vector, vec2. set (n := Z.of_nat (length l)) in *.
  cbn [app length take drop Nat.ltb Nat.leb]. rewrite firstn_O.
  assert (from_bytes [n / 256; n mod 256] = n) as ->.
  { unfold from_bytes. cbn [foldl]. pose proof (Z.div_mod n 256). lia. }
  rewrite length_app. destruct (Z.ltb_spec (Z.of_nat (S (S (length l + length r))) - Z.of_nat 2) n); [lia|].
  subst n. rewrite Nat2Z.id. f_equal. f_equal.
  - change (take (length l) (l ++ r) = l). by rewrite take_app_length.
  - change (drop (length l) (l ++ r) = r). by rewrite drop_app_length.
Qed.

Lemma vector_vec1 l r : Z.of_nat (length l) < 256 -> vector (vec1 l ++ r) 1 = Some (l, r).
Proof.
  intros Hl. unfold vector, vec1. set (n := Z.of_nat (length l)) in *.
  cbn [app length take drop Nat.ltb Nat.leb]. rewrite firstn_O.
  change (from_bytes [n]) with n. rewrite length_app.
  destruct (Z.ltb_spec (Z.of_nat (S (length l + length r)) - Z.of_nat 1) n); [lia|].
  subst n. rewrite Nat2Z.id. f_equal. f_equal.
  - change (take (length l) (l ++ r) = l). by rewrite take_app_length.
  - change (drop (length l) (l ++ r) = r). by rewrite drop_app_length.
Qed.

Lemma vector_2_inv blob a b :
  bytes_wf blob -> vector blob 2 = Some (a, b) -> blob = vec2 a ++ b /\ Z.of_nat (length a) < 65536.
Proof.
  intros Hwf. unfold vector. destruct blob as [|x [|y t]]; [done|done|].
  apply Forall_cons in Hwf as [Hx Hwf]. apply Forall_cons in Hwf as [Hy _].
  cbn [length take drop Nat.ltb Nat.leb]. rewrite ?drop_0, firstn_O. unfold from_bytes. cbn [foldl].
  destruct (Z.ltb_spec (Z.of_nat (S (S (length t))) - Z.of_nat 2) ((0 * 256 + x) * 256 + y)); [done|].
  intros [= <- <-]. set (n := Z.to_nat _).
  assert (length (take n t) = n) as Hn by (apply length_take_le; lia). unfold vec2. rewrite Hn.
  assert (Z.of_nat n = x * 256 + y) as Hz by lia. rewrite Hz.
  replace ((x * 256 + y) / 256) with x by (rewrite Z.add_comm, Z.div_add, Z.div_small; lia).
  replace ((x * 256 + y) mod 256) with y by (rewrite Z.add_comm, Z.mod_add, Z.mod_small; lia).
  split; [|lia]. cbn [app]. by rewrite take_drop.
Qed.

Lemma vector_1_inv blob a b :
  bytes_wf blob -> vector blob 1 = Some (a, b) -> blob = vec1 a ++ b /\ Z.of_nat (length a) < 256.
Proof.
  intros Hwf. unfold vector. destruct blob as [|x t]; [done|].
  apply Forall_cons in Hwf as [Hx _]. cbn [length take drop Nat.ltb Nat.leb]. rewrite ?drop_0, firstn_O.
  change (from_bytes [x]) with x.
  destruct (Z.ltb_spec (Z.of_nat (S (length t)) - Z.of_nat 1) x); [done|].
  intros [= <- <-]. set (n := Z.to_nat _).
  assert (length (take n t) = n) as Hn by (apply length_take_le; lia). unfold vec1. rewrite Hn.
  assert (Z.of_nat n = x) as Hz by lia. rewrite Hz. split; [|lia]. cbn [app]. by rewrite take_drop.
Qed.

(** ** Cipher suites *)

Lemma suites_ok_encode fuel l :
  Forall (fun a => 1 <= a <= 3) l -> (4 * length l <= fuel)%nat -> suites_ok fuel (mjoin (suite <$> l)) = true.
Proof.
  intros Hl. revert fuel. induction Hl as [|a l Ha Hl IH]; intros fuel Hf; [by destruct fuel|].
  destruct fuel as [|fuel]; [simpl in Hf; lia|]. cbn. rewrite IH by (simpl in Hf; lia).
  assert (a = 1 \/ a = 2 \/ a = 3) as [-> |[-> | ->]] by lia; done.
Qed.

Lemma suites_ok_inv fuel l :
  suites_ok fuel l = true -> exists aeads, l = mjoin (suite <$> aeads) /\ Forall (fun a => 1 <= a <= 3) aeads.
Proof.
  revert l. induction fuel as [|fuel IH]; intros [|a [|b [|c [|d l]]]]; try done;
    try (intros _; by exists []); try (cbn [suites_ok take]; rewrite ?bool_decide_false by done; done).
  1-2: cbn [suites_ok take drop existsb]; rewrite ?firstn_O, !andb_true_iff, !orb_true_iff, !bool_decide_eq_true;
    intros [[_ Ha] _]; repeat (destruct Ha as [Ha|Ha]); done.
  - cbn [suites_ok take drop]. rewrite !andb_true_iff. intros [[Hs Ha] Hl]. bprop. injection Hs as -> ->.
    rewrite drop_0 in Hl. apply IH in Hl as (aeads & -> & Hall). cbn [existsb] in Ha. rewrite firstn_O in Ha.
    rewrite !orb_true_iff, !bool_decide_eq_true in Ha.
    destruct Ha as [[= -> ->]|[[= -> ->]|[[= -> ->]|?]]]; [exists (1 :: aeads)|exists (2 :: aeads)|exists (3 :: aeads)|done];
      (split; [done|constructor; [lia|done]]).
Qed.

(** ** One configuration *)

Lemma hostname_ascii s :
  hostname_valid (VStr s) = true -> Forall (fun c => ord c < 128) (chars s) /\ (length (chars s) <= 253)%nat.
Proof.
  unfold hostname_valid. cbn [is_str negb str_of orb]. destruct (dns_name s) eqn:Hd; [|done]. intros _.
  unfold dns_name in Hd. apply andb_true_iff in Hd as [Hl Hm]. split; [|by apply Nat.leb_le].
  eapply fullmatch_within; [|exact Hm].
  assert (forall c, name_inner c = true -> ord c < 128) as Hi.
  { intros c. unfold name_inner, name_char, is_lower, is_digit, between.
    rewrite !orb_true_iff, !andb_true_iff, !Z.leb_le. intros [[|]|Hc]; [lia|lia|].
    unfold one_of in Hc. bprop. apply list_elem_of_singleton in Hc as ->. done. }
  assert (forall c, name_char c = true -> ord c < 128) as Hc.
  { intros c Hc. apply Hi. unfold name_inner. by rewrite Hc. }
  repeat split; try exact Hi; try exact Hc. intros c Hd. by bprop; subst.
Qed.

Lemma ascii_text_Some l s : bytes_wf l -> ascii_text l = Some s <-> l = ord <$> chars s /\ Forall (fun c => ord c < 128) (chars s).
Proof.
  intros Hl. unfold ascii_text. split.
  - destruct (forallb _ l) eqn:Hf; [|done]. intros [= <-]. rewrite chars_of_chars, ord_chr_map by done.
    split; [done|]. apply Forall_fmap. apply forallb_true in Hf.
    apply Forall_forall. intros b Hb. cbn. rewrite ord_chr.
    + eapply Forall_forall in Hf; [|exact Hb]. cbn in Hf. by bprop.
    + by eapply Forall_forall in Hl.
  - intros [-> Hs]. assert (forallb (fun b => b <? 128) (ord <$> chars s) = true) as ->.
    { apply forallb_true, Forall_fmap. eapply Forall_impl; [exact Hs|]. intros c Hc. cbn. by apply Z.ltb_lt. }
    by rewrite chr_ord_map, of_chars_chars.
Qed.

Lemma suites_length l : length (mjoin (suite <$> l)) = (4 * length l)%nat.
Proof.
  induction l as [|a l IH]; [done|].
  change (mjoin (suite <$> (a :: l))) with (suite a ++ mjoin (suite <$> l)).
  rewrite length_app, IH. simpl. lia.
Qed.

Lemma parse_config_encode ids e r :
  ech_wf e -> e_id e ∉ ids -> parse_config ids (encode_config e ++ r) = Some (e_id e, e_name e, r).
Proof.
  intros [Hid [Hpl Hpb] [Hane Ha] Hm Hn Hsz] Hids. unfold parse_config, encode_config.
  rewrite <-app_assoc. change (drop 2 ([0xfe; 0x0d] ++ vec2 (encode_body e) ++ r)) with (vec2 (encode_body e) ++ r).
  change (take 2 ([0xfe; 0x0d] ++ vec2 (encode_body e) ++ r)) with [0xfe; 0x0d].
  rewrite vector_vec2 by done. cbn [mbind option_bind]. cbv beta iota.
  assert (length (mjoin (suite <$> e_aeads e)) = (4 * length (e_aeads e))%nat) as Hsl by apply suites_length.
  assert (4 * Z.of_nat (length (e_aeads e)) < 65536) as Hs4.
  { unfold encode_body in Hsz. rewrite !length_app, !vec2_length in Hsz. rewrite Hsl in Hsz. lia. }
  unfold encode_body. set (tail1 := vec2 (e_public e) ++ _).
  change (take 2 (drop 1 ([e_id e; 0; 32] ++ tail1))) with [0; 32].
  change (head ([e_id e; 0; 32] ++ tail1)) with (Some (e_id e)).
  change (drop 3 ([e_id e; 0; 32] ++ tail1)) with tail1.
  rewrite !bool_decide_true by done. rewrite bool_decide_false by done. cbn [default negb orb app length Nat.ltb Nat.leb].
  subst tail1. rewrite vector_vec2 by lia. cbn [mbind option_bind]. cbv beta iota.
  rewrite vector_vec2 by (rewrite Hsl; lia). cbn [mbind option_bind]. cbv beta iota.
  rewrite Hpl, Hsl. assert (Nat.eqb (4 * length (e_aeads e)) 0 = false) as ->.
  { apply Nat.eqb_neq. destruct (e_aeads e); [done|simpl; lia]. }
  rewrite (Nat.mul_comm 4), Nat.Div0.mod_mul. cbn [negb orb Nat.eqb app length].
  rewrite suites_ok_encode by (done || lia). cbn [negb].
  destruct (hostname_ascii _ Hn) as [Has Hnl].
  change (drop 1 (e_max e :: vec1 (ord <$> chars (e_name e)) ++ vec2 [])) with (vec1 (ord <$> chars (e_name e)) ++ vec2 []).
  rewrite vector_vec1 by (rewrite length_fmap; lia). cbn [mbind option_bind]. cbv beta iota.
  change (vector (vec2 []) 2) with (Some (@nil Z, @nil Z)). cbn [mbind option_bind]. cbv beta iota.
  rewrite (proj2 (ascii_text_Some (ord <$> chars (e_name e)) (e_name e) (ord_bytes_wf _))) by done.
  cbn [mbind option_bind]. by rewrite Hn.
Qed.

Lemma bytes_wf_app a b : bytes_wf (a ++ b) <-> bytes_wf a /\ bytes_wf b.
Proof. apply Forall_app. Qed.
Lemma bytes_wf_vec2 l : bytes_wf (vec2 l) -> bytes_wf l.
Proof. intros H. by apply Forall_cons in H as [_ [_ H]%Forall_cons]. Qed.
Lemma bytes_wf_vec1 l : bytes_wf (vec1 l) -> bytes_wf l.
Proof. intros H. by apply Forall_cons in H as [_ H]. Qed.

(** [vec_step H]: read one length-prefixed string off the front. *)
Ltac vec_step H a b :=
  match type of H with
  | vector _ 2 ≫= _ = Some _ =>
      let Hv := fresh "Hv" in
      destruct (vector _ 2) as [[a b]|] eqn:Hv in H; [|discriminate H];
      apply vector_2_inv in Hv as [? ?]; [|done]; cbn [mbind option_bind] in H; cbv beta iota in H
  | vector _ 1 ≫= _ = Some _ =>
      let Hv := fresh "Hv" in
      destruct (vector _ 1) as [[a b]|] eqn:Hv in H; [|discriminate H];
      apply vector_1_inv in Hv as [? ?]; [|done]; cbn [mbind option_bind] in H; cbv beta iota in H
  end.

(** The first three bytes of a body. *)
Lemma body_head body :
  Nat.ltb (length body) 3 = false -> take 2 (drop 1 body) = [0; 0x20] ->
  exists id rest, body = [id; 0; 0x20] ++ rest.
Proof.
  destruct body as [|x [|y [|z rest]]]; try done. cbn [drop take]. rewrite ?drop_0, ?firstn_O.
  intros _ [= -> ->]. by exists x, rest.
Qed.

Lemma parse_config_inv ids configs id name r :
  bytes_wf configs -> parse_config ids configs = Some (id, name, r) ->
  exists e, ech_wf e /\ configs = encode_config e ++ r /\ id = e_id e /\ name = e_name e /\ id ∉ ids /\ bytes_wf r.
Proof.
  intros Hwf. pose proof (take_drop 2 configs) as Htd. rewrite <-Htd in Hwf. apply bytes_wf_app in Hwf as [_ Hwd].
  unfold parse_config. intros H. vec_step H body rest.
  match goal with E : drop 2 configs = _ |- _ => rewrite E in Hwd, Htd end.
  apply bytes_wf_app in Hwd as [Hwb%bytes_wf_vec2 Hwr].
  destruct (_ || _ || _ || _) eqn:Hg1 in H; [discriminate H|].
  rewrite !orb_false_iff, !negb_false_iff, !bool_decide_eq_true, bool_decide_eq_false in Hg1.
  destruct Hg1 as [[[Hver Hlen] Hid] H20]. rewrite Hver in Htd. destruct (body_head _ Hlen H20) as (x & b1 & ->).
  change (default 0 (head ([x; 0; 32] ++ b1))) with x in *.
  change (drop 3 ([x; 0; 32] ++ b1)) with b1 in H.
  apply bytes_wf_app in Hwb as [Hx Hwb]. apply Forall_cons in Hx as [Hx _].
  vec_step H public b2. subst b1. apply bytes_wf_app in Hwb as [Hwp%bytes_wf_vec2 Hwb].
  vec_step H suites b3. subst b2. apply bytes_wf_app in Hwb as [Hws%bytes_wf_vec2 Hwb].
  destruct (_ || _ || _ || _) eqn:Hg2 in H; [discriminate H|].
  rewrite !orb_false_iff, !negb_false_iff, !Nat.eqb_eq, !Nat.eqb_neq in Hg2.
  destruct Hg2 as [[[Hpl Hsl] _] Hb3]. destruct (suites_ok (length suites) suites) eqn:Hsuites; [|discriminate H].
  apply suites_ok_inv in Hsuites as (aeads & -> & Haeads). cbn [negb] in H.
  destruct b3 as [|m b3]; [done|]. change (drop 1 (m :: b3)) with b3 in H. apply Forall_cons in Hwb as [Hm Hwb].
  vec_step H nm b4. subst b3. apply bytes_wf_app in Hwb as [Hwn%bytes_wf_vec1 Hwb].
  vec_step H ext b5. subst b4. destruct (ascii_text nm) as [host|] eqn:Hn; [|discriminate H].
  apply ascii_text_Some in Hn as [-> _]; [|done]. cbn [mbind option_bind] in H.
  destruct (_ || _ || _) eqn:Hg3 in H; [discriminate H|]. injection H as <- <- <-.
  rewrite !orb_false_iff, !negb_false_iff, !Nat.eqb_eq in Hg3. destruct Hg3 as [[Hb5 Hext] Hhost].
  apply nil_length_inv in Hb5, Hext. subst b5 ext.
  exists (Ech x public aeads m host).
  assert (encode_body (Ech x public aeads m host) = [x; 0; 32] ++ vec2 public ++ vec2 (mjoin (suite <$> aeads))
    ++ m :: vec1 (ord <$> chars host) ++ vec2 [] ++ []) as Hbody by (by rewrite app_nil_r).
  split_and!; try done.
  constructor; cbn [e_id e_public e_aeads e_max e_name]; try done.
  split; [by intros ->|done].
Qed.

(** ** The list *)

Lemma encode_config_length e : (0 < length (encode_config e))%nat.
Proof. unfold encode_config. rewrite length_app. simpl. lia. Qed.

Lemma encode_configs_cons e es : encode_configs (e :: es) = encode_config e ++ encode_configs es.
Proof. done. Qed.

Lemma encode_configs_nil es : [] = encode_configs es -> es = [].
Proof.
  destruct es as [|e es]; [done|]. rewrite encode_configs_cons. pose proof (encode_config_length e).
  destruct (encode_config e); [simpl in *; lia|done].
Qed.

Lemma parse_configs_iff fuel ids result configs names :
  bytes_wf configs -> (length configs <= fuel)%nat ->
  (length result <= 4)%nat ->
  parse_configs fuel ids result configs = Some names <->
  exists es, configs = encode_configs es /\ Forall ech_wf es /\ names = result ++ (e_name <$> es) /\
    NoDup (e_id <$> es) /\ Forall (fun e => e_id e ∉ ids) es /\ (length result + length es <= 4)%nat.
Proof.
  assert (forall (ids : list Z) (result : list string), (length result <= 4)%nat -> Some result = Some names <->
    exists es, [] = encode_configs es /\ Forall ech_wf es /\ names = result ++ (e_name <$> es) /\
      NoDup (e_id <$> es) /\ Forall (fun e => e_id e ∉ ids) es /\ (length result + length es <= 4)%nat) as Hnil.
  { clear. intros ids result Hres. split.
    - intros [= <-]. exists []. rewrite app_nil_r. split_and!; try done; [constructor|simpl; lia].
    - intros (es & ->%encode_configs_nil & _ & -> & _). by rewrite app_nil_r. }
  revert ids result configs. induction fuel as [|fuel IH]; intros ids result configs Hwf Hf Hres.
  - destruct configs as [|b configs]; [by apply Hnil|simpl in Hf; lia].
  - destruct configs as [|b configs]; [by apply Hnil|].
    remember (b :: configs) as l eqn:Hl. assert (parse_configs (S fuel) ids result l =
      (x ← parse_config ids l; let '(id, name, configs) := x in
       if Nat.leb 4 (length result) then None else parse_configs fuel (id :: ids) (result ++ [name]) configs)) as -> by by subst l.
    split.
    + destruct (parse_config ids l) as [[[id name] r]|] eqn:Hp; [|done]. cbn [mbind option_bind].
      apply parse_config_inv in Hp as (e & He & Hle & -> & -> & Hid & Hwr); [|done].
      destruct (Nat.leb_spec 4 (length result)); [done|]. intros Hr.
      apply IH in Hr as (es & -> & Hes & -> & Hnd & Hni & Hn); [|done| |rewrite length_app; simpl; lia].
      2: { pose proof (encode_config_length e). rewrite Hle, length_app in Hf. lia. }
      rewrite length_app in Hn. cbn [length] in Hn.
      exists (e :: es). split_and!; [done|by constructor| | |constructor; [done|]|simpl; lia].
      * rewrite <-app_assoc. done.
      * cbn. constructor; [|done]. intros Hin. apply list_elem_of_fmap in Hin as (e' & Heq & Hin').
        eapply Forall_forall in Hni; [|exact Hin']. rewrite <-Heq in Hni. apply Hni. left.
      * eapply Forall_impl; [exact Hni|]. intros e' Hne Hin. apply Hne. by right.
    + intros ([|e es] & Hc & Hes & -> & Hnd & Hni & Hn); [subst l; discriminate Hc|].
      rewrite encode_configs_cons in Hc. rewrite Hc.
      apply Forall_cons in Hes as [He Hes]. apply Forall_cons in Hni as [Hid Hni].
      cbn in Hnd. apply NoDup_cons in Hnd as [Hnin Hnd]. cbn [length] in Hn.
      rewrite parse_config_encode by done. cbn [mbind option_bind].
      destruct (Nat.leb_spec 4 (length result)); [lia|].
      pose proof (encode_config_length e). rewrite Hc in Hwf, Hf. rewrite length_app in Hf.
      apply bytes_wf_app in Hwf as [_ Hwf]. apply IH; [done|lia|rewrite length_app; simpl; lia|].
      exists es. split_and!; [done|done|by rewrite <-app_assoc|done| |rewrite length_app; simpl; lia].
      apply Forall_forall. intros e' Hin' Hin. apply elem_of_cons in Hin as [Heq|Hin].
      * apply Hnin. rewrite <-Heq. by apply list_elem_of_fmap_2.
      * by eapply Forall_forall in Hni.
Qed.

(** The texts [ech_config] admits: up to four well-formed configurations with
    distinct identifiers, length-prefixed and base64-encoded. *)
Definition ech_text (s : string) (es : list ech) : Prop :=
  1 <= py_len s <= 16384 /\ es <> [] /\ (length es <= 4)%nat /\ Forall ech_wf es /\ NoDup (e_id <$> es) /\
  Z.of_nat (length (encode_configs es)) < 65536 /\ bytes_wf (encode_configs es) /\
  chars s = b64encode standard (vec2 (encode_configs es)).

(** C31: [ech_config] accepts a text exactly when it is the canonical base64 of the
    wire encoding of one to four well-formed configurations (X25519 key of 32
    bytes, HKDF-SHA256 suites with a supported AEAD, a valid public host name,
    no extension) with distinct identifiers, and returns their public names in
    order. *)
Theorem ech_config_iff (s : string) (names : list string) :
  ech_config (VStr s) = Ok names <-> exists es, ech_text s es /\ names = e_name <$> es.
Proof.
  unfold ech_config, ech_text. rewrite of_option_Ok. cbn [is_str negb orb str_of].
  destruct ((1 <=? py_len s) && (py_len s <=? 16384)) eqn:Hl; cbn [negb].
  2: { split; [done|]. intros (es & (Hs & _) & _). apply andb_false_iff in Hl. rewrite !Z.leb_gt in Hl. lia. }
  apply andb_true_iff in Hl as [Hl1%Z.leb_le Hl2%Z.leb_le]. split.
  - destruct (canonical_b64 standard (chars s)) as [data|] eqn:Hd; [|done]. cbn [mbind option_bind].
    apply canonical_b64_Some in Hd as [Hb Hs]; [|apply _].
    destruct (vector data 2) as [[configs rest]|] eqn:Hv; [|done]. cbn [mbind option_bind].
    apply vector_2_inv in Hv as [-> Hsz]; [|done].
    destruct (negb (Nat.eqb (length rest) 0) || _) eqn:Hg; [done|].
    apply orb_false_iff in Hg as [Hr%negb_false_iff%Nat.eqb_eq%nil_length_inv Hc%Nat.eqb_neq]. subst rest.
    rewrite app_nil_r in *. apply bytes_wf_vec2 in Hb.
    intros Hp. apply parse_configs_iff in Hp as (es & -> & Hes & -> & Hnd & _ & Hn); [|done|lia|simpl; lia].
    exists es. split_and!; try done. by intros ->.
  - intros (es & (_ & Hne & Hn & Hes & Hnd & Hsz & Hb & Hs) & ->).
    assert (bytes_wf (vec2 (encode_configs es))) as Hbv.
    { unfold vec2. repeat constructor; [apply Z.div_pos; lia| | | |done].
      - apply Z.div_lt_upper_bound; lia.
      - apply Z.mod_pos_bound. lia.
      - apply Z.mod_pos_bound. lia. }
    rewrite (proj2 (canonical_b64_Some standard _ _) (conj Hbv Hs)). cbn [mbind option_bind].
    rewrite <-(app_nil_r (vec2 _)), vector_vec2 by done. cbn [mbind option_bind].
    assert (Nat.eqb (length (encode_configs es)) 0 = false) as ->.
    { apply Nat.eqb_neq. destruct es as [|e es]; [done|]. pose proof (encode_config_length e).
      rewrite encode_configs_cons, length_app. lia. }
    cbn [length Nat.eqb negb orb]. apply parse_configs_iff; [done|lia|simpl; lia|].
    exists es. split_and!; try done. apply Forall_true. by intros ? ?%not_elem_of_nil.
Qed.
