(* ===== verification/Url.v ===== *)
(** * URLs

    The part of [urllib.parse.urlsplit] the source uses, on a [str]: scheme,
    authority, path, query and fragment, with the [hostname] and [port] of the
    authority.  [None] is the [ValueError].  [netloc_ok] is the NFKC check of an
    authority outside ASCII (it is the Unicode database's, and never consulted
    for an ASCII authority). *)

From S2P Require Import Prelude PyValue PyStr Regex IPAddr.
#[local] Open Scope Z_scope.

Record url := Url {
  u_scheme : string; u_netloc : string; u_path : string; u_query : string; u_fragment : string
}.

Definition scheme_char (c : ascii) : bool := is_alnum c || one_of "+-." c.

(** The part of a list before the first [c], and what follows it. *)
Definition cut (c : ascii) (l : list ascii) : list ascii * option (list ascii) :=
  let '(a, found, b) := partition_chars c l in (a, if found then Some b else None).

Definition split_scheme (l : list ascii) : string * list ascii :=
  match l, cut ":" l with
  | c :: _, (scheme, Some rest) =>
      if is_alpha c && forallb scheme_char scheme then (lower (of_chars scheme), rest) else (""%string, l)
  | _, _ => (""%string, l)
  end.

Fixpoint take_until (f : ascii -> bool) (l : list ascii) : list ascii :=
  match l with [] => [] | c :: l => if f c then [] else c :: take_until f l end.

(** [v[a-fA-F0-9]+\..+] *)
Definition IPVFUTURE : re :=
  RCat (RLit "v") (RCat (RPlus (RCls is_hex)) (RCat (RLit ".") (RPlus (RCls (fun c => negb (ord c =? 10)))))).

Definition bracketed_host_ok (host : string) : bool :=
  if startswith host "v" then fullmatch IPVFUTURE host
  else match ip_address host with Some a => bool_decide (ip_ver a = V6) | None => false end.

(** The text after the last ["@"]: the host and port. *)
Definition hostinfo (netloc : string) : list ascii := default [] (last (split_chars "@" (chars netloc))).

(** [_check_bracketed_netloc] *)
Definition bracketed_netloc_ok (netloc : string) : bool :=
  match cut "[" (hostinfo netloc) with
  | (before, Some bracketed) =>
      let '(host, port) := cut "]" bracketed in
      bool_decide (before = [])
      && (match port with Some (c :: _) => bool_decide (c = ":"%char) | _ => true end)
      && bracketed_host_ok (of_chars host)
  | (_, None) => bracketed_host_ok (of_chars (cut ":" (hostinfo netloc)).1)
  end.

Section Urlsplit.
Context (netloc_ok : string -> bool).

(** [urlsplit(s)] *)
Definition urlsplit (s : string) : option url :=
  let l := filter (fun c => one_of (of_chars [chr 9; chr 10; chr 13]) c = false)
             (drop_while (fun c => ord c <=? 32) (chars s)) in
  let '(scheme, rest) := split_scheme l in
  let '(netloc, rest) :=
    match rest with
    | "/"%char :: "/"%char :: rest =>
        let n := take_until (one_of "/?#") rest in (of_chars n, drop (length n) rest)
    | _ => (""%string, rest)
    end in
  if xorb (contains_char "[" netloc) (contains_char "]" netloc) then None
  else if contains_char "[" netloc && negb (bracketed_netloc_ok netloc) then None
  else if negb (is_ascii netloc) && negb (netloc_ok netloc) then None
  else
    let '(rest, fragment) := cut "#" rest in
    let '(path, query) := cut "?" rest in
    Some (Url scheme netloc (of_chars path) (of_chars (default [] query)) (of_chars (default [] fragment))).
End Urlsplit.

(** The host and the port text of an authority. *)
Definition host_port (u : url) : list ascii * list ascii :=
  let info := hostinfo (u_netloc u) in
  match cut "[" info with
  | (_, Some bracketed) =>
      let '(host, rest) := cut "]" bracketed in
      (host, default [] (cut ":" (default [] rest)).2)
  | (_, None) => let '(host, port) := cut ":" info in (host, default [] port)
  end.

(** [url.hostname]; a zone identifier keeps its case. *)
Definition hostname (u : url) : option string :=
  match (host_port u).1 with
  | [] => None
  | host =>
      let '(name, zone) := cut "%" host in
      Some (lower (of_chars name) +:+ match zone with Some z => of_chars ("%"%char :: z) | None => "" end)%string
  end.

(** [url.port] *)
Definition url_port (u : url) : option (option Z) :=
  match (host_port u).2 with
  | [] => Some None
  | port =>
      if forallb is_digit port then
        let n := digits_val 10 port in if 65535 <? n then None else Some (Some n)
      else None
  end.

Definition has_userinfo (u : url) : bool := contains_char "@" (u_netloc u).

Example urlsplit_ex :
  urlsplit (fun _ => true) "https://Ex.org:8443/a?b#c" = Some (Url "https" "Ex.org:8443" "/a" "b" "c").
Proof. vm_compute. reflexivity. Qed.
Example urlsplit_v6 :
  (u ← urlsplit (fun _ => true) "https://[FE80::1%Eth0]:99"; hostname u) = Some "fe80::1%Eth0"%string.
Proof. vm_compute. reflexivity. Qed.
