(* ===== verification/TransportProfiles.v ===== *)
(** * Transport profiles

    [scripts/transport_semantics.py]: origins ([origin_valid]), the XHTTP
    endpoints and tuning ([xhttp_endpoints], [xhttp_tuning], [xhttp_errors]),
    the Hysteria port hopping policy with its Go durations, and the composition
    of all admissions ([transport_errors]). *)

From stdpp Require Import sorting.
From S2P Require Import Prelude PyValue PyStr Regex Base64 IPAddr Url AwgProfile AwgContract TransportIdentity EchConfig.
#[local] Open Scope Z_scope.

(** [s.strip() != ""]: some character is not white space. *)
Fixpoint skip_prefixes (ws : list (list ascii)) (l : list ascii) : option (list ascii) :=
  match ws with
  | [] => None
  | w :: ws => match strip_prefix w l with Some r => Some r | None => skip_prefixes ws l end
  end.
Definition skip_space (l : list ascii) : option (list ascii) :=
  match l with
  | c :: r => if is_space c then Some r else skip_prefixes (map (map chr) unicode_spaces) l
  | [] => None
  end.
Fixpoint lstrip (fuel : nat) (l : list ascii) : list ascii :=
  match fuel with
  | O => l
  | S fuel => match skip_space l with Some r => lstrip fuel r | None => l end
  end.
Definition blank (l : list ascii) : bool := match lstrip (length l) l with [] => true | _ => false end.

Section Origin.
Context (netloc_ok : string -> bool).

(** [origin_valid] *)
Definition origin_valid (v : value) : bool :=
  if negb (is_str v) || any_char (fun c => ord c <? 33) (str_of v) then false
  else match urlsplit netloc_ok (str_of v) with
  | None => false
  | Some u =>
      match hostname u with
      | None => false
      | Some host =>
          let authority :=
            match ip_address host with
            | Some a => Some (match ip_ver a with V6 => "[" +:+ ip_str a +:+ "]" | V4 => ip_str a end)%string
            | None => if dns_name host then Some host else None
            end in
          match authority, url_port u with
          | Some authority, Some port =>
              bool_decide (u_scheme u = "https"%string) && negb (has_userinfo u)
              && bool_decide (u_path u = ""%string) && bool_decide (u_query u = ""%string)
              && bool_decide (u_fragment u = ""%string)
              && match port with None => true | Some p => (1 <=? p) && (p <=? 65535) end
              && bool_decide (str_of v = ("https://" +:+ authority +:+
                    match port with
                    | None => "" | Some p => if (p =? 443)%Z then "" else ":" +:+ str_of_Z p
                    end)%string)
          | _, _ => false
          end
      end
  end.
End Origin.

(** ** XHTTP *)

(** [xhttp_tuning] *)
Definition xhttp_tuning (raw : dict) : res (list (string * value)) :=
  match dget "xhttp_tuning" raw with
  | None => Ok []
  | Some tuning =>
      let t := dict_of tuning in
      raise_if (negb (py_eq (field raw "version") (VStr "v26.10.31")) || negb (is_dict tuning)
                || negb (same_set (keys t) ["profile"; "max_connections"]%string)
                || negb (py_eq (field t "profile") (VStr "bounded-pool"))
                || negb (py_eq (get_default raw "xhttp_mode" (VStr "auto")) (VStr "stream-up"))
                || negb (type_is_int (field t "max_connections"))
                || negb ((1 <=? int_of (field t "max_connections")) && (int_of (field t "max_connections") <=? 4)))
        (value_error "invalid-xhttp-tuning") ;;;
      Ok [("maxConnections", field t "max_connections"); ("hMaxRequestTimes", VInt 0);
          ("hMaxReusableSecs", VInt 0); ("cMaxReuseTimes", VInt 0)]%string
  end.

(** [{**context.get(k, {}), **doc.get(k, {})}] *)
Definition star (v : value) : res dict :=
  match v with VDict d => Ok d | _ => Raise (Exn TypeError "not a mapping") end.
Definition overlay (context doc : dict) (k : string) : res dict :=
  let* a := star (get_default context k (VDict [])) in
  let* b := star (get_default doc k (VDict [])) in
  Ok (dmerge a b).

Record endpoint := Endpoint { ep_name : string; ep_host : value; ep_port : value }.

Definition nonblank (v : value) : bool := is_str v && negb (blank (chars (str_of v))).

(** [xhttp_endpoints] *)
Definition xhttp_endpoints (doc context : dict) : res (list endpoint) :=
  let* frontend := overlay context doc "nginx_xhttp" in
  let primary := Endpoint "primary" (field frontend "server_name") (get_default context "nginx_xhttp_public_port" (VInt 8443)) in
  let* _ := served_origin (ep_host primary) (ep_port primary) in
  let enabled := get_default frontend "fallback_enabled" (VBool false) in
  raise_if (negb (is_bool enabled)) (value_error "invalid-xhttp-alternate") ;;;
  let* _ := match dget "acme" frontend with
  | None => Ok tt
  | Some acme =>
      let* _ := managed_http_acme acme (ep_host primary) in
      raise_if (bool_of enabled || mem "cert_pem" (keys frontend) || mem "key_pem" (keys frontend))
        (value_error "conflicting-xhttp-tls-authority")
  end in
  if negb (bool_of enabled) then Ok [primary]
  else
    let alternate := Endpoint "alternate" (get_default frontend "fallback_server_name" (ep_host primary))
                       (get_default context "nginx_xhttp_fallback_port" (VInt 2083)) in
    let* _ := served_origin (ep_host alternate) (ep_port alternate) in
    let* cdn := overlay context doc "cdn_front" in
    let reserved := [ep_port primary; get_default context "xray_port" (VInt 443);
                     get_default context "xray_fallback_port" (VInt 0);
                     get_default cdn "port" (get_default context "cdn_front_port" (VInt 8443))] in
    raise_if (existsb (fun p => py_eq (ep_port alternate) p) reserved) (value_error "invalid-xhttp-alternate") ;;;
    raise_if (negb (py_eq (ep_host alternate) (ep_host primary))
              && negb (nonblank (field frontend "fallback_cert_pem") && nonblank (field frontend "fallback_key_pem")))
      (value_error "missing-xhttp-alternate-tls") ;;;
    Ok [primary; alternate].

Definition XHTTP_MODES : list string := ["auto"; "packet-up"; "stream-up"]%string.

Section XhttpErrors.
Context (netloc_ok : string -> bool).

(** [xhttp_errors] *)
Definition xhttp_errors (doc context : dict) : list diag :=
  let raw := get_default doc "xray" (VDict []) in
  let path_errors :=
    if negb (is_dict raw) || negb (xhttp_path_valid (field (dict_of raw) "xhttp_path"))
    then [("xray.xhttp_path", "must be a bounded nonroot path of slash-separated alphanumeric underscore or dash segments")%string]
    else if py_eq (field (dict_of raw) "xhttp_path") (VStr PUBLISHED_XHTTP_PATH)
    then [("xray.xhttp_path", "must not be the published example path; generate a random one")%string] else [] in
  let mode_errors :=
    if truthy raw && is_dict raw
       && negb (existsb (fun m => py_eq (get_default (dict_of raw) "xhttp_mode" (VStr "auto")) (VStr m)) XHTTP_MODES)
    then [("xray.xhttp_mode", "must be an admitted XHTTP mode")%string] else [] in
  let tuning_errors :=
    if is_dict raw && negb (is_ok (xhttp_tuning (dict_of raw)))
    then [("xray.xhttp_tuning", "requires exact qualified engine and bounded typed fields")%string] else [] in
  let endpoint_errors :=
    if (truthy (field doc "nginx_xhttp") || truthy (field context "nginx_xhttp")) && negb (is_ok (xhttp_endpoints doc context))
    then [("nginx_xhttp", "invalid direct endpoint identity port or alternate TLS authority")%string] else [] in
  let origin := field context "public_site_canonical_url" in
  let origin_errors :=
    if is_none origin then []
    else
      let expected :=
        let* server_name := get (get_default doc "nginx_xhttp" (VDict [])) "server_name" in
        served_origin server_name (get_default context "nginx_xhttp_public_port" (VInt 8443)) in
      match expected with
      | Ok expected =>
          if negb (origin_valid netloc_ok origin) || negb (py_eq origin (VStr expected))
          then [("public_site_canonical_url", "must match the served primary HTTPS host and port")%string] else []
      | Raise _ => [("public_site_canonical_url", "must match the served primary HTTPS host and port")%string]
      end in
  path_errors ++ mode_errors ++ tuning_errors ++ endpoint_errors ++ origin_errors.
End XhttpErrors.

(** ** Hysteria port hopping *)

Definition hopping_error : exn := value_error "invalid-hysteria-hopping".

(** [[0-9]+[:-][0-9]+] *)
Definition port_separator (c : ascii) : bool := one_of ":-" c.
Definition PORT_RANGE : re :=
  RCat (RPlus (RCls is_digit)) (RCat (RCls port_separator) (RPlus (RCls is_digit))).
(** [[0-9]+[smh]] *)
Definition HOP_INTERVAL : re := RCat (RPlus (RCls is_digit)) (RCls (one_of "smh")).

Fixpoint split_by (f : ascii -> bool) (l : list ascii) : list (list ascii) :=
  match l with
  | [] => [[]]
  | c :: l =>
      if f c then [] :: split_by f l
      else match split_by f l with p :: ps => (c :: p) :: ps | [] => [[c]] end
  end.

Definition unit_ms (c : ascii) : Z :=
  if decide (c = "s"%char) then 1000 else if decide (c = "m"%char) then 60000 else 3600000.

(** A validated policy: the port range and the interval text. *)
Record hopping := Hopping { hp_lower : Z; hp_upper : Z; hp_interval : string }.
(** [f'{lower}:{upper}'] *)
Definition hopping_ports (h : hopping) : string := (str_of_Z (hp_lower h) +:+ ":" +:+ str_of_Z (hp_upper h))%string.

(** [hysteria_port_hopping] *)
Definition hysteria_port_hopping (ports interval : value) : res hopping :=
  raise_if (negb (is_str ports) || (11 <? py_len (str_of ports)) || negb (fullmatch PORT_RANGE (str_of ports))) hopping_error ;;;
  let bounds := digits_val 10 <$> split_by port_separator (chars (str_of ports)) in
  let lower := default 0 (head bounds) in
  let upper := default 0 (last bounds) in
  raise_if (negb ((1 <=? lower) && (lower <=? upper) && (upper <=? 65535))) hopping_error ;;;
  raise_if (negb (is_str interval) || (32 <? py_len (str_of interval)) || negb (fullmatch HOP_INTERVAL (str_of interval)))
    hopping_error ;;;
  let l := chars (str_of interval) in
  let milliseconds := digits_val 10 (removelast l) * unit_ms (List.last l "s"%char) in
  raise_if (negb ((5000 <=? milliseconds) && (milliseconds <=? 9223372036854))) hopping_error ;;;
  Ok (Hopping lower upper (str_of interval)).

(** The units of a Go duration, in the order the pattern tries them, in
    nanoseconds. *)
Definition GO_UNITS : list (list ascii * Z) :=
  [(chars "ns", 1); (chars "us", 1000); ([chr 0xC2; chr 0xB5; "s"%char], 1000); ([chr 0xCE; chr 0xBC; "s"%char], 1000);
   (chars "ms", 1000000); (chars "s", 1000000000); (chars "m", 60000000000); (chars "h", 3600000000000)].

Definition go_unit (l : list ascii) : option (Z * list ascii) :=
  head (omap (fun u => r ← strip_prefix u.1 l; Some (u.2, r)) GO_UNITS).

(** One match of the duration pattern at the head of the text, as a number of
    nanoseconds; [None] when nothing matches there or the value has a fraction
    of a nanosecond. *)
Definition go_component (l : list ascii) : option (Z * list ascii) :=
  let '(whole, rest) := span_chars is_digit l in
  let '(fraction, rest) :=
    match rest with
    | "."%char :: rest' =>
        let '(f, r) := span_chars is_digit rest' in
        if Nat.eqb (length whole) 0 && Nat.eqb (length f) 0 then ([], rest) else (f, r)
    | _ => ([], rest)
    end in
  if Nat.eqb (length whole) 0 && Nat.eqb (length fraction) 0 then None
  else
    x ← go_unit rest;
    let '(unit, rest) := x in
    let scaled := digits_val 10 (whole ++ fraction) * unit in
    let denominator := 10 ^ Z.of_nat (length fraction) in
    if scaled mod denominator =? 0 then Some (scaled / denominator, rest) else None.

(** The loop over the matches; each consumes a character. *)
Fixpoint go_components (fuel : nat) (total : Z) (l : list ascii) : option Z :=
  match l, fuel with
  | [], _ => Some total
  | _, O => None
  | _, S fuel => x ← go_component l; go_components fuel (total + x.1) x.2
  end.

(** [_hysteria_hop_milliseconds]: exact, without rounding. *)
Definition hysteria_hop_milliseconds (raw : value) : res Z :=
  let l := chars (str_of raw) in
  raise_if (negb (is_str raw) || negb (Nat.leb 1 (length l) && Nat.leb (length l) 128)) hopping_error ;;;
  let* total := of_option (go_components (length l) 0 l) hopping_error in
  raise_if (negb (total mod 1000000 =? 0)
            || negb ((5000 <=? total / 1000000) && (total / 1000000 <=? 9223372036854))) hopping_error ;;;
  Ok (total / 1000000).

(** [[0-9]{1,5}(?::[0-9]{1,5})?] *)
Definition SERVER_PORTS : re :=
  RCat (RClsRep is_digit 1 5) (ROpt (RCat (RLit ":") (RClsRep is_digit 1 5))).

Definition server_range (v : value) : res (Z * Z) :=
  raise_if (negb (fullmatch SERVER_PORTS (str_of v))) hopping_error ;;;
  let bounds := digits_val 10 <$> split_chars ":" (chars (str_of v)) in
  let lower := default 0 (head bounds) in
  let upper := default 0 (last bounds) in
  raise_if (negb ((1 <=? lower) && (lower <=? upper) && (upper <=? 65535))) hopping_error ;;;
  Ok (lower, upper).

Definition range_le (a b : Z * Z) : Prop := a.1 < b.1 \/ a.1 = b.1 /\ a.2 <= b.2.
#[export] Instance range_le_dec : RelDecision range_le.
Proof. intros a b. unfold range_le. apply _. Defined.

(** [merged], kept in reverse: the last interval is at the head. *)
Definition merge_range (merged : list (Z * Z)) (r : Z * Z) : list (Z * Z) :=
  match merged with
  | last :: rest => if r.1 <=? last.2 + 1 then (last.1, Z.max last.2 r.2) :: rest else r :: merged
  | [] => [r]
  end.
Definition merge_ranges (ranges : list (Z * Z)) : list (Z * Z) :=
  rev (foldl merge_range [] (merge_sort range_le ranges)).

(** [hysteria_hopping_matches] *)
Definition hysteria_hopping_matches (outbound : dict) (ports interval : value) : res bool :=
  if negb (existsb (fun k => has_key k outbound) ["server_ports"; "hop_interval"; "hop_interval_max"]%string) then Ok true
  else
    let raw := field outbound "server_ports" in
    let values := if is_str raw then VList [raw] else raw in
    let l := list_of values in
    raise_if (negb (is_list values) || negb ((1 <=? Z.of_nat (length l)) && (Z.of_nat (length l) <=? 65535))
              || negb (forallb is_str l)
              || (1048576 <? foldr (fun v n => py_len (str_of v) + n) 0 l + Z.of_nat (length l) - 1)) hopping_error ;;;
    let* ranges := mapM_res server_range l in
    let merged := merge_ranges ranges in
    let* minimum := hysteria_hop_milliseconds (get_default outbound "hop_interval" (VStr "30s")) in
    let* maximum := match dget "hop_interval_max" outbound with
                    | Some v => hysteria_hop_milliseconds v | None => Ok minimum end in
    let* expected := hysteria_port_hopping ports interval in
    let* own := hysteria_hop_milliseconds (VStr (hp_interval expected)) in
    Ok (bool_decide (merged = [(hp_lower expected, hp_upper expected)])
        && (minimum =? maximum) && (maximum =? own)).

(** ** Hysteria bandwidth *)

Definition SPACE : re :=
  foldr (fun w r => RAlt (RLit_chars (chr <$> w)) r) (RCls is_space) unicode_spaces.
Definition rate_unit : re := RAlt (RLit "bps") (RAlt (RLit "kbps") (RAlt (RLit "mbps") (RLit "gbps"))).
(** [([1-9][0-9]* )\s*(bps|kbps|mbps|gbps)] *)
Definition RATE : re :=
  RCat (RCat (RCls (between 49 57)) (RStar (RCls is_digit))) (RCat (RStar SPACE) rate_unit).

(** The rate in bits per second of a matching text. *)
Definition rate_value (s : string) : Z :=
  digits_val 10 (span_chars is_digit (chars s)).1 *
  (if endswith s "kbps" then 1000 else if endswith s "mbps" then 1000000
   else if endswith s "gbps" then 1000000000 else 1).

Definition rate (v : value) : option Z :=
  if is_str v && (py_len (str_of v) <=? 32) && fullmatch RATE (str_of v)
  then let r := rate_value (str_of v) in if 1000000000 <? r then None else Some r
  else None.

(** [hysteria_client_bandwidth] *)
Definition hysteria_client_bandwidth (raw : dict) : res (list (string * Z)) :=
  if negb (py_eq (get_default raw "resource_profile" (VStr "bandwidth-capped")) (VStr "bandwidth-capped")) then Ok []
  else mapM_res (fun '(target, name, dflt) =>
         let* r := of_option (rate (get_default raw name (VStr dflt))) (value_error "invalid-hysteria-bandwidth") in
         Ok (target, (r + 999999) / 1000000))
       [("up_mbps", "bandwidth_down", "200 mbps"); ("down_mbps", "bandwidth_up", "100 mbps")]%string.

Example hop_ex : hysteria_hop_milliseconds (VStr "1m2.5s") = Ok 62500 /\ hysteria_hop_milliseconds (VStr "5.0000001s") = Raise hopping_error
  /\ hysteria_hop_milliseconds (VStr ".5m") = Ok 30000 /\ hysteria_hop_milliseconds (VStr "30") = Raise hopping_error.
Proof. vm_compute. auto. Qed.
Example hopping_ex : hysteria_port_hopping (VStr "20000-50000") (VStr "30s") = Ok (Hopping 20000 50000 "30s").
Proof. vm_compute. reflexivity. Qed.
Example matches_ex :
  hysteria_hopping_matches [("server_ports", VList [VStr "300:400"; VStr "200:310"; VStr "401"]); ("hop_interval", VStr "0.5m")]%string
    (VStr "200:401") (VStr "30s") = Ok true.
Proof. vm_compute. reflexivity. Qed.
Example bandwidth_ex : hysteria_client_bandwidth [] = Ok [("up_mbps", 200); ("down_mbps", 100)]%string.
Proof. vm_compute. reflexivity. Qed.

(** ** Merging sorted ranges *)

Definition covers (ranges : list (Z * Z)) (p : Z) : Prop := exists r, r ∈ ranges /\ r.1 <= p <= r.2.
Definition proper (r : Z * Z) : Prop := r.1 <= r.2.

(** Descending, with a gap between any two intervals. *)
Definition separated (m : list (Z * Z)) : Prop := StronglySorted (fun h n => n.2 + 1 < h.1) m.

Lemma covers_app a b p : covers (a ++ b) p <-> covers a p \/ covers b p.
Proof. unfold covers. setoid_rewrite elem_of_app. naive_solver. Qed.
Lemma covers_cons r b p : covers (r :: b) p <-> r.1 <= p <= r.2 \/ covers b p.
Proof. unfold covers. setoid_rewrite elem_of_cons. naive_solver. Qed.
Lemma covers_nil p : ~ covers [] p.
Proof. intros (r & ?%not_elem_of_nil & _). done. Qed.

#[export] Instance range_le_trans : Transitive range_le.
Proof. intros a b c. unfold range_le. lia. Qed.
#[export] Instance range_le_total : Total range_le.
Proof. intros a b. unfold range_le. lia. Qed.

(** What the merged list is after the ranges [d], when [l] remains. *)
Record merging (d l m : list (Z * Z)) : Prop := {
  mg_covers : forall p, covers m p <-> covers d p;
  mg_separated : separated m;
  mg_proper : Forall proper m;
  mg_before : forall h r, h ∈ m -> r ∈ l -> h.1 <= r.1
}.

Lemma merge_range_step d r l m :
  merging d (r :: l) m -> proper r -> Forall (fun x => r.1 <= x.1) l -> merging (d ++ [r]) l (merge_range m r).
Proof.
  intros [Hc Hs Hp Hb] Hr Hl. rewrite Forall_forall in Hl. unfold merge_range, proper in *.
  assert (forall x, covers [r] x <-> r.1 <= x <= r.2) as Hone.
  { intros x. rewrite covers_cons. pose proof (covers_nil x). tauto. }
  destruct m as [|h m].
  { split.
    - intros p. rewrite covers_app, <-Hc. pose proof (covers_nil p). tauto.
    - by repeat constructor.
    - by repeat constructor.
    - intros h x ->%list_elem_of_singleton Hx. by apply Hl. }
  assert (h.1 <= r.1) as Hhr by (apply Hb; left).
  apply StronglySorted_cons in Hs as [Hh Hs]. apply Forall_cons in Hp as [Hph Hp].
  destruct (Z.leb_spec r.1 (h.2 + 1)) as [Hle|Hgt].
  - split.
    + intros p. rewrite covers_app, <-Hc, Hone, !covers_cons. cbn [fst snd]. split.
      * intros [?|?]; [|by left; right]. destruct (Z.le_gt_cases p h.2); [left; left; lia|right; lia].
      * intros [[?|?]|?]; [left; lia|by right|left; lia].
    + constructor; [done|]. exact Hh.
    + constructor; [unfold proper; cbn [fst snd]; lia|done].
    + intros x y [-> |Hx]%elem_of_cons Hy; cbn [fst]; [|apply Hb; by right].
      apply Hb; [left|by right].
  - split.
    + intros p. rewrite covers_app, <-Hc, Hone, covers_cons. tauto.
    + constructor; [by constructor|]. constructor; [lia|]. eapply Forall_impl; [exact Hh|]. intros n ?. cbn in *. lia.
    + by repeat constructor.
    + intros x y [-> |Hx]%elem_of_cons Hy; [by apply Hl|apply Hb; [done|by right]].
Qed.

Lemma merge_fold l d m :
  merging d l m -> StronglySorted range_le l -> Forall proper l ->
  merging (d ++ l) [] (foldl merge_range m l).
Proof.
  revert d m. induction l as [|r l IH]; intros d m Hm Hs Hp; [by rewrite app_nil_r|].
  apply StronglySorted_cons in Hs as [Hr Hs]. apply Forall_cons in Hp as [Hpr Hp].
  replace (d ++ r :: l) with ((d ++ [r]) ++ l) by (by rewrite <-app_assoc). cbn [foldl].
  apply IH; [|done|done]. apply merge_range_step; [done|done|].
  eapply Forall_impl; [exact Hr|]. intros x Hx. unfold range_le in Hx. lia.
Qed.

(** The merged list is one interval exactly when the ranges cover it. *)
Lemma merge_ranges_interval ranges lo hi :
  ranges <> [] -> Forall proper ranges -> lo <= hi ->
  merge_ranges ranges = [(lo, hi)] <-> forall p, covers ranges p <-> lo <= p <= hi.
Proof.
  intros Hne Hp Hlh. unfold merge_ranges. set (s := merge_sort range_le ranges).
  assert (s ≡ₚ ranges) as Hperm by apply merge_sort_Permutation.
  assert (merging s [] (foldl merge_range [] s)) as [Hc Hs Hpm _].
  { apply (merge_fold s [] []).
    - split; [done|constructor|constructor|]. by intros ? ? ?%not_elem_of_nil.
    - apply StronglySorted_merge_sort; apply _.
    - by rewrite Hperm. }
  assert (forall p, covers (foldl merge_range [] s) p <-> covers ranges p) as Hcov.
  { intros p. rewrite Hc. unfold covers. by setoid_rewrite Hperm. }
  set (m := foldl merge_range [] s) in *. split.
  - intros Hm p. rewrite <-Hcov. apply (f_equal (@rev _)) in Hm. rewrite rev_involutive in Hm. rewrite Hm. cbn.
    rewrite covers_cons. pose proof (covers_nil p). cbn. tauto.
  - intros Hint. setoid_rewrite <-Hcov in Hint.
    destruct m as [|h m].
    { exfalso. apply (covers_nil lo). apply Hint. lia. }
    apply Forall_cons in Hpm as [Hh Hpm]. apply StronglySorted_cons in Hs as [Hhm Hs]. unfold proper in *.
    destruct m as [|n m].
    + pose proof (proj1 (Hint h.1)) as H1. pose proof (proj1 (Hint h.2)) as H2.
      pose proof (proj2 (Hint lo)) as H3. pose proof (proj2 (Hint hi)) as H4.
      assert (forall p, covers [h] p <-> h.1 <= p <= h.2) as Hone.
      { intros p. rewrite covers_cons. pose proof (covers_nil p). tauto. }
      rewrite Hone in *. destruct h as [a b]. cbn in *. assert (a = lo) by lia. assert (b = hi) by lia. by subst.
    + exfalso. apply Forall_cons in Hhm as [Hnh Hhm]. apply Forall_cons in Hpm as [Hn Hpm].
      apply StronglySorted_cons in Hs as [Hnm _]. cbn in Hnh.
      assert (lo <= n.2) by (apply Hint; rewrite !covers_cons; right; left; lia).
      assert (h.1 <= hi) by (apply Hint; rewrite !covers_cons; left; lia).
      assert (covers (h :: n :: m) (n.2 + 1)) as Hgap by (apply Hint; lia).
      rewrite !covers_cons in Hgap. destruct Hgap as [?|[?|(r & Hr & ?)]]; [lia|lia|].
      eapply Forall_forall in Hnm; [|exact Hr]. eapply Forall_forall in Hpm; [|exact Hr]. cbn in *. lia.
Qed.

Definition server_values (outbound : dict) : list value :=
  let raw := field outbound "server_ports" in if is_str raw then [raw] else list_of raw.

Lemma server_range_proper v r : server_range v = Ok r -> 1 <= r.1 /\ proper r /\ r.2 <= 65535.
Proof.
  unfold server_range, proper. intros H. res_inv H. apply negb_false_iff in Hg0.
  rewrite !andb_true_iff, !Z.leb_le in Hg0. subst r. cbn. tauto.
Qed.

Lemma hopping_proper ports interval h :
  hysteria_port_hopping ports interval = Ok h -> 1 <= hp_lower h <= hp_upper h /\ hp_upper h <= 65535.
Proof.
  unfold hysteria_port_hopping. intros H. res_inv H. apply negb_false_iff in Hg0.
  rewrite !andb_true_iff, !Z.leb_le in Hg0. subst h. cbn. tauto.
Qed.

(** When an outbound declares any hopping field and the comparison returns, it
    returns [true] exactly when the declared port ranges, whatever their order
    and overlaps, cover precisely the policy's ports and both hop intervals are
    exactly the policy's. *)
Theorem hopping_matches_exact (outbound : dict) (ports interval : value) (b : bool)
    (Hkey : existsb (fun k => has_key k outbound) ["server_ports"; "hop_interval"; "hop_interval_max"]%string = true)
    (H : hysteria_hopping_matches outbound ports interval = Ok b) :
  exists ranges h minimum maximum own,
    mapM_res server_range (server_values outbound) = Ok ranges /\
    hysteria_port_hopping ports interval = Ok h /\
    hysteria_hop_milliseconds (get_default outbound "hop_interval" (VStr "30s")) = Ok minimum /\
    match dget "hop_interval_max" outbound with
    | Some v => hysteria_hop_milliseconds v = Ok maximum | None => maximum = minimum end /\
    hysteria_hop_milliseconds (VStr (hp_interval h)) = Ok own /\
    (b = true <-> (forall p, covers ranges p <-> hp_lower h <= p <= hp_upper h) /\ minimum = own /\ maximum = own).
Proof.
  unfold hysteria_hopping_matches in H. rewrite Hkey in H. cbn [negb] in H.
  set (values := if is_str (field outbound "server_ports") then _ else _) in H.
  assert (list_of values = server_values outbound) as Hv.
  { subst values. unfold server_values. by destruct (is_str _). }
  apply raise_if_seq_Ok in H as [Hg H]. apply res_bind_Ok in H as (ranges & Hr & H).
  apply res_bind_Ok in H as (minimum & Hmin & H). apply res_bind_Ok in H as (maximum & Hmax & H).
  apply res_bind_Ok in H as (h & Hh & H). apply res_bind_Ok in H as (own & Hown & H). apply Ok_inj in H.
  rewrite Hv in *. exists ranges, h, minimum, maximum, own. split_and!; try done.
  { destruct (dget "hop_interval_max" outbound); [done|]. by apply Ok_inj in Hmax. }
  pose proof (hopping_proper _ _ _ Hh) as Hhp. pose proof Hr as Hrl. apply mapM_res_Ok in Hr.
  rewrite <-H, !andb_true_iff, bool_decide_eq_true, !Z.eqb_eq, merge_ranges_interval; [intuition congruence| | |lia].
  - intros ->. apply Forall2_length in Hr. rewrite !orb_false_iff, !negb_false_iff, !andb_true_iff, !Z.leb_le in Hg.
    simpl in Hr. lia.
  - apply Forall_forall. intros r Hin. apply list_elem_of_lookup_1 in Hin as [i Hi].
    eapply Forall2_lookup_r in Hi as (v & _ & Hvr); [|exact Hr]. by destruct (server_range_proper _ _ Hvr) as (_ & ? & _).
Qed.

Definition sample_outbound : dict :=
  [("server_ports", VList [VStr "300:400"; VStr "200:310"; VStr "401"]); ("hop_interval", VStr "0.5m")]%string.
Lemma hopping_matches_exact_witness :
  hysteria_hopping_matches sample_outbound (VStr "200:401") (VStr "30s") = Ok true /\
  exists ranges h, mapM_res server_range (server_values sample_outbound) = Ok ranges /\
    hysteria_port_hopping (VStr "200:401") (VStr "30s") = Ok h.
Proof.
  split; [vm_compute; reflexivity|].
  destruct (hopping_matches_exact sample_outbound (VStr "200:401") (VStr "30s") true
    ltac:(vm_compute; reflexivity) ltac:(vm_compute; reflexivity)) as (ranges & h & ? & ? & ? & Hr & Hh & _).
  exists ranges, h. split; [exact Hr|exact Hh].
Defined.

(** ** The served endpoints *)

Definition endpoint_ok (e : endpoint) : Prop :=
  exists host port, ep_host e = VStr host /\ dns_name host = true /\ ep_port e = VInt port /\ 1 <= port <= 65535.

Lemma served_origin_Ok host port o :
  served_origin host port = Ok o ->
  exists h p, host = VStr h /\ dns_name h = true /\ port = VInt p /\ 1 <= p <= 65535.
Proof.
  unfold served_origin. intros H. res_inv H.
  rewrite !orb_false_iff, !negb_false_iff, !andb_true_iff, !Z.leb_le in Hg. destruct Hg as [[[Hs Hd] Hi] Hp].
  apply is_str_true in Hs as [h ->]. apply type_is_int_true in Hi as [p ->]. by exists h, p.
Qed.

Lemma xhttp_endpoints_cases doc context eps :
  xhttp_endpoints doc context = Ok eps ->
  exists primary, endpoint_ok primary /\
    (eps = [primary] \/
     exists alternate, eps = [primary; alternate] /\ endpoint_ok alternate /\
       py_eq (ep_port alternate) (ep_port primary) = false /\
       py_eq (ep_port alternate) (get_default context "xray_port" (VInt 443)) = false /\
       py_eq (ep_port alternate) (get_default context "xray_fallback_port" (VInt 0)) = false).
Proof.
  unfold xhttp_endpoints. intros H. apply res_bind_Ok in H as (frontend & _ & H).
  apply res_bind_Ok in H as (o & Ho & H). apply raise_if_seq_Ok in H as [_ H]. apply res_bind_Ok in H as (u & _ & H).
  set (primary := Endpoint "primary" _ _) in *. exists primary. split.
  { apply served_origin_Ok in Ho as (h & p & Hh & Hd & Hp & Hr). by exists h, p. }
  destruct (negb (bool_of _)) in H; [apply Ok_inj in H; by left|]. right.
  apply res_bind_Ok in H as (o' & Ho' & H). apply res_bind_Ok in H as (cdn & _ & H).
  apply raise_if_seq_Ok in H as [Hres H]. apply raise_if_seq_Ok in H as [_ H]. apply Ok_inj in H.
  set (alternate := Endpoint "alternate" _ _) in *. exists alternate. split; [done|].
  cbn [existsb] in Hres. rewrite !orb_false_iff in Hres. destruct Hres as (R1 & R2 & R3 & _).
  split_and!; try done. apply served_origin_Ok in Ho' as (h & p & Hh & Hd & Hp & Hr). by exists h, p.
Qed.
