(* ===== verification/TransportAdmission.v ===== *)
(** * Transport admission

    [scripts/transport_semantics.py]: the ECH key file ([ech_keys_config]), the
    Hysteria admission and the composition of all transport checks
    ([transport_errors]).  X25519, SHA-256 and the Unicode check of a URL
    authority are parameters. *)

From S2P Require Import Prelude PyValue PyStr Regex Base64 IPAddr Url AwgProfile AwgContract TransportIdentity EchConfig TransportProfiles.
#[local] Open Scope Z_scope.

(** ** The ECH key file *)

Definition b64_text_char (c : ascii) : bool := is_alnum c || one_of "+/=" c.

(** The body of a PEM block up to its first ["-"], without its white space. *)
Fixpoint pem_body (fuel : nat) (l : list ascii) : list ascii * list ascii :=
  match fuel with
  | O => ([], l)
  | S fuel =>
      match skip_space l with
      | Some r => pem_body fuel r
      | None =>
          match l with
          | c :: r => if b64_text_char c then let '(b, rest) := pem_body fuel r in (c :: b, rest) else ([], l)
          | [] => ([], [])
          end
      end
  end.

(** One block of the given kind at the head of the text; the body is not empty,
    though it may be only white space. *)
Definition pem_block (kind : string) (l : list ascii) : option (list ascii * list ascii) :=
  l ← strip_prefix (chars ("-----BEGIN " +:+ kind +:+ "-----")%string) l;
  let '(body, rest) := pem_body (length l) l in
  if Nat.eqb (length rest) (length l) then None
  else rest ← strip_prefix (chars ("-----END " +:+ kind +:+ "-----")%string) rest; Some (body, rest).

(** The blocks of a key file: [ECH KEYS], then possibly [ECH CONFIGS], and
    nothing else but white space.  The search for blocks and the check that
    nothing remains admit exactly these texts, since a block is determined by
    its first line. *)
Definition pem_blocks (l : list ascii) : option (list ascii * option (list ascii)) :=
  x ← pem_block "ECH KEYS" (lstrip (length l) l);
  let '(keys, rest) := x in
  if blank rest then Some (keys, None)
  else
    x ← pem_block "ECH CONFIGS" (lstrip (length rest) rest);
    let '(configs, rest) := x in
    if blank rest then Some (keys, Some configs) else None.

Section Admission.
Context (netloc_ok : string -> bool).
Context (x25519_public : list Z -> list Z) (sha256_hex : list Z -> string).

(** The loop over the key records; each consumes at least 40 bytes. *)
Fixpoint key_records (fuel : nat) (verify_private : bool) (count : Z) (raw : list Z) : option (list Z) :=
  match raw, fuel with
  | [], _ => Some []
  | _, O => None
  | _, S fuel =>
      if Nat.ltb (length raw) 38 || negb (bool_decide (take 2 raw = [0; 0x20])) then None
      else
        let size := from_bytes (take 2 (drop 34 raw)) in
        if (size <? 4) || (Z.of_nat (length raw) <? 36 + size) || (4 <=? count) then None
        else if verify_private && negb (bool_decide (take 32 (drop 45 raw) = x25519_public (take 32 (drop 2 raw)))) then None
        else
          let n := Z.to_nat size in
          rest ← key_records fuel verify_private (count + 1) (drop (36 + n) raw);
          Some (take n (drop 36 raw) ++ rest)
  end.

(** [ech_keys_config] *)
Definition ech_keys_config (verify_private : bool) (pem : value) : res string :=
  of_option
    (if negb (is_str pem) || (32768 <? py_len (str_of pem)) then None
     else
       x ← pem_blocks (chars (str_of pem));
       let '(keys, configs_text) := x in
       raw ← b64decode standard keys;
       configs ← key_records (length raw) verify_private 0 raw;
       if Nat.eqb (length configs) 0 || (65536 <=? Z.of_nat (length configs)) then None
       else
         let config := vec2 configs in
         let encoded := of_chars (b64encode standard config) in
         if negb (is_ok (ech_config (VStr encoded))) then None
         else match configs_text with
         | Some text =>
             if decide (b64decode standard text = Some config) then Some encoded else None
         | None => Some encoded
         end)
    (value_error "invalid-ech-authority").

(** ** Hysteria *)

Definition RESOURCE_PROFILES : list string := ["bandwidth-capped"; "bbr-conservative"; "bbr-standard"]%string.
Definition ECH_FIELDS : list string :=
  ["profile"; "generation"; "inner_name"; "public_name"; "config_list"; "keys_pem"]%string.

(** The coordinated ECH authority of [hysteria_profile_errors]. *)
Definition ech_profile_ok (raw : dict) (ech : value) : bool :=
  let e := dict_of ech in
  let inner := field e "inner_name" in
  is_dict ech && same_set (keys e) ECH_FIELDS && py_eq (field e "profile") (VStr "ech-required")
  && py_eq (field raw "version") (VStr "v2.13.0")
  && negb (negb (is_bool (get_default raw "salamander_enabled" (VBool false)))
           || bool_of (get_default raw "salamander_enabled" (VBool false)))
  && match ech_config (field e "config_list") with
     | Raise _ => false
     | Ok names =>
         hostname_valid inner && negb (py_eq inner (field e "public_name"))
         && forallb (fun n => py_eq (VStr n) (field e "public_name")) names
         && match ech_keys_config true (field e "keys_pem") with
            | Ok config => py_eq (VStr config) (field e "config_list")
            | Raise _ => false
            end
         && match b64decode standard (chars (str_of (field e "config_list"))) with
            | Some data => py_eq (VStr (sha256_hex data)) (field e "generation")
            | None => false
            end
         && origin_valid netloc_ok (field raw "masquerade_url")
         && match urlsplit netloc_ok (str_of (field raw "masquerade_url")) with
            | Some u => match hostname u with Some h => py_eq (VStr h) inner | None => false end
            | None => false
            end
         && py_eq (get_default raw "server_name" inner) inner
     end.

(** [hysteria_profile_errors] *)
Definition hysteria_profile_errors (raw : dict) : list diag :=
  let tuning := field raw "resource_profile" in
  (if has_key "resource_profile" raw && negb (existsb (fun p => py_eq tuning (VStr p)) RESOURCE_PROFILES)
   then [("hysteria.resource_profile", "unsupported resource profile")%string] else [])
  ++ (if negb (is_none tuning) && negb (py_eq (field raw "version") (VStr "v2.13.0"))
      then [("hysteria.resource_profile", "exact supported runtime required")%string] else [])
  ++ omap (fun name =>
       let v := field raw name in
       if negb (is_none v) && match rate v with None => true | Some _ => false end
       then Some (dotted "hysteria" name, "bandwidth must be positive and at most 1 Gbps"%string) else None)
       ["bandwidth_up"; "bandwidth_down"]%string
  ++ match dget "ech" raw with
     | None => []
     | Some ech => if ech_profile_ok raw ech then []
                   else [("hysteria.ech", "invalid coordinated ECH authority or profile")%string]
     end.

Definition userpass_step (st : list diag * list string) (p : nat * value) : list diag * list string :=
  let '(errors, names) := st in
  let item := dict_of p.2 in
  let name := field item "name" in
  let password := field item "password" in
  if negb (is_str name) || negb (truthy name) || negb (is_str password) || negb (truthy password)
  then (errors ++ [(indexed "hysteria.clients" p.1, "invalid userpass client"%string)], names)
  else if mem (str_of name) names then (errors ++ [("hysteria.clients", "duplicate name")%string], names)
  else (errors, str_of name :: names).

Definition native_acme_ok (raw : dict) (acme : value) : bool :=
  is_ok (managed_http_acme acme (field raw "server_name"))
  && Nat.eqb (length (list_of (field (dict_of acme) "domains"))) 1
  && negb (existsb (fun k => has_key k raw) ["cert_pem"; "key_pem"; "ech"]%string).

(** [hysteria_errors] *)
Definition hysteria_errors (raw canonical_origin : value) : list diag :=
  if negb (is_dict raw) then [("hysteria", "must be a mapping")%string] else
  let d := dict_of raw in
  hysteria_profile_errors d
  ++ match dget "acme" d with
     | Some acme => if native_acme_ok d acme then []
         else [("hysteria.acme", "requires one fixed HTTP-01 identity and exclusive native TLS authority")%string]
     | None => []
     end
  ++ (if negb (py_eq (get_default d "masquerade_type" (VStr "proxy")) (VStr "proxy"))
      then [("hysteria.masquerade_type", "only owned HTTPS proxy is supported")%string] else [])
  ++ (if negb (origin_valid netloc_ok (field d "masquerade_url"))
      then [("hysteria.masquerade_url", "must be an HTTPS origin")%string] else [])
  ++ (if negb (is_none canonical_origin)
         && (negb (origin_valid netloc_ok canonical_origin) || negb (py_eq (field d "masquerade_url") canonical_origin))
      then [("hysteria.masquerade_url", "must match the owned canonical origin")%string] else [])
  ++ match dget "clients" d with
     | None => []
     | Some clients =>
         if negb (is_list clients) || negb (forallb is_dict (list_of clients))
         then [("hysteria.clients", "must be a client collection")%string]
         else (foldl userpass_step ([], []) (imap pair (list_of clients))).1
     end.

(** ** All transports *)

Definition PUBLIC_ORIGIN_TEMPLATE : string :=
  "https://{{ nginx_xhttp.server_name }}{{ ':' ~ nginx_xhttp_public_port if nginx_xhttp_public_port | int != 443 else '' }}".

(** The context with the repository's own origin expression resolved. *)
Definition resolve_origin (doc context : dict) : res dict :=
  if py_eq (field context "public_site_canonical_url") (VStr PUBLIC_ORIGIN_TEMPLATE) then
    let* server_name := get (get_default doc "nginx_xhttp" (VDict [])) "server_name" in
    let* origin := served_origin server_name (get_default context "nginx_xhttp_public_port" (VInt 8443)) in
    Ok (dset "public_site_canonical_url" (VStr origin) context)
  else Ok context.

(** The sections the profile, or else the document itself, calls for. *)
Definition default_sections (doc context : dict) : list string :=
  let vpn := field context "vpn" in
  (if is_dict vpn then
     (if runs_xray (dict_of vpn) then ["xray"%string] else [])
     ++ (if flag (dict_of vpn) "enable_amneziawg" false then ["awg"%string] else [])
     ++ (if runs_hysteria (dict_of vpn) then ["hysteria"%string] else [])
   else omap (fun p : string * string => if has_key p.2 doc then Some p.1 else None)
          [("xray", "xray"); ("awg", "amneziawg_secrets"); ("hysteria", "hysteria")]%string)
  ++ (if has_key "probe_matrix_target_secrets" doc then ["mtg"%string] else [])
  ++ (if has_key "transport_egress_secrets" doc || flag context "require_transport_egress" false then ["egress"%string] else []).

(** [transport_errors] *)
Definition transport_errors (allow_placeholders : bool) (doc context : value) (sections : option (list string)) : list diag :=
  if negb (is_dict doc) then [("transport", "must be a mapping")%string] else
  let d := dict_of doc in
  match resolve_origin d (dict_of context) with
  | Raise _ => [("public_site_canonical_url", "invalid served primary origin")%string]
  | Ok ctx =>
      let require_egress := flag ctx "require_transport_egress"
        (match sections with Some l => mem "egress" l | None => false end) in
      let selected := match sections with Some l => l | None => default_sections d ctx end in
      let on s := mem s selected in
      let vpn := field ctx "vpn" in
      let hysteria := field d "hysteria" in
      let acme := is_dict hysteria && has_key "acme" (dict_of hysteria) in
      let nginx := is_dict vpn && flag (dict_of vpn) "enable_nginx_xhttp" false in
      (if on "mtg"%string then mtg_errors allow_placeholders (field d "probe_matrix_target_secrets") else [])
      ++ (if on "xray"%string then cohort_errors allow_placeholders (field d "xray") else [])
      ++ (if is_dict vpn && flag (dict_of vpn) "enable_hysteria_realm" false && acme
          then [("hysteria.acme", "Realm requires supplied PEM authority; native ACME cannot supply it")%string] else [])
      ++ (if on "xhttp"%string || (on "xray"%string && (negb (is_dict vpn) || nginx)) || (on "hysteria"%string && nginx)
          then xhttp_errors netloc_ok d ctx else [])
      ++ (if on "awg"%string then awg_errors allow_placeholders d (field d "amneziawg_secrets") (field ctx "amneziawg") (field ctx "amneziawg_cohort") else [])
      ++ (if on "hysteria"%string then
            hysteria_errors hysteria (field ctx "public_site_canonical_url")
            ++ (if acme && is_dict vpn && flag (dict_of vpn) "enable_hysteria" false && nginx
                then [("hysteria.acme", "native HTTP-01 requires its own public TCP/80 listener")%string] else [])
          else [])
      ++ (if on "egress"%string then egress_errors require_egress allow_placeholders (field d "transport_egress_secrets") vpn else [])
  end.
End Admission.

(** ** Composition *)

Section Composition.
Context (netloc_ok : string -> bool) (x25519_public : list Z -> list Z) (sha256_hex : list Z -> string).

Lemma on_selected {A} (b : bool) (l : list A) : (if b then l else []) = [] -> b = true -> l = [].
Proof. by destruct b. Qed.

(** A deployment profile without transport diagnostics leaves no enabled
    transport unchecked: its Xray clients and cohorts, its AmneziaWG contract, its
    Hysteria section, the XHTTP front when nginx serves one, and the service
    credentials when the egress is required each pass their own check, for the
    context with the repository's origin expression resolved. *)
Theorem transport_complete (doc context : value) (d vpn : dict)
    (Hdoc : doc = VDict d)
    (H : transport_errors netloc_ok x25519_public sha256_hex false doc context None = []) :
  exists ctx, resolve_origin d (dict_of context) = Ok ctx /\
    (field ctx "vpn" = VDict vpn ->
     (runs_xray vpn = true -> cohort_errors false (field d "xray") = []) /\
     (flag vpn "enable_amneziawg" false = true ->
        awg_errors false d (field d "amneziawg_secrets") (field ctx "amneziawg") (field ctx "amneziawg_cohort") = []) /\
     (runs_hysteria vpn = true ->
        hysteria_errors netloc_ok x25519_public sha256_hex (field d "hysteria") (field ctx "public_site_canonical_url") = []) /\
     (flag vpn "enable_nginx_xhttp" false = true -> xhttp_errors netloc_ok d ctx = []) /\
     (flag ctx "require_transport_egress" false = true ->
        egress_errors true false (field d "transport_egress_secrets") (VDict vpn) = [])).
Proof.
  subst doc. unfold transport_errors in H. cbn [is_dict negb dict_of] in H.
  destruct (resolve_origin d (dict_of context)) as [ctx|]; [|done]. exists ctx. split; [done|].
  intros Hvpn. rewrite Hvpn in H. cbn [is_dict negb dict_of andb orb] in H. cbv zeta in H.
  apply app_eq_nil in H as [_ [Hx [_ [Hn [Ha [Hh He]%app_eq_nil]%app_eq_nil]%app_eq_nil]%app_eq_nil]%app_eq_nil].
  unfold default_sections in *. rewrite Hvpn in *. cbn [is_dict dict_of] in *.
  set (rest := (if has_key "probe_matrix_target_secrets" d then _ else _) ++ _) in *.
  assert (runs_xray vpn = true -> mem "xray" (((if runs_xray vpn then ["xray"%string] else [])
     ++ (if flag vpn "enable_amneziawg" false then ["awg"%string] else [])
     ++ (if runs_hysteria vpn then ["hysteria"%string] else [])) ++ rest) = true) as Sx.
  { intros ->. apply mem_true. set_solver. }
  split_and!.
  - intros Hr. by apply (on_selected _ _ Hx), Sx.
  - intros Hr. apply (on_selected _ _ Ha). rewrite Hr. apply mem_true. set_solver.
  - intros Hr. apply on_selected in Hh; [by apply app_eq_nil in Hh as [? _]|]. rewrite Hr. apply mem_true. set_solver.
  - intros Hr. apply (on_selected _ _ Hn). rewrite Sx by (unfold runs_xray; rewrite Hr; apply orb_true_r).
    rewrite Hr. cbn [andb orb]. by rewrite orb_true_r.
  - intros Hr. rewrite Hr in He. apply (on_selected _ _ He). apply mem_true. subst rest. rewrite Hr, orb_true_r. set_solver.
Qed.
End Composition.

Definition sample_document : dict :=
  [("xray", sample_xray); ("amneziawg_secrets", sample_contract); ("transport_egress_secrets", sample_credentials);
   ("amneziawg_go_commit", VStr RANGE_SOURCE); ("amneziawg_tools_commit", VStr RANGE_TOOLS)]%string.
Definition sample_vpn : dict := [("enable_amneziawg", VBool true)]%string.
Definition sample_context : value :=
  VDict [("vpn", VDict sample_vpn); ("require_transport_egress", VBool true)]%string.
Notation sample_errors := (transport_errors (fun _ => true) (fun _ => []) (fun _ => ""%string) false (VDict sample_document) sample_context None).

Lemma sample_document_admitted : sample_errors = [].
Proof. vm_compute. reflexivity. Qed.
Lemma transport_complete_witness :
  sample_errors = [] /\ exists ctx, resolve_origin sample_document (dict_of sample_context) = Ok ctx.
Proof.
  split; [exact sample_document_admitted|].
  destruct (transport_complete (fun _ => true) (fun _ => []) (fun _ => ""%string) (VDict sample_document) sample_context
    sample_document sample_vpn eq_refl sample_document_admitted) as (ctx & Hctx & _).
  exists ctx. exact Hctx.
Defined.

Example origin_ex : origin_valid (fun _ => true) (VStr "https://front.example.org:8443") = true
  /\ origin_valid (fun _ => true) (VStr "https://front.example.org:443") = false
  /\ origin_valid (fun _ => true) (VStr "https://Front.example.org") = false
  /\ origin_valid (fun _ => true) (VStr "https://[2001:db8::1]:8443") = true
  /\ origin_valid (fun _ => true) (VStr "https://front.example.org/") = false.
Proof. vm_compute. auto. Qed.
Definition sample_pem (tail : string) : value :=
  VStr ("-----BEGIN ECH KEYS-----" +:+ of_chars [chr 10] +:+
        of_chars (b64encode standard ([0; 0x20] ++ replicate 32 1 ++ vec2 (encode_config sample_ech))) +:+
        of_chars [chr 10] +:+ "-----END ECH KEYS-----" +:+ tail)%string.
Example ech_keys_ex :
  ech_keys_config (fun _ => replicate 32 9) true (sample_pem "") = Ok sample_ech_text
  /\ is_ok (ech_keys_config (fun _ => replicate 32 8) true (sample_pem "")) = false
  /\ is_ok (ech_keys_config (fun _ => replicate 32 9) true (sample_pem "x")) = false.
Proof. vm_compute. auto. Qed.
