(* ===== verification/ListenerContract.v ===== *)
(** * Public listener contract

    [scripts/verify-public-listeners.py]: the port selectors and the decoders of
    the authorities the verifier is given: the listener contract, the Tailnet
    sources, the collector ingress and the DHCPv6 servers.  Each decoder takes
    the outcome of [json.loads(base64.b64decode(encoded, validate=True))].  A
    frozen set is a [gset], the contract a [gmap]. *)

From S2P Require Import Prelude PyValue PyStr Regex IPAddr.
#[local] Open Scope Z_scope.

Definition value_error (s : string) : exn := Exn ValueError s.

(** ** Port selectors *)

Record port_selector := PortSelector { protocol : string; start : Z; end_ : Z }.

#[global] Instance port_selector_eq_dec : EqDecision port_selector.
Proof. solve_decision. Defined.
#[global] Program Instance port_selector_countable : Countable port_selector :=
  inj_countable' (fun s => (protocol s, start s, end_ s))
    (fun x => PortSelector x.1.1 x.1.2 x.2) _.
Next Obligation. by intros []. Qed.

(** The dataclass order: the tuples of the fields. *)
Definition sel_le (a b : port_selector) : Prop :=
  if decide (protocol a = protocol b) then
    start a < start b \/ start a = start b /\ end_ a <= end_ b
  else str_le (protocol a) (protocol b).

Definition span_text (a b : Z) : string := (str_of_Z a +:+ "-" +:+ str_of_Z b)%string.

Definition span_label (s : port_selector) : string :=
  if start s =? end_ s then str_of_Z (start s) else span_text (start s) (end_ s).
Definition label (s : port_selector) : string := (protocol s +:+ " " +:+ span_label s)%string.

(** [re.fullmatch(r"([1-9][0-9]*)-([1-9][0-9]*)", s)] with its groups read. *)
Definition range_groups (s : string) : option (Z * Z) :=
  match split_chars "-" (chars s) with
  | [a; b] =>
      if positive_digits a && positive_digits b
      then Some (digits_val 10 a, digits_val 10 b) else None
  | _ => None
  end.

(** [str] of a value that is not a string never matches the range syntax. *)
Definition span_of (v : value) : option (Z * Z) :=
  match v with VStr s => range_groups s | _ => None end.

Definition selector_bounds (port port_range : value) : res (Z * Z) :=
  if negb (is_none port) then
    raise_if (negb (type_is_int port)) (value_error "port-type") ;;;
    Ok (int_of port, int_of port)
  else of_option (span_of port_range) (value_error "port-range").

Definition selector (protocol port port_range : value) : res port_selector :=
  let* known := in_set protocol [VStr "tcp"; VStr "udp"] in
  raise_if (negb known) (value_error "protocol") ;;;
  raise_if (Bool.eqb (is_none port) (is_none port_range)) (value_error "exactly-one") ;;;
  let* ' (low, high) := selector_bounds port port_range in
  raise_if ((low <? 1) || (65535 <? high) || (high <? low)) (value_error "port-bounds") ;;;
  Ok (PortSelector (str_of protocol) low high).

Definition selector_wf (s : port_selector) : Prop :=
  (protocol s = "tcp"%string \/ protocol s = "udp"%string) /\ 1 <= start s <= end_ s /\ end_ s <= 65535.

Example selector_ex1 : selector (VStr "udp") VNone (VStr "20000-20100") = Ok (PortSelector "udp" 20000 20100).
Proof. vm_compute. reflexivity. Qed.
Example selector_ex2 : is_ok (selector (VStr "udp") VNone (VStr "020-30")) = false.
Proof. vm_compute. reflexivity. Qed.
Example selector_ex3 : label (PortSelector "tcp" 443 443) = "tcp 443"%string.
Proof. vm_compute. reflexivity. Qed.

(** ** The listener contract *)

Notation contract := (gmap port_selector string).

Section Contract.
(** [str(v)] of a true value that is not a string. *)
Context (text : value -> string).

Definition listener_name (v : value) : string :=
  match v with
  | VStr s => s
  | _ => if truthy v then text v else ""
  end.

Definition native_acme_selector : port_selector := PortSelector "tcp" 80 80.

Definition contract_step (m : contract) (listener : value) : res contract :=
  match listener with
  | VDict d =>
      let* sel := selector (field d "protocol") (field d "port") (field d "port_range") in
      raise_if (bool_decide (is_Some (m !! sel))) (value_error "duplicate-selector") ;;;
      let name := listener_name (field d "name") in
      raise_if (bool_decide (name = "hysteria-acme"%string) && bool_decide (sel <> native_acme_selector))
        (value_error "native-acme") ;;;
      Ok (<[sel := name]> m)
  | _ => Raise (value_error "entry-object")
  end.

Definition decode_contract (loaded : res value) : res contract :=
  let* doc := try_except loaded [BinasciiError; UnicodeError; JSONDecodeError]
                (fun _ => Raise (value_error "contract-encoding")) in
  match doc with
  | VList l => foldM_res contract_step l ∅
  | _ => Raise (value_error "contract-array")
  end.

End Contract.

(** ** Tailnet sources, the collector and the DHCPv6 servers *)

Definition tailnet_network (v : ipver) : ipnet :=
  match v with
  | V4 => net4 100 64 0 0 10
  | V6 => net6 [0xfd7a; 0x115c; 0xa1e0] 48
  end.

Definition tailnet_step (result : gset string) (v : value) : res (gset string) :=
  match v with
  | VStr s =>
      let* a := of_option (ip_address s) (value_error "tailnet-address") in
      raise_if (bool_decide (ip_str a <> s) || negb (in_net (tailnet_network (ip_ver a)) a)
                || bool_decide (s ∈ result)) (value_error "tailnet-canonical") ;;;
      Ok ({[s]} ∪ result)
  | _ => Raise (value_error "tailnet-string")
  end.

Definition tailnet_addresses (document : value) : res (gset string) :=
  match document with
  | VList l => foldM_res tailnet_step l ∅
  | _ => Raise (value_error "tailnet-array")
  end.

Definition decode_tailnet_sources (loaded : res value) : res (gset string) :=
  let* doc := try_except loaded [BinasciiError; UnicodeError; JSONDecodeError]
                (fun _ => Raise (value_error "tailnet-encoding")) in
  tailnet_addresses doc.

Record collector_ingress := CollectorIngress { address : string; sources : gset string }.

Definition collector_policy (policy : value) : res (option collector_ingress) :=
  if py_eq policy (VDict []) then Ok None else
  match policy with
  | VDict d =>
      let s := field d "sources" in
      raise_if (negb (same_set (keys d) ["address"; "sources"]%string) || negb (is_list s)
                || negb (Nat.leb 1 (length (list_of s)) && Nat.leb (length (list_of s)) 10)) (value_error "") ;;;
      let* one := tailnet_addresses (VList [field d "address"]) in
      let* addr := of_option (head (elements one)) (Exn StopIteration "") in
      let* srcs := tailnet_addresses s in
      raise_if (negb (forallb (fun v => bool_decide (is_Some (parse_ipv4 v))) (addr :: elements srcs)))
        (Exn AddressValueError "") ;;;
      Ok (Some (CollectorIngress addr srcs))
  | _ => Raise (value_error "")
  end.

Definition decode_collector_ingress (loaded : res value) : res (option collector_ingress) :=
  try_except (let* policy := loaded in collector_policy policy) [ValueError; TypeError]
    (fun _ => Raise (value_error "collector-ingress")).

Definition uplink_head (c : ascii) : bool := is_alnum c.
Definition uplink_tail (c : ascii) : bool := is_alnum c || one_of "_.-" c.
Definition re_uplink : re := RCat (RCls uplink_head) (RClsRep uplink_tail 0 14).

(** The [--dhcpv6-uplink] argument; [None] is argparse's refusal. *)
Definition uplink (s : string) : option string :=
  if fullmatch re_uplink s && negb (mem s ["lo"; "tailscale0"]%string) then Some s else None.

Definition dhcpv6_server_bad (s : string) (a : ipaddr) (result : gset string) : bool :=
  bool_decide (ip_str a <> s) || is_unspecified a || is_multicast a || is_loopback a
  || bool_decide (is_Some (ipv4_mapped a)) || bool_decide (s ∈ result).

Definition dhcpv6_step (result : gset string) (v : value) : res (gset string) :=
  match v with
  | VStr s =>
      raise_if (contains_char "%" s) (value_error "") ;;;
      let* a := of_option (parse_ipv6 s) (Exn AddressValueError "") in
      raise_if (dhcpv6_server_bad s a result) (value_error "") ;;;
      Ok ({[s]} ∪ result)
  | _ => Raise (value_error "")
  end.

Definition decode_dhcpv6_servers (loaded : res value) : res (gset string) :=
  try_except
    (let* values := loaded in
     match values with
     | VList l => raise_if (Nat.ltb 16 (length l)) (value_error "") ;;; foldM_res dhcpv6_step l ∅
     | _ => Raise (value_error "")
     end) [ValueError; TypeError] (fun _ => Raise (value_error "dhcpv6-servers")).

(** ** What the decoders accept *)

#[export] Instance sel_le_dec : RelDecision sel_le.
Proof. intros a b. unfold sel_le. destruct (decide _); apply _. Defined.
#[export] Instance sel_le_total : Total sel_le.
Proof.
  intros a b. unfold sel_le. destruct (decide (protocol a = protocol b)) as [E|E].
  - rewrite decide_True by done. lia.
  - rewrite decide_False by done. apply (total str_le).
Qed.

Lemma str_le_antisym (s t : string) : str_le s t -> str_le t s -> s = t.
Proof. unfold str_le. intros Hs Ht. by apply String.leb_antisym. Qed.

#[export] Instance sel_le_trans : Transitive sel_le.
Proof.
  intros a b c. unfold sel_le. destruct (decide (protocol a = protocol b)) as [->|Hab]; intros H1.
  - destruct (decide (protocol b = protocol c)); [lia|done].
  - destruct (decide (protocol b = protocol c)) as [<-|Hbc]; [by rewrite decide_False|].
    intros H2. destruct (decide (protocol a = protocol c)) as [E|E]; [|by etrans].
    destruct Hab. apply str_le_antisym; [done|]. by rewrite E.
Qed.

Lemma chars_span a b : 0 <= a -> 0 <= b -> chars (span_text a b) = dec_chars a ++ "-"%char :: dec_chars b.
Proof. intros Ha Hb. unfold span_text. by rewrite !chars_app, !chars_str_of_Z. Qed.

Lemma range_groups_iff s a b :
  range_groups s = Some (a, b) <-> 0 < a /\ 0 < b /\ s = span_text a b.
Proof.
  unfold range_groups. split.
  - destruct (split_chars _ _) as [|x [|y []]] eqn:Hs; try done. destruct (_ && _) eqn:Hp; [|done].
    apply andb_true_iff in Hp as [(z & Hz & ->)%positive_digits_iff (w & Hw & ->)%positive_digits_iff].
    rewrite !dec_chars_val by lia. intros [= <- <-]. split_and!; [done..|].
    apply chars_inj. rewrite chars_span by lia. by rewrite <-(join_split_chars "-" (chars s)), Hs.
  - intros (Ha & Hb & ->). rewrite chars_span by lia.
    rewrite split_chars_app, split_chars_none by (apply dec_chars_not_in; [done|lia]).
    rewrite !(proj2 (positive_digits_iff _)) by eauto. simpl. by rewrite !dec_chars_val by lia.
Qed.

Lemma in_set_protocol v b :
  in_set v [VStr "tcp"; VStr "udp"] = Ok b -> b = true -> v = VStr "tcp" \/ v = VStr "udp".
Proof.
  unfold in_set. destruct (hashable v); [|done]. intros [= <-]. cbn [existsb].
  rewrite orb_false_r, orb_true_iff, !py_eq_str. done.
Qed.

(** What a selector may be written as. *)
Definition spells (port port_range : value) (low high : Z) : Prop :=
  (port = VInt low /\ port_range = VNone /\ high = low) \/
  (port = VNone /\ port_range = VStr (span_text low high)).

Lemma selector_bounds_Ok port port_range low high :
  Bool.eqb (is_none port) (is_none port_range) = false ->
  selector_bounds port port_range = Ok (low, high) <->
  (port = VInt low /\ port_range = VNone /\ high = low) \/
  (port = VNone /\ port_range = VStr (span_text low high) /\ 0 < low /\ 0 < high).
Proof.
  intros Hone. unfold selector_bounds. destruct (is_none port) eqn:Hp; simpl.
  - assert (port = VNone) as -> by (by destruct port). rewrite of_option_Ok.
    destruct port_range as [| | | |s| |]; simpl; try (split; [done|by intros [(? & ?)|(_ & ? & _)]]).
    rewrite range_groups_iff. split; [intros (? & ? & ->); right; done|].
    intros [(? & _)|(_ & [= ->] & ? & ?)]; [done|auto].
  - assert (port_range = VNone) as -> by (by destruct port_range).
    destruct port; simpl; split; try done; try (by intros [(? & _)|(? & ? & _)]).
    + intros [= <- <-]. by left.
    + intros [([= ->] & _ & ->)|(? & ? & _)]; done.
Qed.

Lemma selector_iff_aux v port port_range s :
  selector v port port_range = Ok s <->
  v = VStr (protocol s) /\ selector_wf s /\ spells port port_range (start s) (end_ s).
Proof.
  unfold selector, selector_wf, spells. split.
  - intros H. apply res_bind_Ok in H as (b & Hb & H). res_inv H. destruct a as [low high]. cbn in H.
    res_inv H. apply negb_false_iff in Hg. apply (in_set_protocol v b Hb) in Hg.
    apply selector_bounds_Ok in Ha; [|done]. subst s. cbn. bprop.
    destruct Hg as [-> | ->]; (split_and!; [done|by auto|lia|lia|lia|]);
      destruct Ha as [Ha|(? & ? & _)]; auto.
  - intros (-> & (Hp & Hr & He) & Hs).
    assert (in_set (VStr (protocol s)) [VStr "tcp"; VStr "udp"] = Ok true) as ->.
    { destruct Hp as [-> | ->]; reflexivity. }
    cbn [res_bind negb raise_if].
    assert (Bool.eqb (is_none port) (is_none port_range) = false) as Hone.
    { by destruct Hs as [(-> & -> & _)|(-> & ->)]. }
    rewrite Hone. cbn [raise_if res_bind].
    assert (selector_bounds port port_range = Ok (start s, end_ s)) as ->.
    { apply selector_bounds_Ok; [done|]. destruct Hs as [Hs|[]]; [by left|right]. split_and!; try done; lia. }
    cbn [res_bind str_of].
    destruct (Z.ltb_spec (start s) 1), (Z.ltb_spec 65535 (end_ s)), (Z.ltb_spec (end_ s) (start s)); try lia.
    by destruct s.
Qed.

(** A listener entry yields a selector exactly when its protocol is tcp or
    udp and it has either an integer port or the canonical text [a-b] of a range,
    within 1..65535 and not empty; so the range text and the selector determine
    each other. *)
Theorem selector_iff v port port_range s :
  selector v port port_range = Ok s <->
  v = VStr (protocol s) /\ selector_wf s /\ spells port port_range (start s) (end_ s).
Proof. apply selector_iff_aux. Qed.

(** ** The contract has one entry per listener *)

Section ContractProofs.
Context (text : value -> string).

Definition contract_ok (done_ : list value) (m : contract) : Prop :=
  size m = length done_ /\
  forall sel name, m !! sel = Some name ->
    selector_wf sel /\ (name = "hysteria-acme"%string -> sel = native_acme_selector) /\
    exists d, VDict d ∈ done_ /\ name = listener_name text (field d "name") /\
      field d "protocol" = VStr (protocol sel) /\
      spells (field d "port") (field d "port_range") (start sel) (end_ sel).

Lemma contract_step_ok done_ m x m' :
  contract_ok done_ m -> contract_step text m x = Ok m' -> contract_ok (done_ ++ [x]) m'.
Proof.
  intros [Hsize Hm] H. destruct x as [| | | | | |d]; try discriminate H. cbn [contract_step] in H. res_inv H.
  apply selector_iff_aux in Ha as (Hp & Hwf & Hs). apply bool_decide_eq_false in Hg.
  assert (m !! a = None) as Hnone by (by apply eq_None_not_Some). subst m'. split.
  - rewrite map_size_insert, Hnone, length_app, Hsize. simpl. lia.
  - intros sel name. rewrite lookup_insert_Some. intros [[<- <-]|[_ Hin]].
    + split; [done|]. split; [|exists d; split; [apply elem_of_app; right; by left|done]].
      intros Hacme. rewrite bool_decide_eq_true_2 in Hg0 by done. simpl in Hg0. bprop.
      destruct (decide (a = native_acme_selector)); done.
    + destruct (Hm _ _ Hin) as (? & ? & e & He & ?). split_and!; [done..|].
      exists e. split; [apply elem_of_app; by left|done].
Qed.

Lemma decode_contract_ok loaded m :
  decode_contract text loaded = Ok m -> exists l, loaded = Ok (VList l) /\ contract_ok l m.
Proof.
  unfold decode_contract. intros H. apply res_bind_Ok in H as (doc & Hd & H).
  apply try_raise_Ok in Hd; [|eauto]. destruct doc as [| | | | |l|]; try discriminate H.
  exists l. split; [done|]. eapply (foldM_res_ind contract_ok); [| |exact H].
  - split; [by rewrite map_size_empty|]. intros sel name. by rewrite lookup_empty.
  - intros. by eapply contract_step_ok.
Qed.
End ContractProofs.

(** A decoded listener contract has exactly one selector per entry of the
    document: no two entries share a selector, every selector is a valid port or
    range under the name of its entry, and the ACME challenge allowance is
    TCP/80 only. *)
Theorem decoded_contract text loaded m :
  decode_contract text loaded = Ok m ->
  exists l, loaded = Ok (VList l) /\ size m = length l /\
    forall sel name, m !! sel = Some name ->
      selector_wf sel /\ (name = "hysteria-acme"%string -> sel = native_acme_selector) /\
      exists d, VDict d ∈ l /\ name = listener_name text (field d "name") /\
        field d "protocol" = VStr (protocol sel) /\
        spells (field d "port") (field d "port_range") (start sel) (end_ sel).
Proof. intros (l & -> & Hs & Hm)%decode_contract_ok. by exists l. Qed.

Definition sample_listeners : value :=
  VList [VDict [("name", VStr "xhttp"); ("protocol", VStr "tcp"); ("port", VInt 443)];
         VDict [("name", VStr "hysteria"); ("protocol", VStr "udp"); ("port_range", VStr "20000-20010")]].
Definition sample_contract : contract :=
  {[PortSelector "tcp" 443 443 := "xhttp"%string; PortSelector "udp" 20000 20010 := "hysteria"%string]}.

Lemma decoded_contract_witness :
  decode_contract (fun _ => "") (Ok sample_listeners) = Ok sample_contract /\
  exists l, Ok sample_listeners = Ok (VList l) /\ size sample_contract = length l /\
    forall sel name, sample_contract !! sel = Some name ->
      selector_wf sel /\ (name = "hysteria-acme"%string -> sel = native_acme_selector) /\
      exists d, VDict d ∈ l /\ name = listener_name (fun _ => "") (field d "name") /\
        field d "protocol" = VStr (protocol sel) /\
        spells (field d "port") (field d "port_range") (start sel) (end_ sel).
Proof.
  assert (decode_contract (fun _ => "") (Ok sample_listeners) = Ok sample_contract) as H by (vm_compute; reflexivity).
  split; [exact H|]. exact (decoded_contract _ _ _ H).
Defined.

(** ** Address authorities *)

(** A fold that adds one admitted string per element collects distinct strings. *)
Lemma collect_strings (P : string -> Prop) (step : gset string -> value -> res (gset string)) l r :
  (forall acc v r', step acc v = Ok r' -> exists s, v = VStr s /\ s ∉ acc /\ P s /\ r' = {[s]} ∪ acc) ->
  foldM_res step l ∅ = Ok r ->
  exists k, l = VStr <$> k /\ NoDup k /\ Forall P k /\ r = list_to_set k.
Proof.
  intros Hstep. apply (foldM_res_ind (fun l r => exists k, l = VStr <$> k /\ NoDup k /\ Forall P k /\ r = list_to_set k)).
  - exists []. split_and!; try done; constructor.
  - intros d v acc r' (k & -> & Hn & HP & ->) (s & -> & Hs & HPs & ->)%Hstep. rewrite not_elem_of_list_to_set in Hs.
    exists (k ++ [s]). rewrite fmap_app. split_and!; [done| | |].
    + apply NoDup_app. split_and!; [done| |by apply NoDup_singleton].
      by intros x Hx ->%list_elem_of_singleton.
    + apply Forall_app_2; [done|by apply Forall_singleton].
    + rewrite list_to_set_app_L. set_solver.
Qed.

Definition tailnet_address (s : string) : Prop :=
  exists a, ip_address s = Some a /\ ip_str a = s /\ in_net (tailnet_network (ip_ver a)) a = true.

Definition dhcpv6_server (s : string) : Prop :=
  contains_char "%" s = false /\
  exists a, parse_ipv6 s = Some a /\ ip_str a = s /\ is_unspecified a = false /\
    is_multicast a = false /\ is_loopback a = false /\ ipv4_mapped a = None.

Lemma tailnet_addresses_ok doc r :
  tailnet_addresses doc = Ok r ->
  exists k, doc = VList (VStr <$> k) /\ NoDup k /\ Forall tailnet_address k /\ r = list_to_set k.
Proof.
  destruct doc as [| | | | |l|]; try discriminate. cbn [tailnet_addresses]. intros H.
  apply (collect_strings tailnet_address) in H as (k & -> & ?); [by exists k|].
  intros acc v r' Hv. destruct v as [| | | |s| |]; try discriminate Hv. cbn [tailnet_step] in Hv. res_inv Hv.
  apply of_option_Ok in Ha. bprop. exists s. split_and!; [done..| |done]. exists a. split_and!; [done| |done].
  by destruct (decide (ip_str a = s)).
Qed.

Lemma dhcpv6_servers_ok loaded r :
  decode_dhcpv6_servers loaded = Ok r ->
  exists k, loaded = Ok (VList (VStr <$> k)) /\ (length k <= 16)%nat /\ NoDup k /\
    Forall dhcpv6_server k /\ r = list_to_set k.
Proof.
  unfold decode_dhcpv6_servers. intros H. apply try_raise_Ok in H; [|eauto].
  apply res_bind_Ok in H as (doc & -> & H). destruct doc as [| | | | |l|]; try discriminate H.
  apply raise_if_seq_Ok in H as [Hl H].
  apply (collect_strings dhcpv6_server) in H as (k & -> & ?).
  - bprop. rewrite length_fmap in Hl. by exists k.
  - intros acc v r' Hv. destruct v as [| | | |s| |]; try discriminate Hv. cbn [dhcpv6_step] in Hv. res_inv Hv.
    apply of_option_Ok in Ha. unfold dhcpv6_server_bad in *. bprop. exists s. split_and!; [done..| |done]. split; [done|].
    exists a. split_and!; [done| |done..|by apply eq_None_not_Some].
    by destruct (decide (ip_str a = s)).
Qed.

(** The decoded DHCPv6 servers and Tailnet sources are exactly the listed
    strings, without repetition: at most sixteen servers, each the canonical text
    of an unscoped unicast IPv6 address, and sources that are canonical addresses
    of the Tailnet networks. *)
Theorem decoded_authorities servers tailnet d t :
  decode_dhcpv6_servers servers = Ok d -> decode_tailnet_sources tailnet = Ok t ->
  exists k l, servers = Ok (VList (VStr <$> k)) /\ tailnet = Ok (VList (VStr <$> l)) /\
    NoDup k /\ NoDup l /\ size d = length k /\ (size d <= 16)%nat /\ size t = length l /\
    set_Forall dhcpv6_server d /\ set_Forall tailnet_address t.
Proof.
  intros (k & -> & Hk & Hnk & Hfk & ->)%dhcpv6_servers_ok Ht. unfold decode_tailnet_sources in Ht.
  apply res_bind_Ok in Ht as (doc & Hd & Ht). apply try_raise_Ok in Hd; [|eauto]. subst tailnet.
  apply tailnet_addresses_ok in Ht as (l & -> & Hnl & Hfl & ->).
  exists k, l. rewrite !size_list_to_set by done. split_and!; try done.
  - intros s. rewrite elem_of_list_to_set. by apply Forall_forall.
  - intros s. rewrite elem_of_list_to_set. by apply Forall_forall.
Qed.

Definition sample_servers : gset string := {["fe80::1"; "2001:db8::5"]}%string.
Definition sample_tailnet : gset string := {["100.64.0.7"]}%string.

Lemma decoded_authorities_witness :
  exists k l, Ok (VList (VStr <$> ["2001:db8::5"; "fe80::1"]%string)) = Ok (VList (VStr <$> k)) /\
    Ok (VList (VStr <$> ["100.64.0.7"]%string)) = Ok (VList (VStr <$> l)) /\
    NoDup k /\ NoDup l /\ size sample_servers = length k /\ (size sample_servers <= 16)%nat /\ size sample_tailnet = length l /\
    set_Forall dhcpv6_server sample_servers /\ set_Forall tailnet_address sample_tailnet.
Proof.
  apply (decoded_authorities (Ok (VList (VStr <$> ["2001:db8::5"; "fe80::1"]%string)))
    (Ok (VList (VStr <$> ["100.64.0.7"]%string))) sample_servers sample_tailnet); vm_compute; reflexivity.
Defined.

Definition tailnet_v4 (s : string) : Prop := tailnet_address s /\ is_Some (parse_ipv4 s).

(** The collector policy is absent, or a Tailnet IPv4 address with one to ten
    Tailnet IPv4 sources. *)
Lemma collector_ingress_ok loaded c :
  decode_collector_ingress loaded = Ok (Some c) ->
  tailnet_v4 (address c) /\ set_Forall tailnet_v4 (sources c) /\ (1 <= size (sources c) <= 10)%nat.
Proof.
  unfold decode_collector_ingress. intros H. apply try_raise_Ok in H; [|eauto].
  apply res_bind_Ok in H as (p & _ & H). unfold collector_policy in H.
  destruct (py_eq p (VDict [])); [done|]. destruct p as [| | | | | |d]; try discriminate H. res_inv H.
  injection H as <-. cbn [address sources]. apply of_option_Ok in Ha0. bprop. apply forallb_true, Forall_cons in Hg0 as [Hv4 Hall].
  apply bool_decide_eq_true in Hv4.
  apply tailnet_addresses_ok in Ha as (k & Hk & _ & Hfk & ->).
  apply tailnet_addresses_ok in Ha1 as (l & Hl & Hnl & Hfl & ->).
  assert (a0 ∈ k) as Hin.
  { apply (elem_of_list_to_set (C:=gset string)), elem_of_elements, head_Some_elem_of. done. }
  split; [split; [by eapply Forall_forall in Hfk|done]|]. split.
  - intros s Hs. split; [apply elem_of_list_to_set in Hs; by eapply Forall_forall in Hfl|].
    eapply Forall_forall in Hall; [by apply bool_decide_eq_true in Hall|by apply elem_of_elements].
  - rewrite Hl in *. cbn [list_of] in *. rewrite length_fmap in *. rewrite size_list_to_set by done. lia.
Qed.
