(* ===== verification/FirewallRules.v ===== *)
(** * Live firewall rules

    [scripts/verify-public-listeners.py]: the reading of [nft -j list table inet
    filter].  Every accept or drop rule of the input chain becomes a [fw_rule];
    the exceptions are those of the code, among them the [TypeError] of testing an
    unhashable value for membership of a set. *)

From stdpp Require Import sorting.
From S2P Require Import Prelude PyValue PyStr Regex IPAddr IPNet ListenerContract.
#[local] Open Scope Z_scope.

Inductive verdict := Accept | Drop.
#[global] Instance verdict_eq_dec : EqDecision verdict.
Proof. solve_decision. Defined.

Inductive dhcpv6_kind := LinkLocal | ApprovedServer | Deny.
#[global] Instance dhcpv6_kind_eq_dec : EqDecision dhcpv6_kind.
Proof. solve_decision. Defined.

(** [FirewallAcceptRule] *)
Record fw_rule := FwRule {
  position : Z;
  rule_verdict : verdict;
  rule_selector : option port_selector;
  source_restricted : bool;
  input_restricted : bool;
  loopback_only : bool;
  established_only : bool;
  protocols : gset string;
  icmp_type_restricted : bool;
  source_addresses : gset string;
  input_interfaces : gset string;
  unknown_predicate : bool;
  rule_dhcpv6_kind : option dhcpv6_kind;
  rule_collector : bool;
}.

(** ** Exact rule shapes *)

Definition verdict_name (v : verdict) : string := match v with Accept => "accept" | Drop => "drop" end.

(** The classified expressions of a rule: its verdicts and its matches. *)
Inductive expr_kind := KVerdict (v : verdict) | KCounter | KMatch (m : value) | KOther.

Definition classify (e : value) : res expr_kind :=
  match e with
  | VDict d =>
      if py_eq e (VDict [("accept", VNone)]) then Ok (KVerdict Accept)
      else if py_eq e (VDict [("drop", VNone)]) then Ok (KVerdict Drop)
      else if same_set (keys d) ["counter"]%string then Ok KCounter
      else if same_set (keys d) ["match"]%string then
        match field d "match" with
        | VDict m =>
            if negb (same_set (keys m) ["op"; "left"; "right"]%string) then Ok KOther else
            let* known := in_set (field m "op") [VStr "=="; VStr "in"] in
            Ok (if known then KMatch (VDict m) else KOther)
        | _ => Ok KOther
        end
      else Ok KOther
  | _ => Ok KOther
  end.

(** The loop of [_rule_matches]; [None] is its early return. *)
Fixpoint collect_matches (l : list value) (matches : list value) (verdicts : list verdict) : res (option (list value * list verdict)) :=
  match l with
  | [] => Ok (Some (matches, verdicts))
  | e :: l =>
      let* k := classify e in
      match k with
      | KVerdict v => collect_matches l matches (verdicts ++ [v])
      | KCounter => collect_matches l matches verdicts
      | KMatch m => collect_matches l (matches ++ [m]) verdicts
      | KOther => Ok None
      end
  end.

Definition rule_matches (expressions : list value) : res (option (verdict * list value)) :=
  let* r := collect_matches expressions [] [] in
  Ok match r with Some (matches, [v]) => Some (v, matches) | _ => None end.

Definition mfield (m : value) (k : string) : value := field (dict_of m) k.

Definition meta_left (k : string) : value := VDict [("meta", VDict [("key", VStr k)])].
Definition payload_left (p f : string) : value :=
  VDict [("payload", VDict [("protocol", VStr p); ("field", VStr f)])].

(** [type(v) is type(w)] *)
Definition same_type (v w : value) : bool :=
  match v, w with
  | VNone, VNone | VBool _, VBool _ | VInt _, VInt _ | VFloat _, VFloat _
  | VStr _, VStr _ | VList _, VList _ | VDict _, VDict _ => true
  | _, _ => false
  end.

(** [set(l) == set(k)] for hashable values. *)
Definition same_values (l k : list value) : bool :=
  forallb (fun x => existsb (py_eq x) k) l && forallb (fun x => existsb (py_eq x) l) k.

(** The values a match compares with: an anonymous set, a list or one value. *)
Definition right_list (right : value) : option (list value) :=
  match right with
  | VDict d =>
      if same_set (keys d) ["set"]%string then
        match field d "set" with VList l => Some l | _ => None end
      else None
  | VList l => Some l
  | v => Some [v]
  end.

(** [expected] is a non-empty set of values of one type. *)
Definition values_match (expected values : list value) : bool :=
  forallb (fun item => match head expected with Some e => same_type item e | None => false end) values
  && Nat.eqb (length values) (length expected) && same_values values expected.

Definition requirement_met (matches : list value) (req : value * list value) : bool :=
  match filter (fun m => py_eq (mfield m "left") req.1 = true) matches with
  | [m] => match right_list (mfield m "right") with Some values => values_match req.2 values | None => false end
  | _ => false
  end.

Definition collector_requirements (c : collector_ingress) : list (value * list value) :=
  [(meta_left "iifname", [VStr "tailscale0"]);
   (payload_left "ip" "daddr", [VStr (address c)]);
   (payload_left "ip" "saddr", VStr <$> elements (sources c));
   (payload_left "tcp" "dport", [VInt 9443])].

Definition collector_rule (expressions : list value) (collector : option collector_ingress) : res bool :=
  let* parsed := rule_matches expressions in
  Ok match collector, parsed with
     | Some c, Some (v, matches) =>
         bool_decide (v = Accept) && Nat.eqb (length matches) 4
         && forallb (fun m => py_eq (mfield m "op") (VStr "==")) matches
         && forallb (requirement_met matches) (collector_requirements c)
     | _, _ => false
     end.

Fixpoint remove_first (x : value) (l : list value) : list value :=
  match l with
  | [] => []
  | y :: l => if py_eq y x then l else y :: remove_first x l
  end.

(** One iteration of the loop over the expected matches. *)
Fixpoint take_expected (expected : list (value * value)) (matches : list value) : option (list value) :=
  match expected with
  | [] => Some matches
  | (left_, right_) :: rest =>
      match filter (fun m => py_eq (mfield m "left") left_ && same_type (mfield m "right") right_
                             && py_eq (mfield m "right") right_ = true) matches with
      | [m] => take_expected rest (remove_first m matches)
      | _ => None
      end
  end.

Definition reply_ports : list (value * value) :=
  [(payload_left "udp" "sport", VInt 547); (payload_left "udp" "dport", VInt 546)].
Definition drop_expected : list (value * value) := reply_ports ++ [(meta_left "nfproto", VStr "ipv6")].
Definition accept_expected (uplink : string) : list (value * value) :=
  reply_ports ++
  [(meta_left "iifname", VStr uplink);
   (VDict [("fib", VDict [("result", VStr "type"); ("flags", VList [VStr "daddr"])])], VStr "local")].

Definition link_local_prefix : value :=
  VDict [("prefix", VDict [("addr", VStr "fe80::"); ("len", VInt 10)])].

Definition is_link_local_source (right : value) : bool :=
  py_eq right (VStr "fe80::/10")
  || (py_eq right link_local_prefix && type_is_int (mfield (mfield right "prefix") "len")).

Definition source_list (right : value) : option (list value) :=
  match right with
  | VStr _ => Some [right]
  | VDict d =>
      if same_set (keys d) ["set"]%string then
        match field d "set" with VList l => Some l | _ => None end
      else None
  | _ => None
  end.

Definition approved_source (servers : gset string) (right : value) : bool :=
  match source_list right with
  | Some values =>
      bool_decide (servers <> ∅) && forallb is_str values && Nat.eqb (length values) (size servers)
      && bool_decide ((list_to_set (str_of <$> values) : gset string) = servers)
  | None => false
  end.

Definition dhcpv6_rule_kind (expressions : list value) (uplink : string) (servers : gset string) : res (option dhcpv6_kind) :=
  let* parsed := rule_matches expressions in
  Ok match parsed with
     | Some (Drop, matches) =>
         if negb (Nat.eqb (length matches) 3) then None
         else _ ← take_expected drop_expected matches; Some Deny
     | Some (Accept, matches) =>
         if negb (Nat.eqb (length matches) 5) then None else
         rest ← take_expected (accept_expected uplink) matches;
         source ← head rest;
         if negb (py_eq (mfield source "left") (payload_left "ip6" "saddr")) then None
         else if is_link_local_source (mfield source "right") then Some LinkLocal
         else if approved_source servers (mfield source "right") then Some ApprovedServer
         else None
     | None => None
     end.

(** ** Right-hand values *)

(** A set of strings and integers, by insertion; [==] identifies [True] and [1]. *)
Definition set_add (l : list value) (x : value) : list value :=
  if existsb (py_eq x) l then l else l ++ [x].

(** [str(v)] of a string, an integer or a boolean. *)
Definition atom_text (v : value) : string :=
  match v with
  | VStr s => s
  | VBool b => if b then "True" else "False"
  | _ => str_of_Z (int_of v)
  end.

Definition prefix_values (d : list (string * value)) : list value :=
  match field d "prefix" with
  | VDict p =>
      let address := field p "addr" in let length := field p "len" in
      if is_str address && is_int length then
        match ip_network (str_of address +:+ "/" +:+ atom_text length)%string with
        | Some n => [VStr (network_str n)]
        | None => []
        end
      else []
  | _ => []
  end.

Fixpoint right_values (v : value) : list value :=
  match v with
  | VDict d =>
      match (fix find (e : list (string * value)) : option (list value) :=
        match e with
        | [] => None
        | (k, x) :: e =>
            if decide (k = "set"%string) then
              match x with
              | VList l => Some ((fix go (l : list value) (acc : list value) : list value :=
                  match l with [] => acc | x :: l => go l (foldl set_add acc (right_values x)) end) l [])
              | _ => None
              end
            else find e
        end) d with
      | Some r => r
      | None => prefix_values d
      end
  | VList l =>
      (fix go (l : list value) (acc : list value) : list value :=
         match l with [] => acc | x :: l => go l (foldl set_add acc (right_values x)) end) l []
  | VStr _ | VInt _ | VBool _ => [v]
  | _ => []
  end.

Definition texts (l : list value) : gset string := list_to_set (atom_text <$> l).

(** [values and all(isinstance(value, str) for value in values)] *)
Definition all_strings (l : list value) : bool :=
  match l with [] => false | _ => forallb is_str l end.

Definition dport_selector (protocol : string) (v : value) : res port_selector :=
  if type_is_int v then selector (VStr protocol) v VNone else
  match v with
  | VDict d =>
      match field d "range" with
      | VList [a; b] =>
          if is_int a && is_int b
          then selector (VStr protocol) VNone (VStr (atom_text a +:+ "-" +:+ atom_text b)%string)
          else Raise (value_error "dport")
      | _ => Raise (value_error "dport")
      end
  | _ => Raise (value_error "dport")
  end.

Example right_values_ex1 :
  right_values (VDict [("set", VList [VStr "1.2.3.4"; VDict [("prefix", VDict [("addr", VStr "10.0.0.0"); ("len", VInt 8)])]])])
  = [VStr "1.2.3.4"; VStr "10.0.0.0/8"].
Proof. vm_compute. reflexivity. Qed.
Example dport_selector_ex1 :
  dport_selector "udp" (VDict [("range", VList [VInt 20000; VInt 20010])]) = Ok (PortSelector "udp" 20000 20010).
Proof. vm_compute. reflexivity. Qed.

(** ** One rule *)

(** The variables of the loop over the expressions of a rule. *)
Record scan := Scan {
  sc_protocol : option string; sc_value : value;
  sc_source : bool; sc_input : bool; sc_loopback : bool; sc_established : bool;
  sc_protocols : gset string; sc_icmp : bool;
  sc_addresses : gset string; sc_interfaces : gset string; sc_unknown : bool }.

Definition scan_init : scan := Scan None VNone false false false false ∅ false ∅ ∅ false.

Definition set_unknown (s : scan) : scan :=
  Scan (sc_protocol s) (sc_value s) (sc_source s) (sc_input s) (sc_loopback s) (sc_established s)
    (sc_protocols s) (sc_icmp s) (sc_addresses s) (sc_interfaces s) true.
Definition set_selector (p : string) (v : value) (s : scan) : scan :=
  Scan (Some p) v (sc_source s) (sc_input s) (sc_loopback s) (sc_established s)
    (sc_protocols s) (sc_icmp s) (sc_addresses s) (sc_interfaces s) (sc_unknown s).
Definition add_protocols (l : gset string) (s : scan) : scan :=
  Scan (sc_protocol s) (sc_value s) (sc_source s) (sc_input s) (sc_loopback s) (sc_established s)
    (l ∪ sc_protocols s) (sc_icmp s) (sc_addresses s) (sc_interfaces s) (sc_unknown s).
Definition set_icmp (b : bool) (s : scan) : scan :=
  Scan (sc_protocol s) (sc_value s) (sc_source s) (sc_input s) (sc_loopback s) (sc_established s)
    (sc_protocols s) b (sc_addresses s) (sc_interfaces s) (sc_unknown s).
Definition set_source (l : gset string) (s : scan) : scan :=
  Scan (sc_protocol s) (sc_value s) true (sc_input s) (sc_loopback s) (sc_established s)
    (sc_protocols s) (sc_icmp s) (l ∪ sc_addresses s) (sc_interfaces s) (sc_unknown s).
Definition set_input (loopback : bool) (l : gset string) (s : scan) : scan :=
  Scan (sc_protocol s) (sc_value s) (sc_source s) true loopback (sc_established s)
    (sc_protocols s) (sc_icmp s) (sc_addresses s) (l ∪ sc_interfaces s) (sc_unknown s).
Definition set_established (b : bool) (s : scan) : scan :=
  Scan (sc_protocol s) (sc_value s) (sc_source s) (sc_input s) (sc_loopback s) b
    (sc_protocols s) (sc_icmp s) (sc_addresses s) (sc_interfaces s) (sc_unknown s).

Notation named_sets := (gmap string (value * list value)).

(** The values of a source match: a named set is looked up with its family. *)
Definition source_values (sets : named_sets) (payload_protocol right : value) : list value :=
  match right with
  | VStr s =>
      if startswith s "@" then
        let family := if py_eq payload_protocol (VStr "ip") then "ipv4_addr"%string else "ipv6_addr"%string in
        match sets !! of_chars (drop 1 (chars s)) with
        | Some (type_, values) => if py_eq type_ (VStr family) then values else []
        | None => []
        end
      else right_values right
  | _ => right_values right
  end.

Definition scan_payload (sets : named_sets) (payload : list (string * value)) (right : value) (s : scan) : res scan :=
  let p := field payload "protocol" in
  let is_field f := py_eq (field payload "field") (VStr f) in
  let* ports := in_set p [VStr "tcp"; VStr "udp"] in
  let* ip := in_set p [VStr "ip"; VStr "ip6"] in
  let* icmp := in_set p [VStr "icmp"; VStr "icmpv6"] in
  Ok (
    if ports && is_field "dport" then set_selector (str_of p) right s
    else if ip && is_field "saddr" then
      let values := source_values sets p right in
      if all_strings values then set_source (texts values) s else set_unknown (set_source ∅ s)
    else if py_eq p (VStr "ip") && is_field "protocol" then add_protocols (texts (right_values right)) s
    else if py_eq p (VStr "ip6") && is_field "nexthdr" then add_protocols (texts (right_values right)) s
    else if icmp && is_field "type" then
      add_protocols {[ if py_eq p (VStr "icmp") then "icmp" else "ipv6-icmp" ]}%string
        (set_icmp (match right_values right with [] => false | _ => true end) s)
    else if py_eq p (VStr "ip6") && is_field "hoplimit" && py_eq right (VInt 255) then s
    else set_unknown s).

Definition scan_input (right : value) (s : scan) : res scan :=
  let* loopback := in_set right [VStr "lo"; VInt 1] in
  let values := right_values right in
  Ok (if all_strings values then set_input loopback (texts values) s
      else if loopback then set_input loopback ∅ s
      else set_unknown (set_input loopback ∅ s)).

Definition established_states (right : value) : bool :=
  let states := texts (right_values right) in
  bool_decide (states <> ∅) && bool_decide (states ⊆ {["established"; "related"]}%string).

Definition scan_ct (ct : value) (right : value) (s : scan) : scan :=
  match ct with
  | VDict c =>
      if py_eq (field c "key") (VStr "state") then
        let b := established_states right in
        if b then set_established b s else set_unknown (set_established b s)
      else set_unknown s
  | _ => set_unknown s
  end.

Definition scan_match (sets : named_sets) (m : list (string * value)) (s : scan) : res scan :=
  let* known := in_set (field m "op") [VStr "=="; VStr "in"] in
  if negb known then Ok (set_unknown s) else
  match field m "left" with
  | VDict left_ =>
      let right := field m "right" in
      match field left_ "payload", field left_ "meta" with
      | VDict payload, _ => scan_payload sets payload right s
      | _, VDict meta =>
          if py_eq (field meta "key") (VStr "l4proto") then Ok (add_protocols (texts (right_values right)) s) else
          let* input := in_set (field meta "key") [VStr "iif"; VStr "iifname"] in
          if input then scan_input right s else Ok (scan_ct (field left_ "ct") right s)
      | _, _ => Ok (scan_ct (field left_ "ct") right s)
      end
  | _ => Ok (set_unknown s)
  end.

Definition scan_expr (sets : named_sets) (s : scan) (e : value) : res scan :=
  match e with
  | VDict d =>
      match dget "match" d with
      | None => Ok (if subset (keys d) ["accept"; "drop"; "counter"]%string then s else set_unknown s)
      | Some (VDict m) => scan_match sets m s
      | Some _ => Ok (set_unknown s)
      end
  | _ => Ok (set_unknown s)
  end.

(** The verdict of a rule that names exactly one of accept and drop. *)
Definition names_verdict (expressions : list value) (v : verdict) : bool :=
  existsb (fun e => match e with VDict d => mem (verdict_name v) (keys d) | _ => false end) expressions.

Definition sole_verdict (expressions : list value) : option verdict :=
  match names_verdict expressions Accept, names_verdict expressions Drop with
  | true, false => Some Accept
  | false, true => Some Drop
  | _, _ => None
  end.

Definition selector_of (s : scan) : res (option port_selector) :=
  match sc_protocol s with
  | Some p => let* sel := dport_selector p (sc_value s) in Ok (Some sel)
  | None => Ok None
  end.

Section Rules.
Context (dhcpv6_uplink : string) (dhcpv6_servers : gset string) (collector : option collector_ingress).

Definition read_rule (sets : named_sets) (pos : Z) (v : verdict) (expressions : list value) : res fw_rule :=
  let* s := foldM_res (scan_expr sets) expressions scan_init in
  let* sel := selector_of s in
  let* kind := dhcpv6_rule_kind expressions dhcpv6_uplink dhcpv6_servers in
  let* coll := collector_rule expressions collector in
  Ok (FwRule pos v sel (sc_source s) (sc_input s) (sc_loopback s) (sc_established s) (sc_protocols s)
        (sc_icmp s) (sc_addresses s) (sc_interfaces s) (sc_unknown s) kind coll).

(** The expressions of a rule of [inet filter input]. *)
Definition input_rule (item : value) : option (list value) :=
  match item with
  | VDict d =>
      match field d "rule" with
      | VDict r =>
          if py_eq (field r "family") (VStr "inet") && py_eq (field r "table") (VStr "filter")
             && py_eq (field r "chain") (VStr "input")
          then match field r "expr" with VList l => Some l | _ => None end
          else None
      | _ => None
      end
  | _ => None
  end.

Definition rule_step (sets : named_sets) (acc : list fw_rule) (item : Z * value) : res (list fw_rule) :=
  match input_rule item.2 with
  | None => Ok acc
  | Some expressions =>
      match sole_verdict expressions with
      | None => Ok acc
      | Some v => let* r := read_rule sets item.1 v expressions in Ok (acc ++ [r])
      end
  end.

Definition set_step (sets : named_sets) (item : value) : res named_sets :=
  match mfield item "set" with
  | VDict s =>
      if negb (py_eq (field s "table") (VStr "filter")) then Ok sets else
      if negb (py_eq (field s "family") (VStr "inet")) then Ok sets else
      let* known := in_set (field s "name") [VStr "vpn_tailnet_ssh_v4"; VStr "vpn_tailnet_ssh_v6"] in
      if known && is_list (field s "elem")
      then Ok (<[str_of (field s "name") := (field s "type", right_values (field s "elem"))]> sets)
      else Ok sets
  | _ => Ok sets
  end.

Definition enumerate {A} (l : list A) : list (Z * A) := zip (Z.of_nat <$> seq 0 (length l)) l.

Definition firewall_rules (loaded : res value) : res (list fw_rule) :=
  let* document := try_except loaded [JSONDecodeError] (fun _ => Raise (value_error "nft-malformed")) in
  match mfield document "nftables" with
  | VList objects =>
      let* sets := foldM_res set_step objects ∅ in
      foldM_res (rule_step sets) (enumerate objects) []
  | _ => Raise (value_error "nft-missing")
  end.

End Rules.

(** ** A classified rule has the verdict it is classified by *)

Lemma py_eq_single d k w :
  py_eq (VDict d) (VDict [(k, w)]) = true -> exists x, d = [(k, x)] /\ py_eq x w = true.
Proof.
  simpl. destruct d as [|[k' x] [|]]; simpl; try done. rewrite andb_true_r.
  case_decide; [subst; eauto|done].
Qed.

Lemma classify_verdict e k :
  classify e = Ok k ->
  match k with
  | KVerdict v => forall w, names_verdict [e] w = bool_decide (v = w)
  | KCounter | KMatch _ => forall w, names_verdict [e] w = false
  | KOther => True
  end.
Proof.
  unfold classify. destruct e as [| | | | | |d]; try (by intros [= <-]).
  assert (forall key, same_set (keys d) [key] = true -> key <> "accept"%string -> key <> "drop"%string ->
    forall w, names_verdict [VDict d] w = false) as Hother.
  { intros key Hk Ha Hd w. simpl. rewrite orb_false_r. apply mem_false. rewrite same_set_true in Hk. rewrite Hk.
    rewrite list_elem_of_singleton. by destruct w. }
  destruct (py_eq (VDict d) (VDict [("accept"%string, VNone)])) eqn:Ha.
  { apply py_eq_single in Ha as (x & -> & _). intros [= <-] []; reflexivity. }
  destruct (py_eq (VDict d) (VDict [("drop"%string, VNone)])) eqn:Hd.
  { apply py_eq_single in Hd as (x & -> & _). intros [= <-] []; reflexivity. }
  destruct (same_set (keys d) ["counter"%string]) eqn:Hc; [intros [= <-]; by apply (Hother "counter"%string)|].
  destruct (same_set (keys d) ["match"%string]) eqn:Hm; [|by intros [= <-]].
  destruct (field d "match"); try (by intros [= <-]). destruct (negb _); [by intros [= <-]|].
  intros H. res_inv H. subst k. destruct a; [by apply (Hother "match"%string)|done].
Qed.

Lemma names_verdict_cons e l w : names_verdict (e :: l) w = names_verdict [e] w || names_verdict l w.
Proof. unfold names_verdict. cbn [existsb]. by rewrite orb_false_r. Qed.

Lemma collect_matches_verdicts l ms vs ms' vs' w :
  collect_matches l ms vs = Ok (Some (ms', vs')) ->
  exists added, vs' = vs ++ added /\ (names_verdict l w = true <-> w ∈ added).
Proof.
  revert ms vs. induction l as [|e l IH]; intros ms vs; cbn [collect_matches].
  - intros [= <- <-]. exists []. rewrite app_nil_r. split; [done|]. by split; [|intros ?%not_elem_of_nil].
  - intros H. apply res_bind_Ok in H as (k & Hk & H). apply classify_verdict in Hk.
    destruct k as [v| |m|]; [|..|discriminate H]; apply IH in H as (added & -> & Hn).
    + exists (v :: added). rewrite <-app_assoc. split; [done|].
      rewrite names_verdict_cons, Hk, orb_true_iff, bool_decide_eq_true, Hn, elem_of_cons. naive_solver.
    + exists added. split; [done|]. by rewrite names_verdict_cons, Hk.
    + exists added. split; [done|]. by rewrite names_verdict_cons, Hk.
Qed.

Lemma rule_matches_verdict e v ms :
  rule_matches e = Ok (Some (v, ms)) -> collect_matches e [] [] = Ok (Some (ms, [v])) /\ sole_verdict e = Some v.
Proof.
  unfold rule_matches. intros H. res_inv H. destruct a as [[ms' [|v' []]]|]; try discriminate H.
  injection H as -> ->. split; [done|].
  assert (forall w, names_verdict e w = bool_decide (v = w)) as Hw.
  { intros w. destruct (collect_matches_verdicts _ _ _ _ _ w Ha) as (added & Heq & Hn). simpl in Heq. subst added.
    apply Bool.eq_iff_eq_true. rewrite Hn, list_elem_of_singleton, bool_decide_eq_true. split; congruence. }
  unfold sole_verdict. rewrite !Hw. by destruct v.
Qed.

Lemma dhcpv6_kind_verdict e uplink servers k :
  dhcpv6_rule_kind e uplink servers = Ok (Some k) ->
  sole_verdict e = Some (if decide (k = Deny) then Drop else Accept).
Proof.
  unfold dhcpv6_rule_kind. intros H. apply res_bind_Ok in H as (p & Hp & H). apply Ok_inj in H.
  destruct p as [[v ms]|]; [|done]. apply rule_matches_verdict in Hp as [_ ->]. f_equal.
  destruct v.
  - destruct (negb _); [done|]. destruct (take_expected _ _); [|done]. cbn [mbind option_bind] in H.
    destruct (head l); [|done]. cbn [mbind option_bind] in H. repeat case_match; try done; by simplify_eq.
  - destruct (negb _); [done|]. destruct (take_expected _ _); [|done]. cbn in H. by simplify_eq.
Qed.

Lemma collector_rule_Ok e collector :
  collector_rule e collector = Ok true ->
  exists c ms, collector = Some c /\ rule_matches e = Ok (Some (Accept, ms)) /\ length ms = 4%nat /\
    Forall (fun m => py_eq (mfield m "op") (VStr "==") = true) ms /\
    Forall (fun req => requirement_met ms req = true) (collector_requirements c).
Proof.
  unfold collector_rule. intros H. apply res_bind_Ok in H as (p & Hp & H). apply Ok_inj in H.
  destruct collector as [c|]; [|done]. destruct p as [[v ms]|]; [|done]. bprop. subst v.
  exists c, ms. split_and!; try done; by apply forallb_true.
Qed.

(** ** The rules of the input chain, one by one *)

Definition candidate (item : Z * value) : option (Z * verdict * list value) :=
  expressions ← input_rule item.2; v ← sole_verdict expressions; Some (item.1, v, expressions).

Lemma rule_fold uplink servers collector sets l acc r :
  foldM_res (rule_step uplink servers collector sets) l acc = Ok r ->
  exists k, r = acc ++ k /\
    Forall2 (fun x r => read_rule uplink servers collector sets x.1.1 x.1.2 x.2 = Ok r) (omap candidate l) k.
Proof.
  revert acc. induction l as [|x l IH]; intros acc.
  - intros [= <-]. exists []. rewrite app_nil_r. by split; [|constructor].
  - cbn [foldM_res]. intros H. apply res_bind_Ok in H as (s & Hs & H). apply IH in H as (k & -> & Hk).
    cbn [omap list_omap]. unfold candidate at 1. unfold rule_step in Hs. destruct (input_rule x.2) as [e|]; cbn [mbind option_bind].
    + destruct (sole_verdict e) as [v|]; cbn [mbind option_bind].
      * apply res_bind_Ok in Hs as (a & Ha & [= <-]). exists (a :: k). rewrite <-app_assoc. split; [done|]. by constructor.
      * injection Hs as <-. by exists k.
    + injection Hs as <-. by exists k.
Qed.

Lemma read_rule_Ok uplink servers collector sets pos v e r :
  read_rule uplink servers collector sets pos v e = Ok r ->
  position r = pos /\ rule_verdict r = v /\
  dhcpv6_rule_kind e uplink servers = Ok (rule_dhcpv6_kind r) /\ collector_rule e collector = Ok (rule_collector r).
Proof. unfold read_rule. intros H. res_inv H. by subst r. Qed.

(** What the reader establishes of its rules, for the audit. *)
Definition read_wf (r : fw_rule) : Prop :=
  (rule_collector r = true -> rule_verdict r = Accept) /\
  (forall k, rule_dhcpv6_kind r = Some k -> rule_verdict r = if decide (k = Deny) then Drop else Accept).

Lemma candidate_verdict x p v e : candidate x = Some (p, v, e) -> p = x.1 /\ input_rule x.2 = Some e /\ sole_verdict e = Some v.
Proof.
  unfold candidate. destruct (input_rule x.2) as [e'|]; [|done]. cbn [mbind option_bind].
  destruct (sole_verdict e') eqn:He; [|done]. cbn [mbind option_bind]. by intros [= <- <- <-].
Qed.

Lemma read_rule_wf uplink servers collector sets pos v e r :
  sole_verdict e = Some v -> read_rule uplink servers collector sets pos v e = Ok r -> read_wf r.
Proof.
  intros Hv (<- & <- & Hk & Hc)%read_rule_Ok. split.
  - intros Ht. rewrite Ht in Hc. apply collector_rule_Ok in Hc as (c & ms & _ & Hm & _).
    apply rule_matches_verdict in Hm as [_ Hm]. congruence.
  - intros k Heq. rewrite Heq in Hk. apply dhcpv6_kind_verdict in Hk. congruence.
Qed.

Definition pos_lt (x y : Z) : Prop := x < y.

Lemma enumerate_omap {A B} (f : Z * A -> option (Z * B)) (l : list A) n :
  (forall x y, f x = Some y -> y.1 = x.1) ->
  StronglySorted pos_lt (omap f (zip (Z.of_nat <$> seq n (length l)) l)).*1 /\
  Forall (fun p => Z.of_nat n <= p) (omap f (zip (Z.of_nat <$> seq n (length l)) l)).*1.
Proof.
  intros Hf. revert n. induction l as [|x l IH]; intros n; [split; constructor|].
  cbn [length seq fmap list_fmap zip zip_with omap list_omap]. destruct (IH (S n)) as [Hs Hle].
  assert (Forall (fun p => Z.of_nat n <= p) (omap f (zip (Z.of_nat <$> seq (S n) (length l)) l)).*1) as Hle'.
  { eapply Forall_impl; [exact Hle|]. intros p Hp. cbv beta in *. lia. }
  destruct (f (Z.of_nat n, x)) as [[p y]|] eqn:Hx; [|done].
  apply Hf in Hx. simpl in Hx. subst p. cbn [fmap list_fmap fst]. split.
  - constructor; [done|]. eapply Forall_impl; [exact Hle|]. intros p Hp. unfold pos_lt. cbv beta in *. lia.
  - constructor; [lia|done].
Qed.

Section Reader.
Context (uplink : string) (servers : gset string) (collector : option collector_ingress).

Lemma firewall_rules_Ok loaded rules :
  firewall_rules uplink servers collector loaded = Ok rules ->
  exists objects sets, loaded = Ok (VDict objects) /\ is_list (field objects "nftables") = true /\
    Forall2 (fun x r => read_rule uplink servers collector sets x.1.1 x.1.2 x.2 = Ok r)
      (omap candidate (enumerate (list_of (field objects "nftables")))) rules.
Proof.
  unfold firewall_rules. intros H. apply res_bind_Ok in H as (doc & Hd & H).
  apply try_raise_Ok in Hd; [|eauto]. subst loaded.
  destruct (mfield doc "nftables") as [| | | | |l|] eqn:Hl; try discriminate H.
  apply res_bind_Ok in H as (sets & _ & H). apply rule_fold in H as (k & -> & Hk).
  destruct doc as [| | | | | |objects]; try discriminate Hl. exists objects, sets.
  unfold mfield in Hl. simpl in Hl. by rewrite Hl.
Qed.

Lemma firewall_rules_wf loaded rules :
  firewall_rules uplink servers collector loaded = Ok rules -> Forall read_wf rules.
Proof.
  intros (objects & sets & _ & _ & H)%firewall_rules_Ok. apply Forall_forall. intros r Hr.
  apply list_elem_of_lookup in Hr as [i Hi]. destruct (Forall2_lookup_r _ _ _ _ _ H Hi) as ([[p v] e] & Hx & Hread).
  apply list_elem_of_lookup_2, list_elem_of_omap in Hx as (x & _ & Hx).
  apply candidate_verdict in Hx as (_ & _ & Hv). by eapply read_rule_wf.
Qed.

(** The reader keeps every accept and every drop rule of the input chain, in
    ruleset order and with its own verdict: the rules it returns stand one to one,
    at strictly increasing positions, for the objects that are rules of [inet
    filter input] naming exactly one of accept and drop; only accept rules are
    ever recognised as collector rules, only drop rules as the DHCPv6 deny. *)
Theorem rules_complete loaded rules :
  firewall_rules uplink servers collector loaded = Ok rules ->
  exists objects, loaded = Ok (VDict objects) /\
    StronglySorted pos_lt (position <$> rules) /\
    (forall pos v, (exists r, r ∈ rules /\ position r = pos /\ rule_verdict r = v) <->
       exists item e, (pos, item) ∈ enumerate (list_of (field objects "nftables")) /\
         input_rule item = Some e /\ sole_verdict e = Some v) /\
    Forall read_wf rules.
Proof.
  intros Hr. pose proof (firewall_rules_wf _ _ Hr) as Hwf.
  apply firewall_rules_Ok in Hr as (objects & sets & -> & _ & H). exists objects. split; [done|].
  assert (position <$> rules = (omap (fun x => y ← candidate x; Some (y.1.1, y)) (enumerate (list_of (field objects "nftables")))).*1) as Hpos.
  { revert H. generalize (enumerate (list_of (field objects "nftables"))) as l. clear. intros l. revert rules.
    induction l as [|x l IH]; intros rules; cbn [omap list_omap]; [by inversion 1|].
    destruct (candidate x) as [y|]; cbn [mbind option_bind]; [|auto].
    inversion 1 as [|? r ? k Hr Hk]; subst. cbn. f_equal; [by apply read_rule_Ok in Hr as [? _]|auto]. }
  split; [|split; [|done]].
  - rewrite Hpos. apply (enumerate_omap _ _ 0). intros x y. destruct (candidate x) as [[[p v] e]|] eqn:Hc; [|done].
    cbn. intros [= <-]. by apply candidate_verdict in Hc as [-> _].
  - intros pos v. split.
    + intros (r & Hr & <- & <-). apply list_elem_of_lookup in Hr as [i Hi].
      destruct (Forall2_lookup_r _ _ _ _ _ H Hi) as ([[p w] e] & Hx & Hread).
      apply list_elem_of_lookup_2, list_elem_of_omap in Hx as ([q item] & Hin & Hx).
      apply candidate_verdict in Hx as (-> & Hin' & Hv). apply read_rule_Ok in Hread as (-> & -> & _).
      by exists item, e.
    + intros (item & e & Hin & Hi & Hv).
      assert ((pos, v, e) ∈ omap candidate (enumerate (list_of (field objects "nftables")))) as Hx.
      { apply list_elem_of_omap. exists (pos, item). split; [done|]. unfold candidate. cbn.
        rewrite Hi. cbn. by rewrite Hv. }
      apply list_elem_of_lookup in Hx as [i Hx]. destruct (Forall2_lookup_l _ _ _ _ _ H Hx) as (r & Hr & Hread).
      apply read_rule_Ok in Hread as (Hp & Hv' & _). apply list_elem_of_lookup_2 in Hr. by exists r.
Qed.
End Reader.

(** ** What a collector rule lets through

    A packet gives every left-hand expression a value; a match holds when that
    value is one of those on the right. *)

Definition match_holds (pkt : value -> value) (m : value) : Prop :=
  exists l, right_list (mfield m "right") = Some l /\ Exists (fun v => py_eq (pkt (mfield m "left")) v = true) l.

Definition match_of (e : value) : option value :=
  match e with VDict d => dget "match" d | _ => None end.

Lemma same_set_single k (d : list (string * value)) key :
  same_set (keys d) [k] = true -> is_Some (dget key d) <-> key = k.
Proof. intros H. rewrite same_set_true in H. by rewrite dget_is_Some, H, list_elem_of_singleton. Qed.

Lemma classify_match e k :
  classify e = Ok k -> match k with KMatch m => match_of e = Some m | KOther => True | _ => match_of e = None end.
Proof.
  unfold classify. destruct e as [| | | | | |d]; try (by intros [= <-]).
  destruct (py_eq (VDict d) (VDict [("accept"%string, VNone)])) eqn:Ha.
  { apply py_eq_single in Ha as (x & -> & _). by intros [= <-]. }
  destruct (py_eq (VDict d) (VDict [("drop"%string, VNone)])) eqn:Hd.
  { apply py_eq_single in Hd as (x & -> & _). by intros [= <-]. }
  destruct (same_set (keys d) ["counter"%string]) eqn:Hc.
  { intros [= <-]. apply eq_None_not_Some. intros Hs. by apply (same_set_single _ _ _ Hc) in Hs. }
  destruct (same_set (keys d) ["match"%string]) eqn:Hm; [|by intros [= <-]].
  destruct (proj2 (same_set_single _ _ "match"%string Hm) eq_refl) as [m Hget].
  assert (field d "match" = m) as -> by (unfold field; by rewrite Hget). cbn [match_of].
  destruct m; try (by intros [= <-]). destruct (negb _); [by intros [= <-]|].
  intros H. apply res_bind_Ok in H as (b & _ & H). apply Ok_inj in H. subst k. by destruct b.
Qed.

Lemma collect_matches_list l ms vs ms' vs' :
  collect_matches l ms vs = Ok (Some (ms', vs')) -> ms' = ms ++ omap match_of l.
Proof.
  revert ms vs. induction l as [|e l IH]; intros ms vs; cbn [collect_matches].
  - intros [= <- <-]. by rewrite app_nil_r.
  - intros H. apply res_bind_Ok in H as (k & Hk & H). apply classify_match in Hk. cbn [omap list_omap].
    destruct k; try discriminate H; rewrite Hk; apply IH in H; [done..|]. by rewrite H, <-app_assoc.
Qed.

Lemma same_type_int v z : same_type v (VInt z) = true -> py_eq v (VInt z) = true -> v = VInt z.
Proof. destruct v; try done. intros _. rewrite py_eq_int. by intros ->%Z.eqb_eq. Qed.

(** A met requirement leaves the packet one of the expected values. *)
Lemma requirement_holds pkt ms left_ expected :
  requirement_met ms (left_, expected) = true -> Forall (match_holds pkt) ms ->
  (forall m, m ∈ ms -> py_eq (mfield m "left") left_ = true -> pkt (mfield m "left") = pkt left_) ->
  exists v x, x ∈ expected /\ py_eq v x = true /\ py_eq (pkt left_) v = true /\
    (forall e, head expected = Some e -> same_type v e = true).
Proof.
  unfold requirement_met. cbn [fst snd]. intros Hreq Hms Hpkt.
  destruct (filter _ ms) as [|m []] eqn:Hf; try discriminate Hreq.
  assert (m ∈ filter (fun m => py_eq (mfield m "left") left_ = true) ms) as Hm by (rewrite Hf; left).
  apply list_elem_of_filter in Hm as [Hleft Hm].
  eapply Forall_forall in Hms as (l & Hl & Hex); [|exact Hm]. rewrite Hl in Hreq.
  unfold values_match, same_values in Hreq. bprop.
  apply Exists_exists in Hex as (v & Hv & Heq). rewrite (Hpkt m Hm Hleft) in Heq.
  apply forallb_true in H. eapply Forall_forall in H; [|exact Hv].
  apply forallb_true in H0. eapply Forall_forall in H0; [|exact Hv]. cbv beta in *.
  apply existsb_true, Exists_exists in H0 as (x & Hx & Hvx). exists v, x. split_and!; try done.
  intros e He. by rewrite He in H.
Qed.

(** A collector rule opens nothing but the collector: whatever packet
    satisfies every match of a rule recognised as collector ingress arrived on
    tailscale0, goes to TCP port 9443 of the collector address, and comes from one
    of the configured sources. *)
Theorem collector_confined e c pkt :
  collector_rule e (Some c) = Ok true ->
  Forall (match_holds pkt) (omap match_of e) ->
  (forall m req, m ∈ omap match_of e -> req ∈ collector_requirements c ->
     py_eq (mfield m "left") req.1 = true -> pkt (mfield m "left") = pkt req.1) ->
  sole_verdict e = Some Accept /\
  pkt (meta_left "iifname") = VStr "tailscale0" /\
  pkt (payload_left "ip" "daddr") = VStr (address c) /\
  (exists s, s ∈ sources c /\ pkt (payload_left "ip" "saddr") = VStr s) /\
  py_eq (pkt (payload_left "tcp" "dport")) (VInt 9443) = true.
Proof.
  intros (c' & ms & [= <-] & Hms & _ & _ & Hreq)%collector_rule_Ok Hall Hpkt.
  apply rule_matches_verdict in Hms as [Hms Hv]. apply collect_matches_list in Hms. simpl in Hms. subst ms.
  assert (forall req, req ∈ collector_requirements c -> exists v x, x ∈ req.2 /\ py_eq v x = true /\
    py_eq (pkt req.1) v = true /\ (forall e, head req.2 = Some e -> same_type v e = true)) as Hr.
  { intros req Hin. apply (requirement_holds pkt (omap match_of e)); [|done|by intros; apply Hpkt].
    eapply Forall_forall in Hreq; [|exact Hin]. by destruct req. }
  split; [done|]. unfold collector_requirements in Hr. split_and!.
  - destruct (Hr (meta_left "iifname", [VStr "tailscale0"])) as (v & x & Hx & Hvx & Hp & _); [set_solver|].
    apply list_elem_of_singleton in Hx as ->. apply py_eq_str in Hvx as ->. by apply py_eq_str.
  - destruct (Hr (payload_left "ip" "daddr", [VStr (address c)])) as (v & x & Hx & Hvx & Hp & _); [set_solver|].
    apply list_elem_of_singleton in Hx as ->. apply py_eq_str in Hvx as ->. by apply py_eq_str.
  - destruct (Hr (payload_left "ip" "saddr", VStr <$> elements (sources c))) as (v & x & Hx & Hvx & Hp & _); [set_solver|].
    apply list_elem_of_fmap in Hx as (s & -> & Hs%elem_of_elements). apply py_eq_str in Hvx as ->.
    exists s. split; [done|]. by apply py_eq_str.
  - destruct (Hr (payload_left "tcp" "dport", [VInt 9443])) as (v & x & Hx & Hvx & Hp & Ht); [set_solver|].
    apply list_elem_of_singleton in Hx as ->. by rewrite (same_type_int v 9443 (Ht _ eq_refl) Hvx) in Hp.
Qed.

(** ** A sample ruleset *)

Definition sample_match (left_ right_ : value) : value :=
  VDict [("match", VDict [("op", VStr "=="); ("left", left_); ("right", right_)])]%string.
Definition sample_rule (expressions : list value) : value :=
  VDict [("rule", VDict [("family", VStr "inet"); ("table", VStr "filter"); ("chain", VStr "input");
                         ("expr", VList expressions)])]%string.
Definition sample_accept : value := VDict [("accept", VNone)]%string.
Definition sample_drop : value := VDict [("drop", VNone)]%string.
Definition sample_counter : value := VDict [("counter", VDict [("packets", VInt 3)])]%string.
Definition iifname (s : string) : value := sample_match (meta_left "iifname") (VStr s).
Definition sample_reply : list value :=
  [sample_match (payload_left "udp" "sport") (VInt 547); sample_match (payload_left "udp" "dport") (VInt 546)].

Definition sample_collector : collector_ingress :=
  CollectorIngress "100.64.0.9" {["100.64.0.7"; "100.64.0.8"]}%string.
Definition sample_collector_rule : list value :=
  [iifname "tailscale0"; sample_match (payload_left "ip" "daddr") (VStr "100.64.0.9");
   sample_match (payload_left "ip" "saddr") (VDict [("set", VList [VStr "100.64.0.8"; VStr "100.64.0.7"])]);
   sample_match (payload_left "tcp" "dport") (VInt 9443); sample_accept].

Definition sample_objects : list value :=
  [VDict [("metainfo", VDict [])];
   VDict [("set", VDict [("family", VStr "inet"); ("table", VStr "filter"); ("name", VStr "vpn_tailnet_ssh_v4");
                         ("type", VStr "ipv4_addr"); ("elem", VList [VStr "100.64.0.7"])])];
   sample_rule [iifname "eth0"; sample_match (payload_left "ip6" "saddr") link_local_prefix;
     sample_match (VDict [("fib", VDict [("result", VStr "type"); ("flags", VList [VStr "daddr"])])]) (VStr "local");
     sample_match (payload_left "udp" "sport") (VInt 547); sample_match (payload_left "udp" "dport") (VInt 546);
     sample_counter; sample_accept];
   sample_rule (sample_match (meta_left "nfproto") (VStr "ipv6") :: sample_reply ++ [sample_drop]);
   sample_rule [sample_match (VDict [("ct", VDict [("key", VStr "state")])])
                  (VDict [("set", VList [VStr "established"; VStr "related"])]); sample_accept];
   sample_rule [sample_match (meta_left "iif") (VStr "lo"); sample_accept];
   sample_rule [iifname "tailscale0"; sample_match (payload_left "tcp" "dport") (VInt 22);
                sample_match (payload_left "ip" "saddr") (VStr "@vpn_tailnet_ssh_v4"); sample_accept];
   sample_rule [iifname "tailscale0"; sample_match (payload_left "tcp" "dport") (VInt 22); sample_drop];
   sample_rule sample_collector_rule;
   sample_rule [sample_match (payload_left "udp" "dport") (VDict [("range", VList [VInt 20000; VInt 20001])]); sample_accept];
   sample_rule [sample_match (payload_left "tcp" "dport") (VInt 443); sample_accept]]%string.
Definition sample_nft : value := VDict [("nftables", VList sample_objects)]%string.

Definition sample_rules : list fw_rule :=
  match firewall_rules "eth0" ∅ (Some sample_collector) (Ok sample_nft) with Ok l => l | Raise _ => [] end.

Example sample_rules_positions : position <$> sample_rules = [2; 3; 4; 5; 6; 7; 8; 9; 10].
Proof. vm_compute. reflexivity. Qed.

Lemma sample_firewall : firewall_rules "eth0" ∅ (Some sample_collector) (Ok sample_nft) = Ok sample_rules.
Proof. vm_compute. reflexivity. Qed.

Lemma rules_complete_witness :
  exists objects, Ok sample_nft = Ok (VDict objects) /\
    StronglySorted pos_lt (position <$> sample_rules) /\
    (forall pos v, (exists r, r ∈ sample_rules /\ position r = pos /\ rule_verdict r = v) <->
       exists item e, (pos, item) ∈ enumerate (list_of (field objects "nftables")) /\
         input_rule item = Some e /\ sole_verdict e = Some v) /\
    Forall read_wf sample_rules.
Proof. exact (rules_complete "eth0" ∅ (Some sample_collector) (Ok sample_nft) sample_rules sample_firewall). Defined.

(** A packet from 100.64.0.7 to the collector. *)
Definition sample_packet (left_ : value) : value :=
  if py_eq left_ (meta_left "iifname") then VStr "tailscale0"
  else if py_eq left_ (payload_left "ip" "daddr") then VStr "100.64.0.9"
  else if py_eq left_ (payload_left "ip" "saddr") then VStr "100.64.0.7" else VInt 9443.

Lemma collector_confined_witness :
  sole_verdict sample_collector_rule = Some Accept /\
  sample_packet (meta_left "iifname") = VStr "tailscale0" /\
  sample_packet (payload_left "ip" "daddr") = VStr (address sample_collector) /\
  (exists s, s ∈ sources sample_collector /\ sample_packet (payload_left "ip" "saddr") = VStr s) /\
  py_eq (sample_packet (payload_left "tcp" "dport")) (VInt 9443) = true.
Proof.
  apply (collector_confined sample_collector_rule sample_collector sample_packet); [vm_compute; reflexivity|..].
  - repeat (apply Forall_cons; split); [..|constructor]; (eexists; split; [reflexivity|]); vm_compute;
      repeat (first [by apply Exists_cons_hd | apply Exists_cons_tl]).
  - intros m req Hm Hreq. repeat (apply elem_of_cons in Hm as [-> | Hm]; [
      repeat (apply elem_of_cons in Hreq as [-> | Hreq]; [vm_compute; intros; first [reflexivity | discriminate]|]);
      by apply not_elem_of_nil in Hreq|]). by apply not_elem_of_nil in Hm.
Defined.

(** An interface match over an anonymous set is not refused but crashes the
    reader: [right in {"lo", 1}] hashes the set object. *)
Example interface_set_crashes :
  firewall_rules "eth0" ∅ None (Ok (VDict [("nftables", VList
    [sample_rule [sample_match (meta_left "iifname") (VDict [("set", VList [VStr "eth0"; VStr "eth1"])]);
                  sample_accept]])]))%string = Raise (Exn TypeError "unhashable").
Proof. vm_compute. reflexivity. Qed.
