(* ===== verification/ListenerAudit.v ===== *)
(** * The audit of public listeners

    [scripts/verify-public-listeners.py]: the sockets of [ss -H -lntu] and
    [_violations], which compares firewall and sockets with the contract.  The
    output of [ss] is ASCII, so [str.split], [str.splitlines] and [str.isdigit]
    are modelled on ASCII characters. *)

From stdpp Require Import sorting.
From S2P Require Import Prelude PyValue PyStr IPAddr ListenerContract FirewallRules.
#[local] Open Scope Z_scope.

(** ** Listening sockets *)

(** [l.rfind("]:")]: the text before and after the last occurrence. *)
Fixpoint rsplit_close (l : list ascii) : option (list ascii * list ascii) :=
  match l with
  | [] => None
  | c :: l' =>
      match rsplit_close l' with
      | Some (host, port) => Some (c :: host, port)
      | None => match l with "]"%char :: ":"%char :: port => Some ([], port) | _ => None end
      end
  end.

(** [value.rsplit(":", 1)] *)
Fixpoint rsplit_colon (l : list ascii) : option (list ascii * list ascii) :=
  match l with
  | [] => None
  | c :: l' =>
      match rsplit_colon l' with
      | Some (host, port) => Some (c :: host, port)
      | None => if decide (c = colon) then Some ([], l') else None
      end
  end.

(** [int] refuses more than 4300 digits. *)
Definition socket_port (l : list ascii) : res (option Z) :=
  if Nat.eqb (length l) 0 || negb (forallb is_digit l) then Ok None
  else if 4300 <? Z.of_nat (length l) then Raise (value_error "int")
  else let port := digits_val 10 l in
       Ok (if (1 <=? port) && (port <=? 65535) then Some port else None).

Definition percent : ascii := "%"%char.

Definition split_local_address (s : string) : res (option (string * Z)) :=
  match (match chars s with
         | "["%char :: l => rsplit_close l
         | l => rsplit_colon l
         end) with
  | None => Ok None
  | Some (host, port_raw) =>
      let* port := socket_port port_raw in
      Ok (p ← port; Some (of_chars (partition_chars percent host).1.1, p))
  end.

Definition is_public_capable_bind (host : string) : bool :=
  if mem host ["*"; "0.0.0.0"; "::"]%string then true
  else if bool_decide (lower host = "localhost"%string) then false
  else match ip_address host with
       | Some a => is_global a && negb (is_multicast a)
       | None => false
       end.

(** The line boundaries of [str.splitlines]: a carriage return and the line feed
    after it are one. *)
Definition is_break (c : ascii) : bool := between 10 13 c || between 28 30 c.
Fixpoint splitlines (l : list ascii) : list (list ascii) :=
  match l with
  | [] => []
  | c :: l' =>
      if is_break c then
        match l' with
        | d :: l'' => if (ord c =? 13) && (ord d =? 10) then [] :: splitlines l'' else [] :: splitlines l'
        | [] => [[]]
        end
      else match splitlines l' with
           | p :: ps => (c :: p) :: ps
           | [] => [[c]]
           end
  end.

(** [line.split()] *)
Fixpoint fields_loop (l : list ascii) (cur : list ascii) : list (list ascii) :=
  match l with
  | [] => match cur with [] => [] | _ => [cur] end
  | c :: l =>
      if is_space c then match cur with [] => fields_loop l [] | _ => cur :: fields_loop l [] end
      else fields_loop l (cur ++ [c])
  end.
Definition fields (l : list ascii) : list string := of_chars <$> fields_loop l [].

Definition socket_protocol (s : string) : option string :=
  if startswith s "tcp" then Some "tcp"%string
  else if startswith s "udp" then Some "udp"%string else None.

Definition socket_step (ports : gset (string * Z)) (line : list ascii) : res (gset (string * Z)) :=
  match fields line with
  | proto :: _ :: _ :: _ :: local :: _ =>
      let* parsed := split_local_address local in
      Ok match socket_protocol proto, parsed with
         | Some p, Some (host, port) =>
             if is_public_capable_bind host then {[(p, port)]} ∪ ports else ports
         | _, _ => ports
         end
  | _ => Ok ports
  end.

Definition public_socket_ports (ss_output : string) : res (gset (string * Z)) :=
  foldM_res socket_step (splitlines (chars ss_output)) ∅.

Definition newline : string := of_chars [chr 10].
Example sockets_ex1 :
  public_socket_ports ("tcp LISTEN 0 128 0.0.0.0:443 0.0.0.0:*" +:+ newline +:+
    "udp UNCONN 0 0 [2a01::1%eth0]:8443 [::]:*" +:+ newline +:+ "tcp LISTEN 0 128 127.0.0.1:9443 0.0.0.0:*")%string
  = Ok {[("tcp"%string, 443); ("udp"%string, 8443)]}.
Proof. vm_compute. reflexivity. Qed.

(** ** The audit *)

(** The order of [sorted(conforming.items())]: the selectors are distinct. *)
Definition entry_le (x y : port_selector * string) : Prop := sel_le x.1 y.1.
#[export] Instance entry_le_dec : RelDecision entry_le.
Proof. intros x y. unfold entry_le. apply _. Defined.

Record audit := Audit {
  violations : list string;
  conforming : gmap port_selector nat;
  tailnet_seen : gmap string nat;
  tailnet_accepts : list Z;
  tailnet_drops : list Z;
  public_ssh : list Z;
  count_link_local : nat;
  count_approved : nat;
  dhcpv6_accepts : list Z;
  dhcpv6_denies : list Z;
  collector_seen : nat }.

Section Audit.
Context (expected : contract) (ssh_port : Z) (tailnet_sources : gset string)
  (dhcpv6_servers : gset string) (collector : option collector_ingress).

Definition ssh : port_selector := PortSelector "tcp" ssh_port ssh_port.
Definition audit_init : audit :=
  Audit [] ((fun _ => 0%nat) <$> expected) (set_to_map (fun s => (s, 0%nat)) tailnet_sources)
    [] [] [] 0 0 [] [] 0.

Definition report (s : string) (a : audit) : audit :=
  Audit (violations a ++ [s]) (conforming a) (tailnet_seen a) (tailnet_accepts a) (tailnet_drops a)
    (public_ssh a) (count_link_local a) (count_approved a) (dhcpv6_accepts a) (dhcpv6_denies a) (collector_seen a).
Definition add_conforming (sel : port_selector) (a : audit) : audit :=
  Audit (violations a) (alter S sel (conforming a)) (tailnet_seen a) (tailnet_accepts a) (tailnet_drops a)
    (public_ssh a) (count_link_local a) (count_approved a) (dhcpv6_accepts a) (dhcpv6_denies a) (collector_seen a).
Definition add_tailnet (source : string) (p : Z) (a : audit) : audit :=
  Audit (violations a) (conforming a) (alter S source (tailnet_seen a)) (tailnet_accepts a ++ [p]) (tailnet_drops a)
    (public_ssh a) (count_link_local a) (count_approved a) (dhcpv6_accepts a) (dhcpv6_denies a) (collector_seen a).
Definition add_tailnet_drop (p : Z) (a : audit) : audit :=
  Audit (violations a) (conforming a) (tailnet_seen a) (tailnet_accepts a) (tailnet_drops a ++ [p])
    (public_ssh a) (count_link_local a) (count_approved a) (dhcpv6_accepts a) (dhcpv6_denies a) (collector_seen a).
Definition add_public_ssh (p : Z) (a : audit) : audit :=
  Audit (violations a) (conforming a) (tailnet_seen a) (tailnet_accepts a) (tailnet_drops a)
    (public_ssh a ++ [p]) (count_link_local a) (count_approved a) (dhcpv6_accepts a) (dhcpv6_denies a) (collector_seen a).
Definition add_dhcpv6 (k : dhcpv6_kind) (p : Z) (a : audit) : audit :=
  Audit (violations a) (conforming a) (tailnet_seen a) (tailnet_accepts a) (tailnet_drops a) (public_ssh a)
    (match k with LinkLocal => S (count_link_local a) | _ => count_link_local a end)
    (match k with ApprovedServer => S (count_approved a) | _ => count_approved a end)
    (dhcpv6_accepts a ++ [p]) (dhcpv6_denies a) (collector_seen a).
Definition add_dhcpv6_deny (p : Z) (a : audit) : audit :=
  Audit (violations a) (conforming a) (tailnet_seen a) (tailnet_accepts a) (tailnet_drops a)
    (public_ssh a) (count_link_local a) (count_approved a) (dhcpv6_accepts a) (dhcpv6_denies a ++ [p]) (collector_seen a).
Definition add_collector (a : audit) : audit :=
  Audit (violations a) (conforming a) (tailnet_seen a) (tailnet_accepts a) (tailnet_drops a)
    (public_ssh a) (count_link_local a) (count_approved a) (dhcpv6_accepts a) (dhcpv6_denies a) (S (collector_seen a)).

Definition tailscale0 : gset string := {["tailscale0"%string]}.

Definition is_tailnet_drop (r : fw_rule) : bool :=
  bool_decide (rule_selector r = Some ssh) && negb (source_restricted r) && input_restricted r
  && bool_decide (input_interfaces r = tailscale0) && negb (unknown_predicate r).

Definition drop_step (r : fw_rule) (a : audit) : audit :=
  let a := if bool_decide (rule_dhcpv6_kind r = Some Deny) then add_dhcpv6_deny (position r) a else a in
  if is_tailnet_drop r then add_tailnet_drop (position r) a else a.

Definition is_icmp (r : fw_rule) : bool :=
  bool_decide (protocols r <> ∅) && bool_decide (protocols r ⊆ {["icmp"; "ipv6-icmp"]}%string)
  && icmp_type_restricted r && negb (unknown_predicate r).

Definition is_tailnet_rule (r : fw_rule) : bool :=
  source_restricted r && input_restricted r && bool_decide (input_interfaces r = tailscale0)
  && Nat.eqb (size (source_addresses r)) 1 && bool_decide (source_addresses r ⊆ tailnet_sources)
  && negb (unknown_predicate r).

Definition ssh_step (r : fw_rule) (a : audit) : audit :=
  if is_tailnet_rule r then
    match elements (source_addresses r) with
    | source :: _ => add_tailnet source (position r) a
    | [] => a
    end
  else if negb (source_restricted r) || input_restricted r || unknown_predicate r
  then report ("unexpected unrestricted firewall " +:+ label ssh)%string a
  else add_public_ssh (position r) a.

Definition scope_matches (name : string) (r : fw_rule) : bool :=
  if bool_decide (name = "cdn-front"%string)
  then source_restricted r && negb (input_restricted r)
  else negb (source_restricted r) && negb (input_restricted r).

Definition selector_step (sel : port_selector) (r : fw_rule) (a : audit) : audit :=
  if bool_decide (sel = ssh) then ssh_step r a else
  match expected !! sel with
  | None => report ("unexpected firewall " +:+ label sel)%string a
  | Some name =>
      if negb (scope_matches name r) || unknown_predicate r
      then report ("restricted or unsupported firewall " +:+ label sel)%string a
      else add_conforming sel a
  end.

(** An accept of kind [Deny] would be a missing key of [dhcpv6_counts]. *)
Definition accept_step (r : fw_rule) (a : audit) : res audit :=
  if rule_collector r then Ok (add_collector a) else
  match rule_dhcpv6_kind r with
  | Some Deny => Raise (Exn KeyError "deny")
  | Some k => Ok (add_dhcpv6 k (position r) a)
  | None =>
      Ok match rule_selector r with
         | None =>
             if loopback_only r || established_only r || is_icmp r then a
             else report "unexpected broad firewall accept" a
         | Some sel => selector_step sel r a
         end
  end.

Definition rule_audit (a : audit) (r : fw_rule) : res audit :=
  match rule_verdict r with
  | Drop => Ok (drop_step r a)
  | Accept => accept_step r a
  end.

Definition collector_violations (a : audit) (sockets : gset (string * Z)) : list string :=
  match collector with
  | None => []
  | Some _ =>
      flag (negb (Nat.eqb (collector_seen a) 1)) "invalid Tailnet collector ingress rule count"
      ++ flag (bool_decide (("tcp"%string, 9443) ∈ sockets)) "public Tailnet collector socket tcp 9443"
  end.

Definition dhcpv6_violations (a : audit) (established : list Z) : list string :=
  flag (negb (Nat.eqb (count_link_local a) 1)) "invalid DHCPv6 link-local reply rule count"
  ++ flag (negb (Nat.eqb (count_approved a) (if decide (dhcpv6_servers = ∅) then 0 else 1)))
       "invalid DHCPv6 approved-server reply rule count"
  ++ match dhcpv6_denies a with
     | [deny] => flag (existsb (fun p => deny <=? p) (dhcpv6_accepts a) || existsb (fun p => p <=? deny) established)
                   "invalid DHCPv6 reply rule ordering"
     | _ => ["invalid DHCPv6 reply deny rule count"%string]
     end.

Definition expected_count (name : string) : nat := if bool_decide (name = "cdn-front"%string) then 2 else 1.

Definition sorted_selectors : list (port_selector * string) :=
  merge_sort entry_le (map_to_list expected).

Definition count_violation (a : audit) (x : port_selector * string) : list string :=
  let count := default 0%nat (conforming a !! x.1) in
  if Nat.ltb count (expected_count x.2) then [("missing firewall " +:+ label x.1)%string]
  else flag (Nat.ltb (expected_count x.2) count) ("duplicate firewall " +:+ label x.1)%string.

Definition source_violation (a : audit) (source : string) : list string :=
  match default 0%nat (tailnet_seen a !! source) with
  | 0%nat => ["missing Tailnet SSH source rule"%string]
  | 1%nat => []
  | _ => ["duplicate Tailnet SSH source rule"%string]
  end.

Definition drop_violations (a : audit) : list string :=
  match tailnet_drops a with
  | [d] => flag (existsb (fun p => d <=? p) (tailnet_accepts a) || existsb (fun p => p <=? d) (public_ssh a))
             "invalid Tailnet SSH drop ordering"
  | _ => ["invalid Tailnet SSH drop ordering"%string]
  end.

Definition exempt (native_acme : bool) (x : port_selector * string) : bool :=
  native_acme && bool_decide (x.2 = "hysteria-acme"%string) && bool_decide (x.1 = PortSelector "tcp" 80 80).

Definition port_range (sel : port_selector) : list Z := seqZ (start sel) (end_ sel - start sel + 1).

(** The first port of the selector without a public socket. *)
Definition missing_port (sockets : gset (string * Z)) (sel : port_selector) : option Z :=
  head (filter (fun p => (protocol sel, p) ∉ sockets) (port_range sel)).

Definition socket_violation (native_acme : bool) (sockets : gset (string * Z)) (x : port_selector * string) : list string :=
  if exempt native_acme x then [] else
  match missing_port sockets x.1 with
  | None => []
  | Some p =>
      [if start x.1 =? end_ x.1 then ("missing " +:+ protocol x.1 +:+ " " +:+ str_of_Z p)%string
       else ("missing " +:+ protocol x.1 +:+ " " +:+ str_of_Z p +:+ " (required by range "
             +:+ span_text (start x.1) (end_ x.1) +:+ ")")%string]
  end.

Definition established_positions (firewall : list fw_rule) : list Z :=
  position <$> filter (fun r => rule_verdict r = Accept /\ established_only r = true) firewall.

Definition all_violations (firewall : list fw_rule) (sockets : gset (string * Z)) (native_acme : bool) : res (list string) :=
  let* a := foldM_res rule_audit firewall audit_init in
  Ok (violations a ++ collector_violations a sockets
      ++ dhcpv6_violations a (established_positions firewall)
      ++ mjoin (count_violation a <$> sorted_selectors)
      ++ mjoin (source_violation a <$> merge_sort str_le (elements tailnet_sources))
      ++ drop_violations a
      ++ mjoin (socket_violation native_acme sockets <$> sorted_selectors)).

End Audit.

(** ** The program *)

(** The inputs of a run: the outcome of decoding each argument, the DHCPv6 uplink,
    and what [nft] and [ss] print. *)
Record run := Run {
  run_contract : res value; run_ssh_port : Z; run_tailnet : res value; run_collector : res value;
  run_uplink : string; run_servers : res value; run_nft : res value; run_ss : string; run_acme : bool }.

Record authorities := Authorities {
  au_contract : contract; au_tailnet : gset string; au_collector : option collector_ingress; au_servers : gset string }.

Definition collector_port : Z := 9443.
Definition overlaps_collector (expected : contract) : bool :=
  existsb (fun x => bool_decide (protocol x.1 = "tcp"%string) && (start x.1 <=? collector_port) && (collector_port <=? end_ x.1))
    (map_to_list expected).

Definition decode_authorities (text : value -> string) (r : run) : res authorities :=
  let* expected := decode_contract text (run_contract r) in
  let* tailnet := decode_tailnet_sources (run_tailnet r) in
  let* collector := decode_collector_ingress (run_collector r) in
  raise_if (bool_decide (collector <> None) && ((run_ssh_port r =? collector_port) || overlaps_collector expected))
    (value_error "collector-overlap") ;;;
  let* servers := decode_dhcpv6_servers (run_servers r) in
  Ok (Authorities expected tailnet collector servers).

Definition verify (text : value -> string) (r : run) : res (list string) :=
  let* a := decode_authorities text r in
  let* firewall := firewall_rules (run_uplink r) (au_servers a) (au_collector a) (run_nft r) in
  let* sockets := public_socket_ports (run_ss r) in
  all_violations (au_contract a) (run_ssh_port r) (au_tailnet a) (au_servers a) (au_collector a)
    firewall sockets (run_acme r).

(** [main]: the exit status; [None] is an exception it does not catch. *)
Definition exit_status (r : res (list string)) : option Z :=
  match r with
  | Ok [] => Some 0
  | Ok _ => Some 1
  | Raise e => if caught [ValueError] e then Some 2 else None
  end.

(** ** What a clean audit means

    The role the policy gives a rule, and the specification: every accept rule
    has a role, each role is played as often as the contract says, in the right
    order, and every public port of the contract is listening. *)

Inductive role :=
| Dropped | CollectorPass | DhcpPass (k : dhcpv6_kind) | LocalPass | TailnetPass (source : string)
| PublicSsh | ListenerPass (sel : port_selector) | Unsanctioned.
#[global] Instance role_eq_dec : EqDecision role.
Proof. solve_decision. Defined.

Definition when (b : bool) (r : role) : role := if b then r else Unsanctioned.

Section Spec.
Context (expected : contract) (ssh_port : Z) (tailnet_sources : gset string)
  (dhcpv6_servers : gset string) (collector : option collector_ingress).

Definition listener_role (sel : port_selector) (r : fw_rule) : role :=
  match expected !! sel with
  | Some name => when (scope_matches name r && negb (unknown_predicate r)) (ListenerPass sel)
  | None => Unsanctioned
  end.

Definition ssh_role (r : fw_rule) : role :=
  if is_tailnet_rule tailnet_sources r then TailnetPass (default ""%string (head (elements (source_addresses r))))
  else when (source_restricted r && negb (input_restricted r) && negb (unknown_predicate r)) PublicSsh.

Definition role_of (r : fw_rule) : role :=
  match rule_verdict r, rule_collector r, rule_dhcpv6_kind r, rule_selector r with
  | Drop, _, _, _ => Dropped
  | Accept, true, _, _ => CollectorPass
  | Accept, false, Some k, _ => DhcpPass k
  | Accept, false, None, None => when (loopback_only r || established_only r || is_icmp r) LocalPass
  | Accept, false, None, Some sel => if decide (sel = ssh ssh_port) then ssh_role r else listener_role sel r
  end.

Definition played (p : role) (firewall : list fw_rule) : nat :=
  length (filter (fun r => role_of r = p) firewall).
Definition is_tailnet_pass (p : role) : Prop := match p with TailnetPass _ => True | _ => False end.
Definition is_dhcp_pass (p : role) : Prop := match p with DhcpPass _ => True | _ => False end.
#[local] Instance is_tailnet_pass_dec p : Decision (is_tailnet_pass p).
Proof. destruct p; simpl; apply _. Defined.
#[local] Instance is_dhcp_pass_dec p : Decision (is_dhcp_pass p).
Proof. destruct p; simpl; apply _. Defined.

Definition denies (firewall : list fw_rule) : list Z :=
  position <$> filter (fun r => rule_verdict r = Drop /\ rule_dhcpv6_kind r = Some Deny) firewall.
Definition tailnet_closes (firewall : list fw_rule) : list Z :=
  position <$> filter (fun r => rule_verdict r = Drop /\ is_tailnet_drop ssh_port r = true) firewall.
Definition played_at (P : role -> Prop) `{!forall p, Decision (P p)} (firewall : list fw_rule) : list Z :=
  position <$> filter (fun r => P (role_of r)) firewall.

(** The state of the audit after a prefix of the rules, without its diagnostics. *)
Record tracks (firewall : list fw_rule) (a : audit) : Prop := {
  tr_clean : violations a = [] <-> Forall (fun r => role_of r <> Unsanctioned) firewall;
  tr_conforming : forall sel, conforming a !! sel = (fun _ => played (ListenerPass sel) firewall) <$> expected !! sel;
  tr_seen : forall s, s ∈ tailnet_sources -> tailnet_seen a !! s = Some (played (TailnetPass s) firewall);
  tr_accepts : tailnet_accepts a = played_at is_tailnet_pass firewall;
  tr_drops : tailnet_drops a = tailnet_closes firewall;
  tr_public : public_ssh a = played_at (eq PublicSsh) firewall;
  tr_link_local : count_link_local a = played (DhcpPass LinkLocal) firewall;
  tr_approved : count_approved a = played (DhcpPass ApprovedServer) firewall;
  tr_dhcp : dhcpv6_accepts a = played_at is_dhcp_pass firewall;
  tr_denies : dhcpv6_denies a = denies firewall;
  tr_collector : collector_seen a = played CollectorPass firewall }.

Lemma played_app p fw fw' : played p (fw ++ fw') = (played p fw + played p fw')%nat.
Proof. unfold played. by rewrite filter_app, length_app. Qed.
Lemma played_one p r : played p [r] = if decide (role_of r = p) then 1%nat else 0%nat.
Proof. unfold played. rewrite filter_cons, filter_nil. by case_decide. Qed.
Lemma played_at_app P `{!forall p, Decision (P p)} fw r :
  played_at P (fw ++ [r]) = played_at P fw ++ if decide (P (role_of r)) then [position r] else [].
Proof. unfold played_at. rewrite filter_app, fmap_app, filter_cons, filter_nil. by case_decide. Qed.
Lemma denies_app fw r :
  denies (fw ++ [r]) = denies fw ++
    if decide (rule_verdict r = Drop /\ rule_dhcpv6_kind r = Some Deny) then [position r] else [].
Proof. unfold denies. rewrite filter_app, fmap_app, filter_cons, filter_nil. by case_decide. Qed.
Lemma tailnet_closes_app fw r :
  tailnet_closes (fw ++ [r]) = tailnet_closes fw ++
    if decide (rule_verdict r = Drop /\ is_tailnet_drop ssh_port r = true) then [position r] else [].
Proof. unfold tailnet_closes. rewrite filter_app, fmap_app, filter_cons, filter_nil. by case_decide. Qed.
Lemma sanctioned_app fw r :
  Forall (fun r => role_of r <> Unsanctioned) (fw ++ [r]) <->
  Forall (fun r => role_of r <> Unsanctioned) fw /\ role_of r <> Unsanctioned.
Proof. by rewrite Forall_app, Forall_singleton. Qed.

(** One accept rule: the audit records its role, or reports it. *)
Definition record_role (r : fw_rule) (p : role) (a : audit) : option audit :=
  match p with
  | Dropped | Unsanctioned | DhcpPass Deny => None
  | CollectorPass => Some (add_collector a)
  | DhcpPass k => Some (add_dhcpv6 k (position r) a)
  | LocalPass => Some a
  | TailnetPass s => Some (add_tailnet s (position r) a)
  | PublicSsh => Some (add_public_ssh (position r) a)
  | ListenerPass sel => Some (add_conforming sel a)
  end.

Lemma size_one_elements (s : gset string) : size s = 1%nat -> exists x, elements s = [x] /\ s = {[x]}.
Proof.
  intros Hs. apply size_1_elem_of in Hs as [x Hx]. apply leibniz_equiv in Hx. subst s.
  exists x. by rewrite elements_singleton.
Qed.

Lemma accept_step_role r a a' :
  rule_verdict r = Accept ->
  accept_step expected ssh_port tailnet_sources r a = Ok a' ->
  record_role r (role_of r) a = Some a' \/
  role_of r = Unsanctioned /\ exists m, a' = report m a.
Proof.
  intros Hv. unfold accept_step, role_of. rewrite Hv. destruct (rule_collector r); [intros [= <-]; by left|].
  destruct (rule_dhcpv6_kind r) as [[]|]; [intros [= <-]; by left..|done|]. intros [= <-].
  destruct (rule_selector r) as [sel|].
  - unfold selector_step. destruct (decide (sel = ssh ssh_port)) as [->|Hne].
    + rewrite bool_decide_eq_true_2 by done. unfold ssh_step, ssh_role.
      destruct (is_tailnet_rule tailnet_sources r) eqn:Ht.
      * unfold is_tailnet_rule in Ht. bprop.
        destruct (size_one_elements (source_addresses r)) as (x & -> & _); [done|]. by left.
      * destruct (source_restricted r), (input_restricted r), (unknown_predicate r); simpl; eauto.
    + rewrite bool_decide_eq_false_2 by done. unfold listener_role.
      destruct (expected !! sel) as [name|]; [|right; eauto].
      destruct (scope_matches name r), (unknown_predicate r); simpl; eauto.
  - destruct (loopback_only r || established_only r || is_icmp r); simpl; eauto.
Qed.

Lemma tracks_init : tracks [] (audit_init expected tailnet_sources).
Proof.
  split; try done.
  - intros sel. cbn. by rewrite lookup_fmap.
  - intros s Hs. cbn. apply lookup_set_to_map; [naive_solver|]. by exists s.
Qed.

Lemma alter_count (m : gmap port_selector nat) fw sel sel' r :
  (forall s, m !! s = (fun _ => played (ListenerPass s) fw) <$> expected !! s) ->
  role_of r = ListenerPass sel ->
  alter S sel m !! sel' = (fun _ => played (ListenerPass sel') (fw ++ [r])) <$> expected !! sel'.
Proof.
  intros Hm Hr. rewrite played_app, played_one, Hr. destruct (decide (sel = sel')) as [<-|Hne].
  - rewrite lookup_alter_eq, Hm, decide_True by done. destruct (expected !! sel); simpl; [|done]. f_equal. lia.
  - rewrite lookup_alter_ne, Hm, decide_False by congruence. destruct (expected !! sel'); simpl; [|done]. f_equal. lia.
Qed.

Lemma alter_seen (m : gmap string nat) fw s s' r :
  m !! s' = Some (played (TailnetPass s') fw) -> role_of r = TailnetPass s ->
  alter S s m !! s' = Some (played (TailnetPass s') (fw ++ [r])).
Proof.
  intros Hm Hr. rewrite played_app, played_one, Hr. destruct (decide (s = s')) as [<-|Hne].
  - rewrite lookup_alter_eq, Hm, decide_True by done. simpl. f_equal. lia.
  - rewrite lookup_alter_ne, Hm, decide_False by congruence. f_equal. lia.
Qed.

Ltac track Hr :=
  rewrite ?played_app, ?played_one, ?played_at_app, ?denies_app, ?tailnet_closes_app, ?sanctioned_app, ?Hr;
  repeat case_decide; simplify_eq/=; try tauto; rewrite ?app_nil_r, ?Nat.add_0_r; auto; try lia; try naive_solver congruence.

Lemma tracks_accept fw a r a' :
  tracks fw a -> rule_verdict r = Accept -> record_role r (role_of r) a = Some a' -> tracks (fw ++ [r]) a'.
Proof.
  intros [] Hv Ha. destruct (role_of r) as [| |[]| | | | |] eqn:Hr; try discriminate Ha; simpl in Ha;
    apply (inj Some) in Ha as <-; split; cbn [add_collector add_dhcpv6 add_tailnet add_public_ssh add_conforming
      violations conforming tailnet_seen tailnet_accepts tailnet_drops public_ssh count_link_local count_approved
      dhcpv6_accepts dhcpv6_denies collector_seen]; intros;
    try (by eapply alter_count); try (by eapply alter_seen; [auto|]); try track Hr.
Qed.

Ltac audit_fields :=
  cbn [report add_dhcpv6_deny add_tailnet_drop violations conforming tailnet_seen tailnet_accepts tailnet_drops
    public_ssh count_link_local count_approved dhcpv6_accepts dhcpv6_denies collector_seen].

Lemma dropped_role r : rule_verdict r = Drop -> role_of r = Dropped.
Proof. intros Hv. unfold role_of. by rewrite Hv. Qed.
Lemma accepted_role r : rule_verdict r = Accept -> role_of r <> Dropped.
Proof.
  intros Hv. unfold role_of, ssh_role, listener_role, when. rewrite Hv.
  repeat case_match; done.
Qed.

Lemma tracks_drop fw a r :
  tracks fw a -> rule_verdict r = Drop -> tracks (fw ++ [r]) (drop_step ssh_port r a).
Proof.
  intros [] Hv. pose proof (dropped_role r Hv) as Hr. unfold drop_step.
  destruct (bool_decide (rule_dhcpv6_kind r = Some Deny)) eqn:Hk, (is_tailnet_drop ssh_port r) eqn:Ht;
    bprop; split; audit_fields; intros; rewrite ?tr_conforming0, ?tr_seen0 by done; track Hr.
Qed.

Lemma tracks_report fw a r m :
  tracks fw a -> rule_verdict r = Accept -> role_of r = Unsanctioned -> tracks (fw ++ [r]) (report m a).
Proof.
  intros [] Hv Hr. split; audit_fields; intros; rewrite ?tr_conforming0, ?tr_seen0 by done; try track Hr.
  split; [|naive_solver]. by intros [_ ?]%app_eq_nil.
Qed.

Lemma rule_audit_tracks fw a r a' :
  tracks fw a -> rule_audit expected ssh_port tailnet_sources a r = Ok a' -> tracks (fw ++ [r]) a'.
Proof.
  intros Ht. unfold rule_audit. destruct (rule_verdict r) eqn:Hv.
  - intros [Hr|(Hr & m & ->)]%accept_step_role; [by eapply tracks_accept|by apply tracks_report|done].
  - intros [= <-]. by apply tracks_drop.
Qed.

(** The fold keeps exactly the tally of the roles; it fails only on an accept
    rule of the deny kind, which [dhcpv6_rule_kind] never returns. *)
Lemma audit_tracks fw a :
  foldM_res (rule_audit expected ssh_port tailnet_sources) fw (audit_init expected tailnet_sources) = Ok a -> tracks fw a.
Proof. apply (foldM_res_ind tracks); [apply tracks_init|]. intros. by eapply rule_audit_tracks. Qed.

Definition no_deny_accept (r : fw_rule) : Prop :=
  rule_verdict r = Accept -> rule_dhcpv6_kind r <> Some Deny.

Lemma audit_total fw a :
  Forall no_deny_accept fw ->
  exists a', foldM_res (rule_audit expected ssh_port tailnet_sources) fw a = Ok a'.
Proof.
  revert a. induction fw as [|r fw IH]; intros a H; [by exists a|]. apply Forall_cons in H as [Hr H].
  cbn [foldM_res]. assert (exists a', rule_audit expected ssh_port tailnet_sources a r = Ok a') as [a' ->].
  { unfold rule_audit, accept_step. destruct (rule_verdict r) eqn:Hv; [|eauto].
    destruct (rule_collector r); [eauto|]. destruct (rule_dhcpv6_kind r) as [[]|] eqn:Hk; eauto.
    by destruct (Hr Hv). }
  cbn [res_bind]. by apply IH.
Qed.

(** ** The specification *)

Record conforms (firewall : list fw_rule) (sockets : gset (string * Z)) (native_acme : bool) : Prop := {
  cf_sanctioned : Forall (fun r => role_of r <> Unsanctioned) firewall;
  cf_collector : collector <> None -> played CollectorPass firewall = 1%nat /\ ("tcp"%string, 9443) ∉ sockets;
  cf_link_local : played (DhcpPass LinkLocal) firewall = 1%nat;
  cf_approved : played (DhcpPass ApprovedServer) firewall = if decide (dhcpv6_servers = ∅) then 0%nat else 1%nat;
  cf_deny : exists deny, denies firewall = [deny] /\
    Forall (fun p => p < deny) (played_at is_dhcp_pass firewall) /\
    Forall (fun p => deny < p) (established_positions firewall);
  cf_listeners : map_Forall (fun sel name => played (ListenerPass sel) firewall = expected_count name) expected;
  cf_tailnet : set_Forall (fun s => played (TailnetPass s) firewall = 1%nat) tailnet_sources;
  cf_close : exists close, tailnet_closes firewall = [close] /\
    Forall (fun p => p < close) (played_at is_tailnet_pass firewall) /\
    Forall (fun p => close < p) (played_at (eq PublicSsh) firewall);
  cf_sockets : map_Forall (fun sel name => exempt native_acme (sel, name) = false ->
    forall p, start sel <= p <= end_ sel -> (protocol sel, p) ∈ sockets) expected }.

Lemma none_ge d l : existsb (fun p => d <=? p) l = false <-> Forall (fun p => p < d) l.
Proof. rewrite existsb_false. apply Forall_proper; [|done]. intros p. apply Z.leb_gt. Qed.
Lemma none_le d l : existsb (fun p => p <=? d) l = false <-> Forall (fun p => d < p) l.
Proof. rewrite existsb_false. apply Forall_proper; [|done]. intros p. apply Z.leb_gt. Qed.

Lemma one_position (l : list Z) (f : Z -> list string) m :
  match l with [d] => f d | _ => [m] end = [] <-> exists d, l = [d] /\ f d = [].
Proof. destruct l as [|d []]; split; try done; try (by intros (? & ? & ?)); eauto. by intros (? & [= ->] & ?). Qed.

Lemma sorted_selectors_forall (P : port_selector * string -> Prop) :
  Forall P (sorted_selectors expected) <-> map_Forall (fun sel name => P (sel, name)) expected.
Proof.
  unfold sorted_selectors. rewrite merge_sort_Permutation, map_Forall_to_list.
  apply Forall_proper; [|done]. by intros [].
Qed.

Lemma count_violation_nil a fw sel name :
  tracks fw a -> expected !! sel = Some name ->
  count_violation a (sel, name) = [] <-> played (ListenerPass sel) fw = expected_count name.
Proof.
  intros Ht Hsel. unfold count_violation. cbn [fst snd]. rewrite (tr_conforming _ _ Ht), Hsel. simpl.
  destruct (Nat.ltb_spec (played (ListenerPass sel) fw) (expected_count name)); [split; [done|lia]|].
  rewrite flag_nil, Nat.ltb_ge. lia.
Qed.

Lemma source_violation_nil a fw s :
  tracks fw a -> s ∈ tailnet_sources -> source_violation a s = [] <-> played (TailnetPass s) fw = 1%nat.
Proof.
  intros Ht Hs. unfold source_violation. rewrite (tr_seen _ _ Ht) by done. simpl.
  destruct (played _ _) as [|[|n]]; done.
Qed.

Lemma missing_port_none (sockets : gset (string * Z)) sel :
  missing_port sockets sel = None <-> forall p, start sel <= p <= end_ sel -> (protocol sel, p) ∈ sockets.
Proof.
  unfold missing_port. rewrite head_None. split.
  - intros Hf p Hp. destruct (decide ((protocol sel, p) ∈ sockets)) as [|Hn]; [done|].
    destruct (filter_nil_not_elem_of _ _ p Hf Hn). unfold port_range. apply elem_of_seqZ. lia.
  - intros Hall. destruct (filter _ _) as [|p l] eqn:Hf; [done|].
    assert (p ∈ p :: l) as Hin by left. rewrite <-Hf in Hin.
    apply list_elem_of_filter in Hin as [Hn Hp%elem_of_seqZ]. destruct Hn. apply Hall. unfold port_range in Hp. lia.
Qed.

Lemma socket_violation_nil native_acme sockets sel name :
  socket_violation native_acme sockets (sel, name) = [] <->
  (exempt native_acme (sel, name) = false -> forall p, start sel <= p <= end_ sel -> (protocol sel, p) ∈ sockets).
Proof.
  rewrite <-missing_port_none. unfold socket_violation. cbn [fst snd].
  destruct (exempt _ _); [by split|]. destruct (missing_port sockets sel); split; try done. intros H. by specialize (H eq_refl).
Qed.

Lemma collector_violations_nil fw a sockets :
  tracks fw a ->
  collector_violations collector a sockets = [] <->
  (collector <> None -> played CollectorPass fw = 1%nat /\ ("tcp"%string, 9443) ∉ sockets).
Proof.
  intros Ht. unfold collector_violations. destruct collector; [|split; [by intros _ []|done]].
  rewrite app_nil, !flag_nil, (tr_collector _ _ Ht), negb_false_iff, Nat.eqb_eq, bool_decide_eq_false.
  split; [by intros ? _|intros H; by apply H].
Qed.

Lemma dhcpv6_violations_nil fw a :
  tracks fw a ->
  dhcpv6_violations dhcpv6_servers a (established_positions fw) = [] <->
  played (DhcpPass LinkLocal) fw = 1%nat /\
  played (DhcpPass ApprovedServer) fw = (if decide (dhcpv6_servers = ∅) then 0%nat else 1%nat) /\
  exists deny, denies fw = [deny] /\
    Forall (fun p => p < deny) (played_at is_dhcp_pass fw) /\
    Forall (fun p => deny < p) (established_positions fw).
Proof.
  intros Ht. unfold dhcpv6_violations.
  rewrite !app_nil, !flag_nil, one_position, (tr_link_local _ _ Ht), (tr_approved _ _ Ht), (tr_denies _ _ Ht),
    (tr_dhcp _ _ Ht), !negb_false_iff, !Nat.eqb_eq.
  repeat apply and_iff_compat_l. split; intros (d & Hd & H); exists d; (split; [done|]).
  - apply flag_nil, orb_false_iff in H as [H1 H2]. by rewrite <-none_ge, <-none_le.
  - apply flag_nil, orb_false_iff. by rewrite none_ge, none_le.
Qed.

Lemma drop_violations_nil fw a :
  tracks fw a ->
  drop_violations a = [] <-> exists close, tailnet_closes fw = [close] /\
    Forall (fun p => p < close) (played_at is_tailnet_pass fw) /\
    Forall (fun p => close < p) (played_at (eq PublicSsh) fw).
Proof.
  intros Ht. unfold drop_violations.
  rewrite one_position, (tr_drops _ _ Ht), (tr_accepts _ _ Ht), (tr_public _ _ Ht).
  split; intros (d & Hd & H); exists d; (split; [done|]).
  - apply flag_nil, orb_false_iff in H as [H1 H2]. by rewrite <-none_ge, <-none_le.
  - apply flag_nil, orb_false_iff. by rewrite none_ge, none_le.
Qed.

Lemma selectors_nil (f : port_selector * string -> list string) (P : port_selector -> string -> Prop) :
  (forall sel name, expected !! sel = Some name -> f (sel, name) = [] <-> P sel name) ->
  mjoin (f <$> sorted_selectors expected) = [] <-> map_Forall P expected.
Proof.
  intros HP. rewrite mjoin_fmap_nil, sorted_selectors_forall.
  split; intros H sel name Hsel; by apply HP, H.
Qed.

(** The list of diagnostics is empty when each of its parts is. *)
Lemma violations_nil fw sockets native_acme a :
  tracks fw a ->
  violations a ++ collector_violations collector a sockets
    ++ dhcpv6_violations dhcpv6_servers a (established_positions fw)
    ++ mjoin (count_violation a <$> sorted_selectors expected)
    ++ mjoin (source_violation a <$> merge_sort str_le (elements tailnet_sources))
    ++ drop_violations a
    ++ mjoin (socket_violation native_acme sockets <$> sorted_selectors expected) = []
  <-> conforms fw sockets native_acme.
Proof.
  intros Ht. rewrite !app_nil, (tr_clean _ _ Ht), (collector_violations_nil fw), (dhcpv6_violations_nil fw),
    (drop_violations_nil fw) by done.
  rewrite (selectors_nil (count_violation a) (fun sel name => played (ListenerPass sel) fw = expected_count name))
    by (intros; by apply count_violation_nil).
  rewrite (selectors_nil (socket_violation native_acme sockets)
    (fun sel name => exempt native_acme (sel, name) = false ->
       forall p, start sel <= p <= end_ sel -> (protocol sel, p) ∈ sockets))
    by (intros; apply socket_violation_nil).
  assert (mjoin (source_violation a <$> merge_sort str_le (elements tailnet_sources)) = [] <->
    set_Forall (fun s => played (TailnetPass s) fw = 1%nat) tailnet_sources) as ->.
  { rewrite mjoin_fmap_nil, merge_sort_Permutation, Forall_forall. split; intros H s Hs.
    - apply (source_violation_nil a fw s Ht Hs), H. by apply elem_of_elements.
    - apply elem_of_elements in Hs. by apply (source_violation_nil a fw), H. }
  split; [by intros (?&?&(?&?&?)&?&?&?&?); split|by intros []].
Qed.

Lemma all_violations_conforms fw sockets native_acme :
  Forall no_deny_accept fw ->
  all_violations expected ssh_port tailnet_sources dhcpv6_servers collector fw sockets native_acme = Ok [] <->
  conforms fw sockets native_acme.
Proof.
  intros Hd. unfold all_violations. destruct (audit_total fw (audit_init expected tailnet_sources) Hd) as [a Ha].
  rewrite Ha. cbn [res_bind]. rewrite <-(violations_nil _ _ _ _ (audit_tracks fw a Ha)).
  split; [apply Ok_inj|by intros ->].
Qed.
End Spec.

(** ** Sockets *)

(** A line of [ss] that shows a socket bound to a public address. *)
Definition exposes (line : list ascii) (p : string) (port : Z) : Prop :=
  exists proto f1 f2 f3 local rest host,
    fields line = proto :: f1 :: f2 :: f3 :: local :: rest /\ socket_protocol proto = Some p /\
    split_local_address local = Ok (Some (host, port)) /\ is_public_capable_bind host = true.

Lemma socket_step_iff ports line ports' p port :
  socket_step ports line = Ok ports' -> (p, port) ∈ ports' <-> (p, port) ∈ ports \/ exposes line p port.
Proof.
  unfold socket_step, exposes.
  destruct (fields line) as [|proto [|f1 [|f2 [|f3 [|local rest]]]]];
    try (intros [= <-]; split; [auto|]; by intros [?|(?&?&?&?&?&?&?&?&_)]).
  intros H. res_inv H. subst ports'.
  destruct (socket_protocol proto) as [q|] eqn:Hq.
  2: { split; [auto|]. intros [?|(?&?&?&?&?&?&?&[= <- <- <- <- <- <-]&?&_)]; [done|congruence]. }
  destruct a as [[host q_port]|].
  2: { split; [auto|]. intros [?|(?&?&?&?&?&?&?&[= <- <- <- <- <- <-]&_&?&_)]; [done|congruence]. }
  destruct (is_public_capable_bind host) eqn:Hb.
  - rewrite elem_of_union, elem_of_singleton. split.
    + intros [[= -> ->]|?]; [right|by left]. by exists proto, f1, f2, f3, local, rest, host.
    + intros [?|(?&?&?&?&?&?&?&[= <- <- <- <- <- <-]&?&?&_)]; [by right|left; congruence].
  - split; [auto|]. intros [?|(?&?&?&?&?&?&?&[= <- <- <- <- <- <-]&?&?&?)]; [done|congruence].
Qed.

Lemma socket_port_range l p : socket_port l = Ok (Some p) -> 1 <= p <= 65535.
Proof.
  unfold socket_port. destruct (_ || _); [done|]. destruct (4300 <? _); [done|].
  destruct (Z.leb_spec 1 (digits_val 10 l)), (Z.leb_spec (digits_val 10 l) 65535); try done.
  intros [= <-]. lia.
Qed.

Lemma exposes_range line p port : exposes line p port -> (p = "tcp"%string \/ p = "udp"%string) /\ 1 <= port <= 65535.
Proof.
  intros (proto & f1 & f2 & f3 & local & rest & host & _ & Hp & Hs & _). split.
  - unfold socket_protocol in Hp. repeat case_match; simplify_eq; auto.
  - unfold split_local_address in Hs. destruct (match chars local with "["%char :: l => _ | l => _ end) as [[h q]|]; [|done].
    apply res_bind_Ok in Hs as (o & Ho & Hs). destruct o as [q'|]; [|done]. apply Ok_inj in Hs.
    cbn in Hs. injection Hs as _ <-. by apply socket_port_range in Ho.
Qed.

(** The public sockets are exactly the (protocol, port) pairs of the lines of
    [ss] whose local address can be reached from the internet; every port is in
    1..65535. *)
Theorem public_sockets out ports :
  public_socket_ports out = Ok ports ->
  forall p port, (p, port) ∈ ports <->
    (exists line, line ∈ splitlines (chars out) /\ exposes line p port) /\
    (p = "tcp"%string \/ p = "udp"%string) /\ 1 <= port <= 65535.
Proof.
  intros H p port. unfold public_socket_ports in H.
  assert ((p, port) ∈ ports <-> exists line, line ∈ splitlines (chars out) /\ exposes line p port) as ->.
  { revert H. apply (foldM_res_ind (fun l s => (p, port) ∈ s <-> exists line, line ∈ l /\ exposes line p port)).
    - split; [set_solver|]. by intros (? & ?%not_elem_of_nil & _).
    - intros d x s s' IH Hs. rewrite (socket_step_iff _ _ _ _ _ Hs), IH. split.
      + intros [(line & ? & ?)|?]; [exists line|exists x]; (split; [apply elem_of_app|done]); [by left|right; by left].
      + intros (line & [?| ->%list_elem_of_singleton]%elem_of_app & ?); [left; eauto|by right]. }
  split; [|by intros [? _]]. intros (line & Hl & He). split; [eauto|]. by apply exposes_range in He.
Qed.

(** ** The verdict of a run *)

Lemma read_wf_no_deny fw : Forall read_wf fw -> Forall no_deny_accept fw.
Proof.
  intros H. eapply Forall_impl; [exact H|]. intros r [_ Hk] Hv Hd. apply Hk in Hd. rewrite decide_True in Hd by done. congruence.
Qed.

Lemma verify_status text r a fw sockets :
  decode_authorities text r = Ok a ->
  firewall_rules (run_uplink r) (au_servers a) (au_collector a) (run_nft r) = Ok fw ->
  public_socket_ports (run_ss r) = Ok sockets ->
  (exit_status (verify text r) = Some 0 <->
   conforms (au_contract a) (run_ssh_port r) (au_tailnet a) (au_servers a) (au_collector a) fw sockets (run_acme r)) /\
  (exit_status (verify text r) = Some 0 \/ exit_status (verify text r) = Some 1).
Proof.
  intros Ha Hfw Hs. unfold verify. rewrite Ha. cbn [res_bind]. rewrite Hfw. cbn [res_bind]. rewrite Hs. cbn [res_bind].
  assert (Forall no_deny_accept fw) as Hd by (by eapply read_wf_no_deny, firewall_rules_wf).
  rewrite <-(all_violations_conforms _ _ _ _ _ _ _ _ Hd). unfold all_violations.
  destruct (audit_total (au_contract a) (run_ssh_port r) (au_tailnet a) fw
    (audit_init (au_contract a) (au_tailnet a)) Hd) as [st ->].
  cbn [res_bind]. destruct (violations st ++ _) as [|v l]; simpl; split; auto; split; congruence.
Qed.

(** The contracts, the firewall and the sockets can be read. *)
Definition inputs_read (text : value -> string) (r : run) (a : authorities) (fw : list fw_rule) (sockets : gset (string * Z)) : Prop :=
  decode_authorities text r = Ok a /\
  firewall_rules (run_uplink r) (au_servers a) (au_collector a) (run_nft r) = Ok fw /\
  public_socket_ports (run_ss r) = Ok sockets.
Definition run_conforms (r : run) (a : authorities) (fw : list fw_rule) (sockets : gset (string * Z)) : Prop :=
  conforms (au_contract a) (run_ssh_port r) (au_tailnet a) (au_servers a) (au_collector a) fw sockets (run_acme r).

Lemma inputs_unread text r : ~ (exists a fw sockets, inputs_read text r a fw sockets) -> exists e, verify text r = Raise e.
Proof.
  intros Hno. unfold verify, inputs_read in *. destruct (decode_authorities text r) as [a|e] eqn:Ha; cbn [res_bind]; [|by exists e].
  destruct (firewall_rules _ _ _ _) as [fw|e] eqn:Hf; cbn [res_bind]; [|by exists e].
  destruct (public_socket_ports _) as [sockets|e] eqn:Hs; cbn [res_bind]; [|by exists e].
  destruct Hno. by exists a, fw, sockets.
Qed.

Lemma inputs_read_dec text r : (exists a fw sockets, inputs_read text r a fw sockets) \/ ~ (exists a fw sockets, inputs_read text r a fw sockets).
Proof.
  unfold inputs_read. destruct (decode_authorities text r) as [a|e]; [|right; by intros (? & ? & ? & [=] & _)].
  destruct (firewall_rules (run_uplink r) (au_servers a) (au_collector a) (run_nft r)) as [fw|e] eqn:Hf;
    [|right; intros (? & ? & ? & [= <-] & ? & _); congruence].
  destruct (public_socket_ports (run_ss r)) as [sockets|e] eqn:Hs; [|right; by intros (? & ? & ? & _ & _ & [=])].
  left. by exists a, fw, sockets.
Qed.

(** C4: The exits of the verifier.  It exits 0 exactly when the contracts, the
    firewall and the sockets can be read and the runtime state conforms to the
    contract: every accept rule has a role; every listener, Tailnet source, DHCPv6
    and collector rule occurs exactly as often as prescribed and in the prescribed
    order around the deny rules; and every port of the contract is bound publicly.
    It exits 1 exactly when they can be read and the state does not conform.  When
    one of them cannot be read there is no verdict: it exits 2, or ends with an
    exception that it does not catch. *)
Theorem verify_exact text r :
  (exit_status (verify text r) = Some 0 <-> exists a fw sockets, inputs_read text r a fw sockets /\ run_conforms r a fw sockets) /\
  (exit_status (verify text r) = Some 1 <-> exists a fw sockets, inputs_read text r a fw sockets /\ ~ run_conforms r a fw sockets) /\
  (exit_status (verify text r) = Some 2 \/ exit_status (verify text r) = None <-> ~ exists a fw sockets, inputs_read text r a fw sockets).
Proof.
  destruct (inputs_read_dec text r) as [(a & fw & sockets & Hin)|Hno].
  - destruct Hin as (Ha & Hf & Hs). destruct (verify_status text r a fw sockets Ha Hf Hs) as [H0 H1].
    assert (forall a' fw' s', inputs_read text r a' fw' s' -> a' = a /\ fw' = fw /\ s' = sockets) as Huniq.
    { intros a' fw' s' (Ha' & Hf' & Hs'). assert (a' = a) as -> by congruence. split_and!; congruence. }
    split; [|split].
    + rewrite H0. split; [intros Hc; by exists a, fw, sockets|]. by intros (a' & fw' & s' & (-> & -> & ->)%Huniq & Hc).
    + split.
      * intros He. exists a, fw, sockets. split; [done|]. intros Hc%H0. congruence.
      * intros (a' & fw' & s' & (-> & -> & ->)%Huniq & Hc). destruct H1 as [H1|H1]; [|done]. by apply H0 in H1.
    + split; [|intros Hn; destruct Hn; by exists a, fw, sockets]. intros He. destruct H1, He; congruence.
  - destruct (inputs_unread text r Hno) as [e He]. rewrite He. cbn [exit_status].
    split; [|split]; [..|split; [done|intros _; destruct (caught _ e); auto]]; destruct (caught _ e); (split; [done|]);
      intros (a & fw & sockets & Hin & _); destruct Hno; by exists a, fw, sockets.
Qed.

(** The traffic an accept rule of a conforming firewall admits. *)
Inductive admitted (a : authorities) (ssh_port : Z) (r : fw_rule) : Prop :=
| Admit_collector : rule_collector r = true -> admitted a ssh_port r
| Admit_dhcpv6 k : rule_dhcpv6_kind r = Some k -> k <> Deny -> admitted a ssh_port r
| Admit_local : rule_selector r = None -> loopback_only r = true \/ established_only r = true -> admitted a ssh_port r
| Admit_icmp :
    rule_selector r = None -> protocols r <> ∅ -> protocols r ⊆ {["icmp"; "ipv6-icmp"]}%string ->
    icmp_type_restricted r = true -> unknown_predicate r = false -> admitted a ssh_port r
| Admit_tailnet s :
    rule_selector r = Some (ssh ssh_port) -> input_interfaces r = tailscale0 -> s ∈ au_tailnet a ->
    source_addresses r = {[s]} -> unknown_predicate r = false -> admitted a ssh_port r
| Admit_ssh :
    rule_selector r = Some (ssh ssh_port) -> source_restricted r = true -> unknown_predicate r = false ->
    admitted a ssh_port r
| Admit_listener sel name :
    rule_selector r = Some sel -> au_contract a !! sel = Some name -> input_restricted r = false ->
    source_restricted r = bool_decide (name = "cdn-front"%string) -> unknown_predicate r = false ->
    admitted a ssh_port r.

Lemma role_admitted a ssh_port r :
  rule_verdict r = Accept -> no_deny_accept r ->
  role_of (au_contract a) ssh_port (au_tailnet a) r <> Unsanctioned -> admitted a ssh_port r.
Proof.
  intros Hv Hd. unfold role_of. rewrite Hv. destruct (rule_collector r) eqn:Hc; [intros _; by apply Admit_collector|].
  destruct (rule_dhcpv6_kind r) as [k|] eqn:Hk.
  { intros _. eapply Admit_dhcpv6; [done|]. intros ->. by apply Hd in Hv. }
  destruct (rule_selector r) as [sel|] eqn:Hsel.
  - destruct (decide (sel = ssh ssh_port)) as [->|Hne].
    + unfold ssh_role. destruct (is_tailnet_rule (au_tailnet a) r) eqn:Ht.
      * intros _. unfold is_tailnet_rule in Ht. bprop.
        destruct (size_one_elements (source_addresses r)) as (x & _ & Hx); [done|].
        eapply (Admit_tailnet _ _ _ x); try done. set_solver.
      * destruct (source_restricted r) eqn:?, (input_restricted r), (unknown_predicate r) eqn:?; try done.
        intros _. by apply Admit_ssh.
    + unfold listener_role. destruct (au_contract a !! sel) as [name|] eqn:He; [|done].
      unfold scope_matches. destruct (unknown_predicate r) eqn:Hu; [by rewrite andb_false_r|].
      destruct (bool_decide (name = "cdn-front"%string)) eqn:Hn, (source_restricted r) eqn:Hs, (input_restricted r) eqn:Hi;
        try done; intros _; eapply Admit_listener; try done; by rewrite Hn.
  - destruct (loopback_only r) eqn:?, (established_only r) eqn:?; try (intros _; apply Admit_local; by auto).
    simpl. destruct (is_icmp r) eqn:Hicmp; [|done]. intros _. unfold is_icmp in Hicmp. bprop. by apply Admit_icmp.
Qed.

(** C9: When the verifier exits with status 0, nothing but sanctioned traffic is
    accepted: every accept rule of the input chain is for the collector, DHCPv6
    replies, loopback or established connections, typed ICMP, SSH (from one
    approved Tailnet source over tailscale0, or source-restricted), or a listener
    of the contract, open to all sources unless it is the CDN front. *)
Theorem clean_run_admits text r a fw :
  exit_status (verify text r) = Some 0 -> decode_authorities text r = Ok a ->
  firewall_rules (run_uplink r) (au_servers a) (au_collector a) (run_nft r) = Ok fw ->
  forall rule, rule ∈ fw -> rule_verdict rule = Accept -> admitted a (run_ssh_port r) rule.
Proof.
  intros He Ha Hfw rule Hr Hv.
  assert (exists sockets, public_socket_ports (run_ss r) = Ok sockets) as [sockets Hs].
  { unfold verify in He. rewrite Ha in He. cbn [res_bind] in He. rewrite Hfw in He. cbn [res_bind] in He.
    destruct (public_socket_ports (run_ss r)) as [s|e]; [eauto|]. cbn in He. by destruct (_ || _). }
  apply (verify_status text r a fw sockets Ha Hfw Hs) in He.
  assert (Forall no_deny_accept fw) as Hd by (by eapply read_wf_no_deny, firewall_rules_wf).
  apply role_admitted; [done|by eapply Forall_forall in Hd|].
  pose proof (cf_sanctioned _ _ _ _ _ _ _ _ He) as Hall. by eapply Forall_forall in Hall.
Qed.

(** ** A sample run *)

Definition sample_run : run :=
  Run (Ok (VList [VDict [("name", VStr "xhttp"); ("protocol", VStr "tcp"); ("port", VInt 443)];
                  VDict [("name", VStr "hysteria"); ("protocol", VStr "udp"); ("port_range", VStr "20000-20001")]])%string)
    22 (Ok (VList [VStr "100.64.0.7"]))
    (Ok (VDict [("address", VStr "100.64.0.9"); ("sources", VList [VStr "100.64.0.7"; VStr "100.64.0.8"])])%string)
    "eth0" (Ok (VList [])) (Ok sample_nft)
    (String.concat newline ["tcp LISTEN 0 4096 0.0.0.0:443 0.0.0.0:*"; "udp UNCONN 0 0 *:20000 *:*";
       "udp UNCONN 0 0 [::]:20001 [::]:*"; "tcp LISTEN 0 128 100.64.0.9:9443 0.0.0.0:*"])%string false.
Definition sample_authorities : authorities :=
  match decode_authorities (fun _ => "") sample_run with Ok a => a | Raise _ => Authorities ∅ ∅ None ∅ end.
Definition sample_sockets : gset (string * Z) :=
  {[("tcp", 443); ("udp", 20000); ("udp", 20001)]}%string.

Lemma sample_decoded : decode_authorities (fun _ => "") sample_run = Ok sample_authorities.
Proof. vm_compute. reflexivity. Qed.
Lemma sample_run_rules :
  firewall_rules (run_uplink sample_run) (au_servers sample_authorities) (au_collector sample_authorities) (run_nft sample_run)
  = Ok sample_rules.
Proof. vm_compute. reflexivity. Qed.
Lemma sample_run_sockets : public_socket_ports (run_ss sample_run) = Ok sample_sockets.
Proof. vm_compute. reflexivity. Qed.
Example sample_run_clean : exit_status (verify (fun _ => "") sample_run) = Some 0.
Proof. vm_compute. reflexivity. Qed.

Lemma public_sockets_witness :
  ("udp"%string, 20001) ∈ sample_sockets <->
    (exists line, line ∈ splitlines (chars (run_ss sample_run)) /\ exposes line "udp" 20001) /\
    ("udp" = "tcp" \/ "udp" = "udp")%string /\ 1 <= 20001 <= 65535.
Proof. exact (public_sockets (run_ss sample_run) sample_sockets sample_run_sockets "udp"%string 20001). Defined.

Lemma verify_exact_witness :
  exit_status (verify (fun _ => "") sample_run) = Some 0 /\
  exists a fw sockets, inputs_read (fun _ => "") sample_run a fw sockets /\ run_conforms sample_run a fw sockets.
Proof.
  split; [vm_compute; reflexivity|]. apply (verify_exact (fun _ => "") sample_run). vm_compute. reflexivity.
Defined.

Lemma clean_run_admits_witness :
  length sample_rules = 9%nat /\ forall rule, rule ∈ sample_rules -> rule_verdict rule = Accept -> admitted sample_authorities 22 rule.
Proof.
  split; [vm_compute; reflexivity|].
  refine (clean_run_admits (fun _ => "") sample_run sample_authorities sample_rules _ sample_decoded sample_run_rules).
  vm_compute. reflexivity.
Defined.

(** The firewall role renders one SSH rule per address family over the named set
    of all approved sources.  With one IPv4 source and no IPv6 source that
    firewall is refused, although it is what the policy asks for; so is one with
    two IPv4 sources. *)
Definition rendered_ssh (family set_ : string) : value :=
  sample_rule [iifname "tailscale0"; sample_match (payload_left "tcp" "dport") (VInt 22);
               sample_match (payload_left family "saddr") (VStr set_); sample_accept]%string.
Definition tailnet_set (name type_ : string) (l : list string) : value :=
  VDict [("set", VDict ([("family", VStr "inet"); ("table", VStr "filter"); ("name", VStr name); ("type", VStr type_)]
    ++ match l with [] => [] | _ => [("elem", VList (VStr <$> l))] end))]%string.
Definition rendered_run (v4 v6 : list string) : run :=
  Run (Ok (VList [])) 22 (Ok (VList (VStr <$> v4 ++ v6))) (Ok (VDict [])) "eth0" (Ok (VList []))
    (Ok (VDict [("nftables", VList
      (tailnet_set "vpn_tailnet_ssh_v4" "ipv4_addr" v4 :: tailnet_set "vpn_tailnet_ssh_v6" "ipv6_addr" v6
       :: (drop 2 (take 4 sample_objects))
       ++ [rendered_ssh "ip" "@vpn_tailnet_ssh_v4"; rendered_ssh "ip6" "@vpn_tailnet_ssh_v6";
           sample_rule [iifname "tailscale0"; sample_match (payload_left "tcp" "dport") (VInt 22); sample_drop]]))])%string)
    "" false.
Example rendered_one_each :
  verify (fun _ => "") (rendered_run ["100.64.0.7"] ["fd7a:115c:a1e0::7"])%string = Ok [].
Proof. vm_compute. reflexivity. Qed.
Example rendered_no_ipv6 :
  verify (fun _ => "") (rendered_run ["100.64.0.7"] [])%string = Ok ["unexpected unrestricted firewall tcp 22"%string].
Proof. vm_compute. reflexivity. Qed.
Example rendered_two_ipv4 :
  exit_status (verify (fun _ => "") (rendered_run ["100.64.0.7"; "100.64.0.8"] ["fd7a:115c:a1e0::7"])%string) = Some 1.
Proof. vm_compute. reflexivity. Qed.
