(* ===== verification/FleetPlan.v ===== *)
(** * Fleet rotation plans

    [scripts/fleet_rotation.py]: the admission of a plan ([load_plan]) from the
    mapping the YAML loader built, with its paths made absolute, and the document
    the plan digest covers.  A YAML value that JSON has not is refused by every
    field it could be in, so plans are read as [value]s. *)

From S2P Require Import Prelude PyValue PyStr Regex Json.
#[local] Open Scope Z_scope.

Definition rotation_error (s : string) : exn := Exn RotationError s.
Definition invalid_plan : exn := rotation_error "invalid-plan".

(** ** Lexical paths: [os.path.abspath(os.path.join(parent, value))]

    [parent] is the directory of the plan, an absolute path. *)

Definition slash : ascii := "/"%char.

Definition path_join (a b : list ascii) : list ascii :=
  if prefix_of [slash] b then b
  else if bool_decide (a = []) || prefix_of [slash] (rev a) then a ++ b
  else a ++ slash :: b.

(** The loop of [posixpath.normpath] over the components, for an absolute path. *)
Definition norm_step (comps : list (list ascii)) (c : list ascii) : list (list ascii) :=
  if bool_decide (c = []) || bool_decide (c = ["."%char]) then comps
  else if bool_decide (c = ["."%char; "."%char]) then removelast comps
  else comps ++ [c].

(** Exactly two leading slashes are kept, as POSIX prescribes. *)
Definition initial_slashes (l : list ascii) : list ascii :=
  match l with
  | "/"%char :: "/"%char :: "/"%char :: _ => [slash]
  | "/"%char :: "/"%char :: _ => [slash; slash]
  | _ => [slash]
  end.

Definition normpath (l : list ascii) : list ascii :=
  initial_slashes l ++ join_chars slash (foldl norm_step [] (split_chars slash l)).

Definition abspath (parent s : string) : string := of_chars (normpath (path_join (chars parent) (chars s))).

Example abspath_ex1 : abspath "/srv/fleet" "../keys/./green.yaml" = "/srv/keys/green.yaml"%string.
Proof. vm_compute. reflexivity. Qed.
Example abspath_ex2 : abspath "/srv/fleet" "/a//b/../c/" = "/a/c"%string.
Proof. vm_compute. reflexivity. Qed.

(** ** Plans *)

Record node := Node { node_current : string; inventory_alias : string }.
Record rotation := Rotation {
  current : string; new_env : string; green_sops_file : string; migration_plan : string;
  migration_approval : string; new_zone : option string }.
Record plan := Plan {
  plan_id : string; min_active : Z; health_config : string; nodes : list node; rotations : list rotation }.

#[global] Instance node_eq_dec : EqDecision node.
Proof. solve_decision. Defined.
#[global] Instance rotation_eq_dec : EqDecision rotation.
Proof. solve_decision. Defined.

(** [keys(value, required, optional)] *)
Definition check_keys (v : value) (required optional : list string) : res (list (string * value)) :=
  match v with
  | VDict d =>
      raise_if (negb (subset required (keys d)) || negb (subset (keys d) (required ++ optional))) invalid_plan ;;;
      Ok d
  | _ => Raise invalid_plan
  end.

(** [matches(pattern, value)] *)
Definition matches (r : re) (v : value) : bool :=
  match v with VStr s => fullmatch r s | _ => false end.

Definition name_tail (c : ascii) : bool := is_lower c || is_digit c || one_of "-" c.
Definition alias_tail (c : ascii) : bool := is_alnum c || one_of "_.-" c.
Definition NAME : re := RCat (RCls (fun c => is_lower c || is_digit c)) (RClsRep name_tail 0 63).
Definition ALIAS : re := RCat (RCls is_alnum) (RClsRep alias_tail 0 63).
Definition PROVIDER : re :=
  RAlt (RLit "upcloud") (RAlt (RLit "hetzner") (RAlt (RLit "vultr") (RLit "scaleway"))).
Definition PAIR : re := RCat PROVIDER (RCat (RChr ":"%char) NAME).
Definition APPROVAL : re := RClsRep is_hex_lower 64 64.

(** A path as the plan writes it: not empty, at most 4096 characters, no control
    characters. *)
Definition path_bad (v : value) : bool :=
  match v with
  | VStr s => bool_decide (s = ""%string) || (4096 <? py_len s) || any_char (fun c => ord c <? 32) s
  | _ => true
  end.

Definition check_path (parent : string) (v : value) : res string :=
  raise_if (path_bad v) invalid_plan ;;; Ok (abspath parent (str_of v)).

Record node_scan := NodeScan { ns_pairs : gset string; ns_aliases : gset string; ns_nodes : list node }.

Definition node_step (s : node_scan) (v : value) : res node_scan :=
  let* d := check_keys v ["current"; "inventory_alias"]%string [] in
  let cur := field d "current" in let alias := field d "inventory_alias" in
  raise_if (negb (matches PAIR cur) || endswith (str_of cur) ":default" || negb (matches ALIAS alias)
            || bool_decide (str_of cur ∈ ns_pairs s) || bool_decide (str_of alias ∈ ns_aliases s)) invalid_plan ;;;
  Ok (NodeScan ({[str_of cur]} ∪ ns_pairs s) ({[str_of alias]} ∪ ns_aliases s)
        (ns_nodes s ++ [Node (str_of cur) (str_of alias)])).

(** [pair.split(":", 1)] *)
Definition provider_of (pair : string) : string := of_chars (partition_chars ":"%char (chars pair)).1.1.
Definition environment_of (pair : string) : string := of_chars (partition_chars ":"%char (chars pair)).2.
Definition destination (cur env : string) : string := (provider_of cur +:+ ":" +:+ env)%string.

Record rotation_scan := RotationScan { rs_sources : gset string; rs_destinations : gset string; rs_rotations : list rotation }.

Definition rotation_step (parent : string) (pairs : gset string) (s : rotation_scan) (v : value) : res rotation_scan :=
  let* d := check_keys v ["current"; "new_env"; "green_sops_file"; "migration_plan"; "migration_approval"]%string ["new_zone"%string] in
  let cur := field d "current" in let env := field d "new_env" in
  let zone := dget "new_zone" d in
  raise_if (negb (is_str cur) || negb (bool_decide (str_of cur ∈ pairs)) || bool_decide (str_of cur ∈ rs_sources s)
            || negb (matches NAME env) || bool_decide (str_of env = "default"%string)
            || match zone with Some z => negb (matches ALIAS z) | None => false end) invalid_plan ;;;
  let* sops := check_path parent (field d "green_sops_file") in
  let* mplan := check_path parent (field d "migration_plan") in
  raise_if (negb (matches APPROVAL (field d "migration_approval"))) invalid_plan ;;;
  let dest := destination (str_of cur) (str_of env) in
  raise_if (bool_decide (dest ∈ pairs) || bool_decide (dest ∈ rs_destinations s)) invalid_plan ;;;
  Ok (RotationScan ({[str_of cur]} ∪ rs_sources s) ({[dest]} ∪ rs_destinations s)
        (rs_rotations s ++ [Rotation (str_of cur) (str_of env) sops mplan (str_of (field d "migration_approval")) (str_of <$> zone)])).

Definition bounded_list (v : value) : bool :=
  match v with VList l => Nat.leb 1 (length l) && Nat.leb (length l) 100 | _ => false end.

Definition admit_plan (parent : string) (v : value) : res plan :=
  let* d := check_keys v ["schema_version"; "id"; "min_active"; "health"; "rotations"]%string [] in
  raise_if (negb (type_is_int (field d "schema_version")) || negb (int_of (field d "schema_version") =? 1)
            || negb (matches NAME (field d "id")) || negb (type_is_int (field d "min_active"))
            || (int_of (field d "min_active") <? 1) || (100 <? int_of (field d "min_active"))) invalid_plan ;;;
  let* health := check_keys (field d "health") ["config"; "nodes"]%string [] in
  let* config := check_path parent (field health "config") in
  raise_if (negb (bounded_list (field health "nodes")) || negb (bounded_list (field d "rotations"))) invalid_plan ;;;
  let* ns := foldM_res node_step (list_of (field health "nodes")) (NodeScan ∅ ∅ []) in
  let* rs := foldM_res (rotation_step parent (ns_pairs ns)) (list_of (field d "rotations")) (RotationScan ∅ ∅ []) in
  Ok (Plan (str_of (field d "id")) (int_of (field d "min_active")) config (ns_nodes ns) (rs_rotations rs)).

(** [load_plan(path)]: [loaded] is what reading and parsing the file gives. *)
Definition load_plan (parent : string) (loaded : res value) : res plan :=
  try_except (let* v := loaded in admit_plan parent v)
    [OSError; UnicodeError; YAMLError; RecursionError; TypeError; ValueError] (fun _ => Raise invalid_plan).

(** ** The digest *)

Definition node_value (n : node) : value :=
  VDict [("current", VStr (node_current n)); ("inventory_alias", VStr (inventory_alias n))]%string.
Definition rotation_value (r : rotation) : value :=
  VDict ([("current", VStr (current r)); ("new_env", VStr (new_env r)); ("green_sops_file", VStr (green_sops_file r));
          ("migration_plan", VStr (migration_plan r)); ("migration_approval", VStr (migration_approval r))]%string
         ++ match new_zone r with Some z => [("new_zone"%string, VStr z)] | None => [] end).
(** The admitted document; [json.dumps] sorts its keys. *)
Definition plan_value (p : plan) : value :=
  VDict [("schema_version", VInt 1); ("id", VStr (plan_id p)); ("min_active", VInt (min_active p));
         ("health", VDict [("config", VStr (health_config p)); ("nodes", VList (node_value <$> nodes p))]);
         ("rotations", VList (rotation_value <$> rotations p))]%string.

(** The document has no floats, so their text is never asked for. *)
Definition plan_digest (sha256_hex : list Z -> string) (p : plan) : string :=
  sha256_hex (dumps (fun _ => []) true (plan_value p)).

Definition sample_yaml : value :=
  VDict [("schema_version", VInt 1); ("id", VStr "spring"); ("min_active", VInt 1);
    ("health", VDict [("config", VStr "../liveness.yaml");
       ("nodes", VList [VDict [("current", VStr "hetzner:fsn"); ("inventory_alias", VStr "fsn1")];
                        VDict [("current", VStr "vultr:ams"); ("inventory_alias", VStr "ams1")]])]);
    ("rotations", VList [VDict [("current", VStr "hetzner:fsn"); ("new_env", VStr "fsn-green");
       ("green_sops_file", VStr "green.sops.yaml"); ("migration_plan", VStr "/etc/plans/fsn.json");
       ("migration_approval", VStr "0123456789abcdef0123456789abcdef0123456789abcdef0123456789abcdef");
       ("new_zone", VStr "nbg1")]])]%string.
Definition sample_plan : plan :=
  Plan "spring" 1 "/srv/liveness.yaml" [Node "hetzner:fsn" "fsn1"; Node "vultr:ams" "ams1"]
    [Rotation "hetzner:fsn" "fsn-green" "/srv/fleet/green.sops.yaml" "/etc/plans/fsn.json"
       "0123456789abcdef0123456789abcdef0123456789abcdef0123456789abcdef" (Some "nbg1")]%string.
Example sample_admitted : load_plan "/srv/fleet" (Ok sample_yaml) = Ok sample_plan.
Proof. vm_compute. reflexivity. Qed.

(** ** What an admitted plan guarantees *)

Definition node_wf (n : node) : Prop :=
  fullmatch PAIR (node_current n) = true /\ endswith (node_current n) ":default" = false /\
  fullmatch ALIAS (inventory_alias n) = true.

Definition absolute (s : string) : Prop := startswith s "/" = true.

Definition rotation_wf (r : rotation) : Prop :=
  fullmatch NAME (new_env r) = true /\ new_env r <> "default"%string /\
  fullmatch APPROVAL (migration_approval r) = true /\ absolute (green_sops_file r) /\ absolute (migration_plan r) /\
  (forall z, new_zone r = Some z -> fullmatch ALIAS z = true).

Definition rotation_destination (r : rotation) : string := destination (current r) (new_env r).

(** The hosts of a plan are told apart, every rotation replaces a pool node by a
    host of the same provider that is not in the pool, and no host is replaced or
    created twice. *)
Record plan_wf (p : plan) : Prop := {
  pw_id : fullmatch NAME (plan_id p) = true;
  pw_active : 1 <= min_active p <= 100;
  pw_nodes : Forall node_wf (nodes p);
  pw_size : (1 <= length (nodes p) <= 100)%nat /\ (1 <= length (rotations p) <= 100)%nat;
  pw_pairs : NoDup (node_current <$> nodes p);
  pw_aliases : NoDup (inventory_alias <$> nodes p);
  pw_rotations : Forall rotation_wf (rotations p);
  pw_members : Forall (fun r => current r ∈ node_current <$> nodes p) (rotations p);
  pw_sources : NoDup (current <$> rotations p);
  pw_fresh : Forall (fun r => rotation_destination r ∉ node_current <$> nodes p) (rotations p);
  pw_destinations : NoDup (rotation_destination <$> rotations p);
  pw_config : absolute (health_config p) }.

Lemma matches_str r v : matches r v = true -> v = VStr (str_of v) /\ fullmatch r (str_of v) = true.
Proof. by destruct v. Qed.

Lemma check_keys_Ok v req opt d : check_keys v req opt = Ok d -> v = VDict d.
Proof. destruct v; try discriminate. simpl. by intros (_ & [= ->])%raise_if_seq_Ok. Qed.

Lemma abspath_absolute parent s : absolute (abspath parent s).
Proof.
  unfold absolute, abspath, startswith, normpath. rewrite chars_of_chars.
  unfold initial_slashes. destruct (path_join (chars parent) (chars s)) as [|a [|b [|c l]]]; try done;
    repeat case_match; done.
Qed.

Lemma check_path_Ok parent v s : check_path parent v = Ok s -> absolute s.
Proof. unfold check_path. intros (_ & [= <-])%raise_if_seq_Ok. apply abspath_absolute. Qed.

Definition node_inv (l : list value) (s : node_scan) : Prop :=
  length (ns_nodes s) = length l /\ Forall node_wf (ns_nodes s) /\
  NoDup (node_current <$> ns_nodes s) /\ NoDup (inventory_alias <$> ns_nodes s) /\
  (forall x, x ∈ ns_pairs s <-> x ∈ node_current <$> ns_nodes s) /\
  (forall x, x ∈ ns_aliases s <-> x ∈ inventory_alias <$> ns_nodes s).

Lemma NoDup_snoc {A} (l : list A) x : NoDup l -> x ∉ l -> NoDup (l ++ [x]).
Proof.
  intros Hl Hx. apply NoDup_app. split_and!; [done| |by apply NoDup_singleton].
  by intros y Hy ->%list_elem_of_singleton.
Qed.

Lemma node_step_inv l s v s' : node_inv l s -> node_step s v = Ok s' -> node_inv (l ++ [v]) s'.
Proof.
  intros (Hlen & Hwf & Hc & Ha & Hpairs & Haliases) H. unfold node_step in H.
  apply res_bind_Ok in H as (d & _ & H). apply raise_if_seq_Ok in H as [Hg H]. injection H as <-. bprop.
  match goal with H : matches PAIR _ = true |- _ => apply matches_str in H as [_ Hp] end.
  match goal with H : matches ALIAS _ = true |- _ => apply matches_str in H as [_ Hal] end.
  unfold node_inv. cbn [ns_nodes ns_pairs ns_aliases]. rewrite !length_app, !fmap_app. cbn [length fmap list_fmap node_current inventory_alias].
  split_and!.
  - lia.
  - apply Forall_app_2; [done|]. by apply Forall_singleton.
  - apply NoDup_snoc; [done|]. by rewrite <-Hpairs.
  - apply NoDup_snoc; [done|]. by rewrite <-Haliases.
  - intros x. rewrite elem_of_union, elem_of_singleton, elem_of_app, Hpairs, list_elem_of_singleton. tauto.
  - intros x. rewrite elem_of_union, elem_of_singleton, elem_of_app, Haliases, list_elem_of_singleton. tauto.
Qed.

Definition rotation_inv (pairs : gset string) (l : list value) (s : rotation_scan) : Prop :=
  length (rs_rotations s) = length l /\ Forall rotation_wf (rs_rotations s) /\
  Forall (fun r => current r ∈ pairs /\ rotation_destination r ∉ pairs) (rs_rotations s) /\
  NoDup (current <$> rs_rotations s) /\ NoDup (rotation_destination <$> rs_rotations s) /\
  (forall x, x ∈ rs_sources s <-> x ∈ current <$> rs_rotations s) /\
  (forall x, x ∈ rs_destinations s <-> x ∈ rotation_destination <$> rs_rotations s).

Lemma rotation_step_inv parent pairs l s v s' :
  rotation_inv pairs l s -> rotation_step parent pairs s v = Ok s' -> rotation_inv pairs (l ++ [v]) s'.
Proof.
  intros (Hlen & Hwf & Hmem & Hc & Hd & Hsrc & Hdst) H. unfold rotation_step in H.
  apply res_bind_Ok in H as (d & _ & H). apply raise_if_seq_Ok in H as [Hg H].
  apply res_bind_Ok in H as (sops & Hsops%check_path_Ok & H).
  apply res_bind_Ok in H as (mplan & Hmplan%check_path_Ok & H).
  apply raise_if_seq_Ok in H as [Hap H]. apply raise_if_seq_Ok in H as [Hdest H]. injection H as <-. bprop.
  match goal with H : matches NAME _ = true |- _ => apply matches_str in H as [_ Henv] end.
  match goal with H : matches APPROVAL _ = true |- _ => apply matches_str in H as [_ Happ] end.
  unfold rotation_inv. cbn [rs_rotations rs_sources rs_destinations].
  rewrite !length_app, !fmap_app. cbn [length fmap list_fmap].
  split_and!.
  - lia.
  - apply Forall_app_2; [done|]. apply Forall_singleton. split_and!; try done.
    intros z Hz. cbn [new_zone] in Hz. destruct (dget "new_zone" d) as [zv|]; [|done]. simpl in Hz. injection Hz as <-. bprop.
    match goal with H : matches ALIAS zv = true |- _ => by apply matches_str in H as [_ H] end.
  - apply Forall_app_2; [done|]. apply Forall_singleton. by split.
  - apply NoDup_snoc; [done|]. by rewrite <-Hsrc.
  - apply NoDup_snoc; [done|]. by rewrite <-Hdst.
  - intros x. rewrite elem_of_union, elem_of_singleton, elem_of_app, Hsrc, list_elem_of_singleton. tauto.
  - intros x. rewrite elem_of_union, elem_of_singleton, elem_of_app, Hdst, list_elem_of_singleton. tauto.
Qed.

Lemma bounded_list_true v : bounded_list v = true -> (1 <= length (list_of v) <= 100)%nat.
Proof. destruct v; try done. cbn [bounded_list list_of]. intros Hb. bprop. lia. Qed.

Lemma admit_plan_wf parent v p : admit_plan parent v = Ok p -> plan_wf p.
Proof.
  intros H. unfold admit_plan in H. apply res_bind_Ok in H as (d & _ & H). apply raise_if_seq_Ok in H as [Hg H].
  apply res_bind_Ok in H as (h & _ & H). apply res_bind_Ok in H as (config & Hc%check_path_Ok & H).
  apply raise_if_seq_Ok in H as [Hb H]. apply res_bind_Ok in H as (ns & Hns & H).
  apply res_bind_Ok in H as (rs & Hrs & H). injection H as <-. bprop.
  match goal with H : matches NAME _ = true |- _ => apply matches_str in H as [_ Hid] end.
  apply (foldM_res_ind node_inv) in Hns as (Hnl & Hnw & Hnc & Hna & Hnp & _);
    [|split_and!; try done; try constructor; set_solver|intros; by eapply node_step_inv].
  apply (foldM_res_ind (rotation_inv (ns_pairs ns))) in Hrs as (Hrl & Hrw & Hrm & Hrc & Hrd & _);
    [|split_and!; try done; try constructor; set_solver|intros; by eapply rotation_step_inv].
  repeat match goal with H : bounded_list _ = true |- _ => apply bounded_list_true in H end.
  split; cbn [plan_id min_active health_config nodes rotations]; try done; try lia.
  - eapply Forall_impl; [exact Hrm|]. intros r [Hr _]. by apply Hnp.
  - eapply Forall_impl; [exact Hrm|]. intros r [_ Hr]. by rewrite <-Hnp.
Qed.

Lemma load_plan_wf parent loaded p : load_plan parent loaded = Ok p -> plan_wf p.
Proof.
  unfold load_plan. intros H. apply try_raise_Ok in H; [|eauto].
  apply res_bind_Ok in H as (v & _ & H). by eapply admit_plan_wf.
Qed.

(** C39: An admitted plan names pairwise distinct hosts and aliases; each rotation
    replaces a host of the pool by a host of the same provider outside of it;
    no host is rotated twice and no two rotations create the same host; names,
    approvals and the survivor floor are well formed and all paths absolute. *)
Theorem plan_admitted parent loaded p :
  load_plan parent loaded = Ok p -> plan_wf p.
Proof. apply load_plan_wf. Qed.

Lemma plan_admitted_witness : load_plan "/srv/fleet" (Ok sample_yaml) = Ok sample_plan /\ plan_wf sample_plan.
Proof. split; [exact sample_admitted|]. exact (plan_admitted "/srv/fleet" (Ok sample_yaml) sample_plan sample_admitted). Defined.
