(* ===== verification/FleetJournal.v ===== *)
(** * The durable journal of a fleet rotation

    [scripts/fleet_rotation.py], [Journal]: publishing a journal document behind a
    pending marker, with an operation that fails or a power loss at any point.
    The state directory is the pair of names the program reads, the journal and
    the marker; a directory change survives a power loss for certain only after
    [sync_directory], each name on its own. *)

From S2P Require Import Prelude PyValue FleetPlan.
#[local] Open Scope Z_scope.

Record dir := Dir { jr : option value; pending : bool }.
(** The directory as processes see it, and as it was last synchronised. *)
Record fsys := Fsys { vol : dir; dur : dir }.

Inductive fsop :=
| CreatePending            (* [os.open(pending, O_EXCL)], contents written and synchronised *)
| SyncDirectory
| ReplaceJournal (v : value)   (* [os.replace] of the synchronised temporary file *)
| UnlinkPending.

Definition apply_op (op : fsop) (f : fsys) : fsys :=
  match op with
  | CreatePending => Fsys (Dir (jr (vol f)) true) (dur f)
  | SyncDirectory => Fsys (vol f) (vol f)
  | ReplaceJournal v => Fsys (Dir (Some v) (pending (vol f))) (dur f)
  | UnlinkPending => Fsys (Dir (jr (vol f)) false) (dur f)
  end.

Definition write_ops (v : value) : list fsop :=
  [CreatePending; SyncDirectory; ReplaceJournal v; SyncDirectory; UnlinkPending; SyncDirectory].

(** What goes wrong: the [n]-th operation raises (and the marker can, or cannot,
    be restored), or the power fails before it, each name keeping the one or the
    other version. *)
Inductive fault :=
| NoFault
| FailAt (n : nat) (restored : bool)
| CrashAt (n : nat) (new_journal new_pending : bool).

Definition survivor (f : fsys) (new_journal new_pending : bool) : dir :=
  Dir (jr (if new_journal then vol f else dur f)) (pending (if new_pending then vol f else dur f)).
Definition power_loss (new_journal new_pending : bool) (f : fsys) : fsys :=
  Fsys (survivor f new_journal new_pending) (survivor f new_journal new_pending).

Definition os_error : exn := Exn OSError "".
Definition power_failure : exn := Exn SystemExit "power".

Definition run_ops (n : nat) (v : value) (f : fsys) : fsys := foldl (fun f op => apply_op op f) f (take n (write_ops v)).

(** The [except BaseException] clause: restore the marker if it is gone; it guards
    the operations after the first synchronisation. *)
Definition restore_fence (n : nat) (restored : bool) (f : fsys) : fsys :=
  if Nat.ltb n 2 || pending (vol f) || negb restored then f
  else apply_op SyncDirectory (apply_op CreatePending f).

(** [Journal.write]; creating the marker is exclusive. *)
Definition journal_write (ft : fault) (v : value) : eff fsys unit := fun f =>
  if pending (vol f) then (Raise os_error, f) else
  match ft with
  | NoFault => (Ok tt, run_ops (length (write_ops v)) v f)
  | FailAt n restored =>
      if Nat.leb (length (write_ops v)) n then (Ok tt, run_ops (length (write_ops v)) v f)
      else (Raise os_error, restore_fence n restored (run_ops n v f))
  | CrashAt n nj np => (Raise power_failure, power_loss nj np (run_ops n v f))
  end.

(** [Journal.__enter__]: a marker left behind refuses the invocation. *)
Definition journal_open : eff fsys unit := fun f =>
  if pending (vol f) then (Raise (rotation_error "journal-publication-uncertain"), f) else (Ok tt, f).

Definition journal_read : eff fsys (option value) := fun f => (Ok (jr (vol f)), f).

(** ** Publication is atomic

    [coherent]: without a marker the visible journal is the durable one.
    [readable A]: whatever survives a power loss, now or later, is fenced by the
    marker or holds a journal of [A]. *)

Definition coherent (f : fsys) : Prop := pending (vol f) = false -> jr (dur f) = jr (vol f).
Definition readable (A : option value -> Prop) (f : fsys) : Prop :=
  forall nj np, pending (survivor f nj np) = true \/ A (jr (survivor f nj np)).

Lemma readable_vol A f : readable A f -> pending (vol f) = false -> A (jr (vol f)).
Proof. intros H Hp. destruct (H true true) as [Hs|Hs]; [|done]. simpl in Hs. congruence. Qed.

Lemma readable_mono (A B : option value -> Prop) f : (forall j, A j -> B j) -> readable A f -> readable B f.
Proof. intros HAB H nj np. destruct (H nj np) as [|]; auto. Qed.

Lemma power_loss_ok A f nj np : readable A f -> coherent (power_loss nj np f) /\ readable A (power_loss nj np f).
Proof. intros H. split; [done|]. intros nj' np'. destruct nj', np'; apply (H nj np). Qed.

Lemma run_ops_states v f n :
  coherent f -> pending (vol f) = false ->
  (n < 6)%nat -> readable (fun j => j = jr (vol f) \/ j = Some v) (run_ops n v f) /\ coherent (run_ops n v f).
Proof.
  destruct f as [[j p] [j' p']]. unfold coherent. cbn [vol dur jr pending]. intros Hj ->. specialize (Hj eq_refl) as ->.
  intros Hn. assert (n = 0 \/ n = 1 \/ n = 2 \/ n = 3 \/ n = 4 \/ n = 5)%nat as [->|[->|[->|[->|[->| ->]]]]] by lia;
    cbn; (split; [intros [] []; cbn; auto|cbn; by intros]).
Qed.

Lemma restore_fence_ok (A : option value -> Prop) n restored f :
  readable A f -> coherent f -> (forall j, jr (vol f) = j -> pending (vol f) = false -> A j) ->
  readable A (restore_fence n restored f) /\ coherent (restore_fence n restored f).
Proof.
  intros Hr Hc HA. unfold restore_fence. destruct (_ || _ || _); [done|]. split; [|done].
  intros [] []; by left.
Qed.

(** The effect of one publication, whatever goes wrong. *)
Lemma journal_write_effect ft v f r g :
  coherent f -> pending (vol f) = false -> journal_write ft v f = (r, g) ->
  coherent g /\ readable (fun j => j = jr (vol f) \/ j = Some v) g /\
  (r = Ok tt -> vol g = Dir (Some v) false /\ dur g = vol g).
Proof.
  intros Hc Hp. unfold journal_write. rewrite Hp. destruct ft as [|n restored|n nj np].
  - intros [= <- <-]. destruct f as [[j p] [j' p']]. cbn. split_and!; [done| |done]. intros [] []; cbn; auto.
  - destruct (Nat.leb_spec (length (write_ops v)) n).
    + intros [= <- <-]. destruct f as [[j p] [j' p']]. cbn. split_and!; [done| |done]. intros [] []; cbn; auto.
    + intros [= <- <-]. simpl in H. destruct (run_ops_states v f n Hc Hp H) as [Hr Hg].
      destruct (restore_fence_ok _ n restored _ Hr Hg) as [Hr' Hg'].
      { intros j <- Hpg. by apply (readable_vol _ _ Hr). }
      by split_and!.
  - intros [= <- <-]. assert (readable (fun j => j = jr (vol f) \/ j = Some v) (run_ops n v f)) as Hr.
    { destruct (Nat.ltb_spec n 6); [by apply run_ops_states|]. unfold run_ops. rewrite take_ge by (simpl; lia).
      destruct f as [[j p] [j' p']]. intros [] []; cbn; auto. }
    destruct (power_loss_ok _ _ nj np Hr). by split_and!.
Qed.

(** C8: Publishing a journal document is atomic: whatever operation fails, and
    whenever the power is lost, what a later invocation can see is either fenced
    by the pending marker or holds the previous document or the new one, whole;
    a document that can be seen without the marker is never taken back by a later
    power loss; and a publication that returns is durable. *)
Theorem publication_atomic ft v f r g nj np :
  coherent f -> pending (vol f) = false -> journal_write ft v f = (r, g) ->
  (forall d, d = vol g \/ d = survivor g nj np -> pending d = true \/ jr d = jr (vol f) \/ jr d = Some v) /\
  (pending (vol g) = false -> jr (survivor g nj np) = jr (vol g)) /\
  (r = Ok tt -> power_loss nj np g = g /\ vol g = Dir (Some v) false).
Proof.
  intros Hc Hp Hw. destruct (journal_write_effect _ _ _ _ _ Hc Hp Hw) as (Hg & Hr & Hok). split_and!.
  - intros d [-> | ->]; [apply (Hr true true)|apply (Hr nj np)].
  - intros Hn%Hg. destruct nj; [done|exact Hn].
  - intros [Hv Hd]%Hok. destruct g as [gv gd]. cbn in *. subst. split; [|done]. by destruct nj, np.
Qed.

Definition sample_before : fsys := Fsys (Dir (Some VNone) false) (Dir (Some VNone) false).
Definition sample_after : fsys := Fsys (Dir (Some (VInt 1)) true) (Dir (Some VNone) true).

Lemma publication_atomic_witness :
  journal_write (FailAt 3 true) (VInt 1) sample_before = (Raise os_error, sample_after) /\
  ((forall d, d = vol sample_after \/ d = survivor sample_after false true ->
     pending d = true \/ jr d = jr (vol sample_before) \/ jr d = Some (VInt 1)) /\
   (pending (vol sample_after) = false -> jr (survivor sample_after false true) = jr (vol sample_after)) /\
   (Raise os_error = Ok tt ->
     power_loss false true sample_after = sample_after /\ vol sample_after = Dir (Some (VInt 1)) false)).
Proof.
  assert (journal_write (FailAt 3 true) (VInt 1) sample_before = (Raise os_error, sample_after)) as H by reflexivity.
  split; [exact H|].
  by apply (publication_atomic (FailAt 3 true) (VInt 1) sample_before (Raise os_error) sample_after false true).
Defined.
