(* ===== verification/FleetRotation.v ===== *)
(** * Fleet rotation

    [scripts/fleet_rotation.py]: [run_plan] and everything it calls, over the
    durable journal, and the exit status [main] makes of it.  The answers of the outside world (the plan file when it is
    read again, the authenticated survivors, the operator, the rotation script)
    and the faults of each publication are an oracle; the trace records what the
    invocation did to the fleet. *)

From S2P Require Import Prelude PyValue PyStr FleetPlan FleetJournal.
#[local] Open Scope Z_scope.

(** ** The state document *)

Section Rotation.
Context (sha256_hex : list Z -> string).
Notation plan_digest := (plan_digest sha256_hex).

Definition state_dict (p : plan) (next_idx : Z) (completed : list value) (in_flight : value) : list (string * value) :=
  [("schema_version", VInt 1); ("id", VStr (plan_id p)); ("plan_sha256", VStr (plan_digest p));
   ("next_idx", VInt next_idx); ("completed", VList completed); ("in_flight", in_flight)]%string.

Definition initial_state (p : plan) : value := VDict (state_dict p 0 [] VNone).

Definition invalid_journal : exn := rotation_error "invalid-journal".
Definition plan_mismatch : exn := rotation_error "plan-mismatch".

Definition rotation_values (p : plan) (n : nat) : list value := rotation_value <$> take n (rotations p).

(** The [next_idx] of a state that passes [validate_state]. *)
Definition validate_state (state : value) (p : plan) : res nat :=
  match state with
  | VDict d =>
      raise_if (negb (same_set (keys d) (keys (state_dict p 0 [] VNone)))) invalid_journal ;;;
      raise_if (negb (py_eq (field d "schema_version") (VInt 1)) || negb (type_is_int (field d "schema_version"))) invalid_journal ;;;
      raise_if (negb (py_eq (field d "id") (VStr (plan_id p))) || negb (py_eq (field d "plan_sha256") (VStr (plan_digest p)))) plan_mismatch ;;;
      let index := field d "next_idx" in let n := int_of index in let fl := field d "in_flight" in
      let count := Z.of_nat (length (rotations p)) in
      raise_if (negb (type_is_int index) || (n <? 0) || (count <? n)
                || negb (py_eq (field d "completed") (VList (rotation_values p (Z.to_nat n))))
                || (negb (is_none fl) && (negb (type_is_int fl) || negb (int_of fl =? n) || (count <=? n)))) invalid_journal ;;;
      raise_if (negb (is_none fl)) (rotation_error "in-flight-outcome-requires-operator-reconciliation") ;;;
      Ok (Z.to_nat n)
  | _ => Raise invalid_journal
  end.

(** ** The survivor gate *)

(** The plan file read before and after, and what [healthy_survivors] answers. *)
Record health_answer := HealthAnswer { reload_before : res plan; survivors : res (gset string); reload_after : res plan }.

Definition same_plan (p : plan) (reloaded : res plan) : res unit :=
  let* q := reloaded in raise_if (bool_decide (plan_digest q <> plan_digest p)) plan_mismatch.

Definition require_health (p : plan) (pool : list node) (current_alias : string) (h : health_answer) : res (gset string) :=
  same_plan p (reload_before h) ;;;
  let* healthy := survivors h in
  let admitted : gset string := list_to_set (inventory_alias <$> pool) ∖ {[current_alias]} in
  raise_if (negb (bool_decide (healthy ⊆ admitted)) || (Z.of_nat (size healthy) <? min_active p))
    (rotation_error "authenticated-survivor-floor-not-met") ;;;
  same_plan p (reload_after h) ;;;
  Ok healthy.

(** ** One rotation *)

(** How the rotation script ends: its exit status, or the power fails under it. *)
Inductive outcome := Exited (status : Z) | PowerLost (new_journal new_pending : bool).

Record step_answers := StepAnswers {
  first_health : health_answer; confirmed : bool; second_health : health_answer;
  flight_fault : fault; migration : res value; script : outcome; done_fault : fault }.

Inductive event :=
| EHealth (i : nat) (healthy : gset string)
| EConfirm (i : nat)
| EExecute (i : nat).

Record world := World { fs : fsys; trace : list event }.

Definition on_fs {A} (m : eff fsys A) : eff world A := fun w =>
  let '(r, f) := m (fs w) in (r, World f (trace w)).
Definition emit (e : event) : eff world unit := eff_modify (fun w => World (fs w) (trace w ++ [e])).

Definition migration_field (m : value) (side key : string) : res value :=
  let* s := index m side in index s key.

(** The migration plan the fleet plan refers to must be for this rotation. *)
Definition migration_matches (r : rotation) (m : value) : res bool :=
  let* source := migration_field m "source" "host" in
  if negb (py_eq source (VStr (current r))) then Ok false else
  let* target := migration_field m "target" "host" in
  if negb (py_eq target (VStr (rotation_destination r))) then Ok false else
  let* secrets := migration_field m "target" "secrets_file" in
  Ok (py_eq secrets (VStr (green_sops_file r))).

Definition migration_error : exn := rotation_error "migration-plan-does-not-match-rotation".

Definition check_migration (r : rotation) (loaded : res value) : res unit :=
  try_except (let* m := loaded in let* ok := migration_matches r m in raise_if (negb ok) (Exn ValueError ""))
    [OSError; ValueError; KeyError; TypeError] (fun _ => Raise migration_error).

Definition execute_rotation (i : nat) (r : rotation) (a : step_answers) : eff world unit :=
  eff_lift (check_migration r (migration a)) ;;
  emit (EExecute i) ;;
  match script a with
  | Exited status => eff_lift (raise_if (negb (status =? 0)) (rotation_error "rotation-failed-in-flight-retained"))
  | PowerLost nj np => on_fs (fun f => (Raise power_failure, power_loss nj np f))
  end.

Definition stop_iteration : exn := Exn StopIteration "".

(** The pool without the hosts already replaced, and the alias of this one. *)
Definition pool (p : plan) (i : nat) : list node :=
  filter (fun n => node_current n ∉ current <$> take i (rotations p)) (nodes p).
Definition alias_of (ns : list node) (cur : string) : option string :=
  inventory_alias <$> head (filter (fun n => node_current n = cur) ns).

(** The rotation itself, between its two publications. *)
Definition fly (p : plan) (i : nat) (r : rotation) (a : step_answers) (state : list (string * value)) :
    eff world (list (string * value)) :=
  let state := dset "in_flight" (VInt (Z.of_nat i)) state in
  on_fs (journal_write (flight_fault a) (VDict state)) ;;
  execute_rotation i r a ;;
  let state := dset "in_flight" VNone (dset "completed" (VList (rotation_values p (S i)))
                 (dset "next_idx" (VInt (Z.of_nat (S i))) state)) in
  on_fs (journal_write (done_fault a) (VDict state)) ;;
  mret state.

(** The body of the loop; [None] is the [return 1] of a declined prompt. *)
Definition rotate (p : plan) (i : nat) (r : rotation) (a : step_answers) (state : list (string * value)) :
    eff world (option (list (string * value))) :=
  alias ← eff_lift (of_option (alias_of (pool p i) (current r)) stop_iteration);
  healthy ← eff_lift (require_health p (pool p i) alias (first_health a));
  emit (EHealth i healthy) ;;
  if negb (confirmed a) then mret None else
  emit (EConfirm i) ;;
  healthy ← eff_lift (require_health p (pool p i) alias (second_health a));
  emit (EHealth i healthy) ;;
  state ← fly p i r a state;
  mret (Some state).

(** [for index in range(next_idx, len(rotations))]; 0 and 1 are the statuses. *)
Fixpoint rotate_all (p : plan) (answers : nat -> step_answers) (i : nat) (rs : list rotation)
    (state : list (string * value)) : eff world Z :=
  match rs with
  | [] => mret 0
  | r :: rs =>
      next ← rotate p i r (answers i) state;
      match next with
      | None => mret 1
      | Some state => rotate_all p answers (S i) rs state
      end
  end.

Record invocation := Invocation {
  loaded : res value; resume : bool; dry_run : bool; initial_fault : fault; answers : nat -> step_answers }.

(** The state a run starts from: created, or read back when resuming. *)
Definition open_state (p : plan) (v : invocation) : eff world value :=
  stored ← on_fs journal_read;
  match stored with
  | None =>
      if resume v then eff_lift (Raise (rotation_error "resume-journal-missing")) else
      on_fs (journal_write (initial_fault v) (initial_state p)) ;; mret (initial_state p)
  | Some state => if resume v then mret state else eff_lift (Raise (rotation_error "journal-already-exists-use-resume"))
  end.

Definition run_plan (parent : string) (v : invocation) : eff world Z :=
  p ← eff_lift (load_plan parent (loaded v));
  if dry_run v then mret 0 else
  on_fs journal_open ;;
  state ← open_state p v;
  next ← eff_lift (validate_state state p);
  rotate_all p (answers v) next (drop next (rotations p)) (dict_of state).

(** [main]: the exit status; the category of a caught exception is printed. *)
Definition main (parent : string) (v : invocation) : eff world Z :=
  eff_try (run_plan parent v) [RotationError; OSError] (fun _ => mret 1).
End Rotation.

(** ** What an invocation can have done *)

Lemma NoDup_fmap_unique {A B} (f : A -> B) l x y : NoDup (f <$> l) -> x ∈ l -> y ∈ l -> f x = f y -> x = y.
Proof.
  induction l as [|z l IH]; [by intros _ ?%not_elem_of_nil|]. csimpl.
  intros [Hz Hl]%NoDup_cons [->|Hx]%elem_of_cons [->|Hy]%elem_of_cons Hf; try done; [..|by apply IH].
  - destruct Hz. rewrite Hf. by apply list_elem_of_fmap_2.
  - destruct Hz. rewrite <-Hf. by apply list_elem_of_fmap_2.
Qed.

Definition executed (tr : list event) : list nat :=
  omap (fun e => match e with EExecute i => Some i | _ => None end) tr.

(** The survivors a rotation of host [i] needs: enough healthy nodes of the pool
    that are neither replaced yet nor about to be. *)
Definition gate (p : plan) (i : nat) (healthy : gset string) : Prop :=
  min_active p <= Z.of_nat (size healthy) /\
  forall a, a ∈ healthy -> exists n, n ∈ nodes p /\ inventory_alias n = a /\ node_current n ∉ current <$> take (S i) (rotations p).

Definition gated (p : plan) (tr : list event) : Prop :=
  forall before i after, tr = before ++ EExecute i :: after ->
    exists start h1 h2, before = start ++ [EHealth i h1; EConfirm i; EHealth i h2] /\ gate p i h1 /\ gate p i h2.

Section Safety.
Context (sha256_hex : list Z -> string) (p : plan) (Hp : plan_wf p).
Notation count := (length (rotations p)).

Definition doc (k : nat) (flying : bool) : value :=
  VDict (state_dict sha256_hex p (Z.of_nat k) (rotation_values p k) (if flying then VInt (Z.of_nat k) else VNone)).

(** The journals an invocation may find, given the rotations started so far. *)
Definition allowed (ex : list nat) (j : option value) : Prop :=
  (j = None /\ ex = []) \/
  (exists k, (k <= count)%nat /\ j = Some (doc k false) /\ ex = seq 0 k) \/
  (exists k, (k < count)%nat /\ j = Some (doc k true) /\ (ex = seq 0 k \/ ex = seq 0 (S k))).

Record inv (w : world) : Prop := {
  in_coherent : coherent (fs w);
  in_readable : readable (allowed (executed (trace w))) (fs w);
  in_executed : exists n, (n <= count)%nat /\ executed (trace w) = seq 0 n;
  in_gated : gated p (trace w) }.

(** Between two rotations: [i] rotations are done and recorded. *)
Record at_boundary (i : nat) (w : world) : Prop := {
  ab_inv : inv w;
  ab_pending : pending (vol (fs w)) = false;
  ab_journal : jr (vol (fs w)) = Some (doc i false);
  ab_executed : executed (trace w) = seq 0 i;
  ab_bound : (i <= count)%nat }.

Lemma executed_app tr tr' : executed (tr ++ tr') = executed tr ++ executed tr'.
Proof. apply omap_app. Qed.

Lemma gated_emit tr e : (forall i, e <> EExecute i) -> gated p tr -> gated p (tr ++ [e]).
Proof.
  intros He Hg before i after Heq. destruct after as [|a after _] using rev_ind.
  - apply (app_inj_2 _ _ [e] [EExecute i]) in Heq as [_ [= ->]]; [by destruct (He i)|done].
  - rewrite app_comm_cons, app_assoc in Heq. apply app_inj_tail in Heq as [-> _]. by eapply Hg.
Qed.

Lemma gated_execute tr i h1 h2 :
  gated p (tr ++ [EHealth i h1; EConfirm i; EHealth i h2]) -> gate p i h1 -> gate p i h2 ->
  gated p ((tr ++ [EHealth i h1; EConfirm i; EHealth i h2]) ++ [EExecute i]).
Proof.
  intros Hg H1 H2 before k after Heq. destruct after as [|a after _] using rev_ind.
  - apply app_inj_tail in Heq as [<- [= <-]]. by exists tr, h1, h2.
  - rewrite app_comm_cons, app_assoc in Heq. apply app_inj_tail in Heq as [Heq _]. by eapply Hg.
Qed.

Lemma emit_run e w : emit e w = (Ok tt, World (fs w) (trace w ++ [e])).
Proof. done. Qed.

(** Recording a health check or a prompt changes neither journal nor rotations. *)
Lemma boundary_emit i w e :
  (forall k, e <> EExecute k) -> at_boundary i w -> at_boundary i (World (fs w) (trace w ++ [e])).
Proof.
  intros He [[Hc Hr He' Hg] Hpend Hj Hx Hb].
  assert (executed (trace w ++ [e]) = executed (trace w)) as Heq.
  { rewrite executed_app. destruct e; try done; [by rewrite app_nil_r..|by destruct (He i0)]. }
  split; cbn [fs trace]; [split; cbn [fs trace]; rewrite ?Heq; auto using gated_emit|done|done|by rewrite Heq|done].
Qed.

Lemma require_health_gate i r alias h healthy :
  rotations p !! i = Some r -> alias_of (pool p i) (current r) = Some alias ->
  require_health sha256_hex p (pool p i) alias h = Ok healthy -> gate p i healthy.
Proof.
  intros Hr Ha H. unfold require_health in H. apply res_bind_Ok in H as (_ & _ & H).
  apply res_bind_Ok in H as (s & _ & H). apply raise_if_seq_Ok in H as [Hg H].
  apply res_bind_Ok in H as (_ & _ & [= <-]). bprop. split; [done|].
  match goal with H : s ⊆ _ |- _ => rename H into Hsub end.
  intros a Has. apply Hsub in Has. apply elem_of_difference in Has as [Hin Hne].
  apply elem_of_list_to_set, list_elem_of_fmap in Hin as (n & -> & Hn).
  apply list_elem_of_filter in Hn as [Hout Hn]. exists n. split_and!; [done..|].
  rewrite (take_S_r _ _ _ Hr), fmap_app, elem_of_app. intros [?|Hc%list_elem_of_singleton]; [done|].
  apply Hne, elem_of_singleton. unfold alias_of in Ha.
  destruct (head _) as [m|] eqn:Hm; [|done]. injection Ha as <-.
  apply head_Some_elem_of, list_elem_of_filter in Hm as [Hmc [_ Hm]%list_elem_of_filter].
  f_equal. eapply (NoDup_fmap_unique node_current (nodes p)); [apply Hp|done|done|congruence].
Qed.

(** A publication from a settled journal whose both documents are allowed. *)
Lemma write_allowed ft j v w res w' :
  coherent (fs w) -> pending (vol (fs w)) = false -> jr (vol (fs w)) = j ->
  allowed (executed (trace w)) j -> allowed (executed (trace w)) (Some v) ->
  (exists n, (n <= count)%nat /\ executed (trace w) = seq 0 n) -> gated p (trace w) ->
  on_fs (journal_write ft v) w = (res, w') ->
  inv w' /\ trace w' = trace w /\ (res = Ok tt -> pending (vol (fs w')) = false /\ jr (vol (fs w')) = Some v).
Proof.
  intros Hc Hpend Hj Hold Hnew Hex Hg. unfold on_fs.
  destruct (journal_write ft v (fs w)) as [r f] eqn:Hw. intros [= <- <-].
  destruct (journal_write_effect _ _ _ _ _ Hc Hpend Hw) as (Hc' & Hr & Hok). cbn [fs trace].
  split; [|split; [done|]].
  - split; cbn [fs trace]; try done. eapply readable_mono; [|exact Hr]. intros j' [->| ->]; [by rewrite Hj|done].
  - intros [Hv _]%Hok. by rewrite Hv.
Qed.

(** The script of rotation [i] runs at most once: the journal says so before it starts. *)
Lemma execute_inv i r a h1 h2 start w res w' :
  inv w -> pending (vol (fs w)) = false -> jr (vol (fs w)) = Some (doc i true) -> executed (trace w) = seq 0 i ->
  (i < count)%nat -> trace w = start ++ [EHealth i h1; EConfirm i; EHealth i h2] -> gate p i h1 -> gate p i h2 ->
  execute_rotation i r a w = (res, w') ->
  inv w' /\ (res = Ok tt -> fs w' = fs w /\ executed (trace w') = seq 0 (S i)).
Proof.
  intros Hinv Hpend Hj Hx Hi Htr H1 H2 H. pose proof Hinv as [Hc Hr _ Hg].
  apply eff_bind_cases, or_comm in H as [(e & Hm & ->)|([] & u & Hm & H)].
  { unfold eff_lift in Hm. injection Hm as _ <-. by split. }
  unfold eff_lift in Hm. injection Hm as _ <-.
  apply eff_bind_cases, or_comm in H as [(e & Hm & _)|([] & u & Hm & H)]; [done|].
  rewrite emit_run in Hm. injection Hm as <-.
  assert (executed (trace w ++ [EExecute i]) = seq 0 (S i)) as Hx'.
  { rewrite executed_app, Hx. change (executed [EExecute i]) with [i]. by rewrite (seq_S i 0). }
  assert (readable (allowed (seq 0 (S i))) (fs w)) as Hr'.
  { intros nj np. destruct (pending (survivor (fs w) nj np)) eqn:Hps; [by left|right].
    assert (jr (survivor (fs w) nj np) = Some (doc i true)) as ->.
    { destruct nj; simpl; [done|]. by rewrite (Hc Hpend). }
    right. right. exists i. auto. }
  assert (gated p (trace w ++ [EExecute i])) as Hg'.
  { rewrite Htr in *. by apply gated_execute. }
  destruct (script a) as [status|nj np].
  - unfold eff_lift in H. injection H as <- <-. cbn [fs trace]. split; [|by intros _].
    split; cbn [fs trace]; rewrite ?Hx'; try done. exists (S i). split; [lia|done].
  - unfold on_fs in H. cbn in H. injection H as <- <-. split; [|done].
    destruct (power_loss_ok (allowed (seq 0 (S i))) (fs w) nj np Hr').
    split; cbn [fs trace]; rewrite ?Hx'; try done. exists (S i). split; [lia|done].
Qed.

Notation state k flying := (state_dict sha256_hex p (Z.of_nat k) (rotation_values p k) flying).

Lemma fly_inv i r a h1 h2 start w res w' :
  at_boundary i w -> (i < count)%nat ->
  trace w = start ++ [EHealth i h1; EConfirm i; EHealth i h2] -> gate p i h1 -> gate p i h2 ->
  fly p i r a (state i VNone) w = (res, w') ->
  inv w' /\ (forall st, res = Ok st -> at_boundary (S i) w' /\ st = state (S i) VNone).
Proof.
  intros [[Hc Hr Hex Hg] Hpend Hj Hx Hb] Hi Htr H1 H2 H. unfold fly in H.
  assert (allowed (seq 0 i) (Some (doc i true))) as Hflying by (right; right; exists i; auto).
  assert (forall rr ww, on_fs (journal_write (flight_fault a) (doc i true)) w = (rr, ww) -> inv ww /\ trace ww = trace w /\
    (rr = Ok tt -> pending (vol (fs ww)) = false /\ jr (vol (fs ww)) = Some (doc i true))) as Hw1.
  { intros rr ww. apply (write_allowed _ _ _ _ _ _ Hc Hpend Hj); rewrite ?Hx; try done.
    - right; left; exists i; auto.
    - exists i. auto. }
  apply eff_bind_cases, or_comm in H as [(e & Hm & ->)|([] & u & Hm & H)]; destruct (Hw1 _ _ Hm) as (Hinv & Htru & Hok); [by split|].
  destruct (Hok eq_refl) as [Hpu Hju]. rewrite <-Htru in Htr, Hx.
  assert (forall rr ww, execute_rotation i r a u = (rr, ww) ->
    inv ww /\ (rr = Ok tt -> fs ww = fs u /\ executed (trace ww) = seq 0 (S i))) as Hw2.
  { intros rr ww. by apply (execute_inv i r a h1 h2 start). }
  apply eff_bind_cases, or_comm in H as [(e & He & ->)|([] & x & He & H)]; destruct (Hw2 _ _ He) as [Hinvx Hokx]; [by split|].
  destruct (Hokx eq_refl) as [Hfx Hxx]. rewrite <-Hfx in Hpu, Hju.
  assert (forall rr ww, on_fs (journal_write (done_fault a) (doc (S i) false)) x = (rr, ww) -> inv ww /\ trace ww = trace x /\
    (rr = Ok tt -> pending (vol (fs ww)) = false /\ jr (vol (fs ww)) = Some (doc (S i) false))) as Hw3.
  { intros rr ww. apply (write_allowed _ _ _ _ _ _ (in_coherent _ Hinvx) Hpu Hju); rewrite ?Hxx; try apply Hinvx.
    - right; right; exists i; auto.
    - right; left; exists (S i); auto.
    - exists (S i). auto. }
  apply eff_bind_cases, or_comm in H as [(e & Hd & ->)|([] & y & Hd & H)]; destruct (Hw3 _ _ Hd) as (Hinvy & Htry & Hoky); [by split|].
  injection H as <- <-. split; [done|]. intros st [= <-]. destruct (Hoky eq_refl) as [Hpy Hjy].
  split; [|done]. by split; rewrite ?Htry.
Qed.

Lemma rotate_inv i r a w res w' :
  at_boundary i w -> rotations p !! i = Some r ->
  rotate sha256_hex p i r a (state i VNone) w = (res, w') ->
  inv w' /\ (res = Ok None -> at_boundary i w') /\
  (forall st, res = Ok (Some st) -> at_boundary (S i) w' /\ st = state (S i) VNone).
Proof.
  intros Hab Hr H. assert (i < count)%nat as Hi by (by eapply lookup_lt_Some). unfold rotate in H.
  apply eff_bind_cases, or_comm in H as [(e & Hm & ->)|(alias & u & Hm & H)];
    unfold eff_lift in Hm; injection Hm as Halias <-; [by destruct Hab|].
  apply of_option_Ok in Halias.
  apply eff_bind_cases, or_comm in H as [(e & Hm & ->)|(h1 & u & Hm & H)];
    unfold eff_lift in Hm; injection Hm as Hh1 <-; [by destruct Hab|].
  apply (require_health_gate i r alias) in Hh1; [|done|done].
  apply eff_bind_cases, or_comm in H as [(e & Hm & _)|([] & u & Hm & H)]; [done|].
  rewrite emit_run in Hm. injection Hm as <-.
  pose proof (boundary_emit i w (EHealth i h1) ltac:(done) Hab) as Hab1.
  destruct (negb (confirmed a)); [injection H as <- <-; split; [apply Hab1|by split]|].
  apply eff_bind_cases, or_comm in H as [(e & Hm & _)|([] & u & Hm & H)]; [done|].
  rewrite emit_run in Hm. injection Hm as <-.
  pose proof (boundary_emit i _ (EConfirm i) ltac:(done) Hab1) as Hab2.
  apply eff_bind_cases, or_comm in H as [(e & Hm & ->)|(h2 & u & Hm & H)];
    unfold eff_lift in Hm; injection Hm as Hh2 <-; [split; [apply Hab2|by split]|].
  apply (require_health_gate i r alias) in Hh2; [|done|done].
  apply eff_bind_cases, or_comm in H as [(e & Hm & _)|([] & u & Hm & H)]; [done|].
  rewrite emit_run in Hm. injection Hm as <-.
  pose proof (boundary_emit i _ (EHealth i h2) ltac:(done) Hab2) as Hab3.
  cbn [fs trace] in *.
  assert (((trace w ++ [EHealth i h1]) ++ [EConfirm i]) ++ [EHealth i h2] = trace w ++ [EHealth i h1; EConfirm i; EHealth i h2]) as Htr
    by (by rewrite <-!app_assoc).
  apply eff_bind_cases, or_comm in H as [(e & Hm & ->)|(st & u & Hm & H)];
    destruct (fly_inv i r a h1 h2 (trace w) _ _ _ Hab3 Hi Htr Hh1 Hh2 Hm) as [Hinv Hok]; [by split|].
  injection H as <- <-. split; [done|]. split; [done|]. intros st' [= <-]. by apply Hok.
Qed.

Lemma rotate_all_inv ans rs i w res w' :
  at_boundary i w -> rs = drop i (rotations p) ->
  rotate_all sha256_hex p ans i rs (state i VNone) w = (res, w') ->
  inv w' /\ (res = Ok 0 -> at_boundary count w') /\ (res = Ok 1 -> exists k, at_boundary k w').
Proof.
  revert i w. induction rs as [|r rs IH]; intros i w Hab Hrs; cbn [rotate_all].
  - intros [= <- <-]. split; [apply Hab|]. split; [intros _|done].
    assert (i = count) as <-; [|done]. pose proof (ab_bound _ _ Hab).
    assert (length (drop i (rotations p)) = 0%nat) as Hl by (by rewrite <-Hrs). rewrite length_drop in Hl. lia.
  - assert (rotations p !! i = Some r) as Hr.
    { pose proof (lookup_drop (rotations p) i 0) as Hl. rewrite <-Hrs, Nat.add_0_r in Hl. by rewrite <-Hl. }
    intros H. apply eff_bind_cases, or_comm in H as [(e & Hm & ->)|(next & u & Hm & H)];
      destruct (rotate_inv _ _ _ _ _ _ Hab Hr Hm) as (Hinv & Hno & Hyes); [by split|].
    destruct next as [st|].
    + destruct (Hyes st eq_refl) as [Hab' ->]. apply (IH (S i) u Hab'); [|done].
      by rewrite (drop_S _ _ _ Hr) in Hrs; injection Hrs.
    + injection H as <- <-. split; [done|]. split; [done|]. intros _. exists i. by apply Hno.
Qed.

Lemma initial_doc : initial_state sha256_hex p = doc 0 false.
Proof. done. Qed.

Lemma validate_doc k flying n : validate_state sha256_hex (doc k flying) p = Ok n -> flying = false /\ n = k.
Proof.
  unfold validate_state, doc. intros H.
  apply raise_if_seq_Ok in H as [_ H]. apply raise_if_seq_Ok in H as [_ H]. apply raise_if_seq_Ok in H as [_ H].
  apply raise_if_seq_Ok in H as [_ H]. apply raise_if_seq_Ok in H as [Hf H]. apply Ok_inj in H. split.
  - by destruct flying.
  - subst n. cbn. apply Nat2Z.id.
Qed.

Lemma boundary_of k w :
  inv w -> pending (vol (fs w)) = false -> jr (vol (fs w)) = Some (doc k false) -> at_boundary k w.
Proof.
  intros Hinv Hpend Hj. assert (allowed (executed (trace w)) (Some (doc k false))) as Ha.
  { rewrite <-Hj. by apply (readable_vol _ _ (in_readable _ Hinv)). }
  assert (forall m flying, Some (doc k false) = Some (doc m flying) -> m = k /\ flying = false) as Hdoc.
  { unfold doc, state_dict. intros m [] Heq; by simplify_eq. }
  destruct Ha as [[? _]|[(m & Hm & Hd%Hdoc & Hx)|(m & _ & Hd%Hdoc & _)]]; [done| |by destruct Hd].
  destruct Hd as [-> _]. by split.
Qed.

Lemma open_state_inv v w res w' :
  inv w -> pending (vol (fs w)) = false -> open_state sha256_hex p v w = (res, w') ->
  inv w' /\ forall st, res = Ok st -> pending (vol (fs w')) = false /\ jr (vol (fs w')) = Some st.
Proof.
  intros Hinv Hpend H. unfold open_state in H.
  apply eff_bind_cases, or_comm in H as [(e & Hm & _)|(stored & u & Hm & H)]; [by destruct w|].
  assert (u = w /\ stored = jr (vol (fs w))) as [-> ->] by (destruct w; by injection Hm as <- <-).
  destruct (jr (vol (fs w))) as [st|] eqn:Hj.
  - destruct (resume v); injection H as <- <-; [|by split]. split; [done|]. intros st' [= <-]. done.
  - destruct (resume v); [injection H as <- <-; by split|].
    assert (executed (trace w) = []) as Hx.
    { pose proof (readable_vol _ _ (in_readable _ Hinv) Hpend) as Ha. rewrite Hj in Ha.
      by destruct Ha as [[_ ?]|[(m & _ & ? & _)|(m & _ & ? & _)]]. }
    assert (forall rr ww, on_fs (journal_write (initial_fault v) (doc 0 false)) w = (rr, ww) -> inv ww /\ trace ww = trace w /\
      (rr = Ok tt -> pending (vol (fs ww)) = false /\ jr (vol (fs ww)) = Some (doc 0 false))) as Hw.
    { intros rr ww. apply (write_allowed _ _ _ _ _ _ (in_coherent _ Hinv) Hpend Hj); rewrite ?Hx; try apply Hinv.
      - by left.
      - right; left. exists 0%nat. split_and!; [lia|done..].
      - exists 0%nat. split; [lia|done]. }
    apply eff_bind_cases, or_comm in H as [(e & Hd & ->)|([] & y & Hd & H)]; destruct (Hw _ _ Hd) as (Hinvy & Htry & Hoky); [by split|].
    injection H as <- <-. split; [done|]. intros st [= <-]. by apply Hoky.
Qed.

Lemma run_plan_inv parent v w res w' :
  (forall q, load_plan parent (loaded v) = Ok q -> q = p) -> inv w ->
  run_plan sha256_hex parent v w = (res, w') ->
  inv w' /\ (dry_run v = false -> res = Ok 0 -> at_boundary count w') /\
  (dry_run v = false -> res = Ok 1 -> exists k, at_boundary k w').
Proof.
  intros Hload Hinv H. unfold run_plan in H.
  apply eff_bind_cases, or_comm in H as [(e & Hm & ->)|(q & u & Hm & H)];
    unfold eff_lift in Hm; injection Hm as Hq <-; [by split|]. apply Hload in Hq as ->.
  destruct (dry_run v); [injection H as <- <-; by split|].
  assert (forall rr ww, on_fs journal_open w = (rr, ww) -> ww = w /\ (rr = Ok tt -> pending (vol (fs w)) = false)) as Hopen.
  { unfold on_fs, journal_open. intros rr ww. destruct w as [f tr]. cbn [fs trace].
    destruct (pending (vol f)); intros [= <- <-]; by split. }
  apply eff_bind_cases, or_comm in H as [(e & Hm & ->)|([] & u & Hm & H)];
    destruct (Hopen _ _ Hm) as [-> Hpend]; [by split|]. specialize (Hpend eq_refl).
  assert (forall rr ww, open_state sha256_hex p v w = (rr, ww) -> inv ww /\
    forall st, rr = Ok st -> pending (vol (fs ww)) = false /\ jr (vol (fs ww)) = Some st) as Hstate.
  { intros rr ww. by apply open_state_inv. }
  clear Hm. apply eff_bind_cases, or_comm in H as [(e & Hm & ->)|(st & u & Hm & H)];
    destruct (Hstate _ _ Hm) as [Hinvu Hst]; [by split|]. destruct (Hst st eq_refl) as [Hpu Hju].
  apply eff_bind_cases, or_comm in H as [(e & He & ->)|(next & x & He & H)];
    unfold eff_lift in He; injection He as Hv <-; [by split|].
  assert (exists k flying, st = doc k flying) as (k & flying & ->).
  { pose proof (readable_vol _ _ (in_readable _ Hinvu) Hpu) as Ha. rewrite Hju in Ha.
    destruct Ha as [[? _]|[(m & _ & ? & _)|(m & _ & ? & _)]]; simplify_eq; eauto. }
  apply validate_doc in Hv as [-> ->]. pose proof (boundary_of k u Hinvu Hpu Hju) as Hab.
  destruct (rotate_all_inv _ _ _ _ _ _ Hab eq_refl H) as (Hinv' & H0 & H1). by split_and!.
Qed.

(** ** Invocations one after the other, and power losses between them *)

Definition start : world := World (Fsys (Dir None false) (Dir None false)) [].

Inductive fleet_step (parent : string) : world -> world -> Prop :=
| Step_run v w r w' :
    (forall q, load_plan parent (loaded v) = Ok q -> q = p) ->
    run_plan sha256_hex parent v w = (r, w') -> fleet_step parent w w'
| Step_power nj np w : fleet_step parent w (World (power_loss nj np (fs w)) (trace w)).

Lemma start_inv : inv start.
Proof.
  split; [done| |exists 0%nat; split; [lia|done]|].
  - intros [] []; right; by left.
  - intros [|] ? ? Heq; discriminate.
Qed.

Lemma fleet_step_inv parent w w' : inv w -> fleet_step parent w w' -> inv w'.
Proof.
  intros Hinv. destruct 1 as [v w r w' Hload Hrun|nj np w].
  - by destruct (run_plan_inv _ _ _ _ _ Hload Hinv Hrun).
  - destruct Hinv. by destruct (power_loss_ok _ _ nj np in_readable0); split.
Qed.

Lemma reachable_inv parent w : rtc (fleet_step parent) start w -> inv w.
Proof.
  intros H. assert (forall w0, inv w0 -> rtc (fleet_step parent) w0 w -> inv w) as Hgen.
  { intros w0 H0. induction 1; [done|]. eauto using fleet_step_inv. }
  eapply Hgen; [apply start_inv|done].
Qed.

(** ** A cooperative resume completes the plan *)

Lemma py_eq_rotation r : py_eq (rotation_value r) (rotation_value r) = true.
Proof.
  destruct r as [c e g m a [z|]]; simpl; rewrite !bool_decide_eq_true_2 by done; done.
Qed.

Lemma py_eq_rotations l : py_eq (VList (rotation_value <$> l)) (VList (rotation_value <$> l)) = true.
Proof.
  induction l as [|r l IH]; [done|]. rewrite fmap_cons.
  change (py_eq (rotation_value r) (rotation_value r) && py_eq (VList (rotation_value <$> l)) (VList (rotation_value <$> l)) = true).
  by rewrite py_eq_rotation, IH.
Qed.

Lemma validate_boundary k : (k <= count)%nat -> validate_state sha256_hex (doc k false) p = Ok k.
Proof.
  intros Hk. unfold validate_state, doc. set (d := state_dict _ _ _ _ _).
  change (keys d) with (keys (state_dict sha256_hex p 0 [] VNone)).
  change (field d "schema_version") with (VInt 1). change (field d "id") with (VStr (plan_id p)).
  change (field d "plan_sha256") with (VStr (plan_digest sha256_hex p)).
  change (field d "next_idx") with (VInt (Z.of_nat k)). change (field d "in_flight") with VNone.
  change (field d "completed") with (VList (rotation_values p k)). clear d.
  assert (forall s : string, py_eq (VStr s) (VStr s) = true) as Hs by (intros s; by apply py_eq_str).
  cbn [type_is_int int_of is_none negb andb]. rewrite !Hs, Nat2Z.id.
  unfold rotation_values. rewrite py_eq_rotations.
  destruct (Z.ltb_spec (Z.of_nat k) 0), (Z.ltb_spec (Z.of_nat count) (Z.of_nat k)); try lia.
  reflexivity.
Qed.

Record cooperative (i : nat) (r : rotation) (a : step_answers) : Prop := {
  co_health : forall alias, alias_of (pool p i) (current r) = Some alias ->
    is_ok (require_health sha256_hex p (pool p i) alias (first_health a)) = true /\
    is_ok (require_health sha256_hex p (pool p i) alias (second_health a)) = true;
  co_confirmed : confirmed a = true;
  co_migration : check_migration r (migration a) = Ok tt;
  co_script : script a = Exited 0;
  co_faults : flight_fault a = NoFault /\ done_fault a = NoFault }.

Lemma alias_exists i r : rotations p !! i = Some r -> exists alias, alias_of (pool p i) (current r) = Some alias.
Proof.
  intros Hr. pose proof (pw_members _ Hp) as Hm. eapply Forall_lookup_1 in Hm; [|exact Hr].
  apply list_elem_of_fmap in Hm as (n & Hn & Hin).
  assert (n ∈ pool p i) as Hpool.
  { apply list_elem_of_filter. split; [|done]. rewrite <-Hn. intros Hout.
    apply list_elem_of_fmap in Hout as (r' & Hc & [j Hj]%list_elem_of_lookup).
    apply lookup_take_Some in Hj as [Hj Hlt].
    assert (j = i); [|lia]. apply (NoDup_lookup _ _ _ _ (pw_sources _ Hp)
      (list_lookup_fmap_Some_2 _ _ _ _ Hj)). rewrite <-Hc. by apply list_lookup_fmap_Some_2. }
  unfold alias_of. assert (n ∈ filter (fun n => node_current n = current r) (pool p i)) as Hf
    by (by apply list_elem_of_filter).
  destruct (filter _ (pool p i)) as [|m l]; [by apply not_elem_of_nil in Hf|]. simpl. eauto.
Qed.

Lemma is_ok_Ok {A} (m : res A) : is_ok m = true -> exists a, m = Ok a.
Proof. destruct m; [eauto|done]. Qed.

Lemma write_settles v w :
  pending (vol (fs w)) = false ->
  on_fs (journal_write NoFault v) w = (Ok tt, World (Fsys (Dir (Some v) false) (Dir (Some v) false)) (trace w)).
Proof. intros Hpend. unfold on_fs, journal_write. rewrite Hpend. by destruct w as [[[j q] [j' q']] tr]. Qed.

Lemma rotate_live i r a st w :
  pending (vol (fs w)) = false -> rotations p !! i = Some r -> cooperative i r a ->
  exists st' w', rotate sha256_hex p i r a st w = (Ok (Some st'), w').
Proof.
  intros Hpend Hr [Hh Hc Hmig Hs [Hf1 Hf2]]. destruct (alias_exists i r Hr) as [alias Halias].
  destruct (Hh alias Halias) as [[h1 Hh1]%is_ok_Ok [h2 Hh2]%is_ok_Ok].
  unfold rotate, mbind, eff_bind, eff_lift. rewrite Halias. cbn [of_option]. rewrite Hh1, emit_run, Hc.
  cbn [negb]. rewrite emit_run, Hh2, emit_run. unfold fly, mbind, eff_bind. rewrite Hf1, Hf2.
  rewrite (write_settles _ (World (fs w) _)) by done.
  unfold execute_rotation, mbind, eff_bind, eff_lift. rewrite Hmig, emit_run, Hs. cbn [raise_if negb Z.eqb].
  rewrite write_settles by done. unfold mret, eff_ret. eauto.
Qed.

Lemma rotate_all_live ans rs i w :
  at_boundary i w -> rs = drop i (rotations p) ->
  (forall k r, (i <= k)%nat -> rotations p !! k = Some r -> cooperative k r (ans k)) ->
  exists w', rotate_all sha256_hex p ans i rs (state i VNone) w = (Ok 0, w').
Proof.
  revert i w. induction rs as [|r rs IH]; intros i w Hab Hrs Hco; [by exists w|].
  assert (rotations p !! i = Some r) as Hr.
  { pose proof (lookup_drop (rotations p) i 0) as Hl. rewrite <-Hrs, Nat.add_0_r in Hl. by rewrite <-Hl. }
  destruct (rotate_live i r (ans i) (state i VNone) w (ab_pending _ _ Hab) Hr (Hco i r (le_n i) Hr)) as (st & w1 & Hrot).
  destruct (rotate_inv _ _ _ _ _ _ Hab Hr Hrot) as (_ & _ & Hyes). destruct (Hyes st eq_refl) as [Hab1 ->].
  cbn [rotate_all]. unfold mbind, eff_bind. rewrite Hrot. apply IH; [done| |].
  - by rewrite (drop_S _ _ _ Hr) in Hrs; injection Hrs.
  - intros k q Hk. apply Hco. lia.
Qed.

(** What a later invocation needs to find: nothing, or a completed boundary. *)
Definition resumable (w : world) (resuming : bool) : Prop :=
  pending (vol (fs w)) = false /\
  ((jr (vol (fs w)) = None /\ resuming = false) \/
   (exists k, jr (vol (fs w)) = Some (doc k false) /\ resuming = true)).

Lemma run_plan_live parent v w :
  inv w -> load_plan parent (loaded v) = Ok p -> dry_run v = false -> initial_fault v = NoFault ->
  resumable w (resume v) -> (forall k r, rotations p !! k = Some r -> cooperative k r (answers v k)) ->
  exists w', run_plan sha256_hex parent v w = (Ok 0, w').
Proof.
  intros Hinv Hload Hdry Hini [Hpend Hst] Hco. unfold run_plan, mbind, eff_bind, eff_lift. rewrite Hload, Hdry.
  assert (on_fs journal_open w = (Ok tt, w)) as ->.
  { unfold on_fs, journal_open. rewrite Hpend. by destruct w. }
  assert (exists k w1, open_state sha256_hex p v w = (Ok (doc k false), w1) /\ at_boundary k w1) as (k & w1 & Hopen & Hab).
  { unfold open_state, mbind, eff_bind. assert (on_fs journal_read w = (Ok (jr (vol (fs w))), w)) as Hrd by (by destruct w).
    destruct Hst as [[Hj Hres]|(k & Hj & Hres)].
    - destruct (open_state sha256_hex p v w) as [rr ww] eqn:Ho. destruct (open_state_inv _ _ _ _ Hinv Hpend Ho) as [Hinv' Hok].
      unfold open_state, mbind, eff_bind in Ho. rewrite Hrd, Hj, Hres, Hini, write_settles in Ho by done.
      injection Ho as <- <-. exists 0%nat. eexists. rewrite Hrd, Hj, Hres, Hini, write_settles by done. split; [done|].
      by apply boundary_of.
    - exists k, w. rewrite Hrd, Hj, Hres. split; [done|]. by apply boundary_of. }
  rewrite Hopen, validate_boundary by apply Hab. cbn [dict_of doc].
  apply (rotate_all_live _ _ k w1 Hab eq_refl). intros j r _. apply Hco.
Qed.
End Safety.

(** ** The guarantees of a fleet rotation *)

(** C2: Whatever sequence of invocations, failures and power losses a plan goes
    through, its rotation scripts are started in plan order and none of them more
    than once; and a journal that can be read without the pending marker states
    exactly which ones were completed. *)
Theorem rotations_once sha256_hex p parent w :
  plan_wf p -> rtc (fleet_step sha256_hex p parent) start w ->
  (exists n, (n <= length (rotations p))%nat /\ executed (trace w) = seq 0 n) /\
  readable (allowed sha256_hex p (executed (trace w))) (fs w).
Proof. intros Hp H. destruct (reachable_inv sha256_hex p Hp parent w H). by split. Qed.

(** C26: No rotation starts without its gate: right before it the authenticated
    survivors were counted, the operator confirmed, and the survivors were counted
    again; both times at least the floor of the plan, among the hosts that are
    neither replaced already nor about to be. *)
Theorem rotations_gated sha256_hex p parent w before i after :
  plan_wf p -> rtc (fleet_step sha256_hex p parent) start w -> trace w = before ++ EExecute i :: after ->
  exists start_ h1 h2, before = start_ ++ [EHealth i h1; EConfirm i; EHealth i h2] /\ gate p i h1 /\ gate p i h2.
Proof. intros Hp H Htr. destruct (reachable_inv sha256_hex p Hp parent w H). by eapply in_gated0. Qed.

Lemma main_cases sha256_hex parent v w res w' : main sha256_hex parent v w = (res, w') ->
  run_plan sha256_hex parent v w = (res, w') \/
  res = Ok 1 /\ exists e, run_plan sha256_hex parent v w = (Raise e, w') /\ caught [RotationError; OSError] e = true.
Proof.
  unfold main, eff_try. destruct (run_plan sha256_hex parent v w) as [[z|e] w1]; [by left|].
  destruct (caught _ e) eqn:He; [|by left]. intros [= <- <-]. right. split; [done|]. by exists e.
Qed.


(** ** A sample rotation *)

Definition sample_digest (_ : list Z) : string := "digest".
Definition sample_health : health_answer := HealthAnswer (Ok sample_plan) (Ok {["ams1"%string]}) (Ok sample_plan).
Definition sample_migration : value :=
  VDict [("source", VDict [("host", VStr "hetzner:fsn")]);
         ("target", VDict [("host", VStr "hetzner:fsn-green"); ("secrets_file", VStr "/srv/fleet/green.sops.yaml")])]%string.
Definition sample_step (flight : fault) (o : outcome) : step_answers :=
  StepAnswers sample_health true sample_health flight (Ok sample_migration) o NoFault.
Definition sample_invocation (resuming : bool) (flight : fault) (o : outcome) : invocation :=
  Invocation (Ok sample_yaml) resuming false NoFault (fun _ => sample_step flight o).
Definition sample_run (v : invocation) (w : world) : res Z * world := run_plan sample_digest "/srv/fleet" v w.

Lemma sample_wf : plan_wf sample_plan.
Proof. apply (load_plan_wf "/srv/fleet" (Ok sample_yaml)). exact sample_admitted. Qed.

Lemma sample_step_run resuming flight o w :
  fleet_step sample_digest sample_plan "/srv/fleet" w (sample_run (sample_invocation resuming flight o) w).2.
Proof.
  apply (Step_run _ _ _ (sample_invocation resuming flight o) w (sample_run (sample_invocation resuming flight o) w).1).
  - intros q. cbn [loaded sample_invocation]. rewrite sample_admitted. by intros [= ->].
  - unfold sample_run. by destruct (run_plan _ _ _ _).
Qed.

(** The power fails while the rotation script runs; the resume refuses. *)
Definition sample_interrupted : world :=
  (sample_run (sample_invocation false NoFault (PowerLost false false)) start).2.
Example sample_refuses :
  (sample_run (sample_invocation true NoFault (Exited 0)) sample_interrupted).1
  = Raise (rotation_error "in-flight-outcome-requires-operator-reconciliation").
Proof. vm_compute. reflexivity. Qed.
Example sample_trace :
  trace sample_interrupted = [EHealth 0 {["ams1"%string]}; EConfirm 0; EHealth 0 {["ams1"%string]}; EExecute 0].
Proof. vm_compute. reflexivity. Qed.

(** The publication before the script fails and is fenced; the plan stays put. *)
Definition sample_stopped : world := (sample_run (sample_invocation false (FailAt 4 true) (Exited 0)) start).2.

Lemma rotations_once_witness :
  rtc (fleet_step sample_digest sample_plan "/srv/fleet") start sample_interrupted /\
  (exists n, (n <= length (rotations sample_plan))%nat /\ executed (trace sample_interrupted) = seq 0 n) /\
  readable (allowed sample_digest sample_plan (executed (trace sample_interrupted))) (fs sample_interrupted).
Proof.
  assert (rtc (fleet_step sample_digest sample_plan "/srv/fleet") start sample_interrupted) as H
    by (apply rtc_once, sample_step_run).
  split; [exact H|]. exact (rotations_once sample_digest sample_plan "/srv/fleet" sample_interrupted sample_wf H).
Defined.

Lemma rotations_gated_witness :
  exists start_ h1 h2,
    [EHealth 0 {["ams1"%string]}; EConfirm 0; EHealth 0 {["ams1"%string]}]
      = start_ ++ [EHealth 0 h1; EConfirm 0; EHealth 0 h2] /\ gate sample_plan 0 h1 /\ gate sample_plan 0 h2.
Proof.
  apply (rotations_gated sample_digest sample_plan "/srv/fleet" sample_interrupted _ 0 []); [exact sample_wf| |exact sample_trace].
  apply rtc_once, sample_step_run.
Defined.

Lemma sample_cooperates k r :
  rotations sample_plan !! k = Some r -> cooperative sample_digest sample_plan k r (sample_step NoFault (Exited 0)).
Proof.
  destruct k as [|k]; [|done]. intros [= <-]. split; try done.
  intros alias Ha. assert (alias = "fsn1"%string) as -> by (vm_compute in Ha; congruence).
  split; vm_compute; reflexivity.
Qed.

Lemma sample_resumable : resumable sample_digest sample_plan start false.
Proof. split; [done|]. by left. Qed.

Definition sample_main (v : invocation) (w : world) : res Z * world := main sample_digest "/srv/fleet" v w.

(** A resume of the interrupted rotation exits 1 with a reported error. *)
Example sample_reported : (sample_main (sample_invocation true NoFault (Exited 0)) sample_interrupted).1 = Ok 1.
Proof. vm_compute. reflexivity. Qed.

