(* ===== verification/ListenerCollisions.v ===== *)
(** * Listener collisions

    [scripts/check-listener-collisions.py]: the guard over a manifest of public
    listeners.  [str] of a value that is not a string, and [int] of a string that
    is not ASCII, are parameters. *)

From stdpp Require Import sorting.
From S2P Require Import Prelude PyValue PyStr.
#[local] Open Scope Z_scope.

(** ** [int(v)] *)

Section PyInt.
Context (unicode_int : string -> option Z).

(** Digits with single underscores between them. *)
Fixpoint int_digits (l : list ascii) (acc : list ascii) : option (list ascii) :=
  match l with
  | [] => None
  | c :: l =>
      if is_digit c then
        match l with
        | [] => Some (acc ++ [c])
        | "_"%char :: l => int_digits l (acc ++ [c])
        | _ => int_digits l (acc ++ [c])
        end
      else None
  end.

Definition sign_split (l : list ascii) : Z * list ascii :=
  match l with
  | "-"%char :: l => (-1, l)
  | "+"%char :: l => (1, l)
  | _ => (1, l)
  end.

Definition int_str (s : string) : option Z :=
  if negb (is_ascii s) then unicode_int s else
  let '(sign, l) := sign_split (chars (strip is_space s)) in
  match int_digits l [] with
  | Some ds => if 4300 <? Z.of_nat (length ds) then None else Some (sign * digits_val 10 ds)
  | None => None
  end.

Definition int_float (f : pyfloat) : res Z :=
  match f with
  | FFin m e => Ok (if 0 <=? e then m * 2 ^ e else Z.quot m (2 ^ (- e)))
  | FInf _ => Raise (Exn OverflowError "infinity")
  | FNan => Raise (Exn ValueError "nan")
  end.

Definition py_int (v : value) : res Z :=
  match v with
  | VInt z => Ok z
  | VBool b => Ok (if b then 1 else 0)
  | VFloat f => int_float f
  | VStr s => of_option (int_str s) (Exn ValueError "int")
  | _ => Raise (Exn TypeError "int")
  end.

(** ** Listeners *)

Inductive span := Exact (port : Z) | Range (start end_ : Z).
Record listener := Listener { role : string; protocol : string; reason : string; at_ : span }.

Definition exact_label (p : string) (port : Z) : string := (p +:+ "/" +:+ str_of_Z port)%string.
Definition label (l : listener) : string :=
  match at_ l with
  | Exact port => exact_label (protocol l) port
  | Range a b => (protocol l +:+ "/" +:+ str_of_Z a +:+ "-" +:+ str_of_Z b)%string
  end.
Definition is_range (l : listener) : bool := match at_ l with Range _ _ => true | Exact _ => false end.
Definition describe (l : listener) : string := (role l +:+ " (" +:+ reason l +:+ ")")%string.

Definition value_error (s : string) : exn := Exn ValueError s.

Definition validate_port (port : Z) : res unit := raise_if ((port <? 1) || (65535 <? port)) (value_error "port").

(** [value.split("-", 1)] with two parts. *)
Definition dash_split (s : string) : option (string * string) :=
  match partition_chars "-"%char (chars s) with
  | (a, true, b) => Some (of_chars a, of_chars b)
  | _ => None
  end.

Definition range_ends (v : value) : res (value * value) :=
  match v with
  | VStr s => let* ' (a, b) := of_option (dash_split s) (value_error "range") in Ok (VStr a, VStr b)
  | VList [a; b] => Ok (a, b)
  | _ => Raise (value_error "range")
  end.

Definition parse_range (v : value) : res (Z * Z) :=
  let* ' (a, b) := range_ends v in
  let* start := py_int a in
  let* end_ := py_int b in
  validate_port start ;;; validate_port end_ ;;;
  raise_if (end_ <? start) (value_error "descending") ;;;
  Ok (start, end_).

Context (text : value -> string).
(** [str(v)] *)
Definition py_str (v : value) : string := match v with VStr s => s | _ => text v end.

Definition known_protocol (v : value) : res string :=
  match v with
  | VStr s => raise_if (negb (mem (lower s) ["tcp"; "udp"]%string)) (value_error "protocol") ;;; Ok (lower s)
  | _ => Raise (value_error "protocol")
  end.

Definition port_of (d : list (string * value)) : res Z :=
  let* v := index (VDict d) "port" in
  let* port := py_int v in
  validate_port port ;;; Ok port.

(** A range that is neither absent, [None] nor the empty string. *)
Definition has_range (d : list (string * value)) : bool :=
  match dget "range" d with Some v => negb (is_none v || py_eq v (VStr "")) | None => false end.

(** [_listener(item)]; [None] for a disabled entry. *)
Definition parse_listener (item : value) : res (option listener) :=
  match item with
  | VDict d =>
      if negb (truthy (default (VBool false) (dget "enabled" d))) then Ok None else
      let* p := known_protocol (default (VStr "") (dget "protocol" d)) in
      let role := py_str (default (VStr "<unknown>") (dget "role" d)) in
      let reason := py_str (default (VStr "public listener") (dget "reason" d)) in
      if has_range d then
        let* ' (a, b) := parse_range (field d "range") in Ok (Some (Listener role p reason (Range a b)))
      else
        let* port := port_of d in Ok (Some (Listener role p reason (Exact port)))
  | _ => Raise (Exn AttributeError "get")
  end.

Definition allow_key (item : value) : res string :=
  match item with
  | VStr s => Ok (lower s)
  | VDict d =>
      let* p := known_protocol (default (VStr "") (dget "protocol" d)) in
      match dget "range" d with
      | Some v => let* ' (a, b) := parse_range v in Ok (label (Listener "" p "" (Range a b)))
      | None => let* port := port_of d in Ok (exact_label p port)
      end
  | _ => Raise (value_error "allowlist")
  end.

(** [for x in v]: a mapping iterates over its keys, a string over its characters. *)
Definition iterate (v : value) : res (list value) :=
  match v with
  | VList l => Ok l
  | VDict d => Ok (VStr <$> keys d)
  | VStr s => Ok ((fun c => VStr (of_chars [c])) <$> chars s)
  | _ => Raise (Exn TypeError "not iterable")
  end.

(** ** The check *)

(** [exact_by_key.setdefault(label, []).append(listener)] *)
Fixpoint group_add (l : listener) (groups : list (string * list listener)) : list (string * list listener) :=
  match groups with
  | [] => [(label l, [l])]
  | (k, g) :: groups => if decide (k = label l) then (k, g ++ [l]) :: groups else (k, g) :: group_add l groups
  end.

Definition group_le (a b : string * list listener) : Prop := str_le a.1 b.1.
#[export] Instance group_le_dec : RelDecision group_le.
Proof. intros a b. unfold group_le. apply _. Defined.

Definition group_finding (allow : list string) (kg : string * list listener) : list string :=
  if Nat.ltb 1 (length kg.2) && negb (mem kg.1 allow)
  then [(kg.1 +:+ ": duplicate enabled listeners: " +:+ String.concat ", " (describe <$> kg.2))%string] else [].

(** An exact port inside a range. *)
Definition inside_finding (allow : list string) (r e : listener) : list string :=
  match at_ e, at_ r with
  | Exact port, Range a b =>
      if bool_decide (protocol e = protocol r) && (a <=? port) && (port <=? b)
         && negb (mem (label e) allow || mem (label r) allow || mem (exact_label (protocol e) port) allow)
      then [(exact_label (protocol e) port +:+ ": " +:+ describe e +:+ " is inside " +:+ label r
             +:+ " owned by " +:+ describe r)%string]
      else []
  | _, _ => []
  end.

Definition overlap_finding (allow : list string) (r s : listener) : list string :=
  match at_ r, at_ s with
  | Range a b, Range c d =>
      if bool_decide (protocol r = protocol s) && (a <=? d) && (c <=? b) && negb (mem (label r) allow || mem (label s) allow)
      then [(protocol r +:+ ": " +:+ label r +:+ " owned by " +:+ describe r +:+ " overlaps " +:+ label s
             +:+ " owned by " +:+ describe s)%string]
      else []
  | _, _ => []
  end.

(** [for i ...: for j in range(i + 1, ...)] *)
Fixpoint pair_findings (f : listener -> listener -> list string) (l : list listener) : list string :=
  match l with
  | [] => []
  | x :: l => mjoin (f x <$> l) ++ pair_findings f l
  end.

Definition exact_groups (listeners : list listener) : list (string * list listener) :=
  foldl (fun g l => if is_range l then g else group_add l g) [] listeners.

Definition collisions (allow : list string) (listeners : list listener) : list string :=
  let groups := exact_groups listeners in
  let ranges := filter (fun l => is_range l = true) listeners in
  let exacts := mjoin (snd <$> groups) in
  mjoin (group_finding allow <$> merge_sort group_le groups)
  ++ mjoin ((fun r => mjoin (inside_finding allow r <$> exacts)) <$> ranges)
  ++ pair_findings (overlap_finding allow) ranges.

Definition payload_list (payload : value) (key : string) : res (list value) :=
  let* v := get_or payload key (VList []) in iterate v.

(** The allowlist and the enabled listeners of a manifest. *)
Definition parse_manifest (payload : value) : res (list string * list listener) :=
  let* allowed := payload_list payload "allowlist" in
  let* allow := mapM_res allow_key allowed in
  let* items := payload_list payload "listeners" in
  let* parsed := mapM_res parse_listener items in
  Ok (allow, omap id parsed).

Definition check (payload : value) : res (list string) :=
  let* ' (allow, listeners) := parse_manifest payload in Ok (collisions allow listeners).
End PyInt.

(** ** What a clean manifest means *)

Definition span_low (l : listener) : Z := match at_ l with Exact port => port | Range a _ => a end.
Definition span_high (l : listener) : Z := match at_ l with Exact port => port | Range _ b => b end.

(** Two listeners could be given the same packet. *)
Definition overlap (a b : listener) : Prop :=
  protocol a = protocol b /\ span_low a <= span_high b /\ span_low b <= span_high a.
Definition permitted (allow : list string) (a b : listener) : Prop :=
  overlap a b -> label a ∈ allow \/ label b ∈ allow.

Definition listener_wf (l : listener) : Prop :=
  (protocol l = "tcp"%string \/ protocol l = "udp"%string) /\ 1 <= span_low l <= span_high l /\ span_high l <= 65535.

#[export] Instance permitted_sym allow : Symmetric (permitted allow).
Proof. intros a b H (Hp & ? & ?). destruct H; [by split_and!|by right|by left]. Qed.

Lemma dash_free z : 0 <= z -> "-"%char ∉ chars (str_of_Z z).
Proof.
  intros Hz. rewrite chars_str_of_Z by done. intros Hin.
  pose proof (dec_chars_digits z Hz) as Hd. by eapply Forall_forall in Hd; [|exact Hin].
Qed.

Lemma str_of_Z_inj a b : 0 <= a -> 0 <= b -> str_of_Z a = str_of_Z b -> a = b.
Proof.
  intros Ha Hb H. apply dec_chars_inj; [done..|]. by rewrite <-!chars_str_of_Z, H.
Qed.

Lemma exact_label_inj a b :
  listener_wf a -> listener_wf b -> is_range a = false -> is_range b = false ->
  label a = label b <-> overlap a b.
Proof.
  intros [Ha Hra] [Hb Hrb]. unfold is_range, label, overlap, span_low, span_high in *.
  destruct (at_ a) as [x|]; [|done]. destruct (at_ b) as [y|]; [|done]. intros _ _. split.
  - unfold exact_label. intros H.
    assert (protocol a = protocol b /\ str_of_Z x = str_of_Z y) as [Hp Hxy].
    { destruct Ha as [Ha|Ha], Hb as [Hb|Hb]; rewrite Ha, Hb in H; simpl in H; simplify_eq; rewrite ?Ha, ?Hb; auto. }
    apply str_of_Z_inj in Hxy; [|lia..]. split; [done|lia].
  - intros (Hp & H1 & H2). assert (x = y) as -> by lia. by rewrite Hp.
Qed.

(** *** The groups of exact listeners *)

Definition exacts (ls : list listener) : list listener := filter (fun l => is_range l = false) ls.
Definition ranges (ls : list listener) : list listener := filter (fun l => is_range l = true) ls.

Lemma group_add_dget k l groups :
  dget k (group_add l groups) = if decide (k = label l) then Some (default [] (dget k groups) ++ [l]) else dget k groups.
Proof.
  induction groups as [|[k' g] groups IH]; simpl; [by case_decide|].
  repeat (case_decide; simplify_eq/=; try congruence); rewrite ?IH; by repeat (case_decide; simplify_eq/=).
Qed.

Lemma group_add_in k l groups : k ∈ keys (group_add l groups) -> k = label l \/ k ∈ keys groups.
Proof. rewrite <-!dget_is_Some, group_add_dget. case_decide; auto. Qed.

Lemma group_add_keys l groups : NoDup (keys groups) -> NoDup (keys (group_add l groups)).
Proof.
  induction groups as [|[k g] groups IH]; [intros _; by apply NoDup_singleton|].
  change (keys ((k, g) :: groups)) with (k :: keys groups). intros [Hk H]%NoDup_cons. cbn [group_add].
  case_decide as Hd.
  - change (NoDup (k :: keys groups)). by apply NoDup_cons.
  - change (NoDup (k :: keys (group_add l groups))). apply NoDup_cons. split; [|by apply IH].
    intros [?|?]%group_add_in; done.
Qed.

Lemma group_add_perm l groups : mjoin (snd <$> group_add l groups) ≡ₚ l :: mjoin (snd <$> groups).
Proof.
  induction groups as [|[k g] groups IH]; [done|]. simpl. case_decide; csimpl.
  - change (mjoin ((g ++ [l]) :: (snd <$> groups))) with ((g ++ [l]) ++ mjoin (snd <$> groups)).
    change (mjoin (g :: (snd <$> groups))) with (g ++ mjoin (snd <$> groups)).
    rewrite <-app_assoc. simpl. by rewrite <-Permutation_middle.
  - change (mjoin (g :: (snd <$> group_add l groups))) with (g ++ mjoin (snd <$> group_add l groups)).
    change (mjoin (g :: (snd <$> groups))) with (g ++ mjoin (snd <$> groups)).
    by rewrite IH, <-Permutation_middle.
Qed.

Definition group_of (k : string) (ls : list listener) : option (list listener) :=
  match filter (fun l => label l = k) (exacts ls) with [] => None | g => Some g end.

Lemma exact_groups_spec ls :
  NoDup (keys (exact_groups ls)) /\ (forall k, dget k (exact_groups ls) = group_of k ls) /\
  mjoin (snd <$> exact_groups ls) ≡ₚ exacts ls.
Proof.
  unfold exact_groups. induction ls as [|l ls (Hn & Hg & Hp)] using rev_ind; [by split_and!; [constructor|..]|].
  rewrite foldl_app. cbn [foldl]. unfold group_of, exacts in *. rewrite filter_app.
  destruct (is_range l) eqn:Hr.
  - rewrite (filter_cons_False _ l) by congruence. rewrite filter_nil, app_nil_r. done.
  - rewrite (filter_cons_True _ l), filter_nil by done. split_and!.
    + by apply group_add_keys.
    + intros k. rewrite group_add_dget, Hg, filter_app, filter_cons, filter_nil.
      destruct (decide (k = label l)) as [->|Hk].
      * rewrite decide_True by done. destruct (filter _ (filter _ ls)); done.
      * rewrite decide_False by congruence. by rewrite app_nil_r.
    + rewrite group_add_perm, Hp. by rewrite Permutation_app_comm.
Qed.

(** *** The three checks *)

Lemma elem_of_groups k g ls : (k, g) ∈ exact_groups ls <-> group_of k ls = Some g.
Proof.
  destruct (exact_groups_spec ls) as (Hn & Hg & _). rewrite <-Hg. split; [by apply dget_nodup|apply dget_Some_elem].
Qed.

Lemma exacts_wf ls : Forall listener_wf ls -> Forall listener_wf (exacts ls).
Proof. apply Forall_filter_keep. Qed.

Lemma group_findings_nil allow ls :
  Forall listener_wf ls ->
  mjoin (group_finding allow <$> merge_sort group_le (exact_groups ls)) = [] <->
  ForallOrdPairs (permitted allow) (exacts ls).
Proof.
  intros Hwf. rewrite mjoin_fmap_nil, merge_sort_Permutation.
  trans (ForallOrdPairs (fun a b => label a = label b -> label a ∈ allow) (exacts ls)).
  - rewrite (ForallOrdPairs_key label (fun k => k ∈ allow)), Forall_forall. split.
    + intros H k Hk. assert (exists g, (k, g) ∈ exact_groups ls) as [g Hg].
      { setoid_rewrite elem_of_groups. unfold group_of. destruct (filter _ (exacts ls)); [simpl in Hk; lia|eauto]. }
      pose proof (H _ Hg) as Hf. apply elem_of_groups in Hg. unfold group_of in Hg.
      unfold group_finding in Hf. cbn [fst snd] in Hf.
      destruct (filter _ (exacts ls)) as [|x f] eqn:Hfl; [done|]. injection Hg as <-.
      assert (Nat.ltb 1 (length (x :: f)) = true) as Hlen by (by apply Nat.ltb_lt). rewrite Hlen in Hf.
      destruct (mem k allow) eqn:Hm; [by apply mem_true|done].
    + intros H [k g] Hg. apply elem_of_groups in Hg. unfold group_of in Hg. unfold group_finding. cbn [fst snd].
      destruct (Nat.ltb_spec 1 (length g)); [|done]. assert (k ∈ allow) as Hk.
      { apply H. destruct (filter _ (exacts ls)); [done|by injection Hg as ->]. }
      apply mem_true in Hk. by rewrite Hk.
  - pose proof (exacts_wf ls Hwf) as Hw. assert (Forall (fun l => is_range l = false) (exacts ls)) as Hr.
    { apply Forall_forall. by intros l [? _]%list_elem_of_filter. }
    induction (exacts ls) as [|x l IH]; [split; constructor|].
    apply Forall_cons in Hw as [Hx Hw]. apply Forall_cons in Hr as [Hxr Hr].
    assert (forall y, y ∈ l -> (label x = label y -> label x ∈ allow) <-> permitted allow x y) as Heq.
    { intros y Hy. eapply Forall_forall in Hw; [|exact Hy]. eapply Forall_forall in Hr; [|exact Hy].
      unfold permitted. rewrite <-exact_label_inj by done. split; [by intros H E; left; apply H|].
      intros H E. destruct (H E) as [?|?]; [done|congruence]. }
    split; inversion 1 as [|? ? Ha Hl]; subst; (constructor; [|by apply IH]); apply Forall_forall; intros y Hy;
      (eapply Forall_forall in Ha; [|exact Hy]); by apply Heq.
Qed.

Lemma inside_finding_nil allow r e :
  is_range r = true -> is_range e = false -> inside_finding allow r e = [] <-> permitted allow e r.
Proof.
  unfold is_range, inside_finding, permitted, overlap, span_low, span_high, label.
  destruct (at_ r) as [|a b]; [done|]. destruct (at_ e) as [port|]; [|done]. intros _ _.
  destruct (bool_decide (protocol e = protocol r)) eqn:Hp; bprop; [|split; [by intros _ [? _]|done]].
  destruct (Z.leb_spec a port), (Z.leb_spec port b); simpl; try (split; [intros _ (_ & ? & ?); lia|done]).
  destruct (mem (exact_label (protocol e) port) allow) eqn:H1;
    destruct (mem (_ +:+ _ +:+ str_of_Z a +:+ _)%string allow) eqn:H2; simpl;
    rewrite ?mem_true, ?mem_false in *; split; try done; auto; intros H'; exfalso;
    destruct H' as [?|?]; [by split_and!|done..].
Qed.

Lemma overlap_finding_nil allow r s :
  is_range r = true -> is_range s = true -> overlap_finding allow r s = [] <-> permitted allow r s.
Proof.
  unfold is_range, overlap_finding, permitted, overlap, span_low, span_high.
  destruct (at_ r) as [|a b]; [done|]. destruct (at_ s) as [|c d]; [done|]. intros _ _.
  destruct (bool_decide (protocol r = protocol s)) eqn:Hp; bprop; [|split; [by intros _ [? _]|done]].
  destruct (Z.leb_spec a d), (Z.leb_spec c b); simpl; try (split; [intros _ (_ & ? & ?); lia|done]).
  destruct (mem (label r) allow) eqn:H1, (mem (label s) allow) eqn:H2; simpl;
    rewrite ?mem_true, ?mem_false in *; split; try done; auto; intros H'; exfalso;
    destruct H' as [?|?]; [by split_and!|done..].
Qed.

Lemma pair_findings_nil f l : pair_findings f l = [] <-> ForallOrdPairs (fun a b => f a b = []) l.
Proof.
  induction l as [|x l IH]; [by split; [constructor|]|]. cbn [pair_findings]. rewrite app_nil, mjoin_fmap_nil, IH. split.
  - intros []. by constructor.
  - by inversion 1.
Qed.

Lemma split_perm ls : ls ≡ₚ exacts ls ++ ranges ls.
Proof.
  induction ls as [|l ls IH]; [done|]. unfold exacts, ranges in *. rewrite !filter_cons.
  destruct (is_range l); simpl; [by rewrite <-Permutation_middle, <-IH|by rewrite <-IH].
Qed.

Lemma ForallOrdPairs_iff {A} (R S : A -> A -> Prop) (P : A -> Prop) l :
  Forall P l -> (forall x y, P x -> P y -> R x y <-> S x y) -> ForallOrdPairs R l <-> ForallOrdPairs S l.
Proof.
  intros HP Heq. induction l as [|x l IH]; [split; constructor|]. apply Forall_cons in HP as [Hx HP].
  split; inversion 1 as [|? ? Ha Hl]; subst; (constructor; [|by apply IH]); apply Forall_forall; intros y Hy;
    (eapply Forall_forall in Ha; [|exact Hy]); (apply Heq; [done| |done]); by eapply Forall_forall in HP.
Qed.

Lemma collisions_nil allow ls :
  Forall listener_wf ls -> collisions allow ls = [] <-> ForallOrdPairs (permitted allow) ls.
Proof.
  intros Hwf. unfold collisions. rewrite !app_nil, group_findings_nil by done.
  assert (ForallOrdPairs (permitted allow) ls <-> ForallOrdPairs (permitted allow) (exacts ls ++ ranges ls)) as ->.
  { split; apply ForallOrdPairs_perm; try apply _; [apply split_perm|symmetry; apply split_perm]. }
  rewrite ForallOrdPairs_app. apply and_iff_compat_l. fold (ranges ls).
  assert (Forall (fun l => is_range l = true) (ranges ls)) as Hr by (apply Forall_forall; by intros l [? _]%list_elem_of_filter).
  rewrite pair_findings_nil, (ForallOrdPairs_iff _ (permitted allow) (fun l => is_range l = true) (ranges ls) Hr)
    by (intros; by apply overlap_finding_nil).
  rewrite (and_comm (ForallOrdPairs _ (ranges ls))). apply and_iff_compat_r.
  destruct (exact_groups_spec ls) as (_ & _ & Hp). rewrite mjoin_fmap_nil. setoid_rewrite mjoin_fmap_nil. setoid_rewrite Hp.
  rewrite !Forall_forall. setoid_rewrite Forall_forall.
  assert (forall r e, r ∈ ranges ls -> e ∈ exacts ls -> inside_finding allow r e = [] <-> permitted allow e r) as Heq.
  { intros r e [Hrr _]%list_elem_of_filter [Her _]%list_elem_of_filter. by apply inside_finding_nil. }
  split; intros H x Hx y Hy; apply Heq; auto.
Qed.

(** *** Parsed listeners *)

Lemma parse_range_wf ui v a b : parse_range ui v = Ok (a, b) -> 1 <= a <= b /\ b <= 65535.
Proof.
  unfold parse_range. intros H. apply res_bind_Ok in H as ([x y] & _ & H). cbn in H.
  apply res_bind_Ok in H as (s & _ & H). apply res_bind_Ok in H as (e & _ & H).
  apply res_bind_Ok in H as ([] & H1 & H). apply res_bind_Ok in H as ([] & H2 & H).
  apply raise_if_seq_Ok in H as [H3 [= <- <-]]. unfold validate_port in *.
  apply raise_if_Ok in H1. apply raise_if_Ok in H2. bprop. lia.
Qed.

Lemma parse_listener_wf ui text item l : parse_listener ui text item = Ok (Some l) -> listener_wf l.
Proof.
  unfold parse_listener. destruct item as [| | | | | |d]; try done. destruct (negb _); [done|]. intros H.
  apply res_bind_Ok in H as (p & Hp & H).
  assert (p = "tcp" \/ p = "udp")%string as Hproto.
  { unfold known_protocol in Hp. destruct (default _ _); try discriminate Hp.
    apply raise_if_seq_Ok in Hp as [Hg [= <-]]. apply negb_false_iff, mem_true in Hg. set_solver. }
  destruct (has_range d).
  - apply res_bind_Ok in H as ([a b] & Hr%parse_range_wf & [= <-]). split; [done|]. cbn. lia.
  - apply res_bind_Ok in H as (port & Hport & [= <-]). split; [done|]. cbn.
    unfold port_of in Hport. apply res_bind_Ok in Hport as (v & _ & Hport). apply res_bind_Ok in Hport as (z & _ & Hport).
    apply res_bind_Ok in Hport as ([] & Hv & [= <-]). unfold validate_port in Hv. apply raise_if_Ok in Hv. bprop. lia.
Qed.

Lemma parse_manifest_wf ui text payload allow ls :
  parse_manifest ui text payload = Ok (allow, ls) -> Forall listener_wf ls.
Proof.
  unfold parse_manifest. intros H. apply res_bind_Ok in H as (? & _ & H). apply res_bind_Ok in H as (? & _ & H).
  apply res_bind_Ok in H as (items & _ & H). apply res_bind_Ok in H as (parsed & Hp & [= _ <-]).
  apply mapM_res_Ok in Hp. apply Forall_forall. intros l Hl. apply list_elem_of_omap in Hl as (o & Ho & Hol).
  simpl in Hol. subst o. apply list_elem_of_lookup in Ho as [i Hi].
  destruct (Forall2_lookup_r _ _ _ _ _ Hp Hi) as (item & _ & Hpl). by eapply parse_listener_wf.
Qed.

(** The guard reports nothing exactly when no two enabled listeners of the
    manifest can receive the same packet (same protocol, intersecting ports)
    unless the label of one of them is on the allowlist. *)
Theorem collisions_exact unicode_int text payload allow listeners :
  parse_manifest unicode_int text payload = Ok (allow, listeners) ->
  check unicode_int text payload = Ok [] <->
  ForallOrdPairs (fun a b => overlap a b -> label a ∈ allow \/ label b ∈ allow) listeners.
Proof.
  intros H. unfold check. rewrite H. cbn [res_bind]. change (ForallOrdPairs _ listeners) with (ForallOrdPairs (permitted allow) listeners).
  rewrite <-collisions_nil by (by eapply parse_manifest_wf). split; [apply Ok_inj|by intros ->].
Qed.

Definition sample_listener (role protocol : string) (key : string) (v : value) : value :=
  VDict [("role", VStr role); ("protocol", VStr protocol); (key, v); ("enabled", VBool true)]%string.
Definition sample_manifest : value :=
  VDict [("listeners", VList [sample_listener "xray" "tcp" "port" (VInt 443); sample_listener "hysteria" "UDP" "port" (VStr " 443 ");
            sample_listener "hop" "udp" "range" (VStr "400-500")]);
         ("allowlist", VList [VDict [("protocol", VStr "udp"); ("port", VInt 443)]])]%string.
Definition sample_listeners : list listener :=
  [Listener "xray" "tcp" "public listener" (Exact 443); Listener "hysteria" "udp" "public listener" (Exact 443);
   Listener "hop" "udp" "public listener" (Range 400 500)]%string.

Lemma collisions_exact_witness :
  parse_manifest (fun _ => None) (fun _ => "") sample_manifest = Ok (["udp/443"%string], sample_listeners) /\
  check (fun _ => None) (fun _ => "") sample_manifest = Ok [] /\
  ForallOrdPairs (fun a b => overlap a b -> label a ∈ ["udp/443"%string] \/ label b ∈ ["udp/443"%string]) sample_listeners.
Proof.
  assert (parse_manifest (fun _ => None) (fun _ => "") sample_manifest = Ok (["udp/443"%string], sample_listeners)) as Hp
    by (vm_compute; reflexivity).
  assert (check (fun _ => None) (fun _ => "") sample_manifest = Ok []) as Hc by (vm_compute; reflexivity).
  split; [exact Hp|]. split; [exact Hc|].
  exact (proj1 (collisions_exact (fun _ => None) (fun _ => "") sample_manifest ["udp/443"%string] sample_listeners Hp) Hc).
Defined.

(** A manifest entry that is not an object, and a port that JSON calls Infinity,
    are refused by exceptions [main] does not catch. *)
Example entry_not_object :
  check (fun _ => None) (fun _ => "") (VDict [("listeners", VList [VInt 1])])%string = Raise (Exn AttributeError "get").
Proof. reflexivity. Qed.
Example infinite_port :
  check (fun _ => None) (fun _ => "")
    (VDict [("listeners", VList [sample_listener "xray" "tcp" "port" (VFloat (FInf false))])])%string
  = Raise (Exn OverflowError "infinity").
Proof. vm_compute. reflexivity. Qed.
