(* ===== verification/WatchdogBudget.v ===== *)
(** * The recovery budget of the watchdog

    [roles/watchdog/files/vpn-watchdog-state.py]: the counters that bound how often
    the watchdog restarts services and sends alerts.  [validate] is the typed text,
    [operate] reads it, or publishes a new one, in a directory that others may be
    able to write near.

    The directory is the pair of names the program uses, as processes see it and as
    it was last synchronised; the bytes of a file survive a power loss only once the
    file was synchronised.  Every system call may fail before or after its effect,
    and the power may fail before it. *)

From S2P Require Import Prelude PyValue PyStr IPAddr.
#[local] Open Scope string_scope.
#[local] Open Scope Z_scope.

(** ** The text *)

Definition KEYS : list string :=
  ["consecutive_fails"; "last_alert_epoch"; "alerts_this_hour"; "alerts_hour_started"; "kicks_this_hour"; "kicks_hour_started"].
Definition equals : ascii := "="%char.

(** [isascii], [isdecimal] and the bound on the length *)
Definition value_ok (v : list ascii) : bool :=
  negb (bool_decide (v = [])) && forallb is_digit v && (length v <=? 12)%nat.
Definition line_step (values : list (string * list ascii)) (line : list ascii) : res (list (string * list ascii)) :=
  let '(key, separator, value) := partition_chars equals line in
  let key := of_chars key in
  raise_if (negb separator || negb (mem key KEYS) || has_key key values || negb (value_ok value)) (Exn ValueError "invalid budget") ;;;
  Ok (dset key value values).
Definition line_of (key : string) (n : Z) : list ascii := (chars key ++ equals :: dec_chars n ++ [LF])%list.
Definition budget_value (values : list (string * list ascii)) (key : string) : Z := digits_val 10 (default [] (dget key values)).
(** [validate] *)
Definition validate (content : string) : res string :=
  let* values := foldM_res line_step (splitlines content) [] in
  raise_if (negb (same_set (keys values) KEYS)) (Exn ValueError "incomplete budget") ;;;
  Ok (of_chars (mjoin ((fun key => line_of key (budget_value values key)) <$> KEYS))).

Example validate_sorts : validate (of_chars (mjoin ((fun k => chars k ++ chars "=007" ++ [CR; LF]) <$> rev KEYS))%list)
  = Ok (of_chars (mjoin ((fun k => line_of k 7) <$> KEYS))).
Proof. by vm_compute. Qed.

(** Text mode: line ends become LF; [read(n)] counts characters. *)
Fixpoint universal (l : list ascii) : list ascii :=
  match l with
  | [] => []
  | c :: l1 =>
      if bool_decide (c = CR) then LF :: (match l1 with d :: l2 => if bool_decide (d = LF) then universal l2 else universal l1 | [] => [] end)
      else c :: universal l1
  end.
Fixpoint take_points (n : nat) (l : list ascii) : list ascii :=
  match l with
  | [] => []
  | c :: l => if is_cont c then c :: take_points n l else match n with O => [] | S n => c :: take_points n l end
  end.
Definition read_text (s : string) : string := of_chars (take_points 4097 (universal (chars s))).

(** ** Directory and files *)

(** [f_text] is [None] if reading the bytes does not give text. *)
Record file := File { f_symlink : bool; f_regular : bool; f_nlink : Z; f_uid : Z; f_mode : Z; f_text : option string; f_synced : bool }.
Record names := Names { budget : option file; candidate : option file }.
Record world := World { vol : names; dur : names; w_off : bool; w_tick : nat; w_out : option string }.

Inductive outcome := Fine | Before | After | Power (new_budget new_candidate : bool).
Inductive operation := Read | Write.

Definition crash_file (f : file) : file :=
  if f_synced f then f else File (f_symlink f) (f_regular f) (f_nlink f) (f_uid f) (f_mode f) None false.
Definition survivor (nb nc : bool) (w : world) : names :=
  Names (crash_file <$> budget (if nb then vol w else dur w)) (crash_file <$> candidate (if nc then vol w else dur w)).
Definition power_loss (nb nc : bool) (w : world) : world :=
  World (survivor nb nc w) (survivor nb nc w) true (w_tick w) (w_out w).
Definition power_failure : exn := Exn SystemExit "power".
Definition os_error (m : string) : exn := Exn OSError m.

Definition on_vol (f : names -> names) (w : world) : world := World (f (vol w)) (dur w) (w_off w) (w_tick w) (w_out w).
Definition set_text (t : string) (f : file) : file := File (f_symlink f) (f_regular f) (f_nlink f) (f_uid f) (f_mode f) (Some t) false.
Definition set_mode (m : Z) (f : file) : file := File (f_symlink f) (f_regular f) (f_nlink f) (f_uid f) m (f_text f) (f_synced f).
Definition set_synced (f : file) : file := File (f_symlink f) (f_regular f) (f_nlink f) (f_uid f) (f_mode f) (f_text f) true.

(** [os.fchmod] and [os.fsync] of the budget, [os.fsync] of the directory *)
Definition chmod_budget : world -> world := on_vol (fun n => Names (set_mode 384 <$> budget n) (candidate n)).
Definition sync_budget : world -> world := on_vol (fun n => Names (set_synced <$> budget n) (candidate n)).
Definition sync_directory (w : world) : world := World (vol w) (vol w) (w_off w) (w_tick w) (w_out w).
(** The candidate: [os.open] with O_EXCL, the write, [os.fsync], [os.replace], [os.unlink] *)
Definition create (euid : Z) : world -> world := on_vol (fun n => Names (budget n) (Some (File false true 1 euid 384 (Some "") false))).
Definition write_candidate (t : string) : world -> world := on_vol (fun n => Names (budget n) (set_text t <$> candidate n)).
Definition sync_candidate : world -> world := on_vol (fun n => Names (budget n) (set_synced <$> candidate n)).
Definition replace : world -> world := on_vol (fun n => Names (candidate n) None).
Definition unlink : world -> world := on_vol (fun n => Names (budget n) None).

Section Operate.
(** The effective user, the directory at a path (owner and mode; [None] if it
    cannot be opened without following links), whether nobody holds the lock, the
    text on the standard input, what becomes of each system call, and whether the
    candidate's name has been taken over. *)
Context (euid : Z) (directory : list string -> option (Z * Z)) (lock_free : bool) (stdin : option string).
Context (or_call : nat -> outcome) (or_foreign : nat -> bool).
Notation io := (eff world).

Definition bump (w : world) : world := World (vol w) (dur w) (w_off w) (S (w_tick w)) (w_out w).
Definition call (f : world -> world) : io unit := fun w =>
  if w_off w then (Raise power_failure, w) else
  match or_call (w_tick w) with
  | Fine => (Ok tt, f (bump w))
  | Before => (Raise (os_error "call"), bump w)
  | After => (Raise (os_error "call"), f (bump w))
  | Power nb nc => (Raise power_failure, power_loss nb nc (bump w))
  end.
Definition stat : io unit := call id.
Definition foreign : io bool := stat ;; w ← eff_get; mret (or_foreign (w_tick w)).
(** [try: m finally: c], where an exception of [c] wins. *)
Definition with_cleanup {A} (m : io A) (c : io unit) : io A := fun w =>
  let '(r, w1) := m w in match c w1 with (Raise e, w2) => (Raise e, w2) | (Ok _, w2) => (r, w2) end.

(** [budget_directory] *)
Definition unsafe_ancestor (d : Z * Z) : bool :=
  negb ((d.1 =? 0) || (d.1 =? euid)) || (negb (Z.land d.2 18 =? 0) && negb ((d.1 =? 0) && negb (Z.land d.2 512 =? 0))).
Fixpoint walk (path : list string) (parts : list string) : res (Z * Z) :=
  let* here := of_option (directory path) (os_error "open") in
  match parts with
  | [] => Ok here
  | name :: parts => raise_if (unsafe_ancestor here) (os_error "unsafe budget ancestry") ;;; walk (path ++ [name])%list parts
  end.
Definition budget_directory (parts : list string) : res unit :=
  let* parent := walk [] parts in
  raise_if (negb (parent.1 =? euid) || negb (Z.land parent.2 18 =? 0)) (os_error "unsafe budget directory") ;;;
  raise_if (negb lock_free) (os_error "lock").

Definition unsafe_file (f : file) : bool :=
  negb (f_regular f) || negb (f_nlink f =? 1) || negb (f_uid f =? euid) || negb ((f_mode f =? 384) || (f_mode f =? 416)).
(** The current budget, if there is one. *)
Definition load_budget : io (option string) :=
  stat ;; w ← eff_get;
  match budget (vol w) with
  | None => mret None
  | Some f =>
      eff_lift (raise_if (f_symlink f) (os_error "loop")) ;;
      eff_lift (raise_if (unsafe_file f) (os_error "unsafe budget file")) ;;
      stat ;; text ← eff_lift (of_option (f_text f) (Exn UnicodeError "decode"));
      content ← eff_lift (validate (read_text text));
      (if f_mode f =? 416 then call chmod_budget ;; call sync_budget ;; call sync_directory else mret tt) ;;
      mret (Some content)
  end.

Definition cleanup : io unit :=
  b ← foreign; w ← eff_get;
  match candidate (vol w) with
  | None => mret tt
  | Some _ => eff_lift (raise_if b (os_error "foreign budget candidate")) ;; call unlink
  end.
Definition publish (t : string) : io unit :=
  call (create euid) ;; stat ;;
  with_cleanup
    (stat ;; call (write_candidate t) ;; call sync_candidate ;;
     b ← foreign; eff_lift (raise_if b (os_error "foreign budget candidate")) ;;
     call replace ;; call sync_directory) cleanup.

(** [operate] and [main] *)
Definition path_parts (path : string) : list string := filter (fun p => negb (mem p [""; "."])) (split "/" path).
Definition operate (path : string) (op : operation) : io unit :=
  eff_lift (raise_if (negb (startswith path "/") || mem ".." (path_parts path)) (os_error "unsafe budget path")) ;;
  eff_lift (budget_directory (removelast (path_parts path))) ;;
  content ← load_budget;
  match op with
  | Read => eff_modify (fun w => World (vol w) (dur w) (w_off w) (w_tick w) content)
  | Write =>
      text ← eff_lift (of_option stdin (Exn UnicodeError "decode"));
      t ← eff_lift (validate (read_text text));
      publish t
  end.
Definition main (path : string) (op : operation) : io Z :=
  eff_try (operate path op ;; mret 0) [OSError; ValueError] (fun _ => mret 2).
End Operate.

(** ** What [validate] accepts *)

(** The text of the counters, and the values a text may write for them. *)
Definition render (counters : list Z) : string := of_chars (mjoin (zip_with line_of KEYS counters)).
Definition line_text (kv : string * list ascii) : list ascii := (chars kv.1 ++ equals :: kv.2)%list.

Lemma partition_found c l k v : partition_chars c l = (k, true, v) -> l = (k ++ c :: v)%list.
Proof.
  revert k. induction l as [|d l IH]; intros k; [done|]. cbn [partition_chars]. destruct (decide (d = c)) as [->|]; [by intros [= <- <-]|].
  destruct (partition_chars c l) as [[h b] t]. intros [= <- -> ->]. by rewrite (IH h).
Qed.
Lemma partition_app c k v : c ∉ k -> partition_chars c (k ++ c :: v)%list = (k, true, v).
Proof.
  induction k as [|d k IH]; cbn [app partition_chars]; [by rewrite decide_True|].
  intros [Hd Hk]%not_elem_of_cons. by rewrite decide_False, IH by done.
Qed.

Lemma keys_no_equals k : k ∈ KEYS -> equals ∉ chars k.
Proof.
  assert (Forall (fun k => equals ∉ chars k) KEYS) as H by (apply (bool_decide_unpack _); by vm_compute).
  exact (proj1 (Forall_forall _ _) H k).
Qed.

Record values_ok (values : list (string * list ascii)) : Prop := {
  vo_nodup : NoDup (keys values);
  vo_keys : forall k v, (k, v) ∈ values -> k ∈ KEYS /\ value_ok v = true }.

Lemma line_step_Ok values line values' :
  line_step values line = Ok values' <->
  exists k v, line = line_text (k, v) /\ values' = (values ++ [(k, v)])%list /\ k ∈ KEYS /\ k ∉ keys values /\ value_ok v = true.
Proof.
  unfold line_step. split.
  - destruct (partition_chars equals line) as [[key sep] v] eqn:Hp. rewrite raise_if_seq_Ok.
    rewrite !orb_false_iff, !negb_false_iff. intros [[[[-> Hk] Hn] Hv] [= <-]]. apply mem_true in Hk. apply mem_false in Hn.
    apply partition_found in Hp as ->. exists (of_chars key), v. unfold line_text. cbn [fst snd]. rewrite chars_of_chars.
    split; [done|]. by rewrite dset_fresh.
  - intros (k & v & -> & -> & Hk & Hn & Hv). unfold line_text. cbn [fst snd].
    rewrite partition_app by by apply keys_no_equals. rewrite of_chars_chars, raise_if_seq_Ok, dset_fresh by done. split; [|done].
    apply mem_true in Hk as ->. apply mem_false in Hn. unfold has_key. rewrite Hn, Hv. done.
Qed.

Lemma values_ok_snoc values k v : values_ok (values ++ [(k, v)]) <-> values_ok values /\ k ∉ keys values /\ k ∈ KEYS /\ value_ok v = true.
Proof.
  assert (Hk : keys (values ++ [(k, v)]) = (keys values ++ [k])%list) by (unfold keys; by rewrite fmap_app).
  split.
  - intros [Hn Hv]. rewrite Hk in Hn. apply NoDup_app in Hn as (Hn & Hd & _). split; [split; [done|]|].
    + intros k' v' Hin. apply Hv, elem_of_app. by left.
    + split; [intros Hin; by apply (Hd k Hin), list_elem_of_singleton|]. apply Hv, elem_of_app. right. by apply list_elem_of_singleton.
  - intros ([Hn Hv] & Hd & Hin & Hok). split.
    + rewrite Hk. apply NoDup_app. split; [done|]. split; [|by apply NoDup_singleton]. by intros x Hx ->%list_elem_of_singleton.
    + intros k' v' [H|[= -> ->]%list_elem_of_singleton]%elem_of_app; auto.
Qed.

(** The fold over the lines is their reading as a dictionary. *)
Lemma lines_Ok lines acc values : values_ok acc ->
  foldM_res line_step lines acc = Ok values <->
  exists more, values = (acc ++ more)%list /\ lines = line_text <$> more /\ values_ok values.
Proof.
  revert acc. induction lines as [|line lines IH]; intros acc Hacc; cbn [foldM_res].
  - split; [intros [= <-]; exists []; by rewrite app_nil_r|]. intros (more & -> & Hm & _). symmetry in Hm. apply fmap_nil_inv in Hm as ->. by rewrite app_nil_r.
  - rewrite res_bind_Ok. split.
    + intros (acc' & Hs & Hf). apply line_step_Ok in Hs as (k & v & -> & -> & Hk & Hn & Hv).
      apply IH in Hf as (more & -> & -> & Hok); [|by apply values_ok_snoc]. exists ((k, v) :: more). by rewrite <- app_assoc in *.
    + intros (more & -> & Hl & Hok). destruct more as [|[k v] more]; [done|]. cbn in Hl. injection Hl as -> ->.
      assert (values_ok (acc ++ [(k, v)])) as Hsnoc.
      { destruct Hok as [Hn Hv]. split; [|intros k' v' Hin; apply Hv, elem_of_app; apply elem_of_app in Hin as [? | ->%list_elem_of_singleton]; [by left|right; by left]].
        unfold keys in *. rewrite fmap_app in *. cbn in *. rewrite cons_middle, app_assoc in Hn. by apply NoDup_app in Hn as (? & _). }
      exists (acc ++ [(k, v)])%list. split; [apply line_step_Ok; exists k, v; apply values_ok_snoc in Hsnoc as (_ & ? & ? & ?); done|].
      apply IH; [done|]. exists more. by rewrite <- app_assoc.
Qed.

Lemma KEYS_nodup : NoDup KEYS.
Proof. apply (bool_decide_unpack _). by vm_compute. Qed.

Lemma keys_zip (ds : list (list ascii)) : length ds = 6%nat -> keys (zip KEYS ds) = KEYS.
Proof. intros H. unfold keys. rewrite fst_zip; [done|]. rewrite H. cbn. lia. Qed.

(** The values in the order of [KEYS]. *)
Lemma values_by_key (values : list (string * list ascii)) : NoDup (keys values) -> (forall k, k ∈ keys values <-> k ∈ KEYS) ->
  values ≡ₚ zip KEYS ((fun k => default [] (dget k values)) <$> KEYS).
Proof.
  intros Hn Hk. rewrite zip_with_fmap_r, zip_with_diag. apply NoDup_Permutation; [by eapply NoDup_fmap_1| |].
  - apply (NoDup_fmap_1 fst). rewrite <- list_fmap_compose. cbn. apply KEYS_nodup.
  - intros [k v]. rewrite list_elem_of_fmap. split.
    + intros Hin. exists k. rewrite (dget_nodup _ _ _ Hn Hin). split; [done|]. apply Hk, dget_is_Some. exists v. by apply dget_nodup.
    + intros (k' & [= -> ->] & Hin). apply Hk, dget_is_Some in Hin as [w Hw]. rewrite Hw. by apply dget_Some_elem.
Qed.

Lemma render_values values ds : NoDup (keys values) -> length ds = 6%nat -> values ≡ₚ zip KEYS ds ->
  of_chars (mjoin ((fun key => line_of key (budget_value values key)) <$> KEYS)) = render (digits_val 10 <$> ds).
Proof.
  intros Hn Hl Hp. unfold render. do 2 f_equal. rewrite zip_with_fmap_r. apply list_eq_same_length with (n := 6%nat);
    [by rewrite length_zip_with, Hl|by rewrite length_fmap|].
  intros i x y Hi (k & -> & Hx)%list_lookup_fmap_Some (k' & d & -> & Hk' & Hd)%lookup_zip_with_Some.
  assert (k' = k) as -> by congruence. f_equal. unfold budget_value.
  rewrite (dget_nodup k d values Hn); [done|]. rewrite Hp. apply elem_of_lookup_zip_with. by exists i, k, d.
Qed.

Definition digits_list (ds : list (list ascii)) : Prop := length ds = 6%nat /\ Forall (fun d => value_ok d = true) ds.

Lemma zip_values_ok values ds : digits_list ds -> values ≡ₚ zip KEYS ds -> values_ok values.
Proof.
  intros [Hl Hd] Hp. split.
  - unfold keys. rewrite Hp. fold (keys (zip KEYS ds)). rewrite keys_zip by done. apply KEYS_nodup.
  - intros k v. rewrite Hp. intros Hin. split; [by eapply elem_of_zip_l|]. rewrite Forall_forall in Hd. by eapply Hd, elem_of_zip_r.
Qed.

Lemma budget_text s t :
  validate s = Ok t <->
  exists ds, digits_list ds /\ splitlines s ≡ₚ line_text <$> zip KEYS ds /\ t = render (digits_val 10 <$> ds).
Proof.
  unfold validate. rewrite res_bind_Ok. split.
  - intros (values & Hf & H). apply raise_if_seq_Ok in H as [Hs%negb_false_iff [= <-]]. rewrite same_set_true in Hs.
    apply lines_Ok in Hf as (more & -> & -> & Hn & Hv); [|split; [constructor|by intros k v ?%not_elem_of_nil]]. cbn [app] in *.
    pose proof (values_by_key more Hn Hs) as Hp. eexists. split; [|split; [by rewrite <- Hp|by apply render_values]].
    split; [by rewrite length_fmap|]. apply Forall_fmap, Forall_forall. intros k [v Hg]%Hs%dget_is_Some. cbn. rewrite Hg. by eapply Hv, dget_Some_elem.
  - intros (ds & Hds & Hp & ->). apply Permutation_map_inv in Hp as (values & Hl & Hp). symmetry in Hp.
    assert (values_ok values) as Hok by (by eapply zip_values_ok). exists values. split.
    + apply lines_Ok; [split; [constructor|by intros k v ?%not_elem_of_nil]|]. by exists values.
    + apply raise_if_seq_Ok. rewrite negb_false_iff, same_set_true. split.
      * intros k. unfold keys. rewrite Hp. fold (keys (zip KEYS ds)). by rewrite keys_zip by apply Hds.
      * f_equal. apply render_values; [apply Hok|apply Hds|done].
Qed.

(** ** The canonical text is read back *)

Lemma splitlines_line line rest acc : Forall (fun c => between 32 126 c = true) line ->
  splitlines_from acc (line ++ LF :: rest) = ((acc ++ line) :: splitlines_from [] rest)%list.
Proof.
  revert acc. induction line as [|c line IH]; intros acc H; [by rewrite app_nil_r|]. apply Forall_cons in H as [Hc H].
  assert (is_break c = false /\ c <> CR /\ ord c <> 194 /\ ord c <> 226) as (Hb & Hr & H1 & H2).
  { unfold between in Hc. apply andb_true_iff in Hc as [? ?]. unfold is_break, between. assert (ord CR = 13) by done.
    split; [lia|]. split; [intros ->; lia|]. split; lia. }
  specialize (IH (acc ++ [c])%list H). rewrite <- app_assoc in IH. cbn [app] in IH |- *.
  cbn [splitlines_from]. rewrite Hb, (bool_decide_eq_false_2 (c = CR)) by done. cbn [andb].
  destruct (line ++ LF :: rest)%list as [|d l2] eqn:Hl; [by destruct line|].
  rewrite (bool_decide_eq_false_2 (_ = [194; _])) by (intros [=]; lia).
  destruct l2 as [|e l3]; [done|]. by rewrite (bool_decide_eq_false_2 (_ = [226; _])) by (intros [=]; lia).
Qed.

Definition counters_ok (counters : list Z) : Prop := length counters = 6%nat /\ Forall (fun n => 0 <= n < 10 ^ 12) counters.

Lemma dec_chars_ok n : 0 <= n < 10 ^ 12 -> value_ok (dec_chars n) = true.
Proof.
  intros Hn. unfold value_ok. rewrite bool_decide_eq_false_2 by apply dec_chars_nonempty.
  rewrite (proj2 (forallb_true _ _)) by (apply dec_chars_digits; lia).
  apply Nat.leb_le. unfold dec_chars. apply to_digits_length; lia.
Qed.

Definition plain_line (line : list ascii) : Prop := Forall (fun c => between 32 126 c = true) line.

Lemma splitlines_lines lines : Forall plain_line lines -> splitlines (of_chars (mjoin ((fun l => l ++ [LF]) <$> lines)%list)) = lines.
Proof.
  unfold splitlines. rewrite chars_of_chars. induction 1 as [|l lines Hl _ IH]; [done|].
  cbn [fmap list_fmap mjoin list_join]. rewrite <- app_assoc. cbn [app]. rewrite splitlines_line by done. by f_equal.
Qed.

Lemma plain_text kv : kv.1 ∈ KEYS -> value_ok kv.2 = true -> plain_line (line_text kv).
Proof.
  intros Hk Hv. apply Forall_app. split.
  - assert (Forall (fun k => Forall (fun c => between 32 126 c = true) (chars k)) KEYS) as H by (apply (bool_decide_unpack _); by vm_compute).
    exact (proj1 (Forall_forall _ _) H _ Hk).
  - apply Forall_cons. split; [done|]. unfold value_ok in Hv. apply andb_true_iff in Hv as [[_ Hv]%andb_true_iff _].
    apply forallb_true in Hv. eapply Forall_impl; [exact Hv|]. cbn. unfold is_digit, between. intros c Hc. lia.
Qed.

Lemma lines_of_text ks counters :
  zip_with line_of ks counters = (fun l => l ++ [LF])%list <$> (line_text <$> zip ks (dec_chars <$> counters)).
Proof.
  revert counters. induction ks as [|k ks IH]; intros [|n counters]; [done..|]. cbn. unfold line_of, line_text at 1. cbn.
  rewrite IH. by rewrite <- app_assoc.
Qed.

Lemma dec_digits counters : counters_ok counters -> digits_list (dec_chars <$> counters).
Proof.
  intros [Hl Hc]. split; [by rewrite length_fmap|]. apply Forall_fmap. eapply Forall_impl; [exact Hc|]. intros n Hn. by apply dec_chars_ok.
Qed.
Lemma render_plain counters : counters_ok counters -> Forall plain_line (line_text <$> zip KEYS (dec_chars <$> counters)).
Proof.
  intros [_ Hv]%dec_digits. rewrite Forall_forall in Hv. apply Forall_fmap, Forall_forall. intros [k d] Hin.
  apply plain_text; cbn; [by eapply elem_of_zip_l|by eapply Hv, elem_of_zip_r].
Qed.

Lemma render_validates counters : counters_ok counters -> validate (render counters) = Ok (render counters).
Proof.
  intros Hc. apply budget_text. exists (dec_chars <$> counters). split; [by apply dec_digits|]. split.
  - unfold render. rewrite lines_of_text, splitlines_lines; [done|by apply render_plain].
  - f_equal. rewrite <- list_fmap_compose. symmetry. rewrite <- (list_fmap_id counters) at 2. apply list_fmap_ext. intros i n Hi. cbn.
    apply dec_chars_val. eapply Forall_lookup_1 in Hi; [|apply Hc]. cbn in Hi. lia.
Qed.

Lemma digits_counters ds : digits_list ds -> counters_ok (digits_val 10 <$> ds).
Proof.
  intros [Hl Hd]. split; [by rewrite length_fmap|]. apply Forall_fmap. eapply Forall_impl; [exact Hd|]. intros d Hv. cbn.
  unfold value_ok in Hv. apply andb_true_iff in Hv as [[_ Hv]%andb_true_iff Hlen%Nat.leb_le]. apply forallb_true in Hv.
  split; [by apply digits_val_nonneg|]. eapply Z.lt_le_trans; [apply digits_val_lt; [lia|]|apply Z.pow_le_mono_r; lia].
  eapply Forall_impl; [exact Hv|]. apply digit_val_digit.
Qed.

(** What [validate] returns is a text it accepts as it is. *)
Lemma validate_canonical s t : validate s = Ok t -> exists counters, counters_ok counters /\ t = render counters /\ validate t = Ok t.
Proof.
  intros (ds & Hds & _ & ->)%budget_text. exists (digits_val 10 <$> ds). split; [by apply digits_counters|]. split; [done|].
  by apply render_validates, digits_counters.
Qed.

(** C19: The text of a budget is read exactly: [validate] accepts a text precisely if
    its lines are, in any order, one line for each of the six counters, with one to
    twelve ASCII digits each; and what it returns is the same six numbers in the
    fixed order, without leading zeros. *)
Theorem budget_text_iff s t :
  validate s = Ok t <->
  exists ds, digits_list ds /\ splitlines s ≡ₚ line_text <$> zip KEYS ds /\ t = render (digits_val 10 <$> ds).
Proof. apply budget_text. Qed.

(** ** Publication is atomic *)

Section Atomic.
Context (euid : Z) (directory : list string -> option (Z * Z)) (lock_free : bool) (stdin : option string).
Context (or_call : nat -> outcome) (or_foreign : nat -> bool).
Notation io := (eff world).
Notation call := (call or_call).
Notation load_budget := (load_budget euid or_call).
Notation publish := (publish euid or_call or_foreign).
Notation operate := (operate euid directory lock_free stdin or_call or_foreign).

(** A budget that [load_budget] admits, with its bytes on disk. *)
Definition good (f : file) : Prop := f_symlink f = false /\ unsafe_file euid f = false /\ f_synced f = true.
(** There is no budget, or a good one, and the predicate holds of its text. *)
Definition budget_in (B : option string -> Prop) (n : names) : Prop :=
  match budget n with
  | None => B None
  | Some f => good f /\ exists t, f_text f = Some t /\ B (Some t)
  end.
Definition both_in (B : option string -> Prop) (w : world) : Prop := budget_in B (vol w) /\ budget_in B (dur w).

Lemma both_in_mono (B B' : option string -> Prop) w : (forall b, B b -> B' b) -> both_in B w -> both_in B' w.
Proof. unfold both_in, budget_in. intros HB [H1 H2]. split; [destruct (budget (vol w))|destruct (budget (dur w))]; naive_solver. Qed.

Lemma good_text f : good f -> crash_file f = f.
Proof. intros (_ & _ & H). unfold crash_file. by rewrite H. Qed.

Lemma both_in_power B nb nc w : both_in B w -> both_in B (power_loss nb nc w).
Proof.
  intros [H1 H2]. assert (budget_in B (survivor nb nc w)) as H by
    (unfold budget_in, survivor in *; cbn; destruct nb;
      [destruct (budget (vol w)) as [f|]|destruct (budget (dur w)) as [f|]]; cbn; [|done| |done]; by rewrite good_text by naive_solver).
  by split.
Qed.

(** What a step keeps however it ends, and what it establishes if it returns. *)
Section Steps.
Context (B : option string -> Prop).
Definition step {A} (P : world -> Prop) (c : io A) (Q : A -> world -> Prop) : Prop :=
  holds (fun w => both_in B w /\ P w) c (fun r w => both_in B w /\ forall a, r = Ok a -> Q a w).

Lemma step_bind {A C} P (c : io A) (k : A -> io C) R Q : step P c R -> (forall a, step (R a) (k a) Q) -> step P (c ≫= k) Q.
Proof.
  intros Hc Hk. eapply (holds_bind _ _ _ (fun a w => both_in B w /\ R a w)); [|exact Hk].
  intros w Hw. specialize (Hc w Hw). destruct (c w) as [[a|e] w1]; cbn in *; [by destruct Hc; auto|]. destruct Hc. by split.
Qed.
Lemma step_lift {A} (P : world -> Prop) (r : res A) Q : (forall a w, r = Ok a -> P w -> Q a w) -> step P (eff_lift r) Q.
Proof. intros H w [Hw HP]. split; [done|]. intros a Ha. by apply (H a w). Qed.
Lemma step_conseq {A} (P P' : world -> Prop) (c : io A) (Q Q' : A -> world -> Prop) :
  step P c Q -> (forall w, P' w -> P w) -> (forall a w, Q a w -> Q' a w) -> step P' c Q'.
Proof. intros Hc HP HQ w [Hw Hp]. destruct (Hc w (conj Hw (HP _ Hp))) as [? Hq]. split; [done|]. intros a Ha. by apply HQ, Hq. Qed.

Lemma step_call (P : world -> Prop) f (Q : unit -> world -> Prop) :
  (forall w, both_in B w -> P w -> both_in B (f (bump w)) /\ Q tt (f (bump w))) -> step P (call f) Q.
Proof.
  intros H w [Hw HP]. unfold WatchdogBudget.call. destruct (w_off w); [by split|]. specialize (H w Hw HP).
  destruct (or_call (w_tick w)); cbn.
  - split; [apply H|]. intros [] _. apply H.
  - split; [exact Hw|done].
  - split; [apply H|done].
  - split; [by apply both_in_power|done].
Qed.
Lemma step_stat (P : names -> names -> Prop) : step (fun w => P (vol w) (dur w)) (stat or_call) (fun _ w => P (vol w) (dur w)).
Proof. by apply step_call. Qed.
Lemma step_foreign (P : names -> names -> Prop) : step (fun w => P (vol w) (dur w)) (foreign or_call or_foreign) (fun _ w => P (vol w) (dur w)).
Proof. eapply step_bind; [apply step_stat|]. intros [] w [Hw HP]. split; [done|]. by intros b [= <-]. Qed.

Lemma both_in_vol f w : (forall n, budget_in B n -> budget_in B (f n)) -> both_in B w -> both_in B (on_vol f w).
Proof. intros H [H1 H2]. split; [by apply H|done]. Qed.

Lemma step_get {C} (P : world -> Prop) (k : world -> io C) Q :
  (forall w0, both_in B w0 -> P w0 -> step (fun w => w = w0) (k w0) Q) -> step P (eff_get ≫= k) Q.
Proof. intros H w [Hw HP]. exact (H w Hw HP w (conj Hw eq_refl)). Qed.
Lemma step_ret {A} (P : world -> Prop) (a : A) (Q : A -> world -> Prop) : (forall w, P w -> Q a w) -> step P (mret a) Q.
Proof. intros H w [Hw HP]. split; [done|]. intros a' [= <-]. by apply H. Qed.

Definition text_of (n : names) : option (option string) := f_text <$> budget n.
(** What the content is the reading of. *)
Definition reads (content : option string) (n : names) : Prop :=
  match content with
  | None => budget n = None
  | Some c => exists t, text_of n = Some (Some t) /\ validate (read_text t) = Ok c
  end.

Lemma budget_map_step g x : (forall f, good f -> good (g f)) -> (forall f, f_text (g f) = f_text f) ->
  step (fun w => text_of (vol w) = x) (call (on_vol (fun n => Names (g <$> budget n) (candidate n)))) (fun _ w => text_of (vol w) = x).
Proof.
  intros Hg Ht. apply step_call. intros w Hw Hx. split.
  - apply both_in_vol; [|done]. intros n. unfold budget_in. cbn. destruct (budget n) as [f|]; [|done]. cbn. intros [Hf (t & Hft & HB)].
    split; [by apply Hg|]. exists t. by rewrite Ht.
  - rewrite <- Hx. unfold text_of. cbn. destruct (budget (vol w)); cbn; by rewrite ?Ht.
Qed.

Lemma good_set_mode f : good f -> good (set_mode 384 f).
Proof. intros (H1 & H2 & H3). split; [done|]. split; [|done]. unfold unsafe_file in *. cbn. by apply orb_false_iff in H2 as [-> _]. Qed.
Lemma good_set_synced f : good f -> good (set_synced f).
Proof. by intros (H1 & H2 & _). Qed.

Lemma retire_step x : step (fun w => text_of (vol w) = x) (call chmod_budget ;; call sync_budget ;; call sync_directory) (fun _ w => text_of (vol w) = x).
Proof.
  eapply step_bind; [apply budget_map_step; [apply good_set_mode|done]|intros []].
  eapply step_bind; [apply budget_map_step; [apply good_set_synced|done]|intros []].
  apply step_call. intros w Hw Hx. split; [|exact Hx]. split; apply Hw.
Qed.

Lemma load_budget_step x :
  step (fun w => text_of (vol w) = x) load_budget (fun content w => text_of (vol w) = x /\ reads content (vol w)).
Proof.
  unfold WatchdogBudget.load_budget. eapply step_bind; [apply (step_stat (fun n _ => text_of n = x))|]. intros []. apply step_get. intros w0 Hw0 Hx.
  destruct (budget (vol w0)) as [f|] eqn:Hf; [|apply step_ret; intros w ->; split; [exact Hx|exact Hf]].
  eapply step_conseq with (P := fun w => text_of (vol w) = x); [|by intros w ->|by intros a w H; exact H].
  eapply step_bind; [apply step_lift; intros a w _ H; exact H|]. intros []. eapply step_bind; [apply step_lift; intros a w _ H; exact H|]. intros [].
  eapply step_bind; [apply (step_stat (fun n _ => text_of n = x))|]. intros [].
  eapply step_bind; [apply step_lift; intros t w Ht H; exact (conj Ht H)|]. intros t.
  eapply step_bind; [apply step_lift; intros c w Hc H; exact (conj Hc H)|]. intros c.
  eapply step_bind with (R := fun _ w => text_of (vol w) = x /\ f_text f = Some t /\ validate (read_text t) = Ok c).
  - intros w (Hw & Hc & Ht%of_option_Ok & HT). destruct (f_mode f =? 416).
    + destruct (retire_step x w (conj Hw HT)) as [? Hq]. split; [done|]. intros a Ha. by rewrite (Hq a Ha).
    + by split.
  - intros []. apply step_ret. intros w (HT & Ht & Hc). split; [done|]. exists t. split; [|done].
    rewrite HT, <- Hx. unfold text_of. rewrite Hf. cbn. by rewrite Ht.
Qed.

(** The candidate, empty and written, unsynchronised and synchronised. *)
Definition candidate_file (t : string) (synced : bool) : file := File false true 1 euid 384 (Some t) synced.
Lemma candidate_good t : good (candidate_file t true).
Proof. split; [done|]. split; [|done]. unfold unsafe_file. cbn. by rewrite Z.eqb_refl. Qed.

Lemma candidate_step g c c' :
  (forall n, budget (g n) = budget n) -> (forall n, candidate n = c -> candidate (g n) = c') ->
  step (fun w => candidate (vol w) = c) (call (on_vol g)) (fun _ w => candidate (vol w) = c').
Proof.
  intros Hb Hc. apply step_call. intros w Hw HP. split; [|by apply Hc]. apply both_in_vol; [|exact Hw].
  intros n. unfold budget_in. by rewrite Hb.
Qed.

(** The new text is the budget, also on disk, and the candidate is gone. *)
Definition published (t : string) (w : world) : Prop :=
  budget (vol w) = Some (candidate_file t true) /\ candidate (vol w) = None /\ budget (dur w) = Some (candidate_file t true).

Lemma body_step t : B (Some t) ->
  step (fun w => candidate (vol w) = Some (candidate_file "" false))
    (stat or_call ;; call (write_candidate t) ;; call sync_candidate ;;
     b ← foreign or_call or_foreign; eff_lift (raise_if b (os_error "foreign budget candidate")) ;;
     call replace ;; call sync_directory) (fun _ => published t).
Proof.
  intros HB. eapply step_bind; [apply (step_stat (fun n _ => candidate n = Some (candidate_file "" false)))|]. intros [].
  eapply step_bind; [apply (candidate_step _ (Some (candidate_file "" false)) (Some (candidate_file t false))); [done|by intros n Hn; cbn; rewrite Hn]|]. intros [].
  eapply step_bind; [apply (candidate_step _ (Some (candidate_file t false)) (Some (candidate_file t true))); [done|by intros n Hn; cbn; rewrite Hn]|]. intros [].
  eapply step_bind; [apply (step_foreign (fun n _ => candidate n = Some (candidate_file t true)))|]. intros b.
  eapply step_bind; [apply step_lift; intros a w _ H; exact H|]. intros [].
  eapply step_bind with (R := fun _ w => budget (vol w) = Some (candidate_file t true) /\ candidate (vol w) = None); [|intros []].
  - apply step_call. intros w Hw Hc. split; [|by split]. split; [|apply Hw]. unfold budget_in. cbn in *. rewrite Hc.
    split; [apply candidate_good|]. by exists t.
  - apply step_call. intros w Hw [Hb Hc]. split; [split; apply Hw|]. by split.
Qed.

Lemma cleanup_step : step (fun _ => True) (cleanup or_call or_foreign) (fun _ _ => True).
Proof.
  eapply step_bind; [apply (step_foreign (fun _ _ => True))|]. intros b. apply step_get. intros w0 _ _.
  eapply step_conseq with (P := fun _ => True); [|done|by intros a w H; exact H].
  destruct (candidate (vol w0)); [|by apply step_ret]. eapply step_bind; [apply step_lift; intros a w _ H; exact H|]. intros [].
  apply step_call. intros w Hw _. split; [|done]. by apply both_in_vol.
Qed.
Lemma cleanup_published t : step (published t) (cleanup or_call or_foreign) (fun _ => published t).
Proof.
  eapply step_bind; [apply (step_foreign (fun n m => budget n = Some (candidate_file t true) /\ candidate n = None /\ budget m = Some (candidate_file t true)))|].
  intros b. apply step_get. intros w0 _ (H1 & H2 & H3). rewrite H2. apply step_ret. by intros w ->.
Qed.

Lemma with_cleanup_step {A} P (m : io A) c (R : A -> world -> Prop) :
  step P m R -> step (fun _ => True) c (fun _ _ => True) -> (forall a, step (R a) c (fun _ => R a)) -> step P (with_cleanup m c) R.
Proof.
  intros Hm Hc HR w Hw. destruct (Hm w Hw) as [Hw1 H1]. unfold with_cleanup. destruct (m w) as [r w1]. cbn in *.
  destruct (Hc w1 (conj Hw1 I)) as [Hw2 _]. destruct (c w1) as [[u|e] w2] eqn:Hc1; cbn in *; [|by split].
  split; [done|]. intros a Ha. destruct (HR a w1 (conj Hw1 (H1 a Ha))) as [_ H2]. rewrite Hc1 in H2. by apply (H2 u).
Qed.

Lemma publish_step t : B (Some t) -> step (fun _ => True) (publish t) (fun _ => published t).
Proof.
  intros HB. eapply step_bind with (R := fun _ w => candidate (vol w) = Some (candidate_file "" false)).
  { apply step_call. intros w Hw _. split; [by apply both_in_vol|done]. }
  intros []. eapply step_bind; [apply (step_stat (fun n _ => candidate n = Some (candidate_file "" false)))|]. intros [].
  apply with_cleanup_step; [by apply body_step|apply cleanup_step|intros []; apply cleanup_published].
Qed.
End Steps.

(** What the budget may be after an operation: what it was, or, for a write, the
    canonical form of the input. *)
Definition new_text (t : string) : Prop := exists s, stdin = Some s /\ validate (read_text s) = Ok t.
Definition intended (B : option string -> Prop) (op : operation) (b : option string) : Prop :=
  B b \/ (op = Write /\ exists t, new_text t /\ b = Some t).
Definition result (x : option (option string)) (op : operation) (w : world) : Prop :=
  match op with
  | Read => text_of (vol w) = x /\ reads (w_out w) (vol w)
  | Write => exists t, new_text t /\ published t w
  end.

Lemma operate_step B path op x :
  step (intended B op) (fun w => text_of (vol w) = x) (operate path op) (fun _ => result x op).
Proof.
  unfold WatchdogBudget.operate. eapply step_bind; [apply step_lift; intros a w _ H; exact H|]. intros [].
  eapply step_bind; [apply step_lift; intros a w _ H; exact H|]. intros [].
  eapply step_bind; [apply load_budget_step|]. intros content. destruct op.
  - intros w [Hw H]. split; [exact Hw|]. intros [] _. exact H.
  - eapply step_bind; [apply step_lift; intros s w Hs _; exact Hs|]. intros s.
    eapply step_bind; [apply step_lift; intros t w Ht Hs; exact (conj Ht Hs)|]. intros t w [Hw [Ht Hs%of_option_Ok]].
    assert (new_text t) as Hnew by (by exists s). destruct (publish_step (intended B Write) t) with (s := w) as [H1 H2].
    + right. split; [done|]. by exists t.
    + by split.
    + split; [exact H1|]. intros a Ha. exists t. split; [done|]. by apply (H2 a).
Qed.

Lemma operate_run B path op w r w' :
  both_in B w -> operate path op w = (r, w') ->
  both_in (intended B op) w' /\ (r = Ok tt -> result (text_of (vol w)) op w').
Proof.
  intros Hw H. destruct (operate_step B path op (text_of (vol w)) w) as [H1 H2].
  - split; [|done]. eapply both_in_mono; [|exact Hw]. by left.
  - rewrite H in H1, H2. split; [exact H1|]. cbn in H2. intros ->. by apply (H2 tt).
Qed.

(** C18: Publishing a budget is atomic.  Whatever call fails, before or after its
    effect, and wherever the power is lost, the budget that processes see and the
    one on disk are each the old one or the canonical text of the input, in a file
    that the next run admits.  A write that returns has put the canonical text in
    place, also on disk, and left no candidate; a read that returns has printed the
    canonical text of the budget, and changed no text. *)
Theorem budget_atomic B path op w r w' :
  both_in B w -> operate path op w = (r, w') ->
  both_in (intended B op) w' /\ (r = Ok tt -> result (text_of (vol w)) op w').
Proof. apply operate_run. Qed.
End Atomic.

(** ** The budget stays readable *)

Lemma universal_id l : CR ∉ l -> universal l = l.
Proof.
  induction l as [|c l IH]; [done|]. intros [Hc Hl]%not_elem_of_cons. cbn [universal].
  rewrite bool_decide_eq_false_2 by (by intros ->). by rewrite IH.
Qed.
Lemma take_points_id n l : (length l <= n)%nat -> take_points n l = l.
Proof.
  revert n. induction l as [|c l IH]; intros n Hn; [done|]. cbn in *. destruct (is_cont c); [by rewrite IH by lia|].
  destruct n as [|n]; [lia|]. by rewrite IH by lia.
Qed.

Lemma lines_bounded ks counters : (forall k, k ∈ ks -> (length (chars k) <= 19)%nat) -> Forall (fun n => 0 <= n < 10 ^ 12) counters ->
  (length (mjoin (zip_with line_of ks counters)) <= 33 * length ks)%nat.
Proof.
  revert counters. induction ks as [|k ks IH]; intros [|n counters] Hk Hn; [cbn; lia..|].
  apply Forall_cons in Hn as [Hn Hns]. specialize (IH counters (fun k' H => Hk k' (list_elem_of_further _ _ _ H)) Hns).
  change (mjoin (zip_with line_of (k :: ks) (n :: counters))) with (line_of k n ++ mjoin (zip_with line_of ks counters))%list.
  assert (length (dec_chars n) <= 12)%nat by (apply to_digits_length; lia). specialize (Hk k (list_elem_of_here _ _)).
  rewrite length_app. unfold line_of at 1. rewrite length_app, length_cons, length_app, length_cons. cbn [length]. lia.
Qed.

Lemma render_read counters : counters_ok counters -> read_text (render counters) = render counters.
Proof.
  intros [Hl Hc]. unfold read_text, render. rewrite chars_of_chars, universal_id, take_points_id; [done| |].
  - etrans; [apply lines_bounded; [|exact Hc]|cbn; lia]. apply Forall_forall. apply (bool_decide_unpack _). by vm_compute.
  - rewrite lines_of_text. intros (line & Hc' & (l & -> & Hin)%list_elem_of_fmap)%list_elem_of_join.
    pose proof (proj1 (Forall_forall _ _) (render_plain counters (conj Hl Hc)) l Hin) as Hp.
    apply elem_of_app in Hc' as [Hc'|Hc'%list_elem_of_singleton]; [|by vm_compute in Hc'].
    by specialize (proj1 (Forall_forall _ _) Hp _ Hc').
Qed.

(** One run of the program after a boot, in whatever surroundings. *)
Definition reboot (w : world) : world := World (vol w) (dur w) false (w_tick w) (w_out w).
Definition session (euid : Z) (w w' : world) : Prop :=
  exists directory lock_free stdin or_call or_foreign path op r,
    operate euid directory lock_free stdin or_call or_foreign path op (reboot w) = (r, w').
Definition canonical (b : option string) : Prop := forall t, b = Some t -> exists counters, counters_ok counters /\ t = render counters.

Lemma session_canonical euid w w' : rtc (session euid) w w' -> both_in euid canonical w -> both_in euid canonical w'.
Proof.
  induction 1 as [w|w w1 w2 (d & l & i & oc & f & path & op & r & H) _ IH]; [done|]. intros Hw. apply IH.
  destruct (operate_run euid d l i oc f canonical path op (reboot w) r w1 Hw H) as [Hb _]. eapply both_in_mono; [|exact Hb].
  intros b [Hc|(_ & t & (s & _ & Hv) & ->)]; [done|]. intros t' [= <-]. apply validate_canonical in Hv as (counters & ? & ? & _). by exists counters.
Qed.

Lemma load_fine euid w : w_off w = false -> budget_in euid canonical (vol w) ->
  exists content w1, load_budget euid (fun _ => Fine) w = (Ok content, w1) /\
    text_of (vol w1) = text_of (vol w) /\ text_of (vol w) = Some <$> content /\ canonical content.
Proof.
  destruct w as [[b c] d off n out]. unfold budget_in, text_of. cbn. intros -> H. destruct b as [f|]; [|by exists None; eexists].
  destruct H as [(Hs & Hu & _) (t & Ht & Hc)]. exists (Some t).
  assert (validate (read_text t) = Ok t) as Hval by (destruct (Hc t eq_refl) as (counters & Hok & ->); by rewrite render_read, render_validates).
  unfold load_budget, mbind, eff_bind, stat, call. cbn -[validate read_text]. rewrite Hs, Hu. cbn -[validate read_text].
  rewrite Ht. cbn -[validate read_text]. rewrite Hval.
  destruct (f_mode f =? 416); cbn; eexists; (split; [reflexivity|cbn; by rewrite Ht]).
Qed.

(** C17: The watchdog can always read its budget back.  Whatever sequence of reads
    and writes ran before, each in its own surroundings, with any failed calls, lost
    power and inputs, a later read in a safe directory whose calls succeed returns,
    leaves the text as it is, and prints exactly the text on disk: six counters in
    canonical form, or nothing if no budget was published. *)
Theorem budget_always_readable euid w w' directory stdin or_foreign path :
  rtc (session euid) w w' -> budget (vol w) = None -> budget (dur w) = None ->
  startswith path "/" = true -> mem ".." (path_parts path) = false ->
  budget_directory euid directory true (removelast (path_parts path)) = Ok tt ->
  exists w'', operate euid directory true stdin (fun _ => Fine) or_foreign path Read (reboot w') = (Ok tt, w'') /\
    text_of (vol w'') = text_of (vol w') /\ text_of (vol w') = Some <$> w_out w'' /\ canonical (w_out w'').
Proof.
  intros Hrun Hv Hd Hp Hdots Hdir.
  assert (both_in euid canonical w') as [Hb _].
  { eapply session_canonical; [exact Hrun|]. unfold both_in, budget_in. rewrite Hv, Hd. by split. }
  destruct (load_fine euid (reboot w') eq_refl Hb) as (content & w1 & Hl & H1 & H2 & H3).
  exists (World (vol w1) (dur w1) (w_off w1) (w_tick w1) content). split; [|done].
  unfold operate. rewrite Hp, Hdots, Hdir. unfold mbind, eff_bind, eff_lift in *. cbn. by rewrite Hl.
Qed.

(** ** A sample directory

    A budget is replaced: without trouble, with the power lost before the directory
    is synchronised and the new name kept, and with the write of the candidate
    failing half way. *)

Definition sample_directory (path : list string) : option (Z * Z) := Some (0, 493).
Definition sample_input : string := of_chars (mjoin ((fun k => line_of k 7) <$> rev KEYS)).
Definition sample_path : string := "/var/lib/vpn-watchdog/state".
Definition sample_names (counters : list Z) : names := Names (Some (candidate_file 0 (render counters) true)) None.
Definition sample_world : world := World (sample_names [1; 2; 3; 4; 5; 6]) (sample_names [1; 2; 3; 4; 5; 6]) false 0 None.
Definition empty_world : world := World (Names None None) (Names None None) false 0 None.
Definition sample_call (k : nat) (o : outcome) (n : nat) : outcome := if (n =? k)%nat then o else Fine.
Definition sample_write (k : nat) (o : outcome) (w : world) : res unit * world :=
  operate 0 sample_directory true (Some sample_input) (sample_call k o) (fun _ => false) sample_path Write w.

Example sample_replaced : (sample_write 1000 Fine sample_world).1 = Ok tt /\
  vol (sample_write 1000 Fine sample_world).2 = sample_names [7; 7; 7; 7; 7; 7].
Proof. by vm_compute. Qed.
Example sample_power_lost : let w := (sample_write 9 (Power true false) sample_world).2 in vol w = sample_names [7; 7; 7; 7; 7; 7] /\ w_off w = true.
Proof. by vm_compute. Qed.
Example sample_write_failed : let w := (sample_write 5 After sample_world).2 in vol w = sample_names [1; 2; 3; 4; 5; 6].
Proof. by vm_compute. Qed.

Lemma sample_both : both_in 0 (fun b => b = Some (render [1; 2; 3; 4; 5; 6])) sample_world.
Proof.
  unfold both_in, budget_in, sample_world, sample_names. cbn [vol dur budget]. generalize (render [1; 2; 3; 4; 5; 6]). intros t.
  split; (split; [apply candidate_good|by exists t]).
Qed.

Lemma budget_atomic_witness :
  both_in 0 (intended (Some sample_input) (fun b => b = Some (render [1; 2; 3; 4; 5; 6])) Write) (sample_write 9 (Power true false) sample_world).2.
Proof.
  apply (budget_atomic 0 sample_directory true (Some sample_input) (sample_call 9 (Power true false)) (fun _ => false)
    (fun b => b = Some (render [1; 2; 3; 4; 5; 6])) sample_path Write sample_world (Raise power_failure)); [|vm_compute; reflexivity].
  split; (split; [by vm_compute|eexists; split; reflexivity]).
Defined.

(** The first budget is published, and its replacement loses the power. *)
Lemma budget_always_readable_witness :
  let w := (sample_write 19 (Power false true) (reboot (sample_write 1000 Fine (reboot empty_world)).2)).2 in
  exists w'', operate 0 sample_directory true None (fun _ => Fine) (fun _ => false) sample_path Read (reboot w) = (Ok tt, w'') /\
    text_of (vol w'') = text_of (vol w) /\ text_of (vol w) = Some <$> w_out w'' /\ canonical (w_out w'').
Proof.
  apply (budget_always_readable 0 empty_world); [|done|done|done|done|by vm_compute].
  apply (rtc_l _ _ (sample_write 1000 Fine (reboot empty_world)).2); [|apply rtc_once].
  - exists sample_directory, true, (Some sample_input), (sample_call 1000 Fine), (fun _ => false), sample_path, Write, (Ok tt). by vm_compute.
  - exists sample_directory, true, (Some sample_input), (sample_call 19 (Power false true)), (fun _ => false), sample_path, Write,
      (sample_write 19 (Power false true) (reboot (sample_write 1000 Fine (reboot empty_world)).2)).1. by vm_compute.
Defined.
