(* ===== verification/DiskGuard.v ===== *)
(** * The reserve guard of the monitoring disk

    [roles/observability_control_plane/files/observability-disk-guard.py]: admission
    of the measured limits, the accounting of the data directory and the agent's
    queue, the loop that inspects and reports to the service watchdog, and the latch
    that keeps the receiver off after a refusal until an operator clears it.

    What an inspection sees of the file system is a [view]; the walk over a directory
    is the sequence of what it met.  The latch is a name in the state directory that
    the arguments select, visible and on disk; a directory is its path as given
    ([--state-dir]), so that two spellings of one directory count as two. *)

From stdpp Require Import gmap.
From S2P Require Import Prelude PyValue PyStr IPAddr ListenerCollisions.
#[local] Open Scope string_scope.
#[local] Open Scope Z_scope.

Definition GIB : Z := 1024 ^ 3.
Definition AGENT_QUEUE : list string := ["var"; "lib"; "observability-agent"; "queue"].
Definition refused (m : string) : exn := Exn ValueError m.
Definition os_error (m : string) : exn := Exn OSError m.

(** The parsed arguments; a path is its components. *)
Record args := Args {
  data_dir : list string; state_dir : list string; high_water : Z; reserve_bytes : Z; reserve_percent : Z; allowance : Z; headroom : Z;
  peak : Z; stop_seconds : Z; interval : Z; ingress : string; preflight : bool }.

(** [private_address] *)
Definition private_networks : list ipnet := [net4 10 0 0 0 8; net4 172 16 0 0 12; net4 192 168 0 0 16; net4 100 64 0 0 10].
Definition private_address (s : string) : res string :=
  let* address := of_option (ip_address s) (refused "address") in
  raise_if (negb (bool_decide (ip_ver address = V4)) || negb (existsb (fun n => in_net n address) private_networks))
    (refused "private_ipv4_required") ;;;
  Ok (ip_str address).

(** ** What the file system answers *)

Inductive stat_result (A : Type) := Found (a : A) | Missing | Failed.
Arguments Found {A} a.
Arguments Missing {A}.
Arguments Failed {A}.
(** An entry of the walk, with whether it is a link and its blocks; or a directory
    that could not be scanned, with whether it is a child that had vanished. *)
Inductive seen := Entry (r : stat_result (bool * Z)) | ScanFailed (vanished_child : bool).
(** A walk, with the root before and after it: whether it is a directory, and its
    device and inode. *)
Record tree := Tree { tr_root : stat_result (bool * (Z * Z)); tr_walk : list seen; tr_final : stat_result (bool * (Z * Z)) }.
(** [statvfs] gives the blocks, their size and the available ones. *)
Record view := View {
  v_exists : list string -> bool; v_statvfs : list string -> res (Z * Z * Z); v_dev : list string -> res Z; v_tree : list string -> tree }.

(** [allocated_bytes] *)
Definition scan_step (st : Z * Z) (s : seen) : res (Z * Z) :=
  let '(total, count) := st in
  match s with
  | ScanFailed vanished_child => if vanished_child then Ok st else Raise (os_error "scan")
  | Entry r =>
      raise_if (100000 <? count + 1) (refused "unsafe_data_tree") ;;;
      match r with
      | Missing => Ok (total, count + 1)
      | Failed => Raise (os_error "lstat")
      | Found (link, blocks) => raise_if link (refused "unsafe_data_tree") ;;; Ok (total + blocks * 512, count + 1)
      end
  end.
Definition allocated_bytes (allow_missing : bool) (t : tree) : res Z :=
  match tr_root t with
  | Missing => if allow_missing then Ok 0 else Raise (os_error "lstat")
  | Failed => Raise (os_error "lstat")
  | Found (is_dir, id) =>
      raise_if (negb is_dir) (refused "unsafe_data_root") ;;;
      let* st := foldM_res scan_step (tr_walk t) (0, 0) in
      match tr_final t with
      | Found (_, id') => raise_if (negb (bool_decide (id' = id))) (refused "unsafe_data_root") ;;; Ok st.1
      | _ => Raise (os_error "lstat")
      end
  end.

(** [while not ancestor.exists(): ancestor = ancestor.parent], with the path
    reversed; the root exists. *)
Fixpoint nearest_from (exists_ : list string -> bool) (reversed : list string) : list string :=
  if exists_ (rev reversed) then rev reversed else
  match reversed with [] => [] | _ :: parent => nearest_from exists_ parent end.
Definition nearest (exists_ : list string -> bool) (path : list string) : list string := nearest_from exists_ (rev path).

(** [inspect] *)
Definition inspect (a : args) (v : view) : res (Z * Z * Z) :=
  let ancestor := nearest (v_exists v) (data_dir a) in
  let* '(blocks, size, free) := v_statvfs v ancestor in
  let reserve := Z.max (reserve_bytes a) (blocks * size * reserve_percent a / 100) in
  let queue_ancestor := nearest (v_exists v) AGENT_QUEUE in
  let* queue_dev := v_dev v queue_ancestor in
  let* dev := v_dev v ancestor in
  let* reserve := (if queue_dev =? dev then
      let* queue_used := allocated_bytes true (v_tree v AGENT_QUEUE) in
      raise_if (allowance a <? queue_used) (refused "agent_queue_allocation_exceeded") ;;;
      Ok (reserve + (allowance a - queue_used))
    else Ok reserve) in
  let* used := allocated_bytes (preflight a) (v_tree v (data_dir a)) in
  let available := free * size in
  raise_if (high_water a <=? used + headroom a) (refused "data_high_water") ;;;
  raise_if (available <=? reserve + headroom a) (refused "filesystem_reserve") ;;;
  Ok (available, reserve, used).

(** [validate_measurement] *)
Definition validate_measurement (a : args) : res unit :=
  raise_if (negb (allowance a =? 2 * GIB)) (refused "invalid_agent_queue_allowance") ;;;
  raise_if ((peak a <=? 0) || negb ((1 <=? stop_seconds a) && (stop_seconds a <=? 30))) (refused "disk_write_measurement_required") ;;;
  raise_if (negb ((1 <=? interval a) && (interval a <=? 5))) (refused "guard_interval_exceeded") ;;;
  raise_if (headroom a <? 2 * peak a * (10 + stop_seconds a)) (refused "insufficient_measured_headroom") ;;;
  raise_if (negb ((0 <? headroom a) && (headroom a <? high_water a)) || negb (high_water a =? 2 * GIB)) (refused "invalid_data_budget") ;;;
  raise_if ((reserve_bytes a <? 5 * GIB) || (reserve_percent a <? 20)) (refused "invalid_reserve").

(** ** The guard *)

Inductive event := Ready | Ping | CapacityAdmitted.
(** The state directories that hold a latch, as seen and on disk. *)
Record world := World { latched : gset (list string); durable : gset (list string); trace : list event; calls : nat }.
Inductive outcome := Fine | Before | After.

Section Guard.
(** The views of the inspections and the answers to the notifications, in order;
    the [lstat] of the state directory and what becomes of the system calls on it; the
    memory information and the test bind of a preflight. *)
Context (unicode_int : string -> option Z).
Context (a : args) (view_at : nat -> view) (notify_at : nat -> res unit).
Context (dir_stat : stat_result (bool * Z)) (latch_call : nat -> outcome) (meminfo : res string) (bind : res unit).
Notation io := (eff world).

Definition emit (e : event) : io unit := eff_modify (fun w => World (latched w) (durable w) (e :: trace w) (calls w)).

(** [latch] *)
Definition call (f : world -> world) : io unit := fun w =>
  let w1 := World (latched w) (durable w) (trace w) (S (calls w)) in
  match latch_call (calls w) with
  | Fine => (Ok tt, f w1)
  | Before => (Raise (os_error "call"), w1)
  | After => (Raise (os_error "call"), f w1)
  end.
Definition create (w : world) : world := World ({[state_dir a]} ∪ latched w) (durable w) (trace w) (calls w).
Definition sync (w : world) : world := World (latched w) (({[state_dir a]} ∩ latched w) ∪ durable w) (trace w) (calls w).
Definition has_latch (w : world) : bool := bool_decide (state_dir a ∈ latched w).
Definition latch : io unit :=
  match dir_stat with
  | Found (is_dir, mode) =>
      eff_lift (raise_if (negb is_dir || negb (Z.land mode 18 =? 0)) (refused "unsafe_latch_directory")) ;;
      w ← eff_get; eff_lift (raise_if (has_latch w) (os_error "exists")) ;;
      call create ;; call id ;; call id ;; call id ;; call sync
  | _ => eff_lift (Raise (os_error "lstat"))
  end.

(** [notify] *)
Definition notify (n : nat) (e : event) : io unit := eff_lift (notify_at n) ;; emit e.

(** The [while] loop, for a number of rounds. *)
Fixpoint loop (rounds : nat) (n : nat) : io unit :=
  match rounds with
  | O => mret tt
  | S rounds => eff_lift (inspect a (view_at n)) ;; notify n Ping ;; loop rounds (S n)
  end.

(** The memory of a preflight: [dict] of the lines split at their first colon. *)
Definition mem_line (d : list (string * string)) (line : list ascii) : res (list (string * string)) :=
  let '(key, separator, text) := partition_chars ":" line in
  raise_if (negb separator) (refused "dict") ;;; Ok (dset (of_chars key) (of_chars text) d).
Definition mem_available : res Z :=
  let* text := meminfo in
  let* memory := foldM_res mem_line (splitlines text) [] in
  let* row := of_option (dget "MemAvailable" memory) (Exn KeyError "MemAvailable") in
  let* first := of_option (head (words row)) (Exn IndexError "list index") in
  of_option (int_str unicode_int first) (refused "int").

Definition preflight_checks (available reserve : Z) : res unit :=
  let* memory := mem_available in
  raise_if (memory * 1024 <? GIB) (refused "memory_admission_failed") ;;;
  raise_if (available <=? reserve + high_water a + headroom a) (refused "disk_admission_failed") ;;;
  bind.

(** The [try] block of [main]: [None] while the loop runs. *)
Definition body (rounds : nat) : io (option Z) :=
  eff_lift (private_address (ingress a)) ;;
  eff_lift (validate_measurement a) ;;
  w ← eff_get; eff_lift (raise_if (has_latch w) (refused "manual_disk_recovery_required")) ;;
  '(available, reserve, _) ← eff_lift (inspect a (view_at 0));
  if preflight a then eff_lift (preflight_checks available reserve) ;; emit CapacityAdmitted ;; mret (Some 0)
  else notify 0 Ready ;; loop rounds 1 ;; mret None.
(** [main] *)
Definition main (rounds : nat) : io (option Z) :=
  eff_try (body rounds) [OSError; ValueError; KeyError] (fun _ =>
    (if preflight a then mret tt else eff_try latch [OSError; ValueError] (fun _ => mret tt)) ;; mret (Some 1)).
End Guard.

(** ** What a passed inspection and an admitted measurement say *)

Lemma inspect_Ok a v available reserve used :
  inspect a v = Ok (available, reserve, used) -> used + headroom a < high_water a /\ reserve + headroom a < available.
Proof.
  unfold inspect. intros H. apply res_bind_Ok in H as ([[blocks size] free] & _ & H).
  apply res_bind_Ok in H as (qd & _ & H). apply res_bind_Ok in H as (d & _ & H). apply res_bind_Ok in H as (re & _ & H).
  apply res_bind_Ok in H as (us & _ & H). apply raise_if_seq_Ok in H as [H1%Z.leb_gt H]. apply raise_if_seq_Ok in H as [H2%Z.leb_gt [= <- <- <-]].
  lia.
Qed.

Lemma measurement_Ok a : validate_measurement a = Ok tt -> 0 < peak a /\ 0 < stop_seconds a /\ 2 * peak a * (10 + stop_seconds a) <= headroom a.
Proof.
  unfold validate_measurement. rewrite !raise_if_seq_Ok. intros (_ & H1 & _ & H2 & _).
  apply orb_false_iff in H1 as [H1 H3]. apply negb_false_iff, andb_true_iff in H3 as [H3 _]. lia.
Qed.

Section Protects.
Context (unicode_int : string -> option Z).
Context (a : args) (view_at : nat -> view) (notify_at : nat -> res unit).
Context (dir_stat : stat_result (bool * Z)) (latch_call : nat -> outcome) (meminfo : res string) (bind : res unit).
Notation loop := (loop a view_at notify_at).
Notation body := (body unicode_int a view_at notify_at meminfo bind).
Notation main := (main unicode_int a view_at notify_at dir_stat latch_call meminfo bind).

Lemma loop_passes rounds n w w' : loop rounds n w = (Ok tt, w') ->
  forall i, (n <= i < n + rounds)%nat -> exists r, inspect a (view_at i) = Ok r.
Proof.
  revert n w. induction rounds as [|rounds IH]; intros n w H i Hi; [lia|]. cbn [DiskGuard.loop] in H.
  apply eff_bind_Ok in H as (r & w1 & H1 & H). injection H1 as H1 ->. apply eff_bind_Ok in H as (u & w2 & _ & H).
  destruct (decide (i = n)) as [->|]; [by exists r|]. apply (IH _ _ H). lia.
Qed.

Lemma main_running rounds w w' : main rounds w = (Ok None, w') -> body rounds w = (Ok None, w').
Proof.
  unfold DiskGuard.main, eff_try. destruct (body rounds w) as [[x|e] w1]; [done|]. destruct (caught _ e); [|done].
  intros H. apply eff_bind_Ok in H as (u & w2 & _ & H). done.
Qed.

(** While the guard runs, every inspection so far has passed. *)
Lemma running_passes rounds w w' : main rounds w = (Ok None, w') ->
  validate_measurement a = Ok tt /\ forall i, (i <= rounds)%nat -> exists r, inspect a (view_at i) = Ok r.
Proof.
  intros H%main_running. unfold DiskGuard.body in H. apply eff_bind_Ok in H as (s & w1 & _ & H).
  apply eff_bind_Ok in H as ([] & w2 & H2 & H). injection H2 as H2 ->. apply eff_bind_Ok in H as (w3 & w4 & _ & H).
  apply eff_bind_Ok in H as (u & w5 & _ & H). apply eff_bind_Ok in H as ([[av re] us] & w6 & H6 & H). injection H6 as H6 ->.
  split; [done|]. destruct (preflight a).
  - apply eff_bind_Ok in H as (u1 & w7 & _ & H). by apply eff_bind_Ok in H as (u2 & w8 & _ & H).
  - apply eff_bind_Ok in H as (u1 & w7 & _ & H). apply eff_bind_Ok in H as ([] & w8 & H & _).
    intros [|i] Hi; [eauto|]. apply (loop_passes _ _ _ _ H). lia.
Qed.

Lemma last_before (time : nat -> Z) n t : time 0%nat <= t -> exists i, (i <= n)%nat /\ time i <= t /\ (i = n \/ t < time (S i)).
Proof.
  intros H0. induction n as [|n (i & Hi & Ht & H)]; [exists 0%nat; auto|].
  destruct H as [->|H]; [|exists i; auto with lia]. destruct (Z_lt_le_dec t (time (S n))); [exists n; auto|exists (S n); auto].
Qed.

(** C15: The admitted headroom is enough.  Suppose the data never grows, and the space
    above the reserve never shrinks, faster than the measured peak rate; the service
    watchdog keeps two inspections at most ten seconds apart; and the receiver has
    stopped within the measured stop time of an inspection that does not pass.  Then,
    from the first inspection of a guard that is still running until the receiver has
    stopped after the next one, the data stays below the high-water mark and the
    space above the reserve, with half of the headroom to spare. *)
Theorem guard_protects rounds w w' (time : nat -> Z) (data spare : Z -> Z) :
  main rounds w = (Ok None, w') ->
  (forall i available reserve used, inspect a (view_at i) = Ok (available, reserve, used) -> used = data (time i) /\ available - reserve = spare (time i)) ->
  (forall i, time i <= time (S i) <= time i + 10) ->
  (forall s t, s <= t -> data t - data s <= peak a * (t - s) /\ spare s - spare t <= peak a * (t - s)) ->
  forall t, time 0%nat <= t <= time (S rounds) + stop_seconds a ->
    2 * data t + headroom a < 2 * high_water a /\ headroom a < 2 * spare t.
Proof.
  intros [Hm Hp]%running_passes Hobs Htime Hrate t [Ht0 Ht]. apply measurement_Ok in Hm as (Hpeak & Hstop & Hroom).
  destruct (last_before time rounds t Ht0) as (i & Hi & Hle & Hlast). specialize (Htime i).
  assert (t - time i <= 10 + stop_seconds a) by (destruct Hlast as [->|]; lia).
  destruct (Hp i Hi) as [[[av re] us] Hin]. destruct (Hobs _ _ _ _ Hin) as [-> Hs]. apply inspect_Ok in Hin as [H1 H2].
  destruct (Hrate (time i) t Hle) as [H3 H4]. nia.
Qed.
End Protects.

(** ** The latch *)

(** The next start, possibly after the power was lost. *)
Definition reboot (w : world) : world := World (durable w) (durable w) (trace w) (calls w).
(** A state directory whose latch is there and stays there. *)
Definition latched_for_good (dir : list string) (w : world) : Prop := dir ∈ latched w /\ dir ∈ durable w.
(** A start of the guard, with any arguments, state directory included. *)
Definition restart (w w' : world) : Prop :=
  exists unicode_int a view_at notify_at dir_stat latch_call meminfo bind rounds r,
    main unicode_int a view_at notify_at dir_stat latch_call meminfo bind rounds (reboot w) = (r, w').

Section Latch.
Context (unicode_int : string -> option Z).
Context (a : args) (view_at : nat -> view) (notify_at : nat -> res unit).
Context (dir_stat : stat_result (bool * Z)) (latch_call : nat -> outcome) (meminfo : res string) (bind : res unit).
Notation body := (body unicode_int a view_at notify_at meminfo bind).
Notation latch := (latch a dir_stat latch_call).
Notation main := (main unicode_int a view_at notify_at dir_stat latch_call meminfo bind).

(** The body writes no latch. *)
Definition latch_of (w : world) : gset (list string) * gset (list string) := (latched w, durable w).
Lemma emit_latch l e : preserves (fun w => latch_of w = l) (emit e).
Proof. by intros w Hw. Qed.
Lemma notify_latch l n e : preserves (fun w => latch_of w = l) (notify notify_at n e).
Proof. apply preserves_lift_bind. intros [] _. apply emit_latch. Qed.
Hint Resolve emit_latch notify_latch : preserves.
Lemma loop_latch l rounds n : preserves (fun w => latch_of w = l) (loop a view_at notify_at rounds n).
Proof. revert n. induction rounds as [|rounds IH]; intros n; cbn [loop]; preserves. Qed.
Hint Resolve loop_latch : preserves.
Lemma body_latch l rounds : preserves (fun w => latch_of w = l) (body rounds).
Proof. unfold DiskGuard.body. preserves. Qed.

Lemma body_keeps_latch w rounds r w' : body rounds w = (r, w') -> latched w' = latched w /\ durable w' = durable w.
Proof. intros H. pose proof (body_latch (latch_of w) rounds w eq_refl) as Hb. rewrite H in Hb. by injection Hb. Qed.

(** No run removes a latch, whatever becomes of its system calls. *)
Lemma call_keeps dir f : (forall w, latched_for_good dir w -> latched_for_good dir (f w)) ->
  preserves (latched_for_good dir) (call latch_call f).
Proof. intros Hf w Hw. unfold call. destruct (latch_call (calls w)); cbn; [by apply Hf|done|by apply Hf]. Qed.
Lemma latch_keeps dir : preserves (latched_for_good dir) latch.
Proof.
  assert (forall w, latched_for_good dir w -> latched_for_good dir (create a w)) as Hcreate.
  { intros w [H1 H2]. unfold latched_for_good, create. cbn. set_solver. }
  assert (forall w, latched_for_good dir w -> latched_for_good dir (sync a w)) as Hsync.
  { intros w [H1 H2]. unfold latched_for_good, sync. cbn. set_solver. }
  unfold DiskGuard.latch. destruct dir_stat as [[d mode]| |]; preserves; apply call_keeps; auto.
Qed.
Lemma main_keeps dir rounds w r w' : main rounds w = (r, w') -> latched_for_good dir w -> latched_for_good dir w'.
Proof.
  unfold DiskGuard.main, eff_try. destruct (body rounds w) as [r1 w1] eqn:Hb. apply body_keeps_latch in Hb as [H1 H2]. intros H Hg.
  assert (latched_for_good dir w1) as Hg1 by (unfold latched_for_good in *; by rewrite H1, H2).
  destruct r1 as [x|e]; [by injection H as _ <-|]. destruct (caught _ e); [|by injection H as _ <-].
  unfold mbind, eff_bind in H. destruct (preflight a); [by injection H as _ <-|].
  pose proof (latch_keeps dir w1 Hg1) as Hl. destruct (latch w1) as [[u|e'] w2]; cbn in *; [by injection H as _ <-|].
  destruct (_ || _); by injection H as _ <-.
Qed.

(** A latched directory refuses before anything is announced. *)
Lemma private_raises e : private_address (ingress a) = Raise e -> exn_class e = ValueError.
Proof.
  unfold private_address. destruct (ip_address _); cbn; [|by intros [= <-]]. destruct (negb _ || _); cbn; [by intros [= <-]|done].
Qed.
Lemma measurement_raises e : validate_measurement a = Raise e -> exn_class e = ValueError.
Proof. unfold validate_measurement, raise_if. repeat case_match; cbn; try done; by intros [= <-]. Qed.

Lemma body_latched rounds w : has_latch a w = true -> exists e, body rounds w = (Raise e, w) /\ exn_class e = ValueError.
Proof.
  intros Hl. unfold DiskGuard.body, mbind, eff_bind, eff_lift, eff_get. destruct (private_address (ingress a)) eqn:Hp; [|apply private_raises in Hp; eauto].
  destruct (validate_measurement a) eqn:Hm; [|apply measurement_raises in Hm; eauto]. rewrite Hl. cbn. eauto.
Qed.

Lemma latch_latched w : has_latch a w = true -> exists e, latch w = (Raise e, w) /\ (exn_class e = OSError \/ exn_class e = ValueError).
Proof.
  intros Hl. unfold DiskGuard.latch, mbind, eff_bind, eff_lift, eff_get. destruct dir_stat as [[d mode]| |]; [|by eexists; split; [|left]..].
  destruct (negb d || _); cbn; [by eexists; split; [|right]|]. rewrite Hl. cbn. by eexists; split; [|left].
Qed.

(** The exit of a latched directory. *)
Lemma main_latched rounds w : has_latch a w = true -> main rounds w = (Ok (Some 1), w).
Proof.
  intros Hl. unfold DiskGuard.main, eff_try. destruct (body_latched rounds w Hl) as (e & -> & He).
  unfold caught. cbn. rewrite He. cbn. unfold mbind, eff_bind. destruct (preflight a); [done|].
  destruct (latch_latched w Hl) as (e' & -> & He'). unfold caught. cbn. by destruct He' as [-> | ->].
Qed.

Definition latch_works : Prop := (exists mode, dir_stat = Found (true, mode) /\ Z.land mode 18 = 0) /\ forall n, latch_call n = Fine.

Lemma latch_fine w : latch_works -> has_latch a w = false -> exists w', latch w = (Ok tt, w') /\ latched_for_good (state_dir a) w'.
Proof.
  intros [(mode & -> & Hmode) Hfine] Hl. unfold DiskGuard.latch. rewrite Hmode. unfold mbind, eff_bind, eff_lift, eff_get. cbn. rewrite Hl. cbn.
  unfold call. rewrite !Hfine. cbn. repeat (rewrite !Hfine; cbn). eexists. split; [done|]. unfold latched_for_good. cbn. set_solver.
Qed.

Lemma main_refused rounds w w' :
  main rounds w = (Ok (Some 1), w') -> preflight a = false -> latch_works -> (state_dir a ∈ latched w -> state_dir a ∈ durable w) ->
  latched_for_good (state_dir a) w'.
Proof.
  intros H Hpre Hworks Hdur. destruct (has_latch a w) eqn:Hl.
  { rewrite main_latched in H by done. injection H as <-. apply bool_decide_eq_true in Hl. split; [done|by apply Hdur]. }
  unfold DiskGuard.main, eff_try in H.
  destruct (body rounds w) as [[x|e] w1] eqn:Hbody.
  - exfalso. injection H as -> ->. unfold DiskGuard.body in Hbody. rewrite Hpre in Hbody.
    do 4 apply eff_bind_Ok in Hbody as (? & ? & _ & Hbody). apply eff_bind_Ok in Hbody as ([[av re] us] & ? & _ & Hbody).
    by do 2 apply eff_bind_Ok in Hbody as (? & ? & _ & Hbody).
  - apply body_keeps_latch in Hbody as [Hb _]. destruct (caught _ e); [|done].
    assert (has_latch a w1 = false) as Hl1 by (unfold has_latch in *; by rewrite Hb).
    rewrite Hpre in H. unfold mbind, eff_bind in H. destruct (latch_fine w1 Hworks Hl1) as (w2 & Hw2 & Hg). rewrite Hw2 in H. by injection H as <-.
Qed.
End Latch.


(** ** A sample collector

    Peak writes of one megabyte per second, a stop within ten seconds, and a data
    directory that is nearly empty, or past the high-water mark. *)

Definition sample_args : args :=
  Args ["srv"; "data"] ["var"; "lib"; "observability-disk-guard"] (2 * GIB) (5 * GIB) 20 (2 * GIB) 40000000 1000000 10 5 "10.0.0.5" false.
Definition sample_tree (blocks : Z) : tree := Tree (Found (true, (1, 2))) [Entry (Found (false, blocks)); Entry Missing] (Found (true, (1, 2))).
Definition sample_view (blocks : Z) : view :=
  View (fun _ => true) (fun _ => Ok (10000000, 4096, 5000000)) (fun p => Ok (if bool_decide (p = AGENT_QUEUE) then 1 else 2)) (fun _ => sample_tree blocks).
Definition sample_main (views : nat -> view) (rounds : nat) (w : world) : res (option Z) * world :=
  main (fun _ => None) sample_args views (fun _ => Ok tt) (Found (true, 493)) (fun _ => Fine) (Ok "") (Ok tt) rounds w.
Definition fresh_world : world := World ∅ ∅ [] 0.
Definition filling (n : nat) : view := sample_view (if (n <? 3)%nat then 100 else 5000000).

Example sample_running : (sample_main (fun _ => sample_view 100) 3 fresh_world) = (Ok None, World ∅ ∅ [Ping; Ping; Ping; Ready] 0).
Proof. by vm_compute. Qed.
Example sample_refused : (sample_main filling 9 fresh_world) = (Ok (Some 1), World {[state_dir sample_args]} {[state_dir sample_args]} [Ping; Ping; Ready] 5).
Proof. by vm_compute. Qed.

Lemma guard_protects_witness : 2 * 51200 + 40000000 < 2 * (2 * GIB) /\ 40000000 < 2 * 12288000000.
Proof.
  apply (guard_protects (fun _ => None) sample_args (fun _ => sample_view 100) (fun _ => Ok tt) (Found (true, 493)) (fun _ => Fine) (Ok "") (Ok tt)
    3 fresh_world (World ∅ ∅ [Ping; Ping; Ping; Ready] 0) (fun i => 5 * Z.of_nat i) (fun _ => 51200) (fun _ => 12288000000)) with (t := 12).
  - by vm_compute.
  - intros i available reserve used H. vm_compute in H. by injection H as <- <- <-.
  - intros i. lia.
  - intros s t Hst. cbn. lia.
  - cbn. lia.
Defined.

(** The same start with another state directory is not refused. *)
Definition other_args : args :=
  Args ["srv"; "data"] ["tmp"] (2 * GIB) (5 * GIB) 20 (2 * GIB) 40000000 1000000 10 5 "10.0.0.5" false.
Definition other_main (w : world) : res (option Z) * world :=
  main (fun _ => None) other_args (fun _ => sample_view 100) (fun _ => Ok tt) (Found (true, 493)) (fun _ => Fine) (Ok "") (Ok tt) 1 w.
Example sample_elsewhere : let w := (sample_main filling 9 fresh_world).2 in
  (other_main (reboot w)).1 = Ok None /\ trace (other_main (reboot w)).2 = Ping :: Ready :: trace w.
Proof. by vm_compute. Qed.

