(* ===== verification/DeviceBinding.v ===== *)
(** * Device authority over AmneziaWG

    [scripts/awg_device_binding.py]: the host identity, the binding of a device to
    its one peer, the allocation of a free address, and the diagnostics that tie
    every peer to its entry of the client registry.  X25519 and SHA-256 are
    parameters. *)

From stdpp Require Import sorting.
From S2P Require Import Prelude PyValue PyStr Regex Base64 IPAddr IPNet AwgProfile AwgContract ListenerCollisions.
#[local] Open Scope string_scope.
#[local] Open Scope Z_scope.

Definition binding_error (m : string) : exn := Exn BindingError m.

Definition name_char (c : ascii) : bool := is_alnum c || one_of "_-" c.
Definition NAME : re := RClsRep name_char 1 64.
Definition env_head (c : ascii) : bool := is_lower c || is_digit c.
Definition env_tail (c : ascii) : bool := env_head c || one_of "_-" c.
Definition ENVIRONMENT : re := RCat (RCls env_head) (RClsRep env_tail 0 63).
Definition PROVIDERS : list string := ["upcloud"; "vultr"; "scaleway"; "hetzner"].

Definition name_ok (v : value) : bool := is_str v && fullmatch NAME (str_of v).

(** [host_identity] *)
Definition host_identity (host : value) : res (string * string) :=
  match host with
  | VStr h =>
      match split_chars ":"%char (chars h) with
      | [p; e] =>
          raise_if (negb (mem (of_chars p) PROVIDERS) || negb (fullmatch ENVIRONMENT (of_chars e)))
            (binding_error "invalid-host-binding") ;;;
          Ok (of_chars p, of_chars e)
      | _ => Raise (binding_error "invalid-host-binding")
      end
  | _ => Raise (binding_error "invalid-host-binding")
  end.

(** [DeviceBinding] *)
Record binding := Binding {
  bd_provider : string; bd_environment : string; bd_index : nat; bd_instance : dict; bd_peer : dict }.

(** [DeviceBinding.identity] *)
Definition identity (b : binding) : value :=
  VDict [("provider", VStr (bd_provider b)); ("environment", VStr (bd_environment b));
         ("instance", field (bd_instance b) "name")].

(** The rest of the contract is admitted before peers and names are read. *)
Definition peers_named (client : value) (item : dict) : list dict :=
  filter (fun peer => py_eq (field peer "name") client = true) (peers_of item).

Definition binding_step (provider environment : string) (client instance : value) (enrollment : bool)
    (matches : list binding) (p : nat * dict) : res (list binding) :=
  let '(index, effective) := p in
  if negb (is_none instance) && negb (py_eq (field effective "name") instance) then Ok matches else
  if enrollment then Ok (matches ++ [Binding provider environment index effective []])%list else
  match peers_named client effective with
  | [] => Ok matches
  | peer :: _ =>
      raise_if (negb (is_device peer)) (binding_error "routed-peer-not-device") ;;;
      Ok (matches ++ [Binding provider environment index effective peer])%list
  end.

Definition ACTIVE : list string := ["issued"; "delivered"; "active"; "stale"].

(** [entry["awg_binding"] == identity and entry["status"] in (...)] *)
Definition registered (document : dict) (client : value) (b : binding) : res bool :=
  let* registry := index (VDict document) "client_registry" in
  let* entry := index registry (str_of client) in
  let* bound := index entry "awg_binding" in
  if negb (py_eq bound (identity b)) then Ok false else
  let* status := index entry "status" in
  Ok (existsb (fun s => py_eq status (VStr s)) ACTIVE).

(** [resolve_binding] *)
Definition resolve_binding (document context client host instance : value) (enrollment : bool) : res binding :=
  raise_if (negb (name_ok client)) (binding_error "invalid-device-name") ;;;
  let* ' (provider, environment) := host_identity host in
  raise_if (negb (is_dict document) || negb (is_dict context)) (binding_error "invalid-awg-contract") ;;;
  let d := dict_of document in let ctx := dict_of context in
  let raw := field d "amneziawg_secrets" in
  let defaults := get_default ctx "amneziawg" (VDict []) in
  let cohort := get_default ctx "amneziawg_cohort" (VDict []) in
  raise_if (negb (Nat.eqb (length (awg_errors false d raw defaults cohort)) 0)) (binding_error "invalid-awg-contract") ;;;
  let* instances := effective_awg_instances raw defaults cohort in
  let peer_count := length (instances ≫= peers_named client) in
  raise_if (enrollment && negb (peer_count =? 0)%nat) (binding_error "device-already-enrolled") ;;;
  raise_if (1 <? peer_count)%nat (binding_error "ambiguous-device-binding") ;;;
  let* found := foldM_res (binding_step provider environment client instance enrollment) (imap pair instances) [] in
  match found with
  | [] => Raise (binding_error "missing-device-binding")
  | [result] =>
      if enrollment then Ok result else
      match registered d client result with
      | Ok true => Ok result
      | Ok false => Raise (binding_error "invalid-registry-binding")
      | Raise e => if caught [ValueError; KeyError; TypeError] e then Raise (binding_error "invalid-registry-binding") else Raise e
      end
  | _ => Raise (binding_error "ambiguous-device-binding")
  end.

(** ** Allocation *)

(** [ipaddress.ip_interface] and [ip_network] of any value: an integer is an
    address with a full prefix, and the text of nothing else parses. *)
Definition address_of_int (z : Z) : option ipaddr :=
  if (0 <=? z) && (z <? 2 ^ 32) then Some (IP V4 z None)
  else if (0 <=? z) && (z <? 2 ^ 128) then Some (IP V6 z None) else None.
Definition interface_value (v : value) : option interface :=
  match v with
  | VStr s => ip_interface s
  | VInt _ | VBool _ => a ← address_of_int (int_of v); Some (Interface a (Network a (ip_width (ip_ver a))))
  | _ => None
  end.
Definition network_value (v : value) : option network :=
  match v with
  | VStr s => ip_network s
  | VInt _ | VBool _ => a ← address_of_int (int_of v); Some (Network a (ip_width (ip_ver a)))
  | _ => None
  end.

Definition family_key (v : ipver) : string := match v with V4 => "ipv4" | V6 => "ipv6" end.

Definition range_le (a b : Z * Z) : Prop := a.1 < b.1 \/ a.1 = b.1 /\ a.2 <= b.2.
#[export] Instance range_le_dec : RelDecision range_le.
Proof. intros a b. unfold range_le. apply _. Defined.

(** [if start <= candidate <= end: candidate = end + 1] *)
Definition skip_claim (candidate : Z) (c : Z * Z) : Z :=
  if (c.1 <=? candidate) && (candidate <=? c.2) then c.2 + 1 else candidate.

Definition peer_claim (v : ipver) (claims : list (Z * Z)) (peer : value) : res (list (Z * Z)) :=
  let* allowed := index peer "allowed_ips" in
  let* raw := get allowed (family_key v) in
  if is_none raw then Ok claims else
  let* prefix := of_option (network_value raw) (Exn ValueError "network") in
  Ok (claims ++ [(nw_first prefix, nw_last prefix)])%list.

(** First and last address a host of the pool may have. *)
Definition pool_first (i : interface) : Z := nw_first (if_network i) + 1.
Definition pool_last (v : ipver) (i : interface) : Z :=
  nw_last (if_network i) - (if bool_decide (v = V4) then 1 else 0).

Definition host_text (v : ipver) (z : Z) : string :=
  (ip_str (IP v z None) +:+ match v with V4 => "/32" | V6 => "/128" end)%string.

(** The interface of the instance in a version. *)
Definition server_interface (instance : dict) (v : ipver) : res interface :=
  let* text := index (VDict instance) (address_field v) in
  let* server := of_option (interface_value text) (Exn ValueError "interface") in
  raise_if (negb (bool_decide (ip_ver (if_ip server) = v))) (Exn ValueError "") ;;;
  Ok server.

(** The addresses that are taken: the server's and the peers' networks. *)
Definition claims_of (instance : dict) (v : ipver) (server : interface) : res (list (Z * Z)) :=
  let* peers := index (VDict instance) "peers" in
  let* peers := iterate peers in
  foldM_res (peer_claim v) peers [(ip_int (if_ip server), ip_int (if_ip server))].

(** [allocate_address] for one of the two versions there are. *)
Definition allocate_address (instance : dict) (v : ipver) : res string :=
  let body :=
    let* server := server_interface instance v in
    let* claims := claims_of instance v server in
    let candidate := foldl skip_claim (pool_first server) (merge_sort range_le claims) in
    raise_if (pool_last v server <? candidate) (binding_error "address-pool-exhausted") ;;;
    Ok (host_text v candidate) in
  try_except body [ValueError; KeyError; TypeError]
    (fun e => if bool_decide (exn_class e = BindingError) then Raise e else Raise (binding_error "invalid-address-pool")).

(** ** The registry *)

Section Registry.
Context (x25519_public : list Z -> list Z) (sha256_hex : list Z -> string).

(** [public_key] *)
Definition public_key (private : value) : res string :=
  match private with
  | VStr s =>
      match b64decode standard (chars s) with
      | Some raw =>
          raise_if (negb (length raw =? 32)%nat) (binding_error "invalid-awg-key") ;;;
          Ok (of_chars (b64encode standard (x25519_public raw)))
      | None => Raise (binding_error "invalid-awg-key")
      end
  | _ => Raise (binding_error "invalid-awg-key")
  end.

(** [registry.get(v)] for any key. *)
Definition registry_get (registry : dict) (v : value) : res value :=
  match v with
  | VStr s => Ok (field registry s)
  | _ => if hashable v then Ok VNone else Raise (Exn TypeError "unhashable")
  end.

(** [doc.get("amneziawg_secrets", {}).get("instances", [])] *)
Definition doc_instances (doc : dict) : res (list value) :=
  let* instances := get_or (get_default doc "amneziawg_secrets" (VDict [])) "instances" (VList []) in iterate instances.
Definition instance_peers (instance : value) : res (list value) :=
  let* peers := get_or instance "peers" (VList []) in iterate peers.

Definition peer_errors (registry : dict) (i : nat) (instance : value) (errors : list diag) (p : nat * value) : res (list diag) :=
  let '(j, peer) := p in
  let* kind := get_or peer "address_kind" (VStr "device") in
  if negb (py_eq kind (VStr "device")) then Ok errors else
  let* name := index peer "name" in
  let* entry := registry_get registry name in
  let bound := match entry with VDict e => field e "awg_binding" | _ => VNone end in
  let* missing := (match bound with
    | VDict b => let* iname := index instance "name" in Ok (negb (py_eq (field b "instance") iname))
    | _ => Ok true
    end) in
  Ok (errors ++ if missing : bool then [(indexed (indexed "amneziawg_secrets.instances" i +:+ ".peers")%string j,
                                         "device peer requires registry binding")] else [])%list.

Definition instance_errors (registry : dict) (errors : list diag) (p : nat * value) : res (list diag) :=
  let* peers := instance_peers p.2 in
  foldM_res (peer_errors registry p.1 p.2) (imap pair peers) errors.

Definition entry_keys : list string := ["awg_binding"; "awg_private_key"; "awg_public_key_fingerprint"; "awg_delivery_host"].

(** [any(peer.get("name") == device ...)] *)
Fixpoint any_res {A} (f : A -> res bool) (l : list A) : res bool :=
  match l with [] => Ok false | x :: l => let* b := f x in if b : bool then Ok true else any_res f l end.
Definition retained (doc : dict) (device : string) : res bool :=
  let* instances := doc_instances doc in
  any_res (fun instance => let* peers := instance_peers instance in
    any_res (fun peer => let* n := get peer "name" in Ok (py_eq n (VStr device))) peers) instances.

Definition delivery_errors (device : string) (e : dict) : list diag :=
  let bad := [("client_registry." +:+ device +:+ ".awg_delivery_host", "invalid AWG delivery host")%string] in
  match field e "awg_delivery_host" with
  | VStr "" => []
  | VStr h =>
      match host_identity (VStr h) with
      | Ok _ => match field e "hosts" with VList l => if existsb (py_eq (VStr h)) l then [] else bad | _ => bad end
      | Raise _ => bad
      end
  | _ => bad
  end.

(** [a + ":" + b] *)
Definition joined (a b : value) : res value :=
  match a, b with VStr a, VStr b => Ok (VStr (a +:+ ":" +:+ b)) | _, _ => Raise (Exn TypeError "+") end.

(** The peers with the device's name in the instance that the binding names. *)
Definition placeholder_peers (doc : dict) (device : string) (bound : value) : res nat :=
  let* secrets := index (VDict doc) "amneziawg_secrets" in
  let* instances := index secrets "instances" in let* instances := iterate instances in
  let* found := mapM_res (fun item =>
    let* n := index item "name" in let* want := index bound "instance" in
    if negb (py_eq n want) then Ok [] else
    let* peers := index item "peers" in let* peers := iterate peers in
    let* hits := mapM_res (fun peer => let* n := index peer "name" in Ok (py_eq n (VStr device))) peers in
    Ok (filter (fun b => b = true) hits)) instances in
  Ok (length (mjoin found)).

(** The body of the [try] over a bound entry: does the recovery material match? *)
Definition bound_errors (allow : bool) (doc : dict) (context : value) (device : string) (bound : value)
    (private fingerprint : string) : res (list diag) :=
  let path := ("client_registry." +:+ device +:+ ".awg_binding")%string in
  let placeholder := fullmatch PLACEHOLDER in
  let mismatch := Exn ValueError "" in
  if negb allow && (placeholder private || placeholder fingerprint)
  then Ok [(path, "unfilled REPLACE_WITH_* recovery material")] else
  if allow && placeholder private && placeholder fingerprint then
    let* n := placeholder_peers doc device bound in
    raise_if (negb (n =? 1)%nat) mismatch ;;; Ok []
  else
    let* p := index bound "provider" in let* e := index bound "environment" in let* host := joined p e in
    let* i := index bound "instance" in
    let* selected := resolve_binding (VDict doc) (if truthy context then context else VDict []) (VStr device) host i false in
    raise_if (negb (py_eq (identity selected) bound)) mismatch ;;;
    let* public := index (VDict (bd_peer selected)) "public_key" in
    raise_if (negb (placeholder fingerprint) &&
      negb (bool_decide (lower fingerprint =
        "sha256:" +:+ of_chars (take 16 (chars (sha256_hex (ord <$> chars (str_of public)))))))%string) mismatch ;;;
    if placeholder private then Ok [] else
    let* derived := public_key (VStr private) in
    raise_if (negb (py_eq public (VStr derived))) mismatch ;;; Ok [].

Definition entry_errors (allow : bool) (doc : dict) (context : value) (device : string) (entry : value) : res (list diag) :=
  match entry with
  | VDict e =>
      if negb (subset entry_keys (keys e)) then Ok [("client_registry." +:+ device, "incomplete AWG registry entry")%string] else
      let path := ("client_registry." +:+ device +:+ ".awg_binding")%string in
      let delivery := delivery_errors device e in
      match get_default e "awg_private_key" (VStr ""), get_default e "awg_public_key_fingerprint" (VStr "") with
      | VStr private, VStr fingerprint =>
          match field e "awg_binding" with
          | VNone =>
              let* kept := retained doc device in
              Ok (delivery
                ++ (if bool_decide (private = "") && bool_decide (fingerprint = "") then []
                    else [(path, "absent AWG binding must have no recovery material")])
                ++ (if kept : bool then [(path, "absent AWG binding has a retained device peer")] else []))%list
          | bound =>
              let* errors := try_except (bound_errors allow doc context device bound private fingerprint)
                [ValueError; KeyError; TypeError; AttributeError]
                (fun _ => Ok [(path, "must match the named instance peer and recovery key")]) in
              Ok (delivery ++ errors)%list
          end
      | _, _ => Ok (delivery ++ [(path, "invalid AWG recovery material")])%list
      end
  | _ => Ok [("client_registry." +:+ device, "incomplete AWG registry entry")%string]
  end.

(** [registry_errors] *)
Definition registry_errors (allow : bool) (doc : dict) (context : value) : res (list diag) :=
  let registry := if truthy (field doc "client_registry") then field doc "client_registry" else VDict [] in
  match registry with
  | VDict registry =>
      let* instances := doc_instances doc in
      let* errors := foldM_res (instance_errors registry) (imap pair instances) [] in
      let* entries := mapM_res (fun kv => entry_errors allow doc context kv.1 kv.2) registry in
      Ok (errors ++ mjoin entries)%list
  | _ => Ok [("client_registry", "must be a device mapping")]
  end.
End Registry.

(** ** Allocation finds the lowest free address *)

Definition in_claim (c : Z * Z) (a : Z) : Prop := c.1 <= a <= c.2.
Definition claimed (claims : list (Z * Z)) (a : Z) : Prop := Exists (fun c => in_claim c a) claims.

#[export] Instance range_le_total : Total range_le.
Proof. intros a b. unfold range_le. lia. Qed.
#[export] Instance range_le_trans : Transitive range_le.
Proof. intros a b c. unfold range_le. lia. Qed.

(** One pass over the sorted claims is enough: a later claim starts no earlier. *)
Lemma skip_sorted start done_ l cand :
  Forall (fun k => Forall (range_le k) l) done_ -> StronglySorted range_le l ->
  Forall (fun k => k.1 <= k.2) l ->
  start <= cand -> ~ claimed done_ cand -> (forall a, start <= a < cand -> claimed done_ a) ->
  let c := foldl skip_claim cand l in
  start <= c /\ ~ claimed (done_ ++ l) c /\ (forall a, start <= a < c -> claimed (done_ ++ l) a).
Proof.
  revert done_ cand. induction l as [|x l IH]; intros done_ cand Hd Hs Hw Hstart Hfree Hcov; cbn [foldl].
  { by rewrite app_nil_r. }
  apply StronglySorted_cons in Hs as [Hx Hs]. apply Forall_cons in Hw as [Hwx Hw].
  assert (Forall (fun k => range_le k x) done_) as Hdx.
  { eapply Forall_impl; [exact Hd|]. by intros k [? _]%Forall_cons. }
  replace (done_ ++ x :: l)%list with ((done_ ++ [x]) ++ l)%list by (by rewrite <-app_assoc).
  assert (Forall (fun k => Forall (range_le k) l) (done_ ++ [x])) as Hd'.
  { apply Forall_app_2; [|by apply Forall_singleton]. eapply Forall_impl; [exact Hd|]. by intros k [_ ?]%Forall_cons. }
  enough (start <= skip_claim cand x /\ ~ claimed (done_ ++ [x]) (skip_claim cand x) /\
    (forall a, start <= a < skip_claim cand x -> claimed (done_ ++ [x]) a)) as (H1 & H2 & H3) by by apply IH.
  unfold claimed, skip_claim in *. setoid_rewrite Exists_app. setoid_rewrite Exists_cons. setoid_rewrite Exists_nil.
  unfold in_claim at 2 4. destruct ((x.1 <=? cand) && (cand <=? x.2)) eqn:Hin; split_and!; try lia.
  - intros [Hk|[Hk|[]]]; [|lia]. apply Exists_exists in Hk as (k & Hk & Hkc).
    rewrite Forall_forall in Hdx. specialize (Hdx k Hk). unfold range_le, in_claim in *.
    apply Hfree, Exists_exists. exists k. split; [done|]. lia.
  - intros a Ha. destruct (decide (a < cand)); [left; apply Hcov; lia|]. right. left. lia.
  - intros [Hk|[Hk|[]]]; [done|lia].
  - intros a Ha. left. auto.
Qed.

(** The lowest address of a pool that no claim covers, if there is one. *)
Lemma skip_lowest start claims :
  Forall (fun k => k.1 <= k.2) claims ->
  let c := foldl skip_claim start (merge_sort range_le claims) in
  start <= c /\ ~ claimed claims c /\ forall a, start <= a < c -> claimed claims a.
Proof.
  intros Hw. pose proof (merge_sort_Permutation range_le claims) as Hp.
  destruct (skip_sorted start [] (merge_sort range_le claims) start) as (H1 & H2 & H3).
  - constructor.
  - apply StronglySorted_merge_sort; apply _.
  - by rewrite Hp.
  - lia.
  - by intros ?%Exists_nil.
  - lia.
  - simpl in *. assert (forall a, claimed (merge_sort range_le claims) a <-> claimed claims a) as Hc.
    { intros a. unfold claimed. by rewrite Hp. }
    split; [done|]. split; [by rewrite <-Hc|]. intros a Ha. by apply Hc, H3.
Qed.


Lemma network_value_wf v n : network_value v = Some n -> network_wf n.
Proof.
  assert (forall z n, (a ← address_of_int z; Some (Network a (ip_width (ip_ver a)))) = Some n -> network_wf n) as Hint.
  { intros z m. unfold address_of_int.
    destruct (_ && _) eqn:H4; [|destruct ((0 <=? z) && (z <? 2 ^ 128)) eqn:H6]; simpl; intros [= <-]; bprop;
      (split; [split; simpl; [lia|done]|]; split; [simpl; lia|]; unfold nw_first, nw_ver; simpl; apply Z.mod_1_r). }
  destruct v as [|b|z| |s| |]; try done; cbn [network_value]; [apply Hint|apply Hint|apply ip_network_wf].
Qed.

(** The network that [peer] holds in a version. *)
Definition holds_network (v : ipver) (peer : value) (n : network) : Prop :=
  exists allowed raw, index peer "allowed_ips" = Ok allowed /\ get allowed (family_key v) = Ok raw /\
    raw <> VNone /\ network_value raw = Some n.

(** An address that the server or a peer of the instance has. *)
Definition taken (instance : dict) (v : ipver) (server : interface) (a : Z) : Prop :=
  a = ip_int (if_ip server) \/
  exists peers peer n, index (VDict instance) "peers" = Ok peers /\ (exists l, iterate peers = Ok l /\ peer ∈ l) /\
    holds_network v peer n /\ nw_first n <= a <= nw_last n.

Lemma peer_claim_Ok v claims peer r :
  peer_claim v claims peer = Ok r ->
  (r = claims /\ forall n, ~ holds_network v peer n) \/
  exists n, holds_network v peer n /\ (forall m, holds_network v peer m -> m = n) /\
    r = (claims ++ [(nw_first n, nw_last n)])%list.
Proof.
  unfold peer_claim. intros H. apply res_bind_Ok in H as (allowed & Ha & H). apply res_bind_Ok in H as (raw & Hr & H).
  destruct (is_none raw) eqn:Hn.
  - apply Ok_inj in H as <-. left. split; [done|]. intros n (al & rw & Ha' & Hr' & Hne & _). destruct raw; try done; congruence.
  - apply res_bind_Ok in H as (n & Hv & [= <-]). apply of_option_Ok in Hv. right. exists n.
    split; [exists allowed, raw; split_and!; try done; by intros ->|]. split; [|done].
    intros m (al & rw & Ha' & Hr' & _ & Hm). congruence.
Qed.

Lemma peer_claims_spec v peers init claims :
  foldM_res (peer_claim v) peers init = Ok claims -> Forall (fun k => k.1 <= k.2) init ->
  Forall (fun k => k.1 <= k.2) claims /\
  forall a, claimed claims a <-> claimed init a \/ exists peer n, peer ∈ peers /\ holds_network v peer n /\ nw_first n <= a <= nw_last n.
Proof.
  revert init. induction peers as [|peer peers IH]; intros init H Hi; simpl in H.
  - apply Ok_inj in H as <-. split; [done|]. intros a. split; [by left|].
    intros [?|(p & n & Hp & _)]; [done|by apply not_elem_of_nil in Hp].
  - apply res_bind_Ok in H as (r & Hr & H). apply peer_claim_Ok in Hr as [[-> Hno]|(n & Hn & Hu & ->)].
    + destruct (IH _ H Hi) as [Hw Hc]. split; [done|]. intros a. rewrite Hc. setoid_rewrite elem_of_cons.
      split; [intros [?|(p & m & ? & ?)]; eauto 7|]. intros [?|(p & m & [->|?] & Hm & ?)]; [by left|by apply Hno in Hm|eauto 7].
    + destruct Hn as (al & rw & Hal & Hrw & Hne & Hv). pose proof (nw_range n (network_value_wf _ _ Hv)) as Hrange.
      assert (holds_network v peer n) as Hn by by exists al, rw.
      destruct (IH _ H) as [Hw Hc]; [apply Forall_app_2; [done|apply Forall_singleton; simpl; lia]|]. split; [done|].
      intros a. rewrite Hc. unfold claimed at 1. rewrite Exists_app, Exists_cons, Exists_nil. setoid_rewrite elem_of_cons.
      unfold in_claim at 2. simpl. split.
      * intros [[?|[?|[]]]|(p & m & ? & ?)]; [by left|right; exists peer, n; auto|right; eauto 7].
      * intros [?|(p & m & [->|?] & Hm & ?)]; [by left; left|apply Hu in Hm as ->; auto|eauto 7].
Qed.

Lemma claims_of_spec instance v server claims :
  claims_of instance v server = Ok claims ->
  Forall (fun k => k.1 <= k.2) claims /\ forall a, claimed claims a <-> taken instance v server a.
Proof.
  unfold claims_of. intros H. apply res_bind_Ok in H as (peers & Hp & H). apply res_bind_Ok in H as (l & Hl & H).
  apply peer_claims_spec in H as [Hw Hc]; [|apply Forall_singleton; simpl; lia]. split; [done|]. intros a. rewrite Hc.
  unfold taken, claimed. rewrite Exists_cons, Exists_nil. unfold in_claim. simpl. split.
  - intros [[?|[]]|(peer & n & ? & ? & ?)]; [left; lia|right]. exists peers, peer, n.
    split; [done|]. split; [by exists l|done].
  - intros [->|(ps & peer & n & Hps & (l' & Hl' & Hin) & ? & ?)]; [left; left; lia|right].
    assert (Ok ps = Ok peers) as [= ->] by (etrans; [symmetry; exact Hps|exact Hp]).
    assert (Ok l' = Ok l) as [= ->] by (by rewrite <-Hl, <-Hl'). eauto.
Qed.

(** The exceptions of reading the peers; [.get] of a non-mapping is the last. *)
Definition reading_error (e : exn) : Prop := exn_class e ∈ [ValueError; KeyError; TypeError; AttributeError].

Lemma index_class v k e : index v k = Raise e -> reading_error e.
Proof. destruct v; simpl; try (intros [= <-]; unfold reading_error; set_solver). destruct (dget k d); [done|intros [= <-]; unfold reading_error; set_solver]. Qed.
Lemma iterate_class v e : iterate v = Raise e -> reading_error e.
Proof. destruct v; simpl; intros [= <-]; unfold reading_error; set_solver. Qed.

Lemma peer_claim_class v claims peer e : peer_claim v claims peer = Raise e -> reading_error e.
Proof.
  unfold peer_claim. intros H. apply res_bind_Raise in H as [H|(allowed & _ & H)]; [by eapply index_class|].
  apply res_bind_Raise in H as [H|(raw & _ & H)]; [destruct allowed; simpl in H; try done; injection H as <-; unfold reading_error; set_solver|].
  destruct (is_none raw); [done|]. apply res_bind_Raise in H as [H|(n & _ & H)]; [|done].
  destruct (network_value raw); [done|injection H as <-; unfold reading_error; set_solver].
Qed.

Lemma claims_of_class instance v server e : claims_of instance v server = Raise e -> reading_error e.
Proof.
  unfold claims_of. intros H. apply res_bind_Raise in H as [H|(ps & _ & H)]; [by eapply index_class|].
  apply res_bind_Raise in H as [H|(peers & _ & H)]; [by eapply iterate_class|].
  revert H. generalize [(ip_int (if_ip server), ip_int (if_ip server))].
  induction peers as [|peer peers IH]; intros init; simpl; [done|].
  intros H. apply res_bind_Raise in H as [H|(r & _ & H)]; [by eapply peer_claim_class|by eapply IH].
Qed.

(** Every peer of the instance has, for the version, no network or one that parses. *)
Definition peer_readable (v : ipver) (peer : value) : Prop :=
  exists allowed raw, index peer "allowed_ips" = Ok allowed /\ get allowed (family_key v) = Ok raw /\
    (raw = VNone \/ exists n, network_value raw = Some n).
Definition peers_readable (instance : dict) (v : ipver) : Prop :=
  exists peers l, index (VDict instance) "peers" = Ok peers /\ iterate peers = Ok l /\ Forall (peer_readable v) l.

Lemma peer_claim_readable v claims peer : (exists r, peer_claim v claims peer = Ok r) <-> peer_readable v peer.
Proof.
  unfold peer_claim, peer_readable. split.
  - intros [r H]. apply res_bind_Ok in H as (allowed & Ha & H). apply res_bind_Ok in H as (raw & Hr & H). exists allowed, raw.
    split; [done|]. split; [done|]. destruct raw; [by left| | | | | |]; right;
      apply res_bind_Ok in H as (n & Hn%of_option_Ok & _); by exists n.
  - intros (allowed & raw & -> & Hr & H). cbn [res_bind]. rewrite Hr. cbn [res_bind].
    destruct H as [->|[n Hn]]; [by eexists|]. destruct (is_none raw); [by eexists|]. rewrite Hn. by eexists.
Qed.

Lemma claims_of_readable instance v server : (exists claims, claims_of instance v server = Ok claims) <-> peers_readable instance v.
Proof.
  unfold claims_of, peers_readable. generalize [(ip_int (if_ip server), ip_int (if_ip server))]. intros init. split.
  - intros [r H]. apply res_bind_Ok in H as (peers & Hp & H). apply res_bind_Ok in H as (l & Hl & H).
    exists peers, l. split; [done|]. split; [done|]. clear Hp Hl. revert init H. induction l as [|p l IH]; intros init H; [constructor|].
    cbn [foldM_res] in H. apply res_bind_Ok in H as (s & Hs & H). constructor; [|by eapply IH].
    apply (peer_claim_readable _ init). by exists s.
  - intros (peers & l & Hp & Hl & H). rewrite Hp. cbn [res_bind]. rewrite Hl. cbn [res_bind]. clear Hp Hl. revert init.
    induction H as [|p l Hp _ IH]; intros init; [by eexists|]. cbn [foldM_res].
    apply (peer_claim_readable _ init) in Hp as [s ->]. apply IH.
Qed.

Lemma allocation_readable instance v server :
  server_interface instance v = Ok server -> peers_readable instance v ->
  (exists c, allocate_address instance v = Ok (host_text v c) /\
     pool_first server <= c <= pool_last v server /\ ~ taken instance v server c /\
     forall a, pool_first server <= a < c -> taken instance v server a) \/
  allocate_address instance v = Raise (binding_error "address-pool-exhausted") /\
     forall a, pool_first server <= a <= pool_last v server -> taken instance v server a.
Proof.
  intros Hs Hp. apply (claims_of_readable _ _ server) in Hp as [claims Hc]. unfold allocate_address. cbv zeta.
  rewrite Hs. cbn [res_bind]. rewrite Hc. cbn [res_bind].
  apply claims_of_spec in Hc as [Hw Ht]. destruct (skip_lowest (pool_first server) claims Hw) as (H1 & H2 & H3).
  set (c := foldl skip_claim _ _) in *. rewrite Ht in H2. setoid_rewrite Ht in H3.
  destruct (Z.ltb_spec (pool_last v server) c) as [Hex|Hin]; cbn [raise_if res_bind].
  - right. split; [reflexivity|]. intros a Ha. apply H3. lia.
  - left. exists c. split_and!; try done; lia.
Qed.

Lemma allocation_unreadable instance v server :
  server_interface instance v = Ok server -> ~ peers_readable instance v ->
  exists e, allocate_address instance v = Raise e /\ (e = binding_error "invalid-address-pool" \/ exn_class e = AttributeError).
Proof.
  intros Hs Hp. unfold allocate_address. cbv zeta. rewrite Hs. cbn [res_bind].
  destruct (claims_of instance v server) as [claims|e] eqn:Hc.
  { destruct Hp. apply (claims_of_readable _ _ server). by exists claims. }
  apply claims_of_class in Hc. cbn [res_bind]. unfold try_except, caught. unfold reading_error in Hc. destruct e as [cl m]. cbn [exn_class] in *.
  repeat (apply elem_of_cons in Hc as [->|Hc]; [eexists; split; [reflexivity|]; vm_compute; auto|]). by apply not_elem_of_nil in Hc.
Qed.

(** C23: the allocation of a device address takes the lowest address of the pool
    that neither the server nor any network of a peer covers.  It refuses with an
    exhausted pool exactly when the peers can be read and there is no such address;
    when they can be read and there is one, it returns; and when they cannot be
    read, it reports an invalid pool or lets the [AttributeError] of an
    [allowed_ips] that is no mapping through. *)
Theorem allocate_lowest instance v server :
  server_interface instance v = Ok server ->
  (forall s, allocate_address instance v = Ok s -> exists c, s = host_text v c /\
     pool_first server <= c <= pool_last v server /\ ~ taken instance v server c /\
     forall a, pool_first server <= a < c -> taken instance v server a) /\
  (allocate_address instance v = Raise (binding_error "address-pool-exhausted") <->
     peers_readable instance v /\ forall a, pool_first server <= a <= pool_last v server -> taken instance v server a) /\
  (peers_readable instance v -> forall a, pool_first server <= a <= pool_last v server -> ~ taken instance v server a ->
     exists s, allocate_address instance v = Ok s) /\
  (~ peers_readable instance v ->
     exists e, allocate_address instance v = Raise e /\ (e = binding_error "invalid-address-pool" \/ exn_class e = AttributeError)).
Proof.
  intros Hs.
  assert (forall r, allocate_address instance v = r -> (forall e, r = Raise e -> e <> binding_error "invalid-address-pool" /\ exn_class e <> AttributeError) ->
    peers_readable instance v) as Hread.
  { intros r Hr Hne. destruct (claims_of instance v server) as [claims|e] eqn:Hc;
      [apply (claims_of_readable _ _ server); by exists claims|].
    destruct (allocation_unreadable _ _ _ Hs) as (e' & He & Hd).
    - intros Hp. apply (claims_of_readable _ _ server) in Hp as [? ?]. congruence.
    - destruct (Hne e') as [? ?]; [congruence|]. by destruct Hd. }
  split; [|split; [|split]].
  - intros s H. destruct (allocation_readable _ _ _ Hs) as [(c & Hc & ?)|[He _]]; [by eapply Hread| |congruence].
    exists c. split; [congruence|done].
  - split; [|intros [Hp Hall]]; [intros H|].
    + assert (peers_readable instance v) as Hp by (eapply Hread; [exact H|]; by intros e [= <-]). split; [done|].
      destruct (allocation_readable _ _ _ Hs Hp) as [(c & Hc & _)|[_ ?]]; [congruence|done].
    + destruct (allocation_readable _ _ _ Hs Hp) as [(c & _ & Hc & Hn & _)|[? _]]; [by destruct (Hn (Hall c Hc))|done].
  - intros Hp a Ha Hn. destruct (allocation_readable _ _ _ Hs Hp) as [(c & Hc & _)|[_ Hall]]; [by eexists|by destruct (Hn (Hall a Ha))].
  - by apply (allocation_unreadable _ _ server).
Qed.

(** ** A binding is the one peer of its device *)

Definition awg_defaults (ctx : dict) : value := get_default ctx "amneziawg" (VDict []).
Definition awg_cohort (ctx : dict) : value := get_default ctx "amneziawg_cohort" (VDict []).

Record bound_peer (d ctx : dict) (client : value) (b : binding) : Prop := {
  bp_admitted : awg_errors false d (field d "amneziawg_secrets") (awg_defaults ctx) (awg_cohort ctx) = [];
  bp_only : exists instances,
    effective_awg_instances (field d "amneziawg_secrets") (awg_defaults ctx) (awg_cohort ctx) = Ok instances /\
    bd_instance b ∈ instances /\ instances ≫= peers_named client = [bd_peer b];
  bp_peer : bd_peer b ∈ peers_of (bd_instance b) /\ py_eq (field (bd_peer b) "name") client = true;
  bp_device : is_device (bd_peer b) = true;
  bp_registered : registered d client b = Ok true }.

(** A candidate taken from [items]. *)
Definition candidate (client : value) (items : list dict) (b : binding) : Prop :=
  is_device (bd_peer b) = true /\ bd_peer b ∈ peers_named client (bd_instance b) /\ bd_instance b ∈ items.

Lemma binding_steps provider environment client instance l r :
  foldM_res (binding_step provider environment client instance false) l [] = Ok r -> Forall (candidate client l.*2) r.
Proof.
  apply (foldM_res_ind (fun d r => Forall (candidate client d.*2) r)); [constructor|].
  intros d [k item] m m' Hm Hs.
  assert (Forall (candidate client (d ++ [(k, item)])%list.*2) m) as Hm'.
  { eapply Forall_impl; [exact Hm|]. intros b (? & ? & ?). split_and!; try done. rewrite fmap_app. apply elem_of_app. by left. }
  unfold binding_step in Hs. destruct (_ && _); [by injection Hs as <-|].
  destruct (peers_named client item) as [|peer ps] eqn:Hp; [by injection Hs as <-|].
  apply raise_if_seq_Ok in Hs as [Hd [= <-]]. apply Forall_app_2; [done|]. apply Forall_singleton. unfold candidate. simpl.
  rewrite Hp. split_and!; [by apply negb_false_iff|by left|]. rewrite fmap_app. apply elem_of_app. right. by left.
Qed.

Lemma resolve_bound d ctx client host instance b :
  resolve_binding (VDict d) (VDict ctx) client host instance false = Ok b -> bound_peer d ctx client b.
Proof.
  unfold resolve_binding. intros H. apply raise_if_seq_Ok in H as [_ H]. apply res_bind_Ok in H as ([p e] & _ & H).
  apply raise_if_seq_Ok in H as [_ H]. apply raise_if_seq_Ok in H as [Ha H]. cbn [dict_of] in *.
  apply res_bind_Ok in H as (instances & Hi & H). apply raise_if_seq_Ok in H as [_ H].
  apply raise_if_seq_Ok in H as [Hcount H]. apply res_bind_Ok in H as (found & Hf & H).
  apply binding_steps in Hf. destruct found as [|result [|? ?]]; try done. apply Forall_singleton in Hf as (Hdev & Hpeer & Hin).
  replace ((imap pair instances).*2) with instances in Hin.
  2: { apply list_eq. intros k. rewrite list_lookup_fmap, list_lookup_imap. by destruct (instances !! k). }
  destruct (registered d client result) as [[]|ex] eqn:Hr; [|done|by destruct (caught _ ex)]. apply Ok_inj in H as ->.
  pose proof Hpeer as [Hname Hp]%list_elem_of_filter.
  split; [| |done|done|done].
  - apply negb_false_iff, Nat.eqb_eq, nil_length_inv in Ha. exact Ha.
  - exists instances. split; [done|]. split; [done|]. apply Nat.ltb_ge in Hcount.
    assert (bd_peer b ∈ instances ≫= peers_named client) as Hb.
    { apply list_elem_of_bind. by exists (bd_instance b). }
    destruct (instances ≫= peers_named client) as [|x [|y l]]; [by apply not_elem_of_nil in Hb| |simpl in Hcount; lia].
    by apply list_elem_of_singleton in Hb as ->.
Qed.

(** ** A clean registry *)

(** A fold that only appends diagnostics, and ends without any. *)
Lemma foldM_res_appends {A D} (f : list D -> A -> res (list D)) (P : A -> Prop) l s r :
  (forall s x s', f s x = Ok s' -> exists y, s' = (s ++ y)%list /\ (y = [] -> P x)) ->
  foldM_res f l s = Ok r -> exists y, r = (s ++ y)%list /\ (y = [] -> Forall P l).
Proof.
  intros Hf. revert s. induction l as [|x l IH]; intros s; simpl.
  - intros [= <-]. exists []. split; [by rewrite app_nil_r|]. constructor.
  - intros H. apply res_bind_Ok in H as (s1 & Hs & H). apply Hf in Hs as (y & -> & Hy). apply IH in H as (z & -> & Hz).
    exists (y ++ z)%list. split; [by rewrite <-app_assoc|]. intros [-> ->]%app_eq_nil. constructor; auto.
Qed.

Section RegistrySpec.
Context (x25519_public : list Z -> list Z) (sha256_hex : list Z -> string).
Notation public_key := (public_key x25519_public).
Notation bound_errors := (bound_errors x25519_public sha256_hex).
Notation entry_errors := (entry_errors x25519_public sha256_hex).
Notation registry_errors := (registry_errors x25519_public sha256_hex).

(** The registry names the instance of a device peer. *)
Definition registered_peer (registry : dict) (instance peer : value) : Prop :=
  forall kind, get_or peer "address_kind" (VStr "device") = Ok kind -> kind = VStr "device" ->
  exists name e b iname, index peer "name" = Ok name /\ registry_get registry name = Ok (VDict e) /\
    field e "awg_binding" = VDict b /\ index instance "name" = Ok iname /\ py_eq (field b "instance") iname = true.

Lemma peer_errors_clean registry i instance errors j peer r :
  peer_errors registry i instance errors (j, peer) = Ok r ->
  exists y, r = (errors ++ y)%list /\ (y = [] -> registered_peer registry instance peer).
Proof.
  unfold peer_errors. intros H. apply res_bind_Ok in H as (kind & Hk & H). destruct (py_eq kind (VStr "device")) eqn:Hkd; simpl in H.
  2: { injection H as <-. exists []. split; [by rewrite app_nil_r|]. intros _ kind' Hk' ->. rewrite Hk in Hk'.
       injection Hk' as ->. by rewrite (proj2 (py_eq_str _ _) eq_refl) in Hkd. }
  apply res_bind_Ok in H as (name & Hn & H). apply res_bind_Ok in H as (entry & He & H).
  apply res_bind_Ok in H as (missing & Hm & [= <-]). eexists. split; [done|]. destruct missing; [done|]. intros _ _ _ _.
  destruct entry as [| | | | | |e]; try done. destruct (field e "awg_binding") as [| | | | | |b] eqn:Hb; try done.
  apply res_bind_Ok in Hm as (iname & Hi & [= Hm]). exists name, e, b, iname. split_and!; try done. by apply negb_false_iff.
Qed.

Lemma instance_errors_clean registry errors i instance r :
  instance_errors registry errors (i, instance) = Ok r ->
  exists y, r = (errors ++ y)%list /\
    (y = [] -> forall peers peer, instance_peers instance = Ok peers -> peer ∈ peers -> registered_peer registry instance peer).
Proof.
  unfold instance_errors. simpl. intros H. apply res_bind_Ok in H as (peers & Hp & H).
  apply (foldM_res_appends _ (fun p => registered_peer registry instance p.2)) in H as (y & -> & Hy).
  - exists y. split; [done|]. intros Hnil peers' peer Hp' Hin. rewrite Hp in Hp'. injection Hp' as <-.
    specialize (Hy Hnil). rewrite Forall_lookup in Hy. apply list_elem_of_lookup in Hin as [k Hk].
    apply (Hy k (k, peer)). by rewrite list_lookup_imap, Hk.
  - intros s [j peer] s'. apply peer_errors_clean.
Qed.

(** The delivery host of an entry: none, or a host identity among its hosts. *)
Definition delivered (e : dict) : Prop :=
  field e "awg_delivery_host" = VStr "" \/
  exists h p l, field e "awg_delivery_host" = VStr h /\ host_identity (VStr h) = Ok p /\ field e "hosts" = VList l /\ VStr h ∈ l.

(** What an entry's recovery material amounts to: for a bound device, the private
    key gives the public key of its one peer, and the fingerprint, in either case,
    is the first 16 digits of the SHA-256 of that public key. *)
Definition recovers (d ctx : dict) (device : string) (e : dict) : Prop :=
  exists private fingerprint, get_default e "awg_private_key" (VStr "") = VStr private /\
    get_default e "awg_public_key_fingerprint" (VStr "") = VStr fingerprint /\
    ((field e "awg_binding" = VNone /\ private = "" /\ fingerprint = "" /\ retained d device = Ok false) \/
     exists b public derived, bound_peer d ctx (VStr device) b /\ py_eq (identity b) (field e "awg_binding") = true /\
       index (VDict (bd_peer b)) "public_key" = Ok public /\ public_key (VStr private) = Ok derived /\
       py_eq public (VStr derived) = true /\
       lower fingerprint = ("sha256:" +:+ of_chars (take 16 (chars (sha256_hex (ord <$> chars derived)))))%string).

Lemma bound_errors_clean d ctx device bound private fingerprint :
  bound_errors false d (VDict ctx) device bound private fingerprint = Ok [] ->
  exists b public derived, bound_peer d ctx (VStr device) b /\ py_eq (identity b) bound = true /\
    index (VDict (bd_peer b)) "public_key" = Ok public /\ public_key (VStr private) = Ok derived /\
    py_eq public (VStr derived) = true /\
    lower fingerprint = ("sha256:" +:+ of_chars (take 16 (chars (sha256_hex (ord <$> chars derived)))))%string.
Proof.
  unfold DeviceBinding.bound_errors. cbn [negb andb]. destruct (_ || _) eqn:Hp; [done|]. apply orb_false_iff in Hp as [Hp Hpf].
  intros H. apply res_bind_Ok in H as (p & _ & H). apply res_bind_Ok in H as (e & _ & H). apply res_bind_Ok in H as (host & _ & H).
  apply res_bind_Ok in H as (i & _ & H). apply res_bind_Ok in H as (b & Hb & H). apply raise_if_seq_Ok in H as [Hid H].
  apply res_bind_Ok in H as (public & Hpub & H). apply raise_if_seq_Ok in H as [Hfp H]. rewrite Hp in H.
  apply res_bind_Ok in H as (derived & Hd & H). apply raise_if_seq_Ok in H as [Heq _]. apply negb_false_iff in Heq.
  rewrite Hpf in Hfp. cbn [negb andb] in Hfp. apply negb_false_iff, bool_decide_eq_true in Hfp.
  pose proof (proj1 (py_eq_str _ _) Heq) as ->. cbn [str_of] in Hfp.
  exists b, (VStr derived), derived. split_and!; try done; try (by apply negb_false_iff).
  replace (if truthy (VDict ctx) then VDict ctx else VDict []) with (VDict ctx) in Hb by (by destruct ctx).
  by apply resolve_bound in Hb.
Qed.

Lemma delivery_errors_clean device e : delivery_errors device e = [] -> delivered e.
Proof.
  unfold delivery_errors, delivered. intros H. destruct (field e "awg_delivery_host") as [| | | |h| |] eqn:Hd; try done.
  destruct h as [|c h]; [by left|]. right. destruct (host_identity (VStr (String c h))) as [p|] eqn:Hp; [|done].
  destruct (field e "hosts") as [| | | | |l|]; try done. destruct (existsb _ l) eqn:Hl; [|done].
  exists (String c h), p, l. split_and!; try done. apply existsb_exists in Hl as (x & Hx & He). apply list_elem_of_In in Hx.
  destruct x; try done. simpl in He. apply bool_decide_eq_true in He. by rewrite He.
Qed.

Lemma entry_errors_clean d ctx device entry :
  entry_errors false d (VDict ctx) device entry = Ok [] -> exists e, entry = VDict e /\ delivered e /\ recovers d ctx device e.
Proof.
  destruct entry as [| | | | | |e]; try done. unfold DeviceBinding.entry_errors. destruct (negb _); [done|].
  intros H. exists e. split; [done|]. split; [apply delivery_errors_clean with device; repeat case_match; res_inv H; by destruct (delivery_errors device e)|].
  destruct (get_default e "awg_private_key" (VStr "")) as [| | | |private| |] eqn:Hp; try (by injection H as [_ ?]%app_eq_nil).
  destruct (get_default e "awg_public_key_fingerprint" (VStr "")) as [| | | |fingerprint| |] eqn:Hf;
    try (by injection H as [_ ?]%app_eq_nil).
  exists private, fingerprint. split; [done|]. split; [done|].
  assert (forall bound, (let* errors := try_except (bound_errors false d (VDict ctx) device bound private fingerprint)
      [ValueError; KeyError; TypeError; AttributeError]
      (fun _ => Ok [("client_registry." +:+ device +:+ ".awg_binding", "must match the named instance peer and recovery key")])
     in Ok (delivery_errors device e ++ errors)%list) = Ok [] ->
    bound_errors false d (VDict ctx) device bound private fingerprint = Ok []) as Hbound.
  { intros bound Hb. apply res_bind_Ok in Hb as (errors & Hb & [= Hnil]). apply app_eq_nil in Hnil as [_ ->].
    apply try_except_Ok in Hb as [Hb|(ex & _ & _ & [=])]. exact Hb. }
  destruct (field e "awg_binding") as [| | | | | |b] eqn:Hb; try (right; eapply bound_errors_clean, Hbound, H).
  left. apply res_bind_Ok in H as (kept & Hk & [= Hnil]). apply app_eq_nil in Hnil as [_ [Hm Hr]%app_eq_nil].
  destruct kept; [done|]. destruct (bool_decide (private = "")) eqn:H1; [|done].
  destruct (bool_decide (fingerprint = "")) eqn:H2; [|done]. bprop. done.
Qed.

(** C22: when the registry check reports nothing, every device peer of every
    instance is bound by the registry to that instance, and every registry entry
    has no delivery host or one of its own hosts, and either holds no key material
    while no instance has a peer of its name, or its private key is the key of the
    one peer with its name in the whole admitted contract, in the instance that the
    entry names, and its fingerprint, up to case, is the first 16 digits of the
    SHA-256 of that public key. *)
Theorem registry_recovers d ctx registry instances :
  registry_errors false d (VDict ctx) = Ok [] ->
  (if truthy (field d "client_registry") then field d "client_registry" else VDict []) = VDict registry ->
  doc_instances d = Ok instances ->
  (forall instance peers peer, instance ∈ instances -> instance_peers instance = Ok peers -> peer ∈ peers ->
     registered_peer registry instance peer) /\
  (forall device entry, (device, entry) ∈ registry -> exists e, entry = VDict e /\ delivered e /\ recovers d ctx device e).
Proof.
  intros H Hreg Hinst. unfold DeviceBinding.registry_errors in H. rewrite Hreg, Hinst in H. cbn [res_bind] in H.
  apply res_bind_Ok in H as (errors & He & H). apply res_bind_Ok in H as (entries & Hes & [= Hnil]).
  apply app_eq_nil in Hnil as [-> Hnil].
  apply (foldM_res_appends _ (fun p => forall peers peer, instance_peers p.2 = Ok peers -> peer ∈ peers ->
    registered_peer registry p.2 peer)) in He as (y & Hy & Hall).
  2: { intros s [i instance] s'. apply instance_errors_clean. }
  simpl in Hy. subst y. specialize (Hall eq_refl). split.
  - intros instance peers peer Hin. apply list_elem_of_lookup in Hin as [k Hk]. rewrite Forall_lookup in Hall.
    apply (Hall k (k, instance)). by rewrite list_lookup_imap, Hk.
  - intros device entry Hin. apply mapM_res_Ok in Hes. apply list_elem_of_lookup in Hin as [k Hk].
    eapply Forall2_lookup_l in Hes as (es & Hes & Hen); [|exact Hk].
    rewrite <-(list_fmap_id entries) in Hnil. apply mjoin_fmap_nil in Hnil. rewrite Forall_lookup in Hnil.
    specialize (Hnil k es Hes). simpl in Hnil. subst es.
    by apply entry_errors_clean.
Qed.
End RegistrySpec.

(** ** Witnesses *)

Definition first_instance : dict :=
  dict_of (sample_instance "awg0" 51820 "10.8.0.1/24" "fd00:8::1/64" 1
    [sample_peer "phone" 2 3 "10.8.0.2/32" "fd00:8::2/128"; sample_peer "laptop" 4 5 "10.8.0.3/32" "fd00:8::3/128"]).
Definition first_server (v : ipver) : interface :=
  default (Interface (IP V4 0 None) (Network (IP V4 0 None) 0))
    (match server_interface first_instance v with Ok i => Some i | Raise _ => None end).

Lemma allocate_lowest_witness :
  allocate_address first_instance V4 = Ok "10.8.0.4/32" /\ allocate_address first_instance V6 = Ok "fd00:8::4/128" /\
  exists c, "10.8.0.4/32" = host_text V4 c /\ ~ taken first_instance V4 (first_server V4) c.
Proof.
  split; [vm_compute; reflexivity|]. split; [vm_compute; reflexivity|].
  assert (server_interface first_instance V4 = Ok (first_server V4)) as Hs by (vm_compute; reflexivity).
  destruct (allocate_lowest first_instance V4 (first_server V4) Hs) as [H _].
  destruct (H "10.8.0.4/32") as (c & Hc & _ & Ht & _); [vm_compute; reflexivity|]. by exists c.
Defined.

Definition sample_entry (instance : string) (key : Z) : value :=
  VDict [("status", VStr "active"); ("hosts", VList [VStr "hetzner:prod"]); ("awg_delivery_host", VStr "hetzner:prod");
         ("awg_binding", VDict [("provider", VStr "hetzner"); ("environment", VStr "prod"); ("instance", VStr instance)]);
         ("awg_private_key", sample_key key); ("awg_public_key_fingerprint", VStr "sha256:0123456789abcdef")].
Definition idle_entry : value :=
  VDict [("status", VStr "revoked"); ("awg_delivery_host", VStr ""); ("awg_binding", VNone);
         ("awg_private_key", VStr ""); ("awg_public_key_fingerprint", VStr "")].
Definition sample_registry : dict :=
  [("phone", sample_entry "awg0" 2); ("laptop", sample_entry "awg0" 4); ("tablet", sample_entry "awg1" 8); ("old", idle_entry)].
Definition sample_document : dict :=
  (sample_source ++ [("amneziawg_secrets", sample_contract); ("client_registry", VDict sample_registry)])%list.

Lemma registry_recovers_witness :
  registry_errors (fun l => l) (fun _ => "0123456789abcdef0123") false sample_document (VDict []) = Ok [] /\
  (forall device entry, (device, entry) ∈ sample_registry ->
    exists e, entry = VDict e /\ delivered e /\
      recovers (fun l => l) (fun _ => "0123456789abcdef0123") sample_document [] device e).
Proof.
  assert (registry_errors (fun l => l) (fun _ => "0123456789abcdef0123") false sample_document (VDict []) = Ok []) as H
    by (vm_compute; reflexivity).
  split; [exact H|].
  refine (proj2 (registry_recovers (fun l => l) (fun _ => "0123456789abcdef0123") sample_document [] sample_registry
    (match doc_instances sample_document with Ok l => l | Raise _ => [] end) H _ _)); vm_compute; reflexivity.
Defined.
