(* ===== verification/DeviceCredentials.v ===== *)
(** * Device credentials across the fleet

    [scripts/device_lifecycle_credentials.py]: where a device's credentials are
    ([collections], [discover]) and the removal of what it has ([revoke]); its
    enrolment ([issue]) is in [DeviceIssue]. *)

From S2P Require Import Prelude PyValue PyStr Regex IPAddr IPNet AwgProfile AwgContract TransportAdmission ListenerCollisions DeviceBinding.
#[local] Open Scope string_scope.
#[local] Open Scope Z_scope.

Definition FLAGS : list (string * list string) :=
  [("xray", ["enable_xray_reality"; "enable_nginx_xhttp"]); ("hysteria", ["enable_hysteria"]);
   ("awg", ["enable_amneziawg"]); ("snell", ["enable_snell"]); ("naive", ["enable_naive"])].

Definition flag_value (vpn : value) (flag : string) : res value :=
  get_or vpn flag (VBool (bool_decide (flag = "enable_xray_reality"))).

(** [enabled], as the kinds in the order of [FLAGS]. *)
Definition enabled (resolved : dict) : res (list string) :=
  let vpn := get_default resolved "vpn" (VDict []) in
  let* flags := mapM_res (fun kf => mapM_res (flag_value vpn) kf.2) FLAGS in
  raise_if (negb (forallb is_bool (mjoin flags))) (value_error "invalid-device-profile") ;;;
  let* on := mapM_res (fun kf : string * list string =>
    let* vs := mapM_res (flag_value vpn) kf.2 in Ok (kf.1, existsb truthy vs)) FLAGS in
  Ok ((filter (fun p : string * bool => p.2 = true) on).*1).

(** ** Where credentials are *)

Definition SECTIONS : list (string * string) := [("xray", "xray"); ("hysteria", "hysteria"); ("naive", "naive_secrets")].

(** [document.get(section, {}).get(key, [])], iterated *)
Definition nested (doc : dict) (section key : string) : res (list value) :=
  let* l := get_or (get_default doc section (VDict [])) key (VList []) in iterate l.

(** [for kind, block, field in collections(document)]: the generator finds the
    next block only when the body is done with the one before. *)
Definition fold_collections {S} (f : string -> value -> string -> S -> res S) (doc : dict) (s : S) : res S :=
  let* s := foldM_res (fun s kd => match dget kd.2 doc with Some block => f kd.1 block "clients" s | None => Ok s end) SECTIONS s in
  let* instances := nested doc "amneziawg_secrets" "instances" in
  let* s := foldM_res (fun s block => f "awg" block "peers" s) instances s in
  let* variants := nested doc "snell_secrets" "variants" in
  foldM_res (fun s block => f "snell" block "users" s) variants s.

Notation found := (list (string * Z)) (only parsing).

Definition named_row (name : string) (row : value) : bool := py_eq (field (dict_of row) "name") (VStr name).

(** The checks on one collection, and the count of the device's rows in it. *)
Definition count_rows (name kind : string) (rows : value) (s : found) : res found :=
  raise_if (negb (is_list rows) || (256 <? length (list_of rows))%nat || negb (forallb is_dict (list_of rows)))
    (value_error "invalid-device-authority") ;;;
  let* names := py_set ((fun row => field (dict_of row) "name") <$> list_of rows) in
  raise_if (negb (length names =? length (list_of rows))%nat) (value_error "invalid-device-authority") ;;;
  let matching := filter (fun row => named_row name row = true) (list_of rows) in
  raise_if (existsb (fun row => negb (py_eq (get_default (dict_of row) "address_kind" (VStr "device")) (VStr "device"))) matching)
    (value_error "routed-peer-is-not-device") ;;;
  Ok (match matching with [] => s | _ => dset kind (default 0 (dget kind s) + Z.of_nat (length matching)) s end).

Definition discover_step (name kind : string) (block : value) (fld : string) (s : found) : res found :=
  let* rows := get block fld in count_rows name kind rows s.

Definition registry_count (name : string) (doc : dict) (s : found) : res found :=
  match get_default doc "client_registry" (VDict []) with
  | VDict registry =>
      match dget name registry with
      | Some (VDict _) => Ok (dset "registry" 1 s)
      | Some _ => Raise (value_error "invalid-device-registry")
      | None => Ok s
      end
  | _ => Raise (Exn TypeError "invalid-device-registry")
  end.

(** [discover]; [name] is a [str]. *)
Definition discover (doc : dict) (name : string) : res found :=
  raise_if (negb (fullmatch NAME name)) (value_error "invalid-device-name") ;;;
  let* s := fold_collections (discover_step name) doc [] in
  registry_count name doc s.

(** ** Revocation *)

(** [block[field] = [row for row in block[field] if row["name"] != name]] *)
Definition without_rows (name : string) (block : value) (fld : string) : res value :=
  let* rows := index block fld in
  let* rows := iterate rows in
  let* kept := mapM_res (fun row => let* n := index row "name" in Ok (row, py_eq n (VStr name))) rows in
  Ok (VDict (dset fld (VList (filter (fun p => p.2 = false) kept).*1) (dict_of block))).

(** Rewrite the elements of the list [doc[section][key]] in place. *)
Definition rewrite_nested (f : value -> res value) (doc : dict) (section key : string) : res dict :=
  let* l := nested doc section key in
  let* l' := mapM_res f l in
  Ok (match l' with
      | [] => doc
      | _ => dset section (VDict (dset key (VList l') (dict_of (field doc section)))) doc
      end).

Definition revoke_section (name : string) (doc : dict) (kd : string * string) : res dict :=
  match dget kd.2 doc with
  | Some block => let* block := without_rows name block "clients" in Ok (dset kd.2 block doc)
  | None => Ok doc
  end.

Definition without_client (name : string) (cohort : value) : res value :=
  let* clients := index cohort "clients" in
  let* clients := iterate clients in
  Ok (VDict (dset "clients" (VList (filter (fun c => py_eq c (VStr name) = false) clients)) (dict_of cohort))).

Definition revoked_fields : dict :=
  [("status", VStr "revoked"); ("awg_binding", VNone); ("awg_private_key", VStr ""); ("awg_public_key_fingerprint", VStr "");
   ("awg_delivery_host", VStr ""); ("last_payload_identity", VDict []); ("token_hash_prefix", VStr ""); ("formats", VList [])].
Definition revoked_entry (e : dict) : dict :=
  filter (fun kv => kv.1 <> "migration_delivery") (dmerge e revoked_fields).

Definition revoke_registry (name : string) (doc : dict) : res dict :=
  match get_default doc "client_registry" (VDict []) with
  | VDict registry =>
      match dget name registry with
      | None | Some VNone => Ok doc
      | Some (VDict e) => Ok (dset "client_registry" (VDict (dset name (VDict (revoked_entry e)) registry)) doc)
      | Some _ => Raise (Exn AttributeError "update")
      end
  | _ => Raise (Exn AttributeError "get")
  end.

Definition revoke_document (name : string) (doc : dict) : res dict :=
  let* s := discover doc name in
  match s with
  | [] => Ok doc
  | _ =>
      let* doc := foldM_res (revoke_section name) SECTIONS doc in
      let* doc := rewrite_nested (fun block => without_rows name block "peers") doc "amneziawg_secrets" "instances" in
      let* doc := rewrite_nested (fun block => without_rows name block "users") doc "snell_secrets" "variants" in
      let* doc := rewrite_nested (without_client name) doc "xray" "cohorts" in
      revoke_registry name doc
  end.

(** [revoke] *)
Definition revoke (documents : list (string * dict)) (name : string) : res (list (string * dict)) :=
  mapM_res (fun hd : string * dict => let* doc := revoke_document name hd.2 in Ok (hd.1, doc)) documents.

(** * What revocation leaves *)

(** [collections] as a list, when every section can be read. *)
Definition collection : Type := string * value * string.
Definition collections (doc : dict) : res (list collection) :=
  let* instances := nested doc "amneziawg_secrets" "instances" in
  let* variants := nested doc "snell_secrets" "variants" in
  Ok (omap (fun kd : string * string => block ← dget kd.2 doc; Some (kd.1, block, "clients")) SECTIONS
      ++ ((fun block => ("awg", block, "peers")) <$> instances)
      ++ ((fun block => ("snell", block, "users")) <$> variants))%list.

Definition step_on {S} (f : string -> value -> string -> S -> res S) (s : S) (c : collection) : res S :=
  f c.1.1 c.1.2 c.2 s.

Lemma foldM_res_app {A S} (f : S -> A -> res S) l k s :
  foldM_res f (l ++ k)%list s = (let* s := foldM_res f l s in foldM_res f k s).
Proof. revert s. induction l as [|x l IH]; intros s; simpl; [done|]. destruct (f s x); simpl; auto. Qed.

Lemma foldM_res_fmap {A B S} (f : S -> B -> res S) (g : A -> B) l s :
  foldM_res f (g <$> l) s = foldM_res (fun s x => f s (g x)) l s.
Proof. revert s. induction l as [|x l IH]; intros s; simpl; [done|]. destruct (f s (g x)); simpl; auto. Qed.

Lemma foldM_res_omap {A B S} (f : S -> B -> res S) (g : A -> option B) l s :
  foldM_res f (omap g l) s = foldM_res (fun s x => match g x with Some y => f s y | None => Ok s end) l s.
Proof.
  revert s. induction l as [|x l IH]; intros s; [done|].
  change (omap g (x :: l)) with (match g x with Some y => y :: omap g l | None => omap g l end).
  destruct (g x) as [y|] eqn:Hg; cbn [foldM_res]; rewrite Hg; cbn [res_bind]; [|apply IH].
  destruct (f s y); simpl; auto.
Qed.

Lemma foldM_res_ext {A S} (f g : S -> A -> res S) l s :
  (forall s x, f s x = g s x) -> foldM_res f l s = foldM_res g l s.
Proof. intros H. revert s. induction l as [|x l IH]; intros s; simpl; [done|]. rewrite H. destruct (g s x); simpl; auto. Qed.

Lemma sections_fold {S} (f : string -> value -> string -> S -> res S) doc s :
  foldM_res (step_on f) (omap (fun kd : string * string => block ← dget kd.2 doc; Some (kd.1, block, "clients")) SECTIONS) s
  = foldM_res (fun s kd => match dget kd.2 doc with Some block => f kd.1 block "clients" s | None => Ok s end) SECTIONS s.
Proof. rewrite foldM_res_omap. apply foldM_res_ext. intros s' kd. by destruct (dget kd.2 doc). Qed.

(** A pass over the document is a pass over that list. *)
Lemma fold_collections_Ok {S} (f : string -> value -> string -> S -> res S) doc s r :
  fold_collections f doc s = Ok r <-> exists l, collections doc = Ok l /\ foldM_res (step_on f) l s = Ok r.
Proof.
  unfold fold_collections, collections. split.
  - intros H. res_inv H. eexists. rewrite Ha0, Ha2. split; [reflexivity|].
    rewrite foldM_res_app, sections_fold, Ha. cbn [res_bind].
    rewrite foldM_res_app, foldM_res_fmap. unfold step_on at 1. cbn [fst snd]. rewrite Ha1. cbn [res_bind].
    rewrite foldM_res_fmap. exact H.
  - intros (l & Hl & H). res_inv Hl. subst l. rewrite foldM_res_app, sections_fold in H.
    apply res_bind_Ok in H as (s1 & -> & H). cbn [res_bind]. rewrite Ha. cbn [res_bind].
    rewrite foldM_res_app, foldM_res_fmap in H. apply res_bind_Ok in H as (s2 & H2 & H).
    unfold step_on in H2. cbn [fst snd] in H2. rewrite H2. cbn [res_bind]. rewrite Ha0. cbn [res_bind].
    rewrite foldM_res_fmap in H. exact H.
Qed.

(** ** One collection *)

Lemma all_distinct_sublist l k : sublist k l -> all_distinct l = true -> all_distinct k = true.
Proof.
  induction 1 as [|x k l Hs IH|x k l Hs IH]; [done| |]; rewrite ?all_distinct_cons.
  - intros [Hx Hl]. split; [|auto]. apply existsb_false in Hx. apply existsb_false.
    apply sublist_submseteq in Hs. rewrite Forall_forall in Hx |- *. intros y Hy. apply Hx. by eapply elem_of_submseteq.
  - intros [_ Hl]. auto.
Qed.

Lemma py_set_distinct l :
  (exists r, py_set l = Ok r /\ (length r =? length l)%nat = true) <-> forallb hashable l = true /\ all_distinct l = true.
Proof.
  unfold py_set, all_distinct. destruct (forallb hashable l); split; intros H; try done.
  - destruct H as (r & [= <-] & H). by split.
  - destruct H as [_ H]. by eexists.
  - by destruct H as (r & ? & _).
  - by destruct H.
Qed.

Definition row_name (row : value) : value := field (dict_of row) "name".
Definition rows_ok (rows : value) : Prop :=
  exists l, rows = VList l /\ (length l <= 256)%nat /\ Forall (fun row => is_dict row = true) l /\
    Forall (fun row => hashable (row_name row) = true) l /\ all_distinct (row_name <$> l) = true.
Definition matching (name : string) (rows : value) : list value :=
  filter (fun row => named_row name row = true) (list_of rows).
Definition device_row (row : value) : bool :=
  py_eq (get_default (dict_of row) "address_kind" (VStr "device")) (VStr "device").

(** What the pass over one collection says. *)
Lemma count_rows_Ok name kind rows s r :
  count_rows name kind rows s = Ok r <->
  rows_ok rows /\ Forall (fun row => device_row row = true) (matching name rows) /\
  r = match matching name rows with [] => s | m => dset kind (default 0 (dget kind s) + Z.of_nat (length m)) s end.
Proof.
  unfold count_rows, matching, rows_ok. split.
  - intros H. res_inv H. rewrite !orb_false_iff in Hg. destruct Hg as [[Hl Hn] Hd]. bprop.
    apply is_list_true in Hl as [l ->]. cbn [list_of] in *.
    assert (forallb hashable (row_name <$> l) = true /\ all_distinct (row_name <$> l) = true) as [Hh Ha'].
    { apply py_set_distinct. exists a. split; [exact Ha|]. rewrite length_fmap. by apply Nat.eqb_eq. }
    split; [|split].
    + exists l. split; [done|]. apply forallb_true in Hh. rewrite Forall_fmap in Hh.
      split; [lia|]. split; [by apply forallb_true|]. by split.
    + apply existsb_false in Hg1. eapply Forall_impl; [exact Hg1|]. intros row. unfold device_row. by destruct (py_eq _ _).
    + rewrite <-H. by destruct (filter _ l).
  - intros ((l & -> & Hn & Hd & Hh & Ha) & Hm & ->). cbn [is_list list_of] in *.
    apply forallb_true in Hd. rewrite Hd. rewrite (proj2 (Nat.ltb_ge 256 (length l)) Hn). cbn [negb orb raise_if res_bind].
    destruct (proj2 (py_set_distinct (row_name <$> l))) as (names & Hs & Hlen).
    { split; [|done]. apply forallb_true. by rewrite Forall_fmap. }
    unfold row_name in Hs. rewrite Hs. cbn [res_bind]. rewrite length_fmap in Hlen. rewrite Hlen. cbn [negb raise_if res_bind].
    rewrite (proj2 (existsb_false _ _)); [by destruct (filter _ l)|]. eapply Forall_impl; [exact Hm|]. intros row. unfold device_row.
    by intros ->.
Qed.

Definition kept_rows (name : string) (l : list value) : list value :=
  filter (fun row => named_row name row = false) l.

Lemma index_Ok v k x : index v k = Ok x <-> exists d, v = VDict d /\ dget k d = Some x.
Proof.
  destruct v as [| | | | | |d]; simpl; try (by split; [|intros (? & ? & ?)]).
  rewrite of_option_Ok. split; [by intros; exists d | by intros (? & [= <-] & ?)].
Qed.

Lemma without_rows_Ok name block fld block' l :
  without_rows name block fld = Ok block' -> get block fld = Ok (VList l) ->
  get block' fld = Ok (VList (kept_rows name l)).
Proof.
  intros H Hl. unfold without_rows in H. res_inv H. apply index_Ok in Ha as (d & -> & Hd).
  cbn [get] in Hl. rewrite Hd in Hl. injection Hl as ->. cbn in Ha0. injection Ha0 as <-. subst block'.
  cbn [get dict_of]. rewrite dget_dset, decide_True by done. cbn [default]. unfold id. do 2 f_equal.
  unfold kept_rows. clear Hd. apply mapM_res_Ok in Ha1. induction Ha1 as [|row p l a1 Hrow _ IH]; [done|].
  res_inv Hrow. subst p. apply index_Ok in Ha as (r & -> & Hr). rewrite !filter_cons. cbn [snd].
  assert (named_row name (VDict r) = py_eq a (VStr name)) as Hn by (unfold named_row, field; cbn [dict_of]; by rewrite Hr).
  destruct (py_eq a (VStr name)).
  - rewrite decide_False by done. rewrite decide_False by congruence. done.
  - rewrite decide_True by done. rewrite decide_True by congruence. csimpl. by f_equal.
Qed.

Lemma kept_rows_sublist name l : sublist (kept_rows name l) l.
Proof. apply sublist_filter. Qed.

Lemma rows_ok_kept name l : rows_ok (VList l) -> rows_ok (VList (kept_rows name l)).
Proof.
  intros (l' & [= <-] & Hn & Hd & Hh & Ha). exists (kept_rows name l). pose proof (kept_rows_sublist name l) as Hs.
  split; [done|]. split; [apply sublist_length in Hs; lia|].
  split; [by apply Forall_filter_keep|]. split; [by apply Forall_filter_keep|].
  eapply all_distinct_sublist; [|exact Ha]. unfold kept_rows. clear. induction l as [|x l IH]; [constructor|].
  rewrite filter_cons. case_decide; csimpl; by constructor.
Qed.

Lemma matching_other name other l :
  name <> other -> matching other (VList (kept_rows name l)) = matching other (VList l).
Proof.
  intros Hne. unfold matching, kept_rows. cbn [list_of]. rewrite list_filter_filter.
  apply list_filter_iff. intros row. split; [by intros []|]. intros H. split; [done|].
  unfold named_row in *. apply py_eq_str in H. rewrite H. simpl. by apply bool_decide_eq_false.
Qed.
Lemma matching_revoked name l : matching name (VList (kept_rows name l)) = [].
Proof.
  unfold matching, kept_rows. cbn [list_of]. rewrite list_filter_filter.
  induction l as [|row l IH]; [done|]. rewrite filter_cons, decide_False; [done|]. by intros [-> ?].
Qed.

(** Revocation of one device does not change what is found of another, and
    nothing is found of the device. *)
Lemma count_rows_other name other kind l s r :
  name <> other -> count_rows other kind (VList l) s = Ok r -> count_rows other kind (VList (kept_rows name l)) s = Ok r.
Proof.
  intros Hne (Hok & Hd & ->)%count_rows_Ok. apply count_rows_Ok. rewrite matching_other by done.
  split; [by apply rows_ok_kept | by split].
Qed.
Lemma count_rows_revoked name kind l s s' r :
  count_rows name kind (VList l) s = Ok r -> count_rows name kind (VList (kept_rows name l)) s' = Ok s'.
Proof.
  intros (Hok & _ & _)%count_rows_Ok. apply count_rows_Ok. rewrite matching_revoked.
  split; [by apply rows_ok_kept | by split].
Qed.

(** ** The document *)

Lemma nested_dset_other doc section' v section key :
  section <> section' -> nested (dset section' v doc) section key = nested doc section key.
Proof. intros Hne. unfold nested, get_default. by rewrite dget_dset, decide_False. Qed.

(** A rewritten list holds the rewritten elements, and nothing else changes. *)
Lemma rewrite_nested_Ok f doc section key doc' :
  rewrite_nested f doc section key = Ok doc' ->
  exists l l', nested doc section key = Ok l /\ mapM_res f l = Ok l' /\ nested doc' section key = Ok l' /\
    (forall k, k <> section -> dget k doc' = dget k doc) /\
    (forall b, dget section doc = Some b -> exists b', dget section doc' = Some b' /\
       forall k, k <> key -> get b' k = get b k) /\
    (dget section doc = None -> dget section doc' = None).
Proof.
  intros H. unfold rewrite_nested in H. apply res_bind_Ok in H as (l & Hl & H). apply res_bind_Ok in H as (l' & Hf & H).
  injection H as H. exists l, l'. split; [done|]. split; [done|]. destruct l' as [|x l'].
  - subst doc'. assert (l = []) as -> by (apply mapM_res_Ok in Hf; by inversion Hf).
    split; [done|]. split; [done|]. split; [|done]. intros b Hb. exists b. by split.
  - assert (exists d, dget section doc = Some (VDict d)) as [d Hd].
    { destruct l as [|y l]; [done|]. unfold nested, get_default in Hl.
      destruct (dget section doc) as [[| | | | | |d]|]; try done. by exists d. }
    unfold field in H. rewrite Hd in H. cbn [default dict_of] in H. subst doc'.
    split; [|split; [|split]].
    + unfold nested, get_default. rewrite dget_dset, decide_True by done. cbn. by rewrite dget_dset, decide_True.
    + intros k Hk. by rewrite dget_dset, decide_False.
    + intros b Hb. assert (b = VDict d) as -> by congruence. eexists. rewrite dget_dset, decide_True by done.
      split; [done|]. intros k Hk. simpl. by rewrite dget_dset, decide_False.
    + congruence.
Qed.

(** One section with its rows removed. *)
Definition section_revoked (name : string) (doc doc' : dict) (section : string) : Prop :=
  match dget section doc with
  | Some block => exists block', without_rows name block "clients" = Ok block' /\ dget section doc' = Some block'
  | None => dget section doc' = None
  end.

Lemma revoke_section_Ok name doc kd doc' :
  revoke_section name doc kd = Ok doc' ->
  section_revoked name doc doc' kd.2 /\ forall k, k <> kd.2 -> dget k doc' = dget k doc.
Proof.
  unfold revoke_section, section_revoked. intros H. destruct (dget kd.2 doc) as [block|] eqn:Hd.
  - res_inv H. subst doc'. split.
    + exists a. split; [done|]. by rewrite dget_dset, decide_True.
    + intros k Hk. by rewrite dget_dset, decide_False.
  - injection H as <-. by split.
Qed.

Lemma revoke_sections_Ok name doc doc' :
  foldM_res (revoke_section name) SECTIONS doc = Ok doc' ->
  Forall (section_revoked name doc doc') (SECTIONS.*2) /\ forall k, k ∉ SECTIONS.*2 -> dget k doc' = dget k doc.
Proof.
  intros H. unfold SECTIONS in *. cbn [foldM_res] in H.
  apply res_bind_Ok in H as (d1 & H1 & H). apply res_bind_Ok in H as (d2 & H2 & H). apply res_bind_Ok in H as (d3 & H3 & [= <-]).
  apply revoke_section_Ok in H1 as [S1 E1], H2 as [S2 E2], H3 as [S3 E3]. cbn [snd] in *. csimpl. split.
  - unfold section_revoked in *. repeat constructor.
    + rewrite E3, E2 by done. exact S1.
    + rewrite E3 by done. by rewrite <-E1 by done.
    + rewrite <-E1, <-E2 by done. exact S3.
  - intros k Hk. rewrite E3, E2, E1; [done| | |]; intros ->; apply Hk; set_solver.
Qed.

Lemma nested_ext d d' section key : dget section d = dget section d' -> nested d section key = nested d' section key.
Proof. unfold nested, get_default. by intros ->. Qed.

Lemma revoke_registry_Ok name doc doc' :
  revoke_registry name doc = Ok doc' -> forall k, k <> "client_registry" -> dget k doc' = dget k doc.
Proof.
  unfold revoke_registry. intros H k Hk. destruct (get_default _ _ _) as [| | | | | |registry]; try done.
  destruct (dget name registry) as [[| | | | | |e]|]; try done; injection H as <-; try done.
  by rewrite dget_dset, decide_False.
Qed.

Definition collection_revoked (name : string) (c c' : collection) : Prop :=
  c.1.1 = c'.1.1 /\ c.2 = c'.2 /\ exists b, without_rows name c.1.2 c.2 = Ok b /\ get c'.1.2 c.2 = get b c.2.

Lemma sections_revoked name doc doc' :
  Forall (fun s => match dget s doc with
    | Some block => exists b b', without_rows name block "clients" = Ok b /\ dget s doc' = Some b' /\ get b' "clients" = get b "clients"
    | None => dget s doc' = None end) (SECTIONS.*2) ->
  Forall2 (collection_revoked name)
    (omap (fun kd : string * string => block ← dget kd.2 doc; Some (kd.1, block, "clients")) SECTIONS)
    (omap (fun kd : string * string => block ← dget kd.2 doc'; Some (kd.1, block, "clients")) SECTIONS).
Proof.
  generalize SECTIONS. intros l H. induction l as [|kd l IH]; [constructor|].
  rewrite fmap_cons, Forall_cons in H. destruct H as [H Hl]. specialize (IH Hl).
  cbn [omap list_omap]. destruct (dget kd.2 doc) as [block|]; [|by rewrite H].
  destruct H as (b & b' & Hb & Hd & Hg). rewrite Hd. cbn. constructor; [|exact IH].
  split; [done|]. split; [done|]. by exists b.
Qed.

Lemma blocks_revoked name (kind fld : string) l l' :
  mapM_res (fun block => without_rows name block fld) l = Ok l' ->
  Forall2 (collection_revoked name) ((fun block => (kind, block, fld)) <$> l) ((fun block => (kind, block, fld)) <$> l').
Proof.
  intros H%mapM_res_Ok. rewrite Forall2_fmap. eapply Forall2_impl; [exact H|]. intros b b' Hb.
  split; [done|]. split; [done|]. by exists b'.
Qed.

(** Revocation goes over exactly the collections that discovery reads. *)
Lemma collections_revoked name doc l d1 d2 d3 d4 doc' :
  collections doc = Ok l ->
  foldM_res (revoke_section name) SECTIONS doc = Ok d1 ->
  rewrite_nested (fun block => without_rows name block "peers") d1 "amneziawg_secrets" "instances" = Ok d2 ->
  rewrite_nested (fun block => without_rows name block "users") d2 "snell_secrets" "variants" = Ok d3 ->
  rewrite_nested (without_client name) d3 "xray" "cohorts" = Ok d4 ->
  revoke_registry name d4 = Ok doc' ->
  exists l', collections doc' = Ok l' /\ Forall2 (collection_revoked name) l l'.
Proof.
  intros Hl H1 H2 H3 H4 H5. unfold collections in Hl. res_inv Hl. subst l.
  apply revoke_sections_Ok in H1 as [S1 E1].
  apply rewrite_nested_Ok in H2 as (i & i' & Hi & Mi & Ni & E2 & _ & _).
  apply rewrite_nested_Ok in H3 as (v & v' & Hv & Mv & Nv & E3 & _ & _).
  apply rewrite_nested_Ok in H4 as (_ & _ & _ & _ & _ & E4 & X4 & N4).
  pose proof (revoke_registry_Ok _ _ _ H5) as E5.
  assert (i = a) as -> by (rewrite (nested_ext d1 doc) in Hi by (apply E1; set_solver); congruence).
  assert (v = a0) as -> by (rewrite (nested_ext d2 d1), (nested_ext d1 doc) in Hv by (first [by apply E2 | apply E1; set_solver]); congruence).
  unfold collections. rewrite (nested_ext doc' d2) by (by rewrite E5, E4, E3). rewrite Ni. cbn [res_bind].
  rewrite (nested_ext doc' d3) by (by rewrite E5, E4). rewrite Nv. cbn [res_bind].
  eexists. split; [reflexivity|]. apply Forall2_app; [|apply Forall2_app; by apply blocks_revoked].
  apply sections_revoked. unfold section_revoked in S1. rewrite Forall_forall in S1 |- *. intros s Hs. specialize (S1 s Hs).
  assert (dget s doc' = dget s d4) as -> by (apply E5; unfold SECTIONS in Hs; set_solver).
  assert (dget s d3 = dget s d1) as E31 by (rewrite E3, E2 by (unfold SECTIONS in Hs; set_solver); done).
  destruct (decide (s = "xray")) as [->|Hx].
  - destruct (dget "xray" doc) as [block|]; [|apply N4; by rewrite E31].
    destruct S1 as (b & Hb & Hd). destruct (X4 b) as (b' & Hb' & Hg); [by rewrite E31|].
    exists b, b'. split; [done|]. split; [done|]. by apply Hg.
  - rewrite E4, E31 by done. destruct (dget s doc) as [block|]; [|done].
    destruct S1 as (b & Hb & Hd). by exists b, b.
Qed.

Lemma discover_step_revoked name device (s s' r : list (string * Z)) c c' :
  collection_revoked name c c' -> step_on (discover_step device) s c = Ok r ->
  step_on (discover_step device) s' c' = if decide (device = name) then Ok s' else step_on (discover_step device) s' c.
Proof.
  intros (Hk & Hf & b & Hb & Hg) H. unfold step_on, discover_step in *.
  apply res_bind_Ok in H as (rows & Hr & H). pose proof (proj1 (count_rows_Ok _ _ _ _ _) H) as [(l & -> & Hl) [Hd _]].
  rewrite <-Hk, <-Hf, Hg, Hr. rewrite (without_rows_Ok _ _ _ _ _ Hb Hr). cbn [res_bind].
  case_decide as Hn; [subst; by eapply count_rows_revoked|].
  assert (exists x, count_rows device c.1.1 (VList l) s' = Ok x) as [x Hx].
  { eexists. apply count_rows_Ok. split; [by exists l|]. by split. }
  rewrite Hx. by apply count_rows_other.
Qed.

Lemma discover_fold_revoked name device l l' s s' r :
  Forall2 (collection_revoked name) l l' -> foldM_res (step_on (discover_step device)) l s = Ok r ->
  foldM_res (step_on (discover_step device)) l' s' =
    if decide (device = name) then Ok s' else foldM_res (step_on (discover_step device)) l s'.
Proof.
  intros HR. revert s s' r. induction HR as [|c c' l l' Hc _ IH]; intros s s' r; cbn [foldM_res].
  - intros _. by case_decide.
  - intros (s1 & H1 & H)%res_bind_Ok. rewrite (discover_step_revoked _ _ _ s' _ _ _ Hc H1).
    case_decide as Hd; cbn [res_bind].
    + by rewrite (IH _ _ _ H).
    + destruct (step_on (discover_step device) s' c) as [s2|e]; cbn [res_bind]; [|done].
      by rewrite (IH _ _ _ H).
Qed.

Definition registry_entry (doc : dict) (name : string) : option value :=
  match get_default doc "client_registry" (VDict []) with VDict registry => dget name registry | _ => None end.

Lemma dget_filter_out {A} k m (d : list (string * A)) :
  dget k (filter (fun kv => kv.1 <> m) d) = if decide (k = m) then None else dget k d.
Proof.
  induction d as [|[k0 v] d IH]; [by case_decide|]. rewrite filter_cons. cbn [fst].
  destruct (decide (k0 <> m)) as [H0|H0]; cbn [dget]; [destruct (decide (k = k0)) as [->|Hk]|]; rewrite ?IH; [|done|].
  - by rewrite decide_False.
  - apply dec_stable in H0 as ->. repeat case_decide; congruence.
Qed.

(** The entry of a revoked device: no binding, no key material, no delivery. *)
Definition entry_revoked (e : dict) : Prop :=
  (forall k v, (k, v) ∈ revoked_fields -> dget k e = Some v) /\ dget "migration_delivery" e = None.

Lemma revoked_entry_revoked e : entry_revoked (revoked_entry e).
Proof.
  unfold entry_revoked, revoked_entry. split; [|by rewrite dget_filter_out].
  intros k v Hkv. rewrite dget_filter_out.
  assert (k <> "migration_delivery") as Hk by (intros ->; unfold revoked_fields in Hkv; set_solver).
  rewrite decide_False by done. unfold dmerge, revoked_fields in *. cbn [foldl fst snd]. rewrite !dget_dset.
  repeat (apply elem_of_cons in Hkv as [[= -> ->]|Hkv]; [vm_compute; reflexivity|]). by apply not_elem_of_nil in Hkv.
Qed.

Lemma revoke_registry_entry name doc doc' device :
  revoke_registry name doc = Ok doc' ->
  registry_entry doc' device =
    match registry_entry doc device with
    | Some (VDict e) => Some (VDict (if decide (device = name) then revoked_entry e else e))
    | x => x
    end.
Proof.
  unfold revoke_registry, registry_entry. intros H. destruct (get_default doc _ _) as [| | | | | |registry] eqn:Hg; try done.
  assert (doc' = doc -> dget name registry = None \/ dget name registry = Some VNone -> match get_default doc' "client_registry" (VDict []) with VDict r => dget device r | _ => None end =
    match dget device registry with Some (VDict e) => Some (VDict (if decide (device = name) then revoked_entry e else e)) | x => x end) as Hsame.
  { intros -> Hn. rewrite Hg. destruct (dget device registry) as [[]|] eqn:Hd; try done. case_decide; [|done].
    subst. destruct Hn; congruence. }
  destruct (dget name registry) as [[| | | | | |e]|] eqn:Hn; try done; injection H as <-; [by apply Hsame; [|right]| |by apply Hsame; [|left]].
  unfold get_default. rewrite dget_dset, decide_True by done. cbn [default]. unfold id. rewrite dget_dset.
  case_decide as Hd; [subst; by rewrite Hn|]. by destruct (dget device registry) as [[]|].
Qed.

(** The clients of a cohort of the Xray section. *)
Definition cohort_free (name : string) (cohort : value) : Prop :=
  exists clients, index cohort "clients" = Ok (VList clients) /\ Forall (fun c => py_eq c (VStr name) = false) clients.

Lemma without_client_free name cohort cohort' : without_client name cohort = Ok cohort' -> cohort_free name cohort'.
Proof.
  unfold without_client, cohort_free. intros H. res_inv H. subst cohort'. eexists. simpl.
  rewrite dget_dset, decide_True by done. split; [reflexivity|]. apply Forall_forall. intros c [Hc _]%list_elem_of_filter. done.
Qed.

Lemma cohorts_revoked name d3 d4 doc' :
  rewrite_nested (without_client name) d3 "xray" "cohorts" = Ok d4 -> revoke_registry name d4 = Ok doc' ->
  exists cohorts, nested doc' "xray" "cohorts" = Ok cohorts /\ Forall (cohort_free name) cohorts.
Proof.
  intros H4 H5. apply rewrite_nested_Ok in H4 as (l & cohorts & _ & M & N & _). exists cohorts. split.
  - rewrite (nested_ext doc' d4); [done|]. by apply (revoke_registry_Ok _ _ _ H5).
  - apply mapM_res_Ok in M. apply Forall_forall. intros c Hc. apply list_elem_of_lookup in Hc as [i Hi].
    eapply Forall2_lookup_r in M as (c0 & _ & Hc0); [|exact Hi]. by eapply without_client_free.
Qed.

(** ** Exactly what changes

    A document compared with another, cell by cell: [doc[section][key]]. *)

Definition section_changed (R : string -> value -> value -> Prop) (v v' : value) : Prop :=
  match v, v' with
  | VDict b, VDict b' => forall k, option_Forall2 (R k) (dget k b) (dget k b')
  | _, _ => v' = v
  end.
Definition doc_changed (R : string -> string -> value -> value -> Prop) (doc doc' : dict) : Prop :=
  forall s, option_Forall2 (section_changed (R s)) (dget s doc) (dget s doc').

(** A table of the cells that change, and how; every other cell stays. *)
Fixpoint cell_changed (table : list (string * string * (value -> value -> Prop))) (s k : string) (x x' : value) : Prop :=
  match table with
  | [] => x' = x
  | (at_, D) :: table => if decide ((s, k) = at_) then D x x' else cell_changed table s k x x'
  end.

Lemma cell_unchanged table s k x x' : (s, k) ∉ table.*1 -> cell_changed table s k x x' -> x' = x.
Proof.
  induction table as [|[a D] table IH]; [done|]. csimpl. intros [Hne Hn]%not_elem_of_cons. rewrite decide_False by done. auto.
Qed.

Lemma doc_changed_absent at_ D doc :
  (forall b x, dget at_.1 doc = Some (VDict b) -> dget at_.2 b = Some x -> D x x) -> doc_changed (cell_changed [(at_, D)]) doc doc.
Proof.
  intros H s. destruct (dget s doc) as [v|] eqn:Hs; constructor. destruct v as [| | | | | |b]; try done.
  intros k. destruct (dget k b) as [x|] eqn:Hk; constructor. cbn [cell_changed]. case_decide as He; [|done].
  subst at_. by apply (H b).
Qed.

Lemma doc_changed_set s k D doc b x x' :
  dget s doc = Some (VDict b) -> dget k b = Some x -> D x x' ->
  doc_changed (cell_changed [((s, k), D)]) doc (dset s (VDict (dset k x' b)) doc).
Proof.
  intros Hs Hk HD s0. rewrite dget_dset. case_decide as H0; [subst s0; rewrite Hs|].
  - constructor. intros k0. rewrite dget_dset. case_decide as H1; [subst k0; rewrite Hk|].
    + constructor. cbn [cell_changed]. by rewrite decide_True.
    + destruct (dget k0 b); constructor. cbn [cell_changed]. rewrite decide_False; congruence.
  - destruct (dget s0 doc) as [v|]; constructor. destruct v as [| | | | | |c]; try done.
    intros k0. destruct (dget k0 c); constructor. cbn [cell_changed]. rewrite decide_False; congruence.
Qed.

Lemma option_Forall2_trans {A} (R1 R2 R3 : A -> A -> Prop) o o1 o2 :
  (forall x y z, R1 x y -> R2 y z -> R3 x z) -> option_Forall2 R1 o o1 -> option_Forall2 R2 o1 o2 -> option_Forall2 R3 o o2.
Proof. intros H H1 H2. destruct o, o1, o2; inversion H1; inversion H2; subst; constructor; eauto. Qed.

Lemma section_changed_trans (R1 R2 R3 : string -> value -> value -> Prop) v v1 v2 :
  (forall k x y z, R1 k x y -> R2 k y z -> R3 k x z) -> section_changed R1 v v1 -> section_changed R2 v1 v2 -> section_changed R3 v v2.
Proof.
  intros H H1 H2. unfold section_changed in *.
  destruct v as [| | | | | |b], v1 as [| | | | | |b1]; try discriminate H1; try (by rewrite H2, <-H1); [congruence|].
  destruct v2 as [| | | | | |b2]; try discriminate H2. intros k. by eapply option_Forall2_trans; [apply H|apply H1|apply H2].
Qed.

Lemma doc_changed_cons at_ D table d d1 d2 :
  at_ ∉ table.*1 -> doc_changed (cell_changed [(at_, D)]) d d1 -> doc_changed (cell_changed table) d1 d2 ->
  doc_changed (cell_changed ((at_, D) :: table)) d d2.
Proof.
  intros Hn H1 H2 s. eapply option_Forall2_trans; [|apply H1|apply H2]. intros v v1 v2. apply section_changed_trans.
  intros k x y z HR HS. cbn [cell_changed] in *. case_decide as Hd; [subst at_|by subst y].
  by rewrite (cell_unchanged _ _ _ _ _ Hn HS).
Qed.

Lemma dget_dmerge_other k (d e : dict) : k ∉ e.*1 -> dget k (dmerge d e) = dget k d.
Proof.
  unfold dmerge. revert d. induction e as [|[k0 v] e IH]; intros d; [done|]. csimpl. intros [Hne Hn]%not_elem_of_cons.
  rewrite IH by done. by rewrite dget_dset, decide_False.
Qed.

(** The cells that a revocation changes. *)
Definition rows_without (name : string) (x x' : value) : Prop :=
  exists l, iterate x = Ok l /\ x' = VList (filter (fun row => named_row name row = false) l).
Definition clients_without (name : string) (x x' : value) : Prop :=
  exists l, iterate x = Ok l /\ x' = VList (filter (fun c => py_eq c (VStr name) = false) l).
(** A block that differs in one key. *)
Definition block_with (fld : string) (D : value -> value -> Prop) (b b' : value) : Prop :=
  exists d x x', b = VDict d /\ dget fld d = Some x /\ D x x' /\ b' = VDict (dset fld x' d).
Definition each_with (fld : string) (D : value -> value -> Prop) (x x' : value) : Prop :=
  iterate x = Ok [] /\ x' = x \/ exists l l', iterate x = Ok l /\ x' = VList l' /\ Forall2 (block_with fld D) l l'.
Definition entry_without (x x' : value) : Prop :=
  exists e e', x = VDict e /\ x' = VDict e' /\ entry_revoked e' /\
    forall k, k ∉ "migration_delivery" :: revoked_fields.*1 -> dget k e' = dget k e.

Definition revoked_cells (name : string) : list (string * string * (value -> value -> Prop)) :=
  [("xray", "clients", rows_without name); ("hysteria", "clients", rows_without name); ("naive_secrets", "clients", rows_without name);
   ("amneziawg_secrets", "instances", each_with "peers" (rows_without name));
   ("snell_secrets", "variants", each_with "users" (rows_without name));
   ("xray", "cohorts", each_with "clients" (clients_without name));
   ("client_registry", name, entry_without)].

Lemma without_rows_with name block fld block' :
  without_rows name block fld = Ok block' -> block_with fld (rows_without name) block block'.
Proof.
  unfold without_rows. intros H. res_inv H. subst block'. apply index_Ok in Ha as (d & -> & Hd). eexists d, a, _.
  split; [done|]. split; [done|]. split; [|done]. exists a0. split; [done|]. f_equal.
  apply mapM_res_Ok in Ha1. clear -Ha1. induction Ha1 as [|row p l a1 Hrow _ IH]; [done|].
  res_inv Hrow. subst p. apply index_Ok in Ha as (r & -> & Hr). rewrite !filter_cons. cbn [snd].
  assert (named_row name (VDict r) = py_eq a (VStr name)) as Hn by (unfold named_row, field; cbn [dict_of]; by rewrite Hr).
  rewrite Hn. case_decide as Hc; csimpl; by rewrite IH.
Qed.

Lemma without_client_with name cohort cohort' :
  without_client name cohort = Ok cohort' -> block_with "clients" (clients_without name) cohort cohort'.
Proof.
  unfold without_client. intros H. res_inv H. subst cohort'. apply index_Ok in Ha as (d & -> & Hd). eexists d, a, _.
  split; [done|]. split; [done|]. split; [|done]. by exists a0.
Qed.

Lemma revoke_section_changed name doc kd doc' :
  revoke_section name doc kd = Ok doc' -> doc_changed (cell_changed [((kd.2, "clients"), rows_without name)]) doc doc'.
Proof.
  unfold revoke_section. intros H. destruct (dget kd.2 doc) as [block|] eqn:Hd.
  - res_inv H. subst doc'. apply without_rows_with in Ha as (d & x & x' & -> & Hx & HD & ->). by eapply doc_changed_set.
  - injection H as <-. apply doc_changed_absent. cbn [fst]. congruence.
Qed.

Lemma rewrite_nested_changed f fld D doc section key doc' :
  (forall b b', f b = Ok b' -> block_with fld D b b') -> rewrite_nested f doc section key = Ok doc' ->
  doc_changed (cell_changed [((section, key), each_with fld D)]) doc doc'.
Proof.
  intros Hf H. unfold rewrite_nested, nested, get_default in H. res_inv H. apply mapM_res_Ok in Ha0.
  destruct a0 as [|y l']; [subst doc'; apply doc_changed_absent; cbn [fst snd]|].
  - intros b x Hb Hx. rewrite Hb in Ha. cbn in Ha. rewrite Hx in Ha. left. inversion Ha0; subst. by split.
  - destruct a as [|z l]; [by inversion Ha0|].
    destruct (dget section doc) as [v|] eqn:Hs; [|done].
    destruct v as [| | | | | |b]; try done. cbn in Ha. destruct (dget key b) as [x|] eqn:Hk; [|done].
    unfold field in H. rewrite Hs in H. cbn [default dict_of] in H. unfold id in H. subst doc'.
    eapply doc_changed_set; [exact Hs|exact Hk|]. right. exists (z :: l), (y :: l'). split; [exact Ha|]. split; [done|].
    eapply Forall2_impl; [exact Ha0|]. intros b0 b1. apply Hf.
Qed.

Lemma revoke_registry_changed name doc doc' :
  (forall x, registry_entry doc name = Some x -> is_dict x = true) -> revoke_registry name doc = Ok doc' ->
  doc_changed (cell_changed [(("client_registry", name), entry_without)]) doc doc'.
Proof.
  unfold revoke_registry, registry_entry, get_default. intros Hx H.
  destruct (dget "client_registry" doc) as [v|] eqn:Hd; cbn [default] in *; unfold id in *.
  - destruct v as [| | | | | |registry]; try done. destruct (dget name registry) as [x|] eqn:Hn.
    + specialize (Hx x eq_refl). destruct x as [| | | | | |e]; try done. injection H as <-.
      eapply doc_changed_set; [exact Hd|exact Hn|]. exists e, (revoked_entry e). split; [done|]. split; [done|].
      split; [apply revoked_entry_revoked|]. intros k Hk. apply not_elem_of_cons in Hk as [Hm Hk].
      unfold revoked_entry. rewrite dget_filter_out, decide_False by done. apply dget_dmerge_other. exact Hk.
    + injection H as <-. apply doc_changed_absent. cbn [fst snd]. congruence.
  - cbn in H. injection H as <-. apply doc_changed_absent. cbn [fst snd]. congruence.
Qed.

(** The whole rewriting of a document changes exactly the cells of the table. *)
Lemma revoke_changed name doc d1 d2 d3 d4 doc' :
  (forall x, registry_entry d4 name = Some x -> is_dict x = true) ->
  foldM_res (revoke_section name) SECTIONS doc = Ok d1 ->
  rewrite_nested (fun block => without_rows name block "peers") d1 "amneziawg_secrets" "instances" = Ok d2 ->
  rewrite_nested (fun block => without_rows name block "users") d2 "snell_secrets" "variants" = Ok d3 ->
  rewrite_nested (without_client name) d3 "xray" "cohorts" = Ok d4 ->
  revoke_registry name d4 = Ok doc' ->
  doc_changed (cell_changed (revoked_cells name)) doc doc'.
Proof.
  intros Hx H H2 H3 H4 H5. unfold SECTIONS in H. cbn [foldM_res] in H.
  apply res_bind_Ok in H as (s1 & S1 & H). apply res_bind_Ok in H as (s2 & S2 & H). apply res_bind_Ok in H as (s3 & S3 & [= <-]).
  eapply doc_changed_cons; [set_solver|exact (revoke_section_changed _ _ _ _ S1)|].
  eapply doc_changed_cons; [set_solver|exact (revoke_section_changed _ _ _ _ S2)|].
  eapply doc_changed_cons; [set_solver|exact (revoke_section_changed _ _ _ _ S3)|].
  eapply doc_changed_cons; [set_solver|eapply rewrite_nested_changed; [|exact H2]; intros ? ?; apply without_rows_with|].
  eapply doc_changed_cons; [set_solver|eapply rewrite_nested_changed; [|exact H3]; intros ? ?; apply without_rows_with|].
  eapply doc_changed_cons; [set_solver|eapply rewrite_nested_changed; [|exact H4]; intros ? ?; apply without_client_with|].
  by apply revoke_registry_changed.
Qed.

(** A document after the revocation of a device. *)
Definition document_revoked (name : string) (doc doc' : dict) : Prop :=
  (discover doc name = Ok [] /\ doc' = doc \/
   (exists p s, discover doc name = Ok (p :: s)) /\
   doc_changed (cell_changed (revoked_cells name)) doc doc' /\
   (exists cohorts, nested doc' "xray" "cohorts" = Ok cohorts /\ Forall (cohort_free name) cohorts) /\
   match registry_entry doc' name with
   | None => discover doc' name = Ok []
   | Some entry => discover doc' name = Ok [("registry", 1)] /\ exists e, entry = VDict e /\ entry_revoked e
   end) /\
  forall other s, other <> name -> discover doc other = Ok s ->
    discover doc' other = Ok s /\ registry_entry doc' other = registry_entry doc other.

Lemma registry_count_Ok name doc s r :
  registry_count name doc s = Ok r ->
  r = match registry_entry doc name with Some _ => dset "registry" 1 s | None => s end /\
  (forall x, registry_entry doc name = Some x -> is_dict x = true) /\
  is_dict (get_default doc "client_registry" (VDict [])) = true.
Proof.
  unfold registry_count, registry_entry. destruct (get_default _ _ _) as [| | | | | |registry]; try done.
  destruct (dget name registry) as [[| | | | | |e]|]; try done; intros [= <-]; (split; [done|]); (split; [|done]).
  - by intros x [= <-].
  - done.
Qed.

(** The count of a registry entry, when revocation changed the registry. *)
Lemma registry_count_revoked name device doc d4 doc' s s0 r :
  dget "client_registry" d4 = dget "client_registry" doc -> revoke_registry name d4 = Ok doc' ->
  registry_count device doc s0 = Ok r ->
  registry_count device doc' s = Ok (match registry_entry doc device with Some _ => dset "registry" 1 s | None => s end).
Proof.
  intros Hd H (_ & Hx & Hr)%registry_count_Ok.
  assert (registry_entry d4 device = registry_entry doc device) as He by (unfold registry_entry, get_default; by rewrite Hd).
  pose proof (revoke_registry_entry _ _ _ device H) as Hn. rewrite He in Hn.
  assert (is_dict (get_default doc' "client_registry" (VDict [])) = true) as Hr'.
  { unfold revoke_registry in H. destruct (get_default d4 _ _) as [| | | | | |reg] eqn:Hg; try done.
    destruct (dget name reg) as [[| | | | | |e]|]; try done; injection H as <-; [by rewrite Hg| |by rewrite Hg].
    unfold get_default. by rewrite dget_dset, decide_True. }
  unfold registry_count, registry_entry in *. destruct (get_default doc' _ _) as [| | | | | |reg']; try done. rewrite Hn.
  destruct (get_default doc _ _) as [| | | | | |reg]; try done.
  destruct (dget device reg) as [x|]; [|done]. specialize (Hx x eq_refl). by destruct x.
Qed.

Lemma discover_Ok doc name s :
  discover doc name = Ok s <->
  fullmatch NAME name = true /\ exists l s1, collections doc = Ok l /\
    foldM_res (step_on (discover_step name)) l [] = Ok s1 /\ registry_count name doc s1 = Ok s.
Proof.
  unfold discover. rewrite raise_if_seq_Ok, res_bind_Ok, negb_false_iff. split.
  - intros (Hn & s1 & (l & Hl & Hf)%fold_collections_Ok & Hr). split; [done|]. by exists l, s1.
  - intros (Hn & l & s1 & Hl & Hf & Hr). split; [done|]. exists s1. split; [|done]. apply fold_collections_Ok. by exists l.
Qed.

Lemma revoke_document_revoked name doc doc' :
  revoke_document name doc = Ok doc' -> document_revoked name doc doc'.
Proof.
  unfold revoke_document. intros H. apply res_bind_Ok in H as (s & Hs & H).
  destruct s as [|p s]; [injection H as <-; split; [by left|]; by intros|]. pose proof Hs as Hdisc0.
  apply res_bind_Ok in H as (d1 & H1 & H). apply res_bind_Ok in H as (d2 & H2 & H).
  apply res_bind_Ok in H as (d3 & H3 & H). apply res_bind_Ok in H as (d4 & H4 & H5).
  apply discover_Ok in Hs as (Hname & l & s1 & Hl & Hf & Hr).
  destruct (collections_revoked _ _ _ _ _ _ _ _ Hl H1 H2 H3 H4 H5) as (l' & Hl' & HR).
  assert (dget "client_registry" d4 = dget "client_registry" doc) as Hd.
  { apply revoke_sections_Ok in H1 as [_ E1]. apply rewrite_nested_Ok in H2 as (_ & _ & _ & _ & _ & E2 & _).
    apply rewrite_nested_Ok in H3 as (_ & _ & _ & _ & _ & E3 & _). apply rewrite_nested_Ok in H4 as (_ & _ & _ & _ & _ & E4 & _).
    rewrite E4, E3, E2, E1 by (unfold SECTIONS; set_solver). done. }
  assert (forall n, registry_entry d4 n = registry_entry doc n) as He.
  { intros n. unfold registry_entry, get_default. by rewrite Hd. }
  split.
  - right. split; [by exists p, s|]. split.
    { eapply revoke_changed; [|exact H1|exact H2|exact H3|exact H4|exact H5].
      intros x. rewrite He. apply registry_count_Ok in Hr as (_ & Hx & _). apply Hx. }
    split; [by eapply cohorts_revoked|].
    assert (discover doc' name = Ok (match registry_entry doc name with Some _ => [("registry", 1)] | None => [] end)) as Hdisc.
    { apply discover_Ok. split; [done|]. exists l', []. split; [done|].
      rewrite (discover_fold_revoked _ _ _ _ _ [] _ HR Hf), decide_True by done. split; [done|].
      by rewrite (registry_count_revoked _ _ _ _ _ [] _ _ Hd H5 Hr). }
    rewrite Hdisc, (revoke_registry_entry _ _ _ name H5), He. apply registry_count_Ok in Hr as (_ & Hx & _).
    destruct (registry_entry doc name) as [x|]; [|done]. specialize (Hx x eq_refl). destruct x; try done.
    split; [done|]. eexists. split; [reflexivity|]. rewrite decide_True by done. apply revoked_entry_revoked.
  - intros other r Hne (Ho & l2 & s2 & Hl2 & Hf2 & Hr2)%discover_Ok.
    assert (l2 = l) as -> by congruence. split.
    + apply discover_Ok. split; [done|]. exists l', s2. split; [done|].
      rewrite (discover_fold_revoked _ _ _ _ _ [] _ HR Hf2), decide_False by done. split; [done|].
      rewrite (registry_count_revoked _ _ _ _ _ s2 _ _ Hd H5 Hr2). by apply registry_count_Ok in Hr2 as (-> & _).
    + rewrite (revoke_registry_entry _ _ _ other H5), He.
      destruct (registry_entry doc other) as [[]|]; try done. by rewrite decide_False.
Qed.

(** C21: Revocation is complete and touches nobody else.  A document of the fleet in
    which discovery finds nothing of the device is returned as it is (also when an
    Xray cohort lists the name without a client row: discovery does not look
    there).  Any other document is returned changed in exactly these cells: each
    list of clients, peers or users is the old one, in order, without the rows of
    the device; each list of clients of an Xray cohort is the old one without its
    name; its registry entry, if it has one, is left as a record of the revocation
    (status, no binding, no private key, no fingerprint, no delivery).  Every other
    key of every block, every other registry entry and every other section is the
    old one.  Discovery then finds no credential of the device, active or not, no
    Xray cohort lists it, and what discovery finds of any other device, and its
    registry entry, is what it was. *)
Theorem revoke_complete documents name result :
  revoke documents name = Ok result ->
  Forall2 (fun hd hd' => hd.1 = hd'.1 /\ document_revoked name hd.2 hd'.2) documents result.
Proof.
  intros H%mapM_res_Ok. eapply Forall2_impl; [exact H|]. intros [h doc] hd' Hd. cbn [fst snd] in Hd.
  res_inv Hd. subst hd'. split; [done|]. by apply revoke_document_revoked.
Qed.

(** ** Witness *)

Definition sample_row (name : string) : value := VDict [("name", VStr name)].
Definition fleet_document : dict :=
  [("xray", VDict [("clients", VList [sample_row "phone"; sample_row "laptop"]);
                   ("cohorts", VList [VDict [("name", VStr "a"); ("clients", VList [VStr "laptop"; VStr "phone"])]])]);
   ("snell_secrets", VDict [("variants", VList [VDict [("users", VList [sample_row "phone"])]; VDict [("users", VList [])]])]);
   ("client_registry", VDict [("phone", VDict [("status", VStr "active"); ("awg_private_key", VStr "secret");
                                               ("migration_delivery", VDict [])]);
                              ("laptop", VDict [("status", VStr "active")])])].
Definition idle_document : dict := [("hysteria", VDict [("clients", VList [sample_row "laptop"])])].

Lemma revoke_complete_witness :
  discover fleet_document "phone" = Ok [("xray", 1); ("snell", 1); ("registry", 1)] /\
  exists result, revoke [("hetzner:prod", fleet_document); ("vultr:prod", idle_document)] "phone" = Ok result /\
    Forall2 (fun hd hd' => hd.1 = hd'.1 /\ document_revoked "phone" hd.2 hd'.2)
      [("hetzner:prod", fleet_document); ("vultr:prod", idle_document)] result.
Proof.
  split; [vm_compute; reflexivity|]. eexists. split; [vm_compute; reflexivity|].
  apply revoke_complete. vm_compute. reflexivity.
Defined.
