(* ===== verification/DeviceIssue.v ===== *)
(** * Enrolment of a device on selected nodes

    [issue] of [scripts/device_lifecycle_credentials.py] with [_registry], [_awg]
    and [_unique].  The documents are copied once and changed in place, so every
    operation is a function from a document to a document.  The profile of a cohort
    (merged from files), the random user keys, X25519, SHA-256 and the
    [urlsplit(...).netloc] test of the admission are parameters. *)

From S2P Require Import Prelude PyValue PyStr Regex IPAddr IPNet AwgProfile AwgContract TransportAdmission ListenerCollisions DeviceBinding DeviceCredentials.
#[local] Open Scope string_scope.
#[local] Open Scope Z_scope.

(** A node of the manifest, as [load_manifest] admits it. *)
Record node := Node {
  nd_host : string; nd_cohort : string; nd_secrets_file : string;
  nd_awg_instance : option string; nd_xray_cohorts : list string }.

(** [new_identity] *)
Record credentials := Credentials {
  id_uuid : string; id_short_id : string; id_hysteria_password : string; id_naive_password : string;
  id_awg_private : string; id_awg_psk : string }.

(** [block[fld].append(row)] *)
Definition append_to (block : value) (fld : string) (row : value) : res value :=
  let* l := index block fld in
  match l with
  | VList l => Ok (VDict (dset fld (VList (l ++ [row])) (dict_of block)))
  | _ => Raise (Exn AttributeError "append")
  end.
Definition append_client (doc : dict) (section : string) (row : value) : res dict :=
  let* block := index (VDict doc) section in
  let* block := append_to block "clients" row in
  Ok (dset section block doc).

(** ** The Xray section and its cohorts *)

Definition cohort_names (cohorts : list value) : res (list value) :=
  let* names := mapM_res (fun row => index row "name") cohorts in py_set names.

Definition choose_cohort (name : string) (chosen : list string) (row : value) : res value :=
  let* n := index row "name" in
  if existsb (fun c => py_eq n (VStr c)) chosen then append_to row "clients" (VStr name) else Ok row.

Definition enroll_xray (name : string) (id : credentials) (chosen : list string) (doc : dict) : res dict :=
  let* doc := append_client doc "xray"
    (VDict [("name", VStr name); ("uuid", VStr (id_uuid id)); ("short_id", VStr (id_short_id id))]) in
  let* cohorts := get_or (field doc "xray") "cohorts" (VList []) in
  let bad := value_error "explicit-device-xray-cohorts-required" in
  raise_if (negb (nodup_str chosen) || negb (Bool.eqb (truthy cohorts) (negb (bool_decide (chosen = []))))) bad ;;;
  let* rows := iterate cohorts in
  let* names := cohort_names rows in
  raise_if (negb (forallb (fun c => existsb (py_eq (VStr c)) names) chosen)) bad ;;;
  rewrite_nested (choose_cohort name chosen) doc "xray" "cohorts".

Definition enroll_hysteria (name : string) (id : credentials) (doc : dict) : res dict :=
  append_client doc "hysteria" (VDict [("name", VStr name); ("password", VStr (id_hysteria_password id))]).
Definition enroll_naive (name : string) (id : credentials) (doc : dict) : res dict :=
  append_client doc "naive_secrets"
    (VDict [("name", VStr name); ("username", VStr name); ("password", VStr (id_naive_password id))]).

(** ** AmneziaWG *)

(** The reservation of the server address of another instance. *)
Definition server_claim (item : dict) : res value :=
  let* allowed := mapM_res (fun v =>
    let* text := index (VDict item) (address_field v) in
    let* i := of_option (interface_value text) (Exn ValueError "interface") in
    Ok (family_key v, VStr (ip_str (if_ip i) +:+ match v with V4 => "/32" | V6 => "/128" end)%string)) [V4; V6] in
  Ok (VDict [("allowed_ips", VDict allowed)]).

(** What the allocation sees: every peer of the node and every other server. *)
Definition allocation (selected : dict) (instances : list dict) : res dict :=
  let* peers := mapM_res (fun item => let* l := index (VDict item) "peers" in iterate l) instances in
  let* reserved := mapM_res (fun item : dict =>
    let* n := index (VDict item) "name" in let* s := index (VDict selected) "name" in
    if py_eq n s then Ok [] else let* c := server_claim item in Ok [c]) instances in
  Ok (dset "peers" (VList (mjoin peers ++ mjoin reserved)) selected).

(** [document["amneziawg_secrets"]["instances"][i]["peers"].append(peer)] *)
Definition append_peer (doc : dict) (i : nat) (peer : value) : res dict :=
  let* secrets := index (VDict doc) "amneziawg_secrets" in
  let* instances := index secrets "instances" in
  match instances with
  | VList l =>
      let* item := of_option (l !! i) (Exn IndexError "instances") in
      let* item := append_to item "peers" peer in
      Ok (dset "amneziawg_secrets" (VDict (dset "instances" (VList (<[i:=item]> l)) (dict_of secrets))) doc)
  | _ => Raise (Exn TypeError "index")
  end.

(** [_registry]; the cohorts of the hosts are read in order. *)
Definition new_entry (hosts cohorts : list string) (issued_at : string) : dict :=
  [("status", VStr "issued"); ("issued_at", VStr issued_at); ("formats", VList []); ("hosts", VList (VStr <$> hosts));
   ("cohorts", VList (VStr <$> cohorts)); ("token_hash_prefix", VStr ""); ("token_expires", VStr "");
   ("awg_public_key_fingerprint", VStr ""); ("awg_private_key", VStr ""); ("awg_binding", VNone);
   ("awg_delivery_host", VStr ""); ("last_payload_identity", VDict [])].

Section Issue.
Context (netloc_ok : string -> bool) (x25519_public : list Z -> list Z) (sha256_hex : list Z -> string).
Context (profile : string -> res dict).
(** The [n]-th user key that [secrets.token_urlsafe] gives. *)
Context (userkey : nat -> string).

Definition fingerprint_of (public : string) : string :=
  ("sha256:" +:+ of_chars (take 16 (chars (sha256_hex (ord <$> chars public)))))%string.

(** [_awg]: the document with the peer and the completed entry. *)
Definition enroll_awg (doc resolved : dict) (name host : string) (instance : option string) (id : credentials) (entry : dict)
    : res (dict * dict) :=
  let* selected := resolve_binding (VDict doc) (VDict resolved) (VStr name) (VStr host)
    (match instance with Some i => VStr i | None => VNone end) true in
  let* secrets := index (VDict doc) "amneziawg_secrets" in
  let* instances := effective_awg_instances secrets (field resolved "amneziawg") (field resolved "amneziawg_cohort") in
  let* pool := allocation (bd_instance selected) instances in
  let* v4 := allocate_address pool V4 in
  let* v6 := allocate_address pool V6 in
  let* public := public_key x25519_public (VStr (id_awg_private id)) in
  let* doc := append_peer doc (bd_index selected)
    (VDict [("name", VStr name); ("public_key", VStr public); ("preshared_key", VStr (id_awg_psk id));
            ("allowed_ips", VDict [("ipv4", VStr v4); ("ipv6", VStr v6)])]) in
  Ok (doc, dmerge entry [("awg_binding", identity selected); ("awg_private_key", VStr (id_awg_private id));
                         ("awg_public_key_fingerprint", VStr (fingerprint_of public))]).

(** ** Snell: one user key per selected variant *)

Definition ids_of (rows : value) : res (list value) :=
  let* l := iterate rows in let* ids := mapM_res (fun row => index row "id") l in py_set ids.

Fixpoint enroll_variants (name : string) (selected variants : list value) (n : nat) : res (list value * nat) :=
  match variants with
  | [] => Ok ([], n)
  | v :: rest =>
      let* id := index v "id" in
      let* chosen := in_set id selected in
      let* ' (v, n) := (if chosen : bool
        then let* v := append_to v "users" (VDict [("name", VStr name); ("userkey", VStr (userkey n))]) in Ok (v, S n)
        else Ok (v, n)) in
      let* ' (rest, n) := enroll_variants name selected rest n in
      Ok (v :: rest, n)
  end.

Definition enroll_snell (name : string) (resolved doc : dict) (n : nat) : res (dict * nat) :=
  let* section := index (VDict resolved) "snell" in let* rows := index section "variants" in
  let* selected := ids_of rows in
  let* secrets := index (VDict doc) "snell_secrets" in let* variants := index secrets "variants" in
  raise_if (bool_decide (selected = [])) (value_error "missing-device-snell-variant") ;;;
  let* present := ids_of variants in
  raise_if (negb (forallb (fun i => existsb (py_eq i) present) selected)) (value_error "missing-device-snell-variant") ;;;
  let* l := iterate variants in
  let* ' (l, n) := enroll_variants name selected l n in
  Ok (dset "snell_secrets" (VDict (dset "variants" (VList l) (dict_of secrets))) doc, n).

(** ** [_unique] *)

Definition unique_fields (kind : string) : list string :=
  if bool_decide (kind = "xray") then ["name"; "uuid"; "short_id"]
  else if bool_decide (kind = "hysteria") then ["name"; "password"]
  else if bool_decide (kind = "awg") then ["name"; "public_key"; "preshared_key"]
  else if bool_decide (kind = "snell") then ["name"; "userkey"]
  else ["name"; "username"; "password"].

Definition unique_field (rows : value) (key : string) : res unit :=
  let* l := iterate rows in
  let* values := mapM_res (fun row => get row key) l in
  raise_if (negb (forallb (fun v => is_str v && truthy v) values) || negb (nodup_str (str_of <$> values)))
    (value_error "conflicting-device-credential").
Definition unique_step (kind : string) (block : value) (fld : string) (_ : unit) : res unit :=
  foldM_res (fun _ key => let* rows := index block fld in unique_field rows key) (unique_fields kind) tt.
Definition unique (doc : dict) : res unit := fold_collections unique_step doc tt.

(** ** The enrolment on one node *)

Definition when (b : bool) {S} (f : S -> res S) (s : S) : res S := if b then f s else Ok s.

Definition admitted (doc resolved : dict) (e : exn) : res unit :=
  if negb (Nat.eqb (length (transport_errors netloc_ok x25519_public sha256_hex false (VDict doc) (VDict resolved) None)) 0) then Raise e else
  let* errors := registry_errors x25519_public sha256_hex false doc (VDict resolved) in
  raise_if (negb (Nat.eqb (length errors) 0)) e.

Definition register (name : string) (entry doc : dict) : res dict :=
  match get_default doc "client_registry" (VDict []) with
  | VDict registry => Ok (dset "client_registry" (VDict (dset name (VDict entry) registry)) doc)
  | _ => Raise (Exn TypeError "client_registry")
  end.

Definition enroll_kinds (name : string) (nd : node) (id : credentials) (resolved : dict) (kinds : list string)
    (entry doc : dict) (n : nat) : res (dict * dict * nat) :=
  let* doc := when (mem "xray" kinds) (enroll_xray name id (nd_xray_cohorts nd)) doc in
  let* doc := when (mem "hysteria" kinds) (enroll_hysteria name id) doc in
  let* ' (doc, entry) := (if mem "awg" kinds
    then enroll_awg doc resolved name (nd_host nd) (nd_awg_instance nd) id entry else Ok (doc, entry)) in
  let* ' (doc, n) := (if mem "snell" kinds then enroll_snell name resolved doc n else Ok (doc, n)) in
  let* doc := when (mem "naive" kinds) (enroll_naive name id) doc in
  Ok (doc, entry, n).

Definition issue_node (name : string) (nd : node) (id : credentials) (entry doc : dict) (n : nat) : res (dict * nat) :=
  let* _ := host_identity (VStr (nd_host nd)) in
  let* resolved := profile (nd_cohort nd) in
  let* kinds := enabled resolved in
  raise_if (bool_decide (kinds = [])) (value_error "device-profile-has-no-transports") ;;;
  admitted doc resolved (value_error "invalid-device-source-authority") ;;;
  let* ' (doc, entry, n) := enroll_kinds name nd id resolved kinds entry doc n in
  let* doc := register name entry doc in
  admitted doc resolved (value_error "invalid-device-prepared-authority") ;;;
  unique doc ;;;
  Ok (doc, n).

(** ** [issue] *)

Definition fleet : Type := list (string * dict).

Definition issue_step (nodes : list (string * node)) (name issued_at : string) (id : credentials) (hosts : list string)
    (s : fleet * nat) (host : string) : res (fleet * nat) :=
  let* nd := of_option (dget host nodes) (Exn KeyError host) in
  let* doc := of_option (dget host s.1) (Exn KeyError host) in
  let* cohorts := mapM_res (fun h => let* nd := of_option (dget h nodes) (Exn KeyError h) in Ok (nd_cohort nd)) hosts in
  let* ' (doc, n) := issue_node name nd id (new_entry hosts cohorts issued_at) doc s.2 in
  Ok (dset host doc s.1, n).

Definition issue (documents : fleet) (nodes : list (string * node)) (name : string) (hosts : list string)
    (issued_at : string) (id : credentials) : res fleet :=
  raise_if (negb (same_set (keys documents) (keys nodes)) || bool_decide (hosts = []) || negb (nodup_str hosts)
            || negb (subset hosts (keys nodes))) (value_error "invalid-device-fleet") ;;;
  let* found := any_res (fun hd : string * dict => let* s := discover hd.2 name in Ok (negb (bool_decide (s = [])))) documents in
  raise_if found (value_error "device-already-exists-in-fleet") ;;;
  let* ' (result, _) := foldM_res (issue_step nodes name issued_at id hosts) hosts (documents, O) in
  Ok result.
End Issue.

(** * What enrolment adds

    A list grows by rows of the device, a block by such rows in its list of clients
    (the Xray section also in the client lists of its cohorts), a document by such
    blocks; every other key of a block, of a section and of the document stays. *)

Section Growth.
Context (name : string).

Definition rows_grown (v v' : value) : Prop :=
  v' = v \/ exists l rows, v = VList l /\ v' = VList (l ++ rows) /\ Forall (fun row => named_row name row = true) rows.

Definition cohort_grown (c c' : value) : Prop :=
  c' = c \/ exists d d' l rows, c = VDict d /\ c' = VDict d' /\ (forall key, key <> "clients" -> dget key d' = dget key d) /\
    field d "clients" = VList l /\ field d' "clients" = VList (l ++ rows) /\ Forall (fun c => c = VStr name) rows.
Definition cohorts_grown (v v' : value) : Prop :=
  v' = v \/ exists l l', v = VList l /\ v' = VList l' /\ Forall2 cohort_grown l l'.

(** [xray]: the block is the Xray section, which has cohorts. *)
Definition block_grown (xray : bool) (fld : string) (b b' : value) : Prop :=
  b' = b \/ exists d d', b = VDict d /\ b' = VDict d' /\
    (forall key, key <> fld -> (xray = true -> key <> "cohorts") -> dget key d' = dget key d) /\
    rows_grown (field d fld) (field d' fld) /\ (fld <> "cohorts" -> cohorts_grown (field d "cohorts") (field d' "cohorts")).

#[local] Instance rows_grown_preorder : PreOrder rows_grown.
Proof.
  split; [by left|]. intros a b c [->|(l & k & -> & -> & H1)]; [done|].
  intros [->|(l' & k' & [= <-] & -> & H2)]; right; [by exists l, k|].
  exists l, (k ++ k')%list. rewrite <-app_assoc. split; [done|]. split; [done|]. by apply Forall_app.
Qed.
#[local] Instance cohort_grown_preorder : PreOrder cohort_grown.
Proof.
  split; [by left|]. intros a b c [->|(d & d' & l & k & -> & -> & Hk & Hd & Hd' & H1)]; [done|].
  intros [->|(e & e' & l' & k' & [= <-] & -> & Hk' & He & He' & H2)]; right; [by exists d, d', l, k|].
  exists d, e', l, (k ++ k')%list. split; [done|]. split; [done|]. split; [intros key Hne; rewrite Hk', Hk; done|].
  split; [done|]. split; [|by apply Forall_app]. rewrite He', app_assoc. congruence.
Qed.
#[local] Instance cohorts_grown_preorder : PreOrder cohorts_grown.
Proof.
  split; [by left|]. intros a b c [->|(l & k & -> & -> & H1)]; [done|].
  intros [->|(l' & k' & [= <-] & -> & H2)]; right; [by exists l, k|].
  exists l, k'. split; [done|]. split; [done|]. by etrans.
Qed.
#[local] Instance block_grown_preorder xray fld : PreOrder (block_grown xray fld).
Proof.
  split; [by left|]. intros a b c [->|(d & d' & -> & -> & Hk & Hr & Hc)]; [done|].
  intros [->|(e & e' & [= <-] & -> & Hk' & Hr' & Hc')]; right; [by exists d, d'|].
  exists d, e'. split; [done|]. split; [done|]. split; [intros key H1 H2; rewrite Hk', Hk; done|].
  split; [by etrans|]. intros Hne. etrans; [by apply Hc | by apply Hc'].
Qed.

Definition lists_grown (fld : string) (r r' : res (list value)) : Prop :=
  r' = r \/ exists l l', r = Ok l /\ r' = Ok l' /\ Forall2 (block_grown false fld) l l'.
#[local] Instance lists_grown_preorder fld : PreOrder (lists_grown fld).
Proof.
  split; [by left|]. intros a b c [->|(l & k & -> & -> & H1)]; [done|].
  intros [->|(l' & k' & [= <-] & -> & H2)]; right; [by exists l, k|].
  exists l, k'. split; [done|]. split; [done|]. by etrans.
Qed.

Definition section_grown (s : string) (o o' : option value) : Prop :=
  o' = o \/ exists b b', o = Some b /\ o' = Some b' /\ block_grown (bool_decide (s = "xray")) "clients" b b'.
#[local] Instance section_grown_preorder s : PreOrder (section_grown s).
Proof.
  split; [by left|]. intros a b c [->|(l & k & -> & -> & H1)]; [done|].
  intros [->|(l' & k' & [= <-] & -> & H2)]; right; [by exists l, k|].
  exists l, k'. split; [done|]. split; [done|]. by etrans.
Qed.

(** A section of which only one key may change. *)
Definition section_kept (key : string) (o o' : option value) : Prop :=
  o' = o \/ exists d d', o = Some (VDict d) /\ o' = Some (VDict d') /\ forall k, k <> key -> dget k d' = dget k d.
#[local] Instance section_kept_preorder key : PreOrder (section_kept key).
Proof.
  split; [by left|]. intros a b c [->|(d & d' & -> & -> & H1)]; [done|].
  intros [->|(e & e' & [= <-] & -> & H2)]; right; [by exists d, d'|].
  exists d, e'. split; [done|]. split; [done|]. intros k Hk. by rewrite H2, H1.
Qed.

Definition authorities : list string :=
  ["xray"; "hysteria"; "naive_secrets"; "amneziawg_secrets"; "snell_secrets"; "client_registry"].

Record doc_grown (doc doc' : dict) : Prop := {
  grown_sections : forall s, s ∈ SECTIONS.*2 -> section_grown s (dget s doc) (dget s doc');
  grown_awg : lists_grown "peers" (nested doc "amneziawg_secrets" "instances") (nested doc' "amneziawg_secrets" "instances");
  grown_snell : lists_grown "users" (nested doc "snell_secrets" "variants") (nested doc' "snell_secrets" "variants");
  grown_awg_rest : section_kept "instances" (dget "amneziawg_secrets" doc) (dget "amneziawg_secrets" doc');
  grown_snell_rest : section_kept "variants" (dget "snell_secrets" doc) (dget "snell_secrets" doc');
  grown_rest : forall k, k ∉ authorities -> dget k doc' = dget k doc;
  grown_registry : forall other, other <> name -> registry_entry doc' other = registry_entry doc other
}.
#[local] Instance doc_grown_preorder : PreOrder doc_grown.
Proof.
  split.
  - intros doc. by split.
  - intros a b c [S1 A1 N1 B1 M1 R1 G1] [S2 A2 N2 B2 M2 R2 G2]. split.
    + intros s Hs. etrans; [by apply S1 | by apply S2].
    + by etrans.
    + by etrans.
    + by etrans.
    + by etrans.
    + intros k Hk. by rewrite R2, R1.
    + intros o Ho. by rewrite G2, G1.
Qed.
End Growth.
#[local] Existing Instances rows_grown_preorder cohorts_grown_preorder block_grown_preorder doc_grown_preorder.

(** Collections of a grown document, one by one. *)
Definition collection_grown (name : string) (c c' : collection) : Prop :=
  c.1.1 = c'.1.1 /\ c.2 = c'.2 /\ exists xray, block_grown name xray c.2 c.1.2 c'.1.2.

Lemma grown_lists_collections name (kind fld : string) l l' :
  Forall2 (block_grown name false fld) l l' ->
  Forall2 (collection_grown name) ((fun block => (kind, block, fld)) <$> l) ((fun block => (kind, block, fld)) <$> l').
Proof. rewrite Forall2_fmap. intros H. eapply Forall2_impl; [exact H|]. intros b b' Hb. split; [done|]. split; [done|]. by exists false. Qed.

Lemma grown_sections_collections name doc doc' :
  (forall s, s ∈ SECTIONS.*2 -> section_grown name s (dget s doc) (dget s doc')) ->
  Forall2 (collection_grown name)
    (omap (fun kd : string * string => block ← dget kd.2 doc; Some (kd.1, block, "clients")) SECTIONS)
    (omap (fun kd : string * string => block ← dget kd.2 doc'; Some (kd.1, block, "clients")) SECTIONS).
Proof.
  generalize SECTIONS. intros l H. induction l as [|kd l IH]; [constructor|].
  assert (section_grown name kd.2 (dget kd.2 doc) (dget kd.2 doc')) as Hs by (apply H; left).
  assert (Forall2 (collection_grown name)
    (omap (fun kd : string * string => block ← dget kd.2 doc; Some (kd.1, block, "clients")) l)
    (omap (fun kd : string * string => block ← dget kd.2 doc'; Some (kd.1, block, "clients")) l)) as IHl.
  { apply IH. intros s Hin. apply H. by right. }
  cbn [omap list_omap]. destruct Hs as [->|(b & b' & -> & -> & Hb)].
  - destruct (dget kd.2 doc) as [b|]; cbn; [|exact IHl]. constructor; [|exact IHl]. split; [done|]. split; [done|]. exists true. reflexivity.
  - cbn. constructor; [|exact IHl]. split; [done|]. split; [done|]. by eexists.
Qed.

Lemma grown_collections name doc doc' l :
  doc_grown name doc doc' -> collections doc = Ok l ->
  exists l', collections doc' = Ok l' /\ Forall2 (collection_grown name) l l'.
Proof.
  intros [S A N _ _ _ _] H. unfold collections in *. res_inv H. subst l.
  assert (exists i', nested doc' "amneziawg_secrets" "instances" = Ok i' /\ Forall2 (block_grown name false "peers") a i') as (i' & -> & Hi).
  { destruct A as [->|(x & y & Hx & Hy & HR)]; [by exists a|]. assert (x = a) as -> by congruence. by exists y. }
  assert (exists v', nested doc' "snell_secrets" "variants" = Ok v' /\ Forall2 (block_grown name false "users") a0 v') as (v' & -> & Hv).
  { destruct N as [->|(x & y & Hx & Hy & HR)]; [by exists a0|]. assert (x = a0) as -> by congruence. by exists y. }
  eexists. split; [reflexivity|]. apply Forall2_app; [by apply grown_sections_collections|].
  apply Forall2_app; by apply grown_lists_collections.
Qed.

(** ** Every step grows the document *)

Lemma append_to_grown name xray block fld row block' :
  append_to block fld row = Ok block' -> named_row name row = true -> fld <> "cohorts" ->
  block_grown name xray fld block block' /\
  exists rows, get block' fld = Ok (VList rows) /\ Exists (fun row => named_row name row = true) rows.
Proof.
  intros H Hn Hf. unfold append_to in H. res_inv H. apply index_Ok in Ha as (d & -> & Hd). destruct a as [| | | | |l|]; try done.
  injection H as <-. cbn [dict_of]. split.
  - right. eexists d, _. split; [done|]. split; [done|]. split; [|split].
    + intros key Hk _. by rewrite dget_dset, decide_False.
    + right. exists l, [row]. unfold field. rewrite dget_dset, decide_True, Hd by done. split; [done|]. split; [done|]. by constructor.
    + intros _. left. unfold field. by rewrite dget_dset, decide_False.
  - exists (l ++ [row])%list. simpl. rewrite dget_dset, decide_True by done. split; [done|].
    apply Exists_app. right. by constructor.
Qed.

(** A row with the name is in a collection of the kind. *)
Definition holds_device (name kind : string) (doc : dict) : Prop :=
  exists l c rows, collections doc = Ok l /\ c ∈ l /\ c.1.1 = kind /\ get c.1.2 c.2 = Ok (VList rows) /\
    Exists (fun row => named_row name row = true) rows.

Lemma block_grown_holds name xray fld b b' rows :
  block_grown name xray fld b b' -> get b fld = Ok (VList rows) -> Exists (fun row => named_row name row = true) rows ->
  exists rows', get b' fld = Ok (VList rows') /\ Exists (fun row => named_row name row = true) rows'.
Proof.
  intros [->|(d & d' & -> & -> & _ & Hr & _)] Hg He; [by exists rows|]. cbn [get] in *. injection Hg as Hg.
  unfold field in Hr. rewrite Hg in Hr. destruct Hr as [Hr|(l & k & [= <-] & Hr & _)]; rewrite Hr; [by exists rows|].
  exists (rows ++ k)%list. split; [done|]. apply Exists_app. by left.
Qed.

Lemma holds_device_grown name kind doc doc' :
  doc_grown name doc doc' -> holds_device name kind doc -> holds_device name kind doc'.
Proof.
  intros Hg (l & c & rows & Hl & Hc & Hk & Hr & He). destruct (grown_collections _ _ _ _ Hg Hl) as (l' & Hl' & HR).
  apply list_elem_of_lookup in Hc as [i Hi]. eapply Forall2_lookup_l in HR as (c' & Hc' & Hk' & Hf & xray & Hb); [|exact Hi].
  rewrite Hf in Hr, Hb. destruct (block_grown_holds _ _ _ _ _ _ Hb Hr He) as (rows' & Hr' & He').
  exists l', c', rows'. split; [done|]. split; [by eapply list_elem_of_lookup_2|]. split; [congruence|]. done.
Qed.

Lemma section_step name doc kind section b b' :
  (kind, section) ∈ SECTIONS -> dget section doc = Some b -> block_grown name (bool_decide (section = "xray")) "clients" b b' ->
  doc_grown name doc (dset section b' doc).
Proof.
  intros Hs Hd Hb.
  assert (section ∈ SECTIONS.*2) as Hin by (apply list_elem_of_fmap; by exists (kind, section)).
  assert (section ∈ ["xray"; "hysteria"; "naive_secrets"]) as Hs' by exact Hin.
  split.
  - intros s _. rewrite dget_dset. destruct (decide (s = section)) as [->|He]; [right; by exists b, b'|by left].
  - left. apply nested_dset_other. intros <-. set_solver.
  - left. apply nested_dset_other. intros <-. set_solver.
  - left. rewrite dget_dset, decide_False; [done|]. intros <-. set_solver.
  - left. rewrite dget_dset, decide_False; [done|]. intros <-. set_solver.
  - intros k Hk. rewrite dget_dset, decide_False; [done|]. intros ->. apply Hk. unfold authorities. set_solver.
  - intros o _. unfold registry_entry, get_default. rewrite dget_dset, decide_False; [done|]. intros <-. set_solver.
Qed.

Lemma section_holds name kind section doc b rows l :
  (kind, section) ∈ SECTIONS -> collections doc = Ok l -> dget section doc = Some b -> get b "clients" = Ok (VList rows) ->
  Exists (fun row => named_row name row = true) rows -> holds_device name kind doc.
Proof.
  intros Hs Hl Hd Hr He. exists l, (kind, b, "clients"), rows. split; [done|]. split; [|done].
  unfold collections in Hl. res_inv Hl. subst l. apply elem_of_app. left.
  apply list_elem_of_omap. exists (kind, section). split; [done|]. cbn [snd fst]. by rewrite Hd.
Qed.

Lemma named_row_head name d : named_row name (VDict (("name", VStr name) :: d)) = true.
Proof. by apply py_eq_str. Qed.

Lemma append_client_grown name kind section row doc doc' l :
  (kind, section) ∈ SECTIONS -> named_row name row = true -> collections doc = Ok l ->
  append_client doc section row = Ok doc' -> doc_grown name doc doc' /\ holds_device name kind doc'.
Proof.
  intros Hs Hn Hl H. unfold append_client in H. res_inv H. subst doc'. apply index_Ok in Ha as (d & [= <-] & Hd).
  destruct (append_to_grown name (bool_decide (section = "xray")) _ _ _ _ Ha0) as [Hb (rows & Hr & He)]; [done|done|].
  assert (doc_grown name doc (dset section a0 doc)) as Hg by by eapply section_step.
  split; [done|]. destruct (grown_collections _ _ _ _ Hg Hl) as (l' & Hl' & _).
  eapply section_holds; [exact Hs|exact Hl'| |exact Hr|exact He]. by rewrite dget_dset, decide_True.
Qed.

Lemma choose_cohort_grown name chosen c c' : choose_cohort name chosen c = Ok c' -> cohort_grown name c c'.
Proof.
  unfold choose_cohort. intros H. apply res_bind_Ok in H as (n & _ & H). destruct (existsb _ _); [|injection H as <-; by left].
  unfold append_to in H. res_inv H. apply index_Ok in Ha as (d & -> & Hd). destruct a as [| | | | |l|]; try done.
  injection H as <-. right. eexists d, _, l, [VStr name]. cbn [dict_of]. split; [done|]. split; [done|]. split.
  - intros key Hk. by rewrite dget_dset, decide_False.
  - unfold field. rewrite Hd, dget_dset, decide_True by done. split; [done|]. split; [done|]. by constructor.
Qed.

Lemma cohorts_step name chosen doc doc' :
  rewrite_nested (choose_cohort name chosen) doc "xray" "cohorts" = Ok doc' ->
  (exists d, dget "xray" doc = Some (VDict d)) -> doc_grown name doc doc'.
Proof.
  unfold rewrite_nested. intros H (d & Hd). res_inv H. destruct a0 as [|x l']; [by subst|].
  unfold nested, get_default in Ha. rewrite Hd in Ha. cbn [default get_or res_bind] in Ha. unfold id in Ha. cbn [get_or res_bind] in Ha.
  unfold field in H. rewrite Hd in H. cbn [default dict_of] in H. unfold id in H. subst doc'.
  destruct (dget "cohorts" d) as [v|] eqn:Hc; [|injection Ha as <-; by apply mapM_res_Ok in Ha0; inversion Ha0].
  assert (exists lst, v = VList lst) as [lst ->].
  { cbn [default] in Ha. unfold id in Ha. apply mapM_res_Ok in Ha0.
    destruct v as [| | | |t|lst|e]; try done; [| by exists lst |]; injection Ha as <-;
      [destruct (chars t)|destruct e as [|[]]]; inversion Ha0 as [|? ? ? ? Hx]; done. }
  injection Ha as <-. cbn [dict_of].
  eapply (section_step name doc "xray"); [unfold SECTIONS; set_solver|exact Hd|]. right. eexists d, _. split; [done|]. split; [done|].
  split; [|split].
  - intros key _ Hk. rewrite dget_dset, decide_False; [done|]. by apply Hk.
  - left. unfold field. by rewrite dget_dset, decide_False.
  - intros _. right. exists lst, (x :: l'). unfold field. rewrite Hc, dget_dset, decide_True by done. split; [done|]. split; [done|].
    apply mapM_res_Ok in Ha0. eapply Forall2_impl; [exact Ha0|]. intros c c' Hcc. by apply (choose_cohort_grown _ _ _ _ Hcc).
Qed.

Lemma enroll_xray_grown name id chosen doc doc' l :
  collections doc = Ok l -> enroll_xray name id chosen doc = Ok doc' -> doc_grown name doc doc' /\ holds_device name "xray" doc'.
Proof.
  intros Hl H. unfold enroll_xray in H. apply res_bind_Ok in H as (d1 & H1 & H).
  apply (append_client_grown name "xray" "xray" _ _ _ l) in H1 as [Hg Hh];
    [|unfold SECTIONS; set_solver | by apply named_row_head | exact Hl].
  res_inv H. assert (doc_grown name d1 doc') as Hg2.
  { eapply cohorts_step; [exact H|]. unfold field in Ha. destruct (dget "xray" d1) as [[| | | | | |d]|]; try done.
    by exists d. }
  split; [by etrans|]. by eapply holds_device_grown.
Qed.

(** The peer lands in the instance the binding selected. *)
Lemma append_peer_grown name doc i peer doc' l :
  collections doc = Ok l -> named_row name peer = true -> append_peer doc i peer = Ok doc' ->
  doc_grown name doc doc' /\ holds_device name "awg" doc'.
Proof.
  intros Hl Hn H. unfold append_peer in H. res_inv H. apply index_Ok in Ha as (d & [= <-] & Hd).
  apply index_Ok in Ha0 as (s & -> & Hs). destruct a0 as [| | | | |items|]; try done. res_inv H. subst doc'. apply of_option_Ok in Ha. cbn [dict_of].
  destruct (append_to_grown name false _ _ _ _ Ha0) as [Hb (rows & Hr & He)]; [done|done|].
  set (doc' := dset "amneziawg_secrets" _ doc).
  assert (nested doc "amneziawg_secrets" "instances" = Ok items) as Hbefore.
  { unfold nested, get_default. rewrite Hd. cbn. by rewrite Hs. }
  assert (nested doc' "amneziawg_secrets" "instances" = Ok (<[i:=a0]> items)) as Hafter.
  { unfold nested, get_default, doc'. rewrite dget_dset, decide_True by done. cbn. by rewrite dget_dset, decide_True. }
  assert (doc_grown name doc doc') as Hg.
  { unfold doc' in *. split.
    - intros s' Hs'. left. rewrite dget_dset, decide_False; [done|]. intros ->. unfold SECTIONS in Hs'. set_solver.
    - right. exists items, (<[i:=a0]> items). split; [done|]. split; [done|].
      apply Forall2_same_length_lookup. split; [by rewrite length_insert|]. intros j x y Hx Hy.
      destruct (decide (i = j)) as [<-|Hij].
      + rewrite list_lookup_insert_eq in Hy by (by eapply lookup_lt_Some). injection Hy as <-. rewrite Ha in Hx. by injection Hx as <-.
      + rewrite list_lookup_insert_ne in Hy by done. assert (x = y) as -> by congruence. reflexivity.
    - left. by apply nested_dset_other.
    - right. eexists s, _. rewrite dget_dset, decide_True by done. split; [done|]. split; [done|].
      intros k Hk. by rewrite dget_dset, decide_False.
    - left. by rewrite dget_dset, decide_False.
    - intros k Hk. rewrite dget_dset, decide_False; [done|]. intros ->. apply Hk. unfold authorities. set_solver.
    - intros o _. unfold registry_entry, get_default. by rewrite dget_dset, decide_False. }
  split; [done|]. destruct (grown_collections _ _ _ _ Hg Hl) as (l' & Hl' & _).
  exists l', ("awg", a0, "peers"), rows. split; [done|]. split; [|done].
  unfold collections in Hl'. rewrite Hafter in Hl'. cbn [res_bind] in Hl'. res_inv Hl'. subst l'.
  apply elem_of_app. right. apply elem_of_app. left. apply list_elem_of_fmap. exists a0. split; [done|].
  apply list_elem_of_lookup. exists i. apply list_lookup_insert_eq. by eapply lookup_lt_Some.
Qed.

Lemma py_dedup_subset x l : x ∈ py_dedup l -> x ∈ l.
Proof.
  induction l as [|y l IH]; [done|]. simpl. destruct (existsb _ _); [intros ?; right; auto|].
  intros [->|H]%elem_of_cons; [left | right; auto].
Qed.

Lemma num_eqb_sym a b : num_eqb a b = num_eqb b a.
Proof.
  unfold num_eqb, num_compare. rewrite (Z.min_comm b.2 a.2), Z.compare_antisym. by destruct (_ ?= _).
Qed.
(** Equality of hashable values is symmetric. *)
Lemma py_eq_hashable_sym v w : hashable v = true -> hashable w = true -> py_eq v w = py_eq w v.
Proof.
  intros Hv Hw. destruct v as [|[]| |[| |]| | |], w as [|[]| |[| |]| | |]; try discriminate; try reflexivity;
    try (apply num_eqb_sym); simpl; [by destruct neg, neg0|].
  apply bool_decide_ext. split; by intros ->.
Qed.

Section SnellGrowth.
Context (userkey : nat -> string) (name : string).

Lemma enroll_variants_grown selected variants n variants' n' :
  enroll_variants userkey name selected variants n = Ok (variants', n') ->
  Forall2 (fun v v' => block_grown name false "users" v v' /\
    forall id, index v "id" = Ok id -> existsb (py_eq id) selected = true ->
      exists rows, get v' "users" = Ok (VList rows) /\ Exists (fun row => named_row name row = true) rows) variants variants'.
Proof.
  revert n variants'. induction variants as [|v rest IH]; intros n variants' H; cbn [enroll_variants] in H;
    [injection H as <- _; constructor|].
  apply res_bind_Ok in H as (id & Hid & H). apply res_bind_Ok in H as (chosen & Hin & H).
  apply res_bind_Ok in H as ((v1 & n1) & Hv & H). apply res_bind_Ok in H as ((rest' & n2) & Hrest & H).
  injection H as <- <-. constructor; [|by eapply IH].
  unfold in_set in Hin. destruct (hashable id); [|done]. injection Hin as <-.
  destruct (existsb (py_eq id) selected) eqn:Hsel.
  - apply res_bind_Ok in Hv as (v2 & Hv & [= <- <-]).
    destruct (append_to_grown name false _ _ _ _ Hv) as [Hb Hr]; [by apply named_row_head|done|]. by split.
  - injection Hv as <- <-. split; [reflexivity|]. intros id' Hid' Hs. congruence.
Qed.

Lemma ids_of_hashable rows l : ids_of rows = Ok l -> forallb hashable l = true.
Proof.
  intros H. unfold ids_of in H. res_inv H. unfold py_set in H. destruct (forallb hashable a0) eqn:Hh; [|done].
  injection H as <-. apply forallb_true in Hh. apply forallb_true. rewrite Forall_forall in Hh |- *.
  intros x Hx. by apply Hh, py_dedup_subset.
Qed.

(** A selected identifier that is present is the identifier of some variant. *)
Lemma chosen_variant (selected present : list value) variants vs (rows : value) n n' :
  bool_decide (selected = []) = false ->
  iterate rows = Ok variants -> ids_of rows = Ok present -> forallb hashable selected = true ->
  negb (forallb (fun i => existsb (py_eq i) present) selected) = false ->
  enroll_variants userkey name selected variants n = Ok (vs, n') ->
  exists v rows, v ∈ vs /\ get v "users" = Ok (VList rows) /\ Exists (fun row => named_row name row = true) rows.
Proof.
  intros Hne Hit Hp Hh Hsub Hv. apply enroll_variants_grown in Hv.
  destruct selected as [|i0 selected]; [by apply bool_decide_eq_false in Hne|].
  apply negb_false_iff in Hsub. cbn [forallb] in Hsub, Hh. apply andb_true_iff in Hsub as [Hi0 _], Hh as [Hh0 _].
  apply existsb_exists in Hi0 as (i & Hi%list_elem_of_In & Heq). unfold ids_of in Hp. rewrite Hit in Hp. cbn [res_bind] in Hp. res_inv Hp.
  unfold py_set in Hp. destruct (forallb hashable a) eqn:Hha; [|done]. injection Hp as <-.
  apply py_dedup_subset in Hi. apply forallb_true in Hha. rewrite Forall_forall in Hha. specialize (Hha _ Hi).
  apply list_elem_of_lookup in Hi as [k Hk]. apply mapM_res_Ok in Ha.
  eapply Forall2_lookup_r in Ha as (v & Hlv & Hid); [|exact Hk].
  eapply Forall2_lookup_l in Hv as (v' & Hv' & _ & Hex); [|exact Hlv].
  destruct (Hex i Hid) as (r & Hr & He).
  { cbn [existsb]. by rewrite py_eq_hashable_sym, Heq. }
  exists v', r. split; [by eapply list_elem_of_lookup_2|]. done.
Qed.

Lemma enroll_snell_grown resolved doc n doc' n' l :
  collections doc = Ok l -> enroll_snell userkey name resolved doc n = Ok (doc', n') ->
  doc_grown name doc doc' /\ holds_device name "snell" doc'.
Proof.
  intros Hl H. unfold enroll_snell in H. res_inv H. destruct a6 as [vs n2]. injection H as <- <-. rename Ha6 into Hv.
  apply index_Ok in Ha2 as (d & [= <-] & Hd). apply index_Ok in Ha3 as (s & -> & Hs). cbn [dict_of].
  pose proof (enroll_variants_grown _ _ _ _ _ Hv) as HR. set (doc' := dset "snell_secrets" _ doc).
  assert (nested doc "snell_secrets" "variants" = Ok a5) as Hbefore.
  { unfold nested, get_default. rewrite Hd. cbn. by rewrite Hs. }
  assert (nested doc' "snell_secrets" "variants" = Ok vs) as Hafter.
  { unfold nested, get_default, doc'. rewrite dget_dset, decide_True by done. cbn. by rewrite dget_dset, decide_True. }
  assert (doc_grown name doc doc') as Hgr.
  { unfold doc' in *. split.
    - intros s' Hs'. left. rewrite dget_dset, decide_False; [done|]. intros ->. unfold SECTIONS in Hs'. set_solver.
    - left. by apply nested_dset_other.
    - right. exists a5, vs. split; [done|]. split; [done|]. eapply Forall2_impl; [exact HR|]. by intros v v' [? _].
    - left. by rewrite dget_dset, decide_False.
    - right. eexists s, _. rewrite dget_dset, decide_True by done. split; [done|]. split; [done|].
      intros k Hk. by rewrite dget_dset, decide_False.
    - intros k Hk. rewrite dget_dset, decide_False; [done|]. intros ->. apply Hk. unfold authorities. set_solver.
    - intros o _. unfold registry_entry, get_default. by rewrite dget_dset, decide_False. }
  split; [done|]. destruct (grown_collections _ _ _ _ Hgr Hl) as (l' & Hl' & _).
  assert (exists v rows, v ∈ vs /\ get v "users" = Ok (VList rows) /\ Exists (fun row => named_row name row = true) rows) as (v & rows & Hin & Hr & He).
  { eapply chosen_variant; [exact Hg|exact Ha5|exact Ha4|by eapply ids_of_hashable|exact Hg0|exact Hv]. }
  exists l', ("snell", v, "users"), rows. split; [done|]. split; [|done].
  unfold collections in Hl'. rewrite Hafter in Hl'. res_inv Hl'. simplify_eq.
  apply elem_of_app. right. apply elem_of_app. right. apply list_elem_of_fmap. by exists v.
Qed.
End SnellGrowth.

Lemma register_grown name entry doc doc' :
  register name entry doc = Ok doc' -> doc_grown name doc doc' /\ registry_entry doc' name = Some (VDict entry).
Proof.
  unfold register. intros H. destruct (get_default doc _ _) as [| | | | | |registry] eqn:Hg; try done. injection H as <-.
  assert (forall s, s <> "client_registry" -> dget s (dset "client_registry" (VDict (dset name (VDict entry) registry)) doc) = dget s doc) as Hk.
  { intros s Hs. by rewrite dget_dset, decide_False. }
  split.
  - split.
    + intros s Hs. left. apply Hk. intros ->. unfold SECTIONS in Hs. set_solver.
    + left. apply nested_ext. by apply Hk.
    + left. apply nested_ext. by apply Hk.
    + left. by apply Hk.
    + left. by apply Hk.
    + intros k Hn. apply Hk. intros ->. apply Hn. unfold authorities. set_solver.
    + intros o Ho. unfold registry_entry. rewrite Hg. unfold get_default. rewrite dget_dset, decide_True by done. cbn [default].
      unfold id. by rewrite dget_dset, decide_False.
  - unfold registry_entry, get_default. rewrite dget_dset, decide_True by done. cbn [default]. unfold id.
    by rewrite dget_dset, decide_True.
Qed.

(** ** Every step changes one section *)

Definition section_only (section : string) (doc doc' : dict) : Prop := forall s, s <> section -> dget s doc' = dget s doc.
Definition section_of (kind : string) : string :=
  default "" (dget kind (SECTIONS ++ [("awg", "amneziawg_secrets"); ("snell", "snell_secrets")])%list).

Lemma section_only_dset section v doc : section_only section doc (dset section v doc).
Proof. intros s Hs. by rewrite dget_dset, decide_False. Qed.

Lemma append_client_only doc section row doc' : append_client doc section row = Ok doc' -> section_only section doc doc'.
Proof. unfold append_client. intros H. res_inv H. subst doc'. apply section_only_dset. Qed.

Lemma enroll_xray_only name id chosen doc doc' : enroll_xray name id chosen doc = Ok doc' -> section_only "xray" doc doc'.
Proof.
  unfold enroll_xray. intros H. apply res_bind_Ok in H as (d1 & H1%append_client_only & H). res_inv H.
  apply rewrite_nested_Ok in H as (? & ? & _ & _ & _ & H & _). intros s Hs. by rewrite H, H1.
Qed.

Lemma append_peer_only doc i peer doc' : append_peer doc i peer = Ok doc' -> section_only "amneziawg_secrets" doc doc'.
Proof. unfold append_peer. intros H. res_inv H. destruct a0; try done. res_inv H. subst doc'. apply section_only_dset. Qed.

Lemma enroll_snell_only userkey name resolved doc n doc' n' :
  enroll_snell userkey name resolved doc n = Ok (doc', n') -> section_only "snell_secrets" doc doc'.
Proof. unfold enroll_snell. intros H. res_inv H. destruct a6. injection H as <- _. apply section_only_dset. Qed.

Lemma register_only name entry doc doc' : register name entry doc = Ok doc' -> section_only "client_registry" doc doc'.
Proof. unfold register. intros H. destruct (get_default _ _ _); try done. injection H as <-. apply section_only_dset. Qed.

Lemma when_only (b : bool) (f : dict -> res dict) section doc doc' :
  (forall d, f doc = Ok d -> section_only section doc d) -> when b f doc = Ok doc' ->
  forall s, (b = true -> s <> section) -> dget s doc' = dget s doc.
Proof. unfold when. intros Hf H s Hs. destruct b; [apply Hf; auto | by injection H as <-]. Qed.

(** The entry of an enrolled device is issued, for the selected hosts. *)
Definition entry_issued (hosts : list string) (e : dict) : Prop :=
  dget "status" e = Some (VStr "issued") /\ dget "hosts" e = Some (VList (VStr <$> hosts)).

Section IssueSpec.
Context (netloc_ok : string -> bool) (x25519_public : list Z -> list Z) (sha256_hex : list Z -> string).
Context (profile : string -> res dict) (userkey : nat -> string).
Notation enroll_kinds := (enroll_kinds x25519_public sha256_hex userkey).
Notation enroll_awg := (enroll_awg x25519_public sha256_hex).
Notation issue_node := (issue_node netloc_ok x25519_public sha256_hex profile userkey).
Notation issue := (issue netloc_ok x25519_public sha256_hex profile userkey).
Notation admitted := (admitted netloc_ok x25519_public sha256_hex).

Lemma enroll_awg_grown doc resolved name host instance id entry doc' entry' hosts l :
  collections doc = Ok l -> entry_issued hosts entry ->
  enroll_awg doc resolved name host instance id entry = Ok (doc', entry') ->
  (doc_grown name doc doc' /\ holds_device name "awg" doc') /\ entry_issued hosts entry'.
Proof.
  intros Hl [He1 He2] H. unfold DeviceIssue.enroll_awg in H. res_inv H. injection H as <- <-. split.
  - eapply append_peer_grown; [exact Hl|by apply named_row_head|done].
  - unfold entry_issued, dmerge. cbn [foldl fst snd]. rewrite !dget_dset. by rewrite !decide_False.
Qed.

(** A step that may be skipped. *)
Lemma when_grown name kind (b : bool) (f : dict -> res dict) doc doc' l :
  collections doc = Ok l ->
  (forall d, f doc = Ok d -> doc_grown name doc d /\ holds_device name kind d) ->
  when b f doc = Ok doc' ->
  (doc_grown name doc doc' /\ (b = true -> holds_device name kind doc')) /\ exists l', collections doc' = Ok l'.
Proof.
  intros Hl Hf H. unfold when in H. destruct b.
  - destruct (Hf _ H) as [Hg Hh]. split; [by split|]. destruct (grown_collections _ _ _ _ Hg Hl) as (l' & ? & _). by exists l'.
  - injection H as <-. split; [|by exists l]. split; [reflexivity|done].
Qed.

Lemma enroll_kinds_grown name nd id resolved kinds entry doc n doc' entry' n' hosts l :
  collections doc = Ok l -> entry_issued hosts entry ->
  enroll_kinds name nd id resolved kinds entry doc n = Ok (doc', entry', n') ->
  doc_grown name doc doc' /\ entry_issued hosts entry' /\
  forall kind, kind ∈ ["xray"; "hysteria"; "awg"; "snell"; "naive"] -> kind ∈ kinds -> holds_device name kind doc'.
Proof.
  intros Hl He H. unfold DeviceIssue.enroll_kinds in H.
  apply res_bind_Ok in H as (d1 & H1 & H). apply res_bind_Ok in H as (d2 & H2 & H).
  apply res_bind_Ok in H as ((d3 & e3) & H3 & H). apply res_bind_Ok in H as ((d4 & n4) & H4 & H).
  apply res_bind_Ok in H as (d5 & H5 & H). injection H as <- <- <-.
  apply (when_grown name "xray" _ _ _ _ l) in H1 as [[G1 P1] [l1 L1]]; [|done|intros d Hd; by eapply enroll_xray_grown].
  apply (when_grown name "hysteria" _ _ _ _ l1) in H2 as [[G2 P2] [l2 L2]]; [|done|].
  2: { intros d Hd. eapply append_client_grown; [|by apply named_row_head|exact L1|exact Hd]. unfold SECTIONS. set_solver. }
  assert ((doc_grown name d2 d3 /\ (mem "awg" kinds = true -> holds_device name "awg" d3)) /\ entry_issued hosts e3) as [[G3 P3] E3].
  { destruct (mem "awg" kinds); [|injection H3 as <- <-; split; [split; [reflexivity|done]|done]].
    destruct (enroll_awg_grown _ _ _ _ _ _ _ _ _ hosts _ L2 He H3) as [[? ?] ?]. by split. }
  destruct (grown_collections _ _ _ _ G3 L2) as (l3 & L3 & _).
  assert (doc_grown name d3 d4 /\ (mem "snell" kinds = true -> holds_device name "snell" d4)) as [G4 P4].
  { destruct (mem "snell" kinds); [|injection H4 as <- <-; split; [reflexivity|done]].
    destruct (enroll_snell_grown _ _ _ _ _ _ _ _ L3 H4) as [? ?]. by split. }
  destruct (grown_collections _ _ _ _ G4 L3) as (l4 & L4 & _).
  apply (when_grown name "naive" _ _ _ _ l4) in H5 as [[G5 P5] _]; [|done|].
  2: { intros d Hd. eapply append_client_grown; [|by apply named_row_head|exact L4|exact Hd]. unfold SECTIONS. set_solver. }
  assert (doc_grown name d3 d5) as Q3 by (etrans; [exact G4|exact G5]).
  assert (doc_grown name d2 d5) as Q2 by (etrans; [exact G3|exact Q3]).
  assert (doc_grown name d1 d5) as Q1 by (etrans; [exact G2|exact Q2]).
  split; [etrans; [exact G1|exact Q1]|]. split; [done|].
  intros kind Hk Hin. apply mem_true in Hin.
  repeat (apply elem_of_cons in Hk as [->|Hk]); [| | | | |by apply not_elem_of_nil in Hk]; eauto using holds_device_grown.
Qed.

(** The section of a transport that is not enabled stays. *)
Lemma enroll_kinds_others name nd id resolved kinds entry doc n doc' entry' n' :
  enroll_kinds name nd id resolved kinds entry doc n = Ok (doc', entry', n') ->
  forall s, (forall kind, kind ∈ kinds -> s <> section_of kind) -> dget s doc' = dget s doc.
Proof.
  intros H s Hs. unfold DeviceIssue.enroll_kinds in H.
  assert (forall kind, mem kind kinds = true -> s <> section_of kind) as Hm by (intros kind Hk%mem_true; by apply Hs).
  apply res_bind_Ok in H as (d1 & H1 & H). apply res_bind_Ok in H as (d2 & H2 & H).
  apply res_bind_Ok in H as ((d3 & e3) & H3 & H). apply res_bind_Ok in H as ((d4 & n4) & H4 & H).
  apply res_bind_Ok in H as (d5 & H5 & H). injection H as <- <- <-.
  assert (dget s d3 = dget s d2) as E3.
  { destruct (mem "awg" kinds) eqn:Hk; [|by injection H3 as <-]. unfold DeviceIssue.enroll_awg in H3. res_inv H3. injection H3 as <- <-.
    eapply append_peer_only; [eassumption|by apply (Hm "awg")]. }
  assert (dget s d4 = dget s d3) as E4.
  { destruct (mem "snell" kinds) eqn:Hk; [|by injection H4 as <-]. eapply enroll_snell_only; [exact H4|by apply (Hm "snell")]. }
  eapply when_only in H1; [|by apply enroll_xray_only|exact (Hm "xray")].
  eapply when_only in H2; [|by intros ? ?%append_client_only|exact (Hm "hysteria")].
  eapply when_only in H5; [|by intros ? ?%append_client_only|exact (Hm "naive")].
  congruence.
Qed.

Lemma enabled_kinds resolved kinds kind :
  enabled resolved = Ok kinds -> kind ∈ kinds -> kind ∈ ["xray"; "hysteria"; "awg"; "snell"; "naive"].
Proof.
  unfold enabled. intros H Hk. apply res_bind_Ok in H as (flags & _ & H). apply res_bind_Ok in H as (_ & _ & H).
  apply res_bind_Ok in H as (on & Hon & [= <-]). apply list_elem_of_fmap in Hk as ([k b] & -> & [_ Hin]%list_elem_of_filter).
  apply list_elem_of_lookup in Hin as [i Hi]. apply mapM_res_Ok in Hon.
  eapply Forall2_lookup_r in Hon as (kf & Hkf & Hf); [|exact Hi]. apply res_bind_Ok in Hf as (vs & _ & [= <- _]).
  apply list_elem_of_lookup_2 in Hkf. apply (list_elem_of_fmap_2 fst) in Hkf. exact Hkf.
Qed.

Lemma admitted_Ok doc resolved e u :
  admitted doc resolved e = Ok u ->
  transport_errors netloc_ok x25519_public sha256_hex false (VDict doc) (VDict resolved) None = [] /\
  registry_errors x25519_public sha256_hex false doc (VDict resolved) = Ok [].
Proof.
  unfold DeviceIssue.admitted. destruct (transport_errors _ _ _ _ _ _ _) as [|]; [|done]. cbn [length Nat.eqb negb].
  intros H. apply res_bind_Ok in H as (errors & -> & H). by destruct errors.
Qed.

(** A node after the enrolment of the device. *)
Definition node_enrolled (name : string) (nd : node) (hosts : list string) (doc doc' : dict) : Prop :=
  exists resolved kinds e, profile (nd_cohort nd) = Ok resolved /\ enabled resolved = Ok kinds /\ kinds <> [] /\
    doc_grown name doc doc' /\ registry_entry doc' name = Some (VDict e) /\ entry_issued hosts e /\
    (forall kind, kind ∈ kinds -> holds_device name kind doc') /\
    (forall s, s <> "client_registry" -> (forall kind, kind ∈ kinds -> s <> section_of kind) -> dget s doc' = dget s doc) /\
    transport_errors netloc_ok x25519_public sha256_hex false (VDict doc') (VDict resolved) None = [] /\
    registry_errors x25519_public sha256_hex false doc' (VDict resolved) = Ok [] /\
    unique doc' = Ok tt.

Lemma issue_node_enrolled name nd id hosts entry doc n doc' n' l :
  collections doc = Ok l -> entry_issued hosts entry -> issue_node name nd id entry doc n = Ok (doc', n') ->
  node_enrolled name nd hosts doc doc'.
Proof.
  intros Hl He H. unfold DeviceIssue.issue_node in H.
  apply res_bind_Ok in H as (h & _ & H). apply res_bind_Ok in H as (resolved & Hp & H).
  apply res_bind_Ok in H as (kinds & Hk & H). apply raise_if_seq_Ok in H as [Hne H].
  apply res_bind_Ok in H as (u0 & _ & H). apply res_bind_Ok in H as ([[d1 e1] n1] & H1 & H).
  apply res_bind_Ok in H as (d2 & H2 & H). apply res_bind_Ok in H as (u & H3 & H).
  apply res_bind_Ok in H as ([] & H4 & [= <- <-]).
  destruct (enroll_kinds_grown _ _ _ _ _ _ _ _ _ _ _ hosts _ Hl He H1) as (G1 & E1 & P1).
  destruct (register_grown _ _ _ _ H2) as [G2 R2]. apply admitted_Ok in H3 as [T3 R3].
  exists resolved, kinds, e1. split; [done|]. split; [done|]. split; [by apply bool_decide_eq_false in Hne|].
  split; [etrans; [exact G1|exact G2]|]. split; [done|]. split; [done|]. split; [|split; [|done]].
  - intros kind Hin. eapply holds_device_grown; [exact G2|]. apply P1; [|done]. by eapply enabled_kinds.
  - intros s Hreg Hs. rewrite (register_only _ _ _ _ H2) by done. by eapply enroll_kinds_others.
Qed.

(** ** The fleet *)

Lemma any_res_none {A} (f : A -> res bool) l : any_res f l = Ok false -> Forall (fun x => f x = Ok false) l.
Proof.
  induction l as [|x l IH]; cbn [any_res]; [constructor|]. intros H. apply res_bind_Ok in H as ([] & Hx & H); [done|].
  constructor; auto.
Qed.

Lemma issue_steps nodes name issued_at id all hosts documents n result n' :
  NoDup hosts ->
  (forall host doc, host ∈ hosts -> dget host documents = Some doc -> exists l, collections doc = Ok l) ->
  foldM_res (issue_step netloc_ok x25519_public sha256_hex profile userkey nodes name issued_at id all) hosts (documents, n)
    = Ok (result, n') ->
  keys result = keys documents /\
  (forall host, host ∉ hosts -> dget host result = dget host documents) /\
  (forall host, host ∈ hosts -> exists nd doc doc', dget host nodes = Some nd /\ dget host documents = Some doc /\
     dget host result = Some doc' /\ node_enrolled name nd all doc doc').
Proof.
  revert documents n. induction hosts as [|host hosts IH]; intros documents n Hnd Hcol H; cbn [foldM_res] in H.
  - injection H as <- <-. split; [done|]. split; [done|]. by intros h Hh%not_elem_of_nil.
  - apply NoDup_cons in Hnd as [Hnin Hnd]. apply res_bind_Ok in H as ([docs1 n1] & H1 & H). unfold issue_step in H1.
    apply res_bind_Ok in H1 as (nd & Hn%of_option_Ok & H1). apply res_bind_Ok in H1 as (doc & Hd%of_option_Ok & H1).
    apply res_bind_Ok in H1 as (cohorts & _ & H1). apply res_bind_Ok in H1 as ([doc' m] & H1 & [= <- <-]).
    cbn [fst snd] in *. destruct (Hcol host doc) as [l Hl]; [left|done|].
    apply (issue_node_enrolled _ _ _ all _ _ _ _ _ l) in H1; [|done|done].
    destruct (IH (dset host doc' documents) m Hnd) as (Hkeys & Hout & Hin); [|exact H|].
    { intros h d Hh. rewrite dget_dset, decide_False by (intros ->; done). apply Hcol. by right. }
    split; [rewrite Hkeys; by eapply keys_dset_present|]. split.
    + intros h Hh. apply not_elem_of_cons in Hh as [Hne Hh]. rewrite Hout by done. by rewrite dget_dset, decide_False.
    + intros h [->|Hh]%elem_of_cons.
      * exists nd, doc, doc'. split; [done|]. split; [done|]. rewrite Hout, dget_dset, decide_True by done. by split.
      * destruct (Hin h Hh) as (nd' & d & d' & ? & Hd' & ? & ?). exists nd', d, d'.
        rewrite dget_dset, decide_False in Hd' by (intros ->; done). done.
Qed.

(** What discovery finds of another device is unchanged by growth. *)
Lemma matching_grown name other v v' :
  name <> other -> rows_grown name v v' -> matching other v' = matching other v.
Proof.
  intros Hne [->|(l & rows & -> & -> & Hrows)]; [done|]. unfold matching. cbn [list_of]. rewrite filter_app.
  replace (filter (fun row => named_row other row = true) rows) with (@nil value); [by rewrite app_nil_r|].
  induction Hrows as [|row rows Hr _ IH]; [done|]. rewrite filter_cons, decide_False; [done|].
  unfold named_row in *. apply py_eq_str in Hr. rewrite Hr. simpl. by rewrite bool_decide_eq_true; intros <-.
Qed.

Lemma discover_step_grown name other c c' s r r' :
  name <> other -> collection_grown name c c' ->
  step_on (discover_step other) s c = Ok r -> step_on (discover_step other) s c' = Ok r' -> r' = r.
Proof.
  intros Hne (Hk & Hf & xray & Hb) H H'. unfold step_on, discover_step in *. rewrite <-Hk, <-Hf in H'.
  apply res_bind_Ok in H as (v & Hv & (_ & _ & ->)%count_rows_Ok).
  apply res_bind_Ok in H' as (v' & Hv' & (_ & _ & ->)%count_rows_Ok).
  replace (matching other v') with (matching other v); [done|].
  destruct Hb as [Heq|(d & d' & Hd & Hd' & _ & Hr & _)]; [rewrite Heq in Hv'; by assert (v' = v) as -> by congruence|].
  rewrite Hd in Hv. rewrite Hd' in Hv'. cbn [get] in *. injection Hv as <-. injection Hv' as <-.
  symmetry. by apply matching_grown with name.
Qed.

Lemma discover_grown name other doc doc' s s' :
  other <> name -> doc_grown name doc doc' -> discover doc other = Ok s -> discover doc' other = Ok s' -> s' = s.
Proof.
  intros Hne Hg (_ & l & s1 & Hl & Hf & Hr)%discover_Ok (_ & l' & s1' & Hl' & Hf' & Hr')%discover_Ok.
  destruct (grown_collections _ _ _ _ Hg Hl) as (k & Hk & HR). assert (k = l') as -> by congruence.
  assert (s1' = s1) as ->.
  { clear Hl Hl' Hk Hr Hr'. revert Hf Hf'. generalize (@nil (string * Z)) as s0. induction HR as [|c c' l l' Hc _ IH]; intros s0 Hf Hf'.
    - cbn in *. congruence.
    - cbn [foldM_res] in *. apply res_bind_Ok in Hf as (x & Hx & Hf), Hf' as (x' & Hx' & Hf').
      assert (x' = x) as ->.
      { eapply discover_step_grown; [by apply not_eq_sym|exact Hc|exact Hx|exact Hx']. }
      by eapply IH. }
  apply registry_count_Ok in Hr as (-> & _), Hr' as (-> & _). by rewrite (grown_registry _ _ _ Hg).
Qed.

(** C20: Enrolment is complete on the selected nodes and touches nothing else.  When
    [issue] returns, the fleet has the same hosts and no document knew the device
    before.  The document of a host that was not selected is the old one.  In the
    document of a selected host, lists of clients, peers, users and cohort clients
    have only grown at the end by rows of the device; every other key of every
    section, instance, variant and cohort, every other section, every section of a
    transport that the profile of the node does not enable and every other registry
    entry is the old one, so discovery of another device, where it answers, gives
    the old answer.  The device has a row for every transport that the profile
    enables and an issued registry entry naming the selected hosts; and the document
    passes the transport admission and the registry diagnostics without an error and
    the uniqueness check of credentials.  (Discovery itself is not among these
    admissions: it refuses a list of more than 256 rows, which enrolment can
    make.) *)
Theorem issue_complete documents nodes name hosts issued_at id result :
  issue documents nodes name hosts issued_at id = Ok result ->
  keys result = keys documents /\
  (forall host doc, (host, doc) ∈ documents -> discover doc name = Ok []) /\
  (forall host, host ∉ hosts -> dget host result = dget host documents) /\
  (forall host, host ∈ hosts -> exists nd doc doc', dget host nodes = Some nd /\ dget host documents = Some doc /\
     dget host result = Some doc' /\ node_enrolled name nd hosts doc doc' /\
     forall other s s', other <> name -> discover doc other = Ok s -> discover doc' other = Ok s' -> s' = s).
Proof.
  intros H. unfold DeviceIssue.issue in H. apply raise_if_seq_Ok in H as [Hg H].
  apply res_bind_Ok in H as (found & Hfound & H). apply raise_if_seq_Ok in H as [-> H].
  apply res_bind_Ok in H as ([docs n] & H & [= <-]).
  assert (forall host doc, (host, doc) ∈ documents -> discover doc name = Ok []) as Hnone.
  { intros host doc Hin. apply any_res_none in Hfound. rewrite Forall_forall in Hfound. specialize (Hfound _ Hin). cbn [snd] in Hfound.
    apply res_bind_Ok in Hfound as (s & Hs & [= Hb]). apply negb_false_iff, bool_decide_eq_true in Hb. by subst. }
  apply orb_false_iff in Hg as [Hg _]. apply orb_false_iff in Hg as [_ Hnd]. apply negb_false_iff, nodup_str_true in Hnd.
  destruct (issue_steps nodes name issued_at id hosts hosts documents 0 docs n Hnd) as (Hk & Hout & Hin); [|exact H|].
  { intros host doc _ Hd. apply dget_Some_elem, Hnone, discover_Ok in Hd as (_ & l & _ & Hl & _). by exists l. }
  split; [done|]. split; [done|]. split; [done|]. intros host Hh.
  destruct (Hin host Hh) as (nd & doc & doc' & Hn & Hd & Hd' & He). exists nd, doc, doc'.
  do 4 (split; [done|]). intros other s s' Hne Hs Hs'. destruct He as (? & ? & ? & _ & _ & _ & Hgr & _).
  by apply (discover_grown name other doc doc').
Qed.
End IssueSpec.

(** ** Witnesses *)

Definition hex_digit (n : nat) : ascii := nth n (chars "0123456789abcdef") "0"%char.
Definition hex4 (n : nat) : string :=
  of_chars [hex_digit (n / 4096 mod 16); hex_digit (n / 256 mod 16); hex_digit (n / 16 mod 16); hex_digit (n mod 16)].
Definition xray_row (n : nat) : value :=
  VDict [("name", VStr ("d" +:+ hex4 n)); ("uuid", VStr ("u" +:+ hex4 n)); ("short_id", VStr (hex4 n))]%string.
(** A node with the Xray clients [1 .. n]. *)
Definition xray_document (n : nat) : dict := [("xray", VDict [("clients", VList (xray_row <$> seq 1 n))])].
Definition sample_profile : dict := [("vpn", VDict [("enable_xray_reality", VBool true)])].
Definition sample_identity : credentials := Credentials "u-phone" "ffff" "h-phone" "n-phone" "k-phone" "s-phone".
Definition sample_nodes : list (string * node) :=
  [("hetzner:prod", Node "hetzner:prod" "eu" "/srv/a.sops.yaml" None []); ("vultr:prod", Node "vultr:prod" "us" "/srv/b.sops.yaml" None [])].

Notation sample_issue documents hosts :=
  (issue (fun _ => true) (fun l => l) (fun _ => "0123456789abcdef0123") (fun _ => Ok sample_profile) (fun _ => "key")
    documents sample_nodes "phone" hosts "2026-01-01T00:00:00Z" sample_identity).
Definition sample_fleet : fleet := [("hetzner:prod", xray_document 1); ("vultr:prod", xray_document 2)].

Lemma issue_complete_witness :
  exists result, sample_issue sample_fleet ["hetzner:prod"] = Ok result /\
    dget "vultr:prod" result = Some (xray_document 2) /\
    exists doc, dget "hetzner:prod" result = Some doc /\ discover doc "phone" = Ok [("xray", 1); ("registry", 1)] /\
      unique doc = Ok tt.
Proof.
  eexists. split; [vm_compute; reflexivity|].
  edestruct (issue_complete (fun _ => true) (fun l => l) (fun _ => "0123456789abcdef0123") (fun _ => Ok sample_profile) (fun _ => "key")
    sample_fleet sample_nodes "phone" ["hetzner:prod"] "2026-01-01T00:00:00Z" sample_identity) as (_ & _ & Hout & Hin);
    [vm_compute; reflexivity|].
  split; [rewrite Hout; [vm_compute; reflexivity|apply mem_false; vm_compute; reflexivity]|].
  destruct (Hin "hetzner:prod") as (nd & doc & doc' & _ & _ & Hd' & (? & ? & ? & _ & _ & _ & _ & _ & _ & _ & _ & _ & _ & Hu) & _); [left|].
  exists doc'. split; [exact Hd'|]. split; [|exact Hu]. vm_compute in Hd'. injection Hd' as <-. vm_compute. reflexivity.
Defined.

(** The 257th client of a section: [issue] returns, and afterwards discovery
    refuses the document for every device, so nothing can be revoked on it. *)
Example issue_over_capacity :
  match sample_issue [("hetzner:prod", xray_document 256); ("vultr:prod", xray_document 2)] ["hetzner:prod"] with
  | Ok result =>
      match dget "hetzner:prod" result with
      | Some doc => discover doc "phone" = Raise (value_error "invalid-device-authority") /\
          discover doc "d0001" = Raise (value_error "invalid-device-authority") /\
          revoke result "phone" = Raise (value_error "invalid-device-authority")
      | None => False
      end
  | Raise _ => False
  end.
Proof. vm_compute. auto. Qed.
