(* ===== verification/DevicePublication.v ===== *)
(** * Private documents and published grants

    What the lifecycle and the migration of devices share: canonical JSON and its
    digest ([encoded], [sha] of [scripts/device_migration_io.py]), published
    documents ([envelope], [parse_snapshot], [un64] of
    [scripts/device_migration.py], [unique_object] and [matches] of
    [scripts/device_migration_receipt.py]).  SHA-256, the JSON decoder and
    [float.__repr__] are parameters; the decoder gets the [object_pairs_hook]. *)

From S2P Require Import Prelude PyValue PyStr Regex Base64 Json.
#[local] Open Scope string_scope.
#[local] Open Scope Z_scope.

#[local] Notation dict := (list (string * value)) (only parsing).

Definition refused (m : string) : exn := Exn MigrationRefused m.

Definition HEX : re := RClsRep is_hex_lower 64 64.
(** [matches] *)
Definition matches (r : re) (v : value) : bool := is_str v && fullmatch r (str_of v).

(** [unique_object] *)
Definition unique_object (l : list (string * value)) : res value :=
  let* d := foldM_res (fun result kv =>
    raise_if (mem kv.1 (keys result)) (refused "duplicate-migration-field") ;;; Ok (dset kv.1 kv.2 result)) l [] in
  Ok (VDict d).

(** [un64] *)
Definition un64 (v : value) : res (list Z) :=
  match v with
  | VStr s => of_option (b64decode standard (chars s)) (Exn BinasciiError "base64")
  | _ => Raise (Exn TypeError "base64")
  end.
(** [b64] *)
Definition b64 (l : list Z) : string := of_chars (b64encode standard l).

(** No NaN and no infinity: [allow_nan=False] refuses them. *)
Fixpoint finite (v : value) : bool :=
  match v with
  | VFloat (FInf _) | VFloat FNan => false
  | VList l => (fix go (l : list value) : bool := match l with [] => true | x :: l => finite x && go l end) l
  | VDict d => (fix go (d : list (string * value)) : bool := match d with [] => true | (_, x) :: d => finite x && go d end) d
  | _ => true
  end.

(** A row of a snapshot. *)
Record grant_row := GrantRow { gr_document : string; gr_digest : string; gr_revoked : bool; gr_expired : bool }.
Record snapshot := Snapshot { sn_rows : list (string * grant_row); sn_bootstrap : Z }.

Definition envelope_keys : list string := ["schema_version"; "client"; "expires"; "payload_b64"].
Definition snapshot_keys : list string := ["schema_version"; "documents"; "active_bootstrap_count"].
Definition row_keys : list string := ["token_hash"; "document_sha256"; "document_b64"; "revoked"; "expired"].

Section Publication.
Context (sha256_hex : list Z -> string) (float_repr : pyfloat -> list ascii).
Context (json_loads : (list (string * value) -> res value) -> list Z -> res value).

(** [encoded] *)
Definition encoded (v : value) : res (list Z) :=
  if finite v then Ok (dumps float_repr true v) else Raise (Exn ValueError "Out of range float values are not JSON compliant").
(** [sha] *)
Definition sha (l : list Z) : string := sha256_hex l.
Definition sha_text (s : string) : string := sha (ord <$> chars s).

(** [envelope]: the grant and its payload. *)
Definition envelope (raw : list Z) : res (dict * dict) :=
  let* v := json_loads unique_object raw in
  let d := dict_of v in
  raise_if (negb (is_dict v) || negb (same_set (keys d) envelope_keys) || negb (py_eq (field d "schema_version") (VInt 1))
            || negb (is_str (field d "client")) || negb (is_str (field d "expires")) || negb (is_str (field d "payload_b64")))
    (refused "invalid-migration-document") ;;;
  let* bytes := un64 (field d "payload_b64") in
  let* payload := json_loads unique_object bytes in
  raise_if (negb (is_dict payload)) (refused "invalid-migration-payload") ;;;
  Ok (d, dict_of payload).

Definition snapshot_step (s : list (string * grant_row) * Z) (row : value) : res (list (string * grant_row) * Z) :=
  let '(rows, total) := s in
  let d := dict_of row in
  raise_if (negb (is_dict row) || negb (same_set (keys d) row_keys)
            || negb (matches HEX (field d "token_hash")) || negb (matches HEX (field d "document_sha256"))
            || negb (is_bool (field d "revoked")) || negb (is_bool (field d "expired"))
            || has_key (str_of (field d "token_hash")) rows) (refused "invalid-migration-snapshot-row") ;;;
  let* content := un64 (field d "document_b64") in
  let total := total + Z.of_nat (length content) in
  raise_if ((2 * 1024 * 1024 <? total) || negb (bool_decide (sha content = str_of (field d "document_sha256"))))
    (refused "invalid-migration-snapshot-content") ;;;
  let* _ := envelope content in
  Ok (dset (str_of (field d "token_hash"))
        (GrantRow (str_of (field d "document_b64")) (str_of (field d "document_sha256"))
                  (bool_of (field d "revoked")) (bool_of (field d "expired"))) rows, total).

(** [parse_snapshot] *)
Definition parse_snapshot (v : value) : res snapshot :=
  let d := dict_of v in
  let count := field d "active_bootstrap_count" in
  raise_if (negb (is_dict v) || negb (same_set (keys d) snapshot_keys) || negb (py_eq (field d "schema_version") (VInt 1))
            || negb (is_list (field d "documents")) || (256 <? length (list_of (field d "documents")))%nat
            || negb (type_is_int count) || (int_of count <? 0)) (refused "invalid-migration-snapshot") ;;;
  let* ' (rows, _) := foldM_res snapshot_step (list_of (field d "documents")) ([], 0) in
  Ok (Snapshot rows (int_of count)).

(** The device a published row is for. *)
Definition row_client (row : grant_row) : res string :=
  let* content := un64 (VStr (gr_document row)) in
  let* e := envelope content in Ok (str_of (field e.1 "client")).

(** Every row of an admitted snapshot is a whole document under its own digest. *)
Lemma parse_snapshot_rows v s token row :
  parse_snapshot v = Ok s -> (token, row) ∈ sn_rows s ->
  exists content e, un64 (VStr (gr_document row)) = Ok content /\ sha content = gr_digest row /\ envelope content = Ok e.
Proof.
  intros H. unfold parse_snapshot in H. apply raise_if_seq_Ok in H as [_ H].
  apply res_bind_Ok in H as ([rows total] & H & [= <-]). cbn [sn_rows]. revert token row.
  enough (forall token row, (token, row) ∈ (rows, total).1 ->
    exists content e, un64 (VStr (gr_document row)) = Ok content /\ sha content = gr_digest row /\ envelope content = Ok e) by auto.
  revert H. generalize (rows, total) as r. clear. intros r H.
  refine (foldM_res_ind (fun _ s => forall token row, (token, row) ∈ s.1 ->
    exists content e, un64 (VStr (gr_document row)) = Ok content /\ sha content = gr_digest row /\ envelope content = Ok e) _ _ _ _ _ _ H).
  - by intros ? ? ?%not_elem_of_nil.
  - intros _ x [rs t] s' IH Hs token row Hin. unfold snapshot_step in Hs. apply raise_if_seq_Ok in Hs as [_ Hs].
    apply res_bind_Ok in Hs as (content & Hc & Hs). apply raise_if_seq_Ok in Hs as [Hg Hs].
    apply res_bind_Ok in Hs as (e & He & [= <-]). cbn [fst] in *.
    apply elem_of_dset in Hin as [[-> ->]|Hin]; [|by eapply IH].
    apply orb_false_iff in Hg as [_ Hg]. apply negb_false_iff, bool_decide_eq_true in Hg.
    exists content, e. split; [|done]. unfold un64 in *. cbn [gr_document].
    destruct (field (dict_of x) "document_b64"); try done.
Qed.
End Publication.
