(* ===== verification/DeviceLifecycle.v ===== *)
(** * The lifecycle of a device

    [Lifecycle] of [scripts/device_lifecycle.py]: the journal of a prepared
    operation ([_save], [_journal], [_validate_journal], [revocation_intent]), the
    fence around every effect ([_fence]), the probe ([_probe]), and [run], which
    carries an issue, a refresh or a revocation through the documents, the nodes and
    the publishers and can be resumed after any interruption.

    The world is the private documents of the nodes and a trace of what the
    operation did.  Everything else is an oracle, asked at increasing ticks: before
    each tick others may change any document, and each call may fail; a publication
    of a document is atomic ([operate] of [scripts/encrypted_client_document.py]),
    and may fail before or after it took place.  A document is its content and its
    [device_operations]; a record that [_validate_journal] may admit is the record
    type of the schema. *)

From stdpp Require Import sorting.
From S2P Require Import Prelude PyValue PyStr Regex Base64 Json DevicePublication.
#[local] Open Scope string_scope.
#[local] Open Scope Z_scope.
#[local] Notation dict := (list (string * value)) (only parsing).

(** ** Data *)

Inductive action := Issue | Refresh | Revoke.
#[export] Instance action_eq_dec : EqDecision action.
Proof. solve_decision. Defined.
Definition action_text (a : action) : string := match a with Issue => "issue" | Refresh => "refresh" | Revoke => "revoke" end.

Record grant := Grant { g_before : option string; g_after : string }.
Record canary := Canary {
  c_token : string; c_document : string; c_positive : bool; c_cleanup_started : bool; c_cleaned : bool }.

Record journal := Journal {
  j_manifest : string; j_phase : string; j_action : action; j_device : string; j_source : value;
  j_before : list (string * string); j_after : list (string * dict); j_profiles : list (string * list value);
  j_grants : list (string * list (string * grant)); j_written : list string; j_adopted : list string;
  j_published : list string; j_artifact : option string; j_canaries : list (string * canary); j_revocation : value }.

(** A record of [device_operations]: one of the schema's shape, or any other value. *)
Inductive record := RJournal (j : journal) | ROther (v : value).
Record document := Document { d_content : dict; d_operations : option (list (string * record)) }.

Record manifest := Manifest {
  mf_id : string; mf_digest : string; mf_action : action; mf_device : string; mf_journal_host : string;
  mf_hosts : list string; mf_publishers : list string; mf_native : bool; mf_output : string }.

Definition set_phase (p : string) (j : journal) : journal :=
  Journal (j_manifest j) p (j_action j) (j_device j) (j_source j) (j_before j) (j_after j) (j_profiles j) (j_grants j)
    (j_written j) (j_adopted j) (j_published j) (j_artifact j) (j_canaries j) (j_revocation j).
Definition add_written (h : string) (j : journal) : journal :=
  Journal (j_manifest j) (j_phase j) (j_action j) (j_device j) (j_source j) (j_before j) (j_after j) (j_profiles j) (j_grants j)
    (j_written j ++ [h])%list (j_adopted j) (j_published j) (j_artifact j) (j_canaries j) (j_revocation j).
Definition add_adopted (h : string) (j : journal) : journal :=
  Journal (j_manifest j) (j_phase j) (j_action j) (j_device j) (j_source j) (j_before j) (j_after j) (j_profiles j) (j_grants j)
    (j_written j) (j_adopted j ++ [h])%list (j_published j) (j_artifact j) (j_canaries j) (j_revocation j).
Definition add_published (k : string) (j : journal) : journal :=
  Journal (j_manifest j) (j_phase j) (j_action j) (j_device j) (j_source j) (j_before j) (j_after j) (j_profiles j) (j_grants j)
    (j_written j) (j_adopted j) (j_published j ++ [k])%list (j_artifact j) (j_canaries j) (j_revocation j).
Definition set_canary (h : string) (c : canary) (j : journal) : journal :=
  Journal (j_manifest j) (j_phase j) (j_action j) (j_device j) (j_source j) (j_before j) (j_after j) (j_profiles j) (j_grants j)
    (j_written j) (j_adopted j) (j_published j) (j_artifact j) (dset h c (j_canaries j)) (j_revocation j).

Inductive mode := Check_ | Adopt | Verify.
Inductive event :=
| EWrite (host : string) (old new : document)
| EFence (docs : list (string * document)) (snapshots : list (string * snapshot))
| ERuntime (host : string) (m : mode) (content : dict) (revocation : value) (ok : bool)
| EPublish (host token : string) (expected : option string) (document : option (list Z)) (ok : bool)
| EProbe (host : string) (profiles : list value) (ok : bool)
| ERoutes (host : string) (ok : bool)
| ERoute (host token : string) (payload : list Z) (revoked ok : bool)
| EOutput (path : string) (bytes : list Z) (ok : bool).

(** Newest event first. *)
Record world := World { w_docs : list (string * document); w_trace : list event; w_tick : nat }.

(** The answers of the outside at each tick. *)
Inductive write_outcome := Written | Refused (e : exn) | Uncertain (e : exn).
Record oracle := Oracle {
  or_others : nat -> list (string * document) -> list (string * document);
  or_revalidate : nat -> res unit; or_source : nat -> res value; or_scope : nat -> res unit;
  or_read : nat -> res unit; or_write : nat -> write_outcome;
  or_ready : nat -> res unit; or_snapshot : nat -> res value; or_publish : nat -> res value;
  or_runtime : nat -> res unit; or_probe : nat -> res value; or_routes : nat -> res unit; or_route : nat -> res unit;
  or_output : nat -> res unit }.

(** [for x in l: s = f(s, x)] *)
Fixpoint eff_fold {W S A} (f : S -> A -> eff W S) (l : list A) (s : S) : eff W S :=
  match l with [] => mret s | x :: l => s ← f s x; eff_fold f l s end.

Definition pending (m : string) : exn := Exn ValueError m.

Section Lifecycle.
Context (sha256_hex : list Z -> string) (float_repr : pyfloat -> list ascii).
Context (json_loads : (list (string * value) -> res value) -> list Z -> res value).
(** The JSON Schema of a record, and whether the record exceeds half the document limit. *)
Context (schema_ok : journal -> bool) (too_large : journal -> bool).
Context (m : manifest) (o : oracle).
Notation encoded := (encoded float_repr).
Notation sha := (sha sha256_hex).
Notation sha_text := (sha_text sha256_hex).
Notation envelope := (envelope json_loads).
Notation parse_snapshot := (parse_snapshot sha256_hex json_loads).
Notation row_client := (row_client json_loads).

(** [fingerprint], of the content. *)
Definition fingerprint (c : dict) : res string := let* b := encoded (VDict c) in Ok (sha b).

Definition before_of (j : journal) (h : string) : res string := of_option (dget h (j_before j)) (Exn KeyError h).
Definition after_of (j : journal) (h : string) : res dict := of_option (dget h (j_after j)) (Exn KeyError h).
Definition after_digest (j : journal) (h : string) : res string := let* c := after_of j h in fingerprint c.

(** ** The journal *)

Definition opt_str (s : option string) : value := match s with Some s => VStr s | None => VNone end.
Definition grant_value (g : grant) : value := VDict [("before", opt_str (g_before g)); ("after", VStr (g_after g))].
Definition immutable (j : journal) : value :=
  VDict [("schema_version", VInt 1); ("manifest_sha256", VStr (j_manifest j)); ("action", VStr (action_text (j_action j)));
    ("device", VStr (j_device j)); ("source", j_source j);
    ("before", VDict (prod_map id VStr <$> j_before j)); ("after", VDict (prod_map id VDict <$> j_after j));
    ("profiles", VDict (prod_map id VList <$> j_profiles j));
    ("grants", VDict (prod_map id (fun l => VDict (prod_map id grant_value <$> l)) <$> j_grants j));
    ("artifact", opt_str (j_artifact j));
    ("canaries", VDict (prod_map id (fun c => VDict [("token", VStr (c_token c)); ("document_b64", VStr (c_document c))]) <$> j_canaries j))].

(** [revocation_intent] *)
Definition revocation_intent (j : journal) : res value :=
  let* b := encoded (immutable j) in
  Ok (VDict [("operation_id", VStr (mf_id m)); ("intent_sha256", VStr (sha b))]).

Definition changed_host (j : journal) (h : string) : res bool :=
  let* b := before_of j h in let* a := after_digest j h in Ok (negb (bool_decide (b = a))).

(** [_runtime_hosts] *)
Definition runtime_hosts (j : journal) : res (list string) :=
  if bool_decide (mf_action m = Revoke) then Ok (mf_hosts m) else
  let* changed := mapM_res (fun h => let* c := changed_host j h in Ok (h, c)) (mf_hosts m) in
  Ok ((filter (fun p => p.2 = true) changed).*1 ++ keys (j_profiles j))%list.

Definition grant_key (h token : string) : string := h +:+ "/" +:+ token.
Definition grant_ids (j : journal) : list string :=
  mjoin ((fun hg : string * list (string * grant) => grant_key hg.1 <$> keys hg.2) <$> j_grants j).

Definition advanced (j : journal) : bool := mem (j_phase j) ["runtime-adopted"; "complete"].
Definition complete (j : journal) : bool := bool_decide (j_phase j = "complete").

(** [_validate_journal] *)
Definition validate_journal (j : journal) : res unit :=
  let invalid := pending "invalid-device-operation-journal" in
  raise_if (negb (schema_ok j)) invalid ;;;
  let* expected := (if bool_decide (mf_action m = Revoke) then revocation_intent j else Ok VNone) in
  raise_if (negb (py_eq (j_revocation j) expected)) (pending "device-revocation-intent-changed") ;;;
  raise_if (negb (same_set (keys (j_before j)) (mf_hosts m)) || negb (same_set (keys (j_after j)) (mf_hosts m))
    || negb (subset (keys (j_profiles j)) (mf_hosts m)) || negb (subset (keys (j_grants j)) (mf_publishers m))
    || negb (subset (j_written j) (mf_hosts m)) || negb (subset (j_adopted j) (j_written j))
    || negb (subset (j_published j) (grant_ids j)) || negb (bool_decide (j_action j = mf_action m))
    || negb (bool_decide (j_device j = mf_device m))
    || negb (Bool.eqb (negb (bool_decide (j_artifact j = None))) (bool_decide (mf_action m = Issue) || mf_native m))
    || negb (same_set (keys (j_canaries j)) (if bool_decide (mf_action m = Revoke) then mf_publishers m else [])))
    invalid ;;;
  let* affected := runtime_hosts j in
  raise_if ((negb (bool_decide (j_phase j = "prepared")) && negb (same_set (j_written j) (mf_hosts m)))
    || (advanced j && negb (same_set (j_adopted j) affected))
    || (complete j && negb (same_set (j_published j) (grant_ids j)))
    || (negb (bool_decide (j_written j = [])) && negb (forallb (fun hc => c_positive hc.2) (j_canaries j)))
    || (complete j && negb (forallb (fun hc => c_cleaned hc.2) (j_canaries j))))
    (pending "incomplete-device-operation-evidence").

(** ** The outside *)

Notation io := (eff world).

(** The next tick: first the others have their turn. *)
Definition tick : io nat := fun s =>
  (Ok (w_tick s), World (or_others o (w_tick s) (w_docs s)) (w_trace s) (S (w_tick s))).
Definition log (e : event) : io unit := eff_modify (fun s => World (w_docs s) (e :: w_trace s) (w_tick s)).
Definition call {A} (f : nat -> res A) : io A := n ← tick; eff_lift (f n).
(** A call that leaves a trace, with its outcome. *)
Definition effect {A} (f : nat -> res A) (e : bool -> event) : io A :=
  n ← tick; log (e (is_ok (f n))) ;; eff_lift (f n).

(** [io.read] *)
Definition read (h : string) : io document :=
  call (or_read o) ;; s ← eff_get; eff_lift (of_option (dget h (w_docs s)) (Exn OSError h)).

(** [operate]: the keys of the document stay, and the publication is one step.  A
    document that the transaction does not change is published onto itself; two
    contents that Python's [==] does not tell apart (1 and True) are two here. *)
Definition kept_keys (old new : document) : bool :=
  subset (keys (d_content old)) (keys (d_content new)) &&
  match d_operations old, d_operations new with Some _, None => false | _, _ => true end.
Definition writer (h : string) (transform : document -> res document) : io unit :=
  n ← tick; s ← eff_get;
  match or_write o n with
  | Refused e => eff_lift (Raise e)
  | outcome =>
      old ← eff_lift (of_option (dget h (w_docs s)) (Exn OSError h));
      new ← eff_lift (transform old);
      eff_lift (raise_if (negb (kept_keys old new)) (pending "invalid-document-transaction")) ;;
      eff_modify (fun s => World (dset h new (w_docs s)) (EWrite h old new :: w_trace s) (w_tick s)) ;;
      match outcome with Uncertain e => eff_lift (Raise e) | _ => mret tt end
  end.

(** [documents] *)
Definition documents : io (list (string * document)) :=
  call (or_revalidate o) ;;
  eff_fold (fun docs h => d ← read h; mret (docs ++ [(h, d)])%list) (mf_hosts m) [].
(** [snapshots] *)
Definition snapshots : io (list (string * snapshot)) :=
  eff_fold (fun l h =>
    call (or_ready o) ;; v ← call (or_snapshot o); s ← eff_lift (parse_snapshot v); mret (l ++ [(h, s)])%list) (mf_publishers m) [].

(** [_save] *)
Definition save_transform (j : journal) (d : document) : res document :=
  let* b := before_of j (mf_journal_host m) in
  let* a := after_digest j (mf_journal_host m) in
  let* f := fingerprint (d_content d) in
  raise_if (negb (mem f [b; a])) (pending "device-journal-authority-changed") ;;;
  let records := default [] (d_operations d) in
  let* same := (match dget (mf_id m) records with
    | None | Some (ROther VNone) => Ok true
    | Some (RJournal p) => Ok (bool_decide (j_manifest p = mf_digest m))
    | Some (ROther v) => let* s := index v "manifest_sha256" in Ok (py_eq s (VStr (mf_digest m)))
    end) in
  raise_if (negb same) (pending "device-operation-manifest-changed") ;;;
  Ok (Document (d_content d) (Some (dset (mf_id m) (RJournal j) records))).
Definition save (j : journal) : io unit :=
  eff_lift (raise_if (too_large j) (pending "device-operation-journal-capacity")) ;;
  eff_lift (validate_journal j) ;;
  call (or_revalidate o) ;;
  source ← call (or_source o);
  eff_lift (raise_if (negb (py_eq source (j_source j))) (pending "device-source-changed")) ;;
  writer (mf_journal_host m) (save_transform j).

(** [_journal] *)
Definition load_journal : io journal :=
  d ← read (mf_journal_host m);
  match dget (mf_id m) (default [] (d_operations d)) with
  | Some (RJournal j) =>
      eff_lift (raise_if (negb (bool_decide (j_manifest j = mf_digest m))) (pending "device-operation-not-prepared-or-manifest-changed")) ;;
      eff_lift (validate_journal j) ;; mret j
  | Some (ROther v) =>
      eff_lift (Raise (pending (if is_dict v && py_eq (field (dict_of v) "manifest_sha256") (VStr (mf_digest m))
        then "invalid-device-operation-journal" else "device-operation-not-prepared-or-manifest-changed")))
  | None => eff_lift (Raise (pending "device-operation-not-prepared-or-manifest-changed"))
  end.

(** ** The fence *)

Definition fence_document (j : journal) (hd : string * document) : res unit :=
  let '(h, d) := hd in
  let* allowed := (if mem h (j_written j) then let* a := after_digest j h in Ok [a]
    else let* b := before_of j h in let* a := after_digest j h in Ok [b; a]) in
  let* f := fingerprint (d_content d) in
  raise_if (negb (mem f allowed)) (pending "device-authority-changed-during-operation").

(** The rows of the device, without the canary. *)
Definition canary_row (j : journal) (h token : string) (row : grant_row) : bool :=
  match dget h (j_canaries j) with
  | Some c => bool_decide (token = sha_text (c_token c)) && bool_decide (gr_document row = c_document c)
  | None => false
  end.
Definition current_rows (j : journal) (h : string) (s : snapshot) : res (list (string * grant_row)) :=
  let* marked := mapM_res (fun tr : string * grant_row =>
    let* client := row_client tr.2 in
    Ok (tr, bool_decide (client = mf_device m) && negb (canary_row j h tr.1 tr.2))) (sn_rows s) in
  Ok (filter (fun p => p.2 = true) marked).*1.

Definition grants_of (j : journal) (h : string) : list (string * grant) := default [] (dget h (j_grants j)).

Definition row_known (j : journal) (known : list (string * grant)) (tr : string * grant_row) : res unit :=
  let '(token, row) := tr in
  match dget token known with
  | None =>
      if bool_decide (mf_action m = Refresh) && (gr_revoked row || gr_expired row) then Ok tt
      else Raise (pending "new-device-grant-during-operation")
  | Some g =>
      raise_if (negb (bool_decide (g_before g = Some (gr_document row))) && negb (bool_decide (g_after g = gr_document row)))
        (pending "device-grant-changed-during-operation") ;;;
      raise_if (negb (bool_decide (mf_action m = Revoke)) && (gr_revoked row || gr_expired row))
        (pending "device-grant-no-longer-active")
  end.

Definition fence_snapshot (j : journal) (hs : string * snapshot) : res unit :=
  let '(h, s) := hs in
  raise_if (negb (sn_bootstrap s =? 0)) (pending "new-bootstrap-grant-during-device-operation") ;;;
  let* current := current_rows j h s in
  foldM_res (fun _ tr => row_known j (grants_of j h) tr) current tt ;;;
  raise_if (existsb (fun tg : string * grant =>
      negb (mem tg.1 (keys current)) && negb (bool_decide (g_before tg.2 = None))) (grants_of j h))
    (pending "device-grant-disappeared").

(** [_fence] *)
Definition fence (j : journal) : io (list (string * snapshot)) :=
  source ← call (or_source o);
  eff_lift (raise_if (negb (py_eq source (j_source j))) (pending "device-source-changed")) ;;
  docs ← documents;
  eff_lift (foldM_res (fun _ hd => fence_document j hd) docs tt) ;;
  snaps ← snapshots;
  eff_lift (foldM_res (fun _ hs => fence_snapshot j hs) snaps tt) ;;
  log (EFence docs snaps) ;;
  mret snaps.

(** ** The probe *)

Definition revoking : bool := bool_decide (mf_action m = Revoke).

Definition is_true (v : value) : bool := match v with VBool true => true | _ => false end.

Definition probe_row (row : value) : res unit :=
  let incomplete := pending "device-native-probe-incomplete" in
  let* state := get row "state" in
  let d := dict_of row in
  raise_if (negb (py_eq state (VStr (if revoking then "denied" else "accepted")))
            || negb (forallb (fun k => is_true (field d k)) ["control_ok"; "setup_ok"; "cleanup_ok"])) incomplete ;;;
  raise_if (revoking && negb (is_true (field d "peer_absent") && (is_true (field d "runtime_healthy") || is_true (field d "inactive_confirmed"))))
    (pending "device-revocation-runtime-witness-incomplete").

(** The checks of [_probe] on the answer. *)
Definition probe_result (profiles : list value) (result : value) : res unit :=
  let incomplete := pending "device-native-probe-incomplete" in
  let d := dict_of result in
  let rows := list_of (field d "profiles") in
  raise_if (negb (is_dict result) || negb (py_eq (field d "control") (VStr "passed")) || negb (py_eq (field d "cleanup") (VStr "confirmed"))
            || negb (is_list (field d "profiles")) || negb (length rows =? length profiles)%nat) incomplete ;;;
  let* got := mapM_res (fun row => get row "id") rows in let* got := py_set got in
  let* want := mapM_res (fun row => index row "id") profiles in let* want := py_set want in
  raise_if (negb (forallb (fun v => existsb (py_eq v) want) got) || negb (forallb (fun v => existsb (py_eq v) got) want)) incomplete ;;;
  foldM_res (fun _ row => probe_row row) rows tt.

(** [_probe] *)
Definition probe (h : string) (profiles : list value) : io unit :=
  eff_lift (raise_if (bool_decide (profiles = [])) (pending "device-probe-coverage-empty")) ;;
  effect (fun n => let* r := or_probe o n in probe_result profiles r) (EProbe h profiles).

(** ** [run], phase by phase *)

Definition publish (h token : string) (expected : option string) (document : option (list Z)) : io value :=
  effect (or_publish o) (EPublish h token expected document).
Definition read_route (h token : string) (payload : list Z) (revoked : bool) : io unit :=
  effect (or_route o) (ERoute h token payload revoked).
Definition runtime (j : journal) (h : string) (md : mode) : io unit :=
  c ← eff_lift (after_of j h); effect (or_runtime o) (ERuntime h md c (j_revocation j)).

Definition canary_of (j : journal) (h : string) : res canary := of_option (dget h (j_canaries j)) (Exn KeyError h).

(** Canaries are published before any authority changes. *)
Definition canary_step (j : journal) (h : string) : io journal :=
  c ← eff_lift (canary_of j h);
  if c_positive c then mret j else
  let hash := sha_text (c_token c) in
  document ← eff_lift (un64 (VStr (c_document c)));
  publish h hash None (Some document) ;;
  e ← eff_lift (envelope document);
  payload ← eff_lift (un64 (field e.1 "payload_b64"));
  read_route h (c_token c) payload false ;;
  let j := set_canary h (Canary (c_token c) (c_document c) true (c_cleanup_started c) (c_cleaned c)) j in
  save j ;; mret j.

Definition write_transform (j : journal) (h : string) (candidate : dict) (d : document) : res document :=
  let* f := fingerprint (d_content d) in
  let* b := before_of j h in let* a := fingerprint candidate in
  raise_if (negb (mem f [b; a])) (pending "device-authority-CAS-conflict") ;;;
  Ok (Document candidate (d_operations d)).
Definition write_step (j : journal) (h : string) : io journal :=
  candidate ← eff_lift (after_of j h);
  j ← (if mem h (j_written j) then mret j else
    writer h (write_transform j h candidate) ;;
    let j := add_written h j in save j ;; mret j);
  fence j ;; mret j.

Definition adopt_step (j : journal) (h : string) : io journal :=
  if mem h (j_adopted j) then mret j else
  runtime j h Check_ ;; fence j ;; runtime j h Adopt ;; fence j ;;
  match dget h (j_profiles j) with Some profiles => probe h profiles | None => mret tt end ;;
  let j := add_adopted h j in save j ;; mret j.

Definition refuses_grant (row : option grant_row) (g : grant) : bool :=
  match row with Some r => negb (bool_decide (gr_document r = g_after g)) | None => true end.
Definition publish_grant (h token : string) (g : grant) (row : option grant_row) : io unit :=
  if revoking then
    eff_lift (raise_if (match row with Some r => negb (gr_revoked r) | None => true end) (pending "device-publisher-revocation-unconfirmed"))
  else if refuses_grant row g then
    expected ← eff_lift (match g_before g with
      | Some b => if bool_decide (b = "") then Ok None else let* raw := un64 (VStr b) in Ok (Some (sha raw))
      | None => Ok None end);
    after ← eff_lift (un64 (VStr (g_after g)));
    response ← publish h token expected (Some after);
    digest ← eff_lift (get response "document_sha256");
    eff_lift (raise_if (negb (py_eq digest (VStr (sha after)))) (pending "device-publication-acknowledgement-unconfirmed"))
  else mret tt.
Definition snapshot_row (snaps : list (string * snapshot)) (h token : string) : res (option grant_row) :=
  let* s := of_option (dget h snaps) (Exn KeyError h) in Ok (dget token (sn_rows s)).
Definition grant_step (h : string) (j : journal) (tg : string * grant) : io journal :=
  let '(token, g) := tg in
  snaps ← fence j;
  row ← eff_lift (snapshot_row snaps h token);
  publish_grant h token g row ;;
  if mem (grant_key h token) (j_published j) then mret j
  else let j := add_published (grant_key h token) j in save j ;; mret j.
Definition publisher_step (j : journal) (hg : string * list (string * grant)) : io journal :=
  let '(h, grants) := hg in
  (if negb revoking && negb (bool_decide (keys grants = [])) then effect (or_routes o) (ERoutes h) else mret tt) ;;
  eff_fold (grant_step h) grants j.

Definition grant_confirmed (row : option grant_row) (g : grant) : bool :=
  match row with Some r => bool_decide (gr_document r = g_after g) && Bool.eqb (gr_revoked r) revoking | None => false end.
Definition confirm_grant (snaps : list (string * snapshot)) (htg : string * (string * grant)) : res unit :=
  let* row := snapshot_row snaps htg.1 htg.2.1 in
  raise_if (negb (grant_confirmed row htg.2.2)) (pending "device-final-publication-unconfirmed").
Definition all_grants (j : journal) : list (string * (string * grant)) :=
  mjoin ((fun hg : string * list (string * grant) => pair hg.1 <$> hg.2) <$> j_grants j).

Definition canary_unconfirmed (c : canary) (row : option grant_row) : bool :=
  match row with
  | None => negb (c_cleanup_started c)
  | Some r => negb (bool_decide (gr_document r = c_document c)) || negb (gr_revoked r) || gr_expired r
  end.
Definition clean_step (snaps : list (string * snapshot)) (j : journal) (h : string) : io journal :=
  c ← eff_lift (canary_of j h);
  row ← eff_lift (snapshot_row snaps h (sha_text (c_token c)));
  eff_lift (raise_if (canary_unconfirmed c row) (pending "device-revocation-canary-authority-unconfirmed")) ;;
  effect (or_routes o) (ERoutes h) ;;
  read_route h (c_token c) [] true ;;
  if c_cleaned c then mret j else
  let j := set_canary h (Canary (c_token c) (c_document c) (c_positive c) true (c_cleaned c)) j in
  save j ;;
  expected ← eff_lift (un64 (VStr (c_document c)));
  result ← publish h (sha_text (c_token c)) (Some (sha expected)) None;
  digest ← eff_lift (get result "document_sha256");
  eff_lift (raise_if (negb (is_none digest)) (pending "device-canary-cleanup-unconfirmed")) ;;
  let j := set_canary h (Canary (c_token c) (c_document c) (c_positive c) true true) j in
  save j ;; mret j.

(** The last look at the publishers of a revocation. *)
Definition revoked_finally (j : journal) (final : list (string * snapshot)) (h : string) : res unit :=
  let* s := of_option (dget h final) (Exn KeyError h) in
  let* c := canary_of j h in
  raise_if (has_key (sha_text (c_token c)) (sn_rows s)) (pending "device-canary-cleanup-unconfirmed") ;;;
  raise_if (existsb (fun token => negb (match dget token (sn_rows s) with Some r => gr_revoked r | None => false end))
              (keys (grants_of j h))) (pending "device-final-revocation-changed").

Record status := Status { st_phase : string; st_written : nat; st_adopted : nat; st_profiles : nat; st_published : nat; st_artifact : bool }.
Definition status_of : io status :=
  j ← load_journal;
  mret (Status (j_phase j) (length (j_written j)) (length (j_adopted j))
    (foldr (fun hp n => (length hp.2 + n)%nat) O (j_profiles j)) (length (j_published j))
    (negb (bool_decide (j_artifact j = None)) && complete j)).

Definition host_order (l : list string) : list string := merge_sort str_le (remove_dups l).

(** Output, verification and confirmation of what the phases did. *)
Definition deliver (j : journal) : io unit :=
  match j_artifact j with
  | None => mret tt
  | Some a => bytes ← eff_lift (un64 (VStr a)); effect (or_output o) (EOutput (mf_output m) bytes)
  end.
Definition verify_hosts (j : journal) (hosts : list string) : io unit :=
  eff_fold (fun _ h => runtime j h Verify) hosts tt.
Definition probe_hosts (j : journal) : io unit :=
  eff_fold (fun _ hp => probe hp.1 hp.2) (j_profiles j) tt.

(** The phases of [run]. *)
Definition authority_phase (j : journal) : io journal :=
  j ← eff_fold canary_step (keys (j_canaries j)) j;
  j ← eff_fold write_step (mf_hosts m) j;
  let j := set_phase "authority-written" j in save j ;; mret j.
Definition runtime_phase (j : journal) (affected : list string) : io journal :=
  j ← eff_fold adopt_step (host_order affected) j;
  let j := set_phase "runtime-adopted" j in save j ;; mret j.
Definition publication_phase (j : journal) : io journal := eff_fold publisher_step (j_grants j) j.
Definition confirmation_phase (j : journal) (affected : list string) : io journal :=
  deliver j ;;
  verify_hosts j (host_order affected) ;;
  probe_hosts j ;;
  snaps ← fence j;
  eff_lift (foldM_res (fun _ htg => confirm_grant snaps htg) (all_grants j) tt) ;;
  j ← eff_fold (clean_step snaps) (keys (j_canaries j)) j;
  call (or_scope o) ;;
  final ← fence j;
  eff_lift (if revoking then foldM_res (fun _ h => revoked_finally j final h) (keys (j_canaries j)) tt else Ok tt) ;;
  let j := set_phase "complete" j in save j ;; mret j.

(** [run], from the journal that was loaded. *)
Definition resume (j : journal) : io journal :=
  call (or_scope o) ;;
  fence j ;;
  j ← authority_phase j;
  affected ← eff_lift (runtime_hosts j);
  j ← runtime_phase j affected;
  j ← publication_phase j;
  confirmation_phase j affected.
Definition run : io status := j ← load_journal; resume j ;; status_of.

(** * Progress of a journal

    The sets and flags that [run] changes of a journal only grow, and everything else
    is the prepared intent.  The phase is the exception: a resumed run starts again
    at 'authority-written', whatever phase it found; it only never becomes
    'prepared' again. *)

Definition canary_progress (c c' : canary) : Prop :=
  c_token c' = c_token c /\ c_document c' = c_document c /\ (c_positive c = true -> c_positive c' = true) /\
  (c_cleanup_started c = true -> c_cleanup_started c' = true) /\ (c_cleaned c = true -> c_cleaned c' = true).

Record progress (a b : journal) : Prop := {
  pr_manifest : j_manifest b = j_manifest a; pr_action : j_action b = j_action a; pr_device : j_device b = j_device a;
  pr_source : j_source b = j_source a; pr_before : j_before b = j_before a; pr_after : j_after b = j_after a;
  pr_profiles : j_profiles b = j_profiles a; pr_grants : j_grants b = j_grants a; pr_artifact : j_artifact b = j_artifact a;
  pr_revocation : j_revocation b = j_revocation a;
  pr_written : j_written a ⊆ j_written b; pr_adopted : j_adopted a ⊆ j_adopted b; pr_published : j_published a ⊆ j_published b;
  pr_phase : j_phase b = "prepared" -> j_phase a = "prepared";
  pr_keys : keys (j_canaries b) = keys (j_canaries a);
  pr_canaries : forall h c, dget h (j_canaries a) = Some c -> exists c', dget h (j_canaries b) = Some c' /\ canary_progress c c' }.

#[local] Instance progress_preorder : PreOrder progress.
Proof.
  split.
  - intros j. split; try done. intros h c Hc. exists c. by repeat split.
  - intros a b c [] []. split; try congruence; try (by etrans); [auto|].
    intros h x Hx. edestruct pr_canaries0 as (y & Hy & ? & ? & ? & ? & ?); [exact Hx|].
    edestruct pr_canaries1 as (z & Hz & ? & ? & ? & ? & ?); [exact Hy|]. exists z. split; [done|]. repeat split; try congruence; auto.
Qed.

Lemma progress_phase p j : p <> "prepared" -> progress j (set_phase p j).
Proof. intros Hne. split; try done. intros h c Hc. exists c. by repeat split. Qed.
Lemma progress_written h j : progress j (add_written h j).
Proof. split; try done; [by apply list_subseteq_app_l|]. intros h' c Hc. exists c. by repeat split. Qed.
Lemma progress_adopted h j : progress j (add_adopted h j).
Proof. split; try done; [by apply list_subseteq_app_l|]. intros h' c Hc. exists c. by repeat split. Qed.
Lemma progress_published k j : progress j (add_published k j).
Proof. split; try done; [by apply list_subseteq_app_l|]. intros h' c Hc. exists c. by repeat split. Qed.
Lemma progress_canary h c c' j :
  dget h (j_canaries j) = Some c -> canary_progress c c' -> progress j (set_canary h c' j).
Proof.
  intros Hc Hp. split; try done; cbn [set_canary j_canaries].
  - by eapply keys_dset_present.
  - intros h' x Hx. rewrite dget_dset. case_decide as He; [subst; exists c'; split; congruence|]. exists x. by repeat split.
Qed.

Lemma progress_after j j' h : progress j j' -> after_of j' h = after_of j h.
Proof. intros []. unfold after_of. congruence. Qed.
Lemma progress_before j j' h : progress j j' -> before_of j' h = before_of j h.
Proof. intros []. unfold before_of. congruence. Qed.
Lemma progress_after_digest j j' h : progress j j' -> after_digest j' h = after_digest j h.
Proof. intros H. unfold after_digest. by rewrite (progress_after _ _ _ H). Qed.

(** A publication that [run] may make: it replaces the content that was there when
    the operation was prepared, or the prepared one, and either records the
    progress of the journal or installs the prepared content. *)
Definition admits (j0 : journal) (h : string) (old new : document) : Prop :=
  (exists f, fingerprint (d_content old) = Ok f /\ (before_of j0 h = Ok f \/ after_digest j0 h = Ok f)) /\
  ((h = mf_journal_host m /\ d_content new = d_content old /\ exists j,
      d_operations new = Some (dset (mf_id m) (RJournal j) (default [] (d_operations old))) /\
      progress j0 j /\ validate_journal j = Ok tt) \/
   (after_of j0 h = Ok (d_content new) /\ d_operations new = d_operations old)).

Definition is_write (e : event) : bool := match e with EWrite _ _ _ => true | _ => false end.

(** ** What the calls do to the trace *)

Section Ticks.
Context (P : world -> Prop).
Context (Htick : forall w, P w -> P (World (or_others o (w_tick w) (w_docs w)) (w_trace w) (S (w_tick w)))).

Lemma tick_preserves : preserves P tick.
Proof. intros w Hw. by apply Htick. Qed.
Lemma call_preserves {A} (f : nat -> res A) : preserves P (call f).
Proof. apply preserves_bind; [apply tick_preserves|]. intros n. apply preserves_lift. Qed.
#[local] Hint Resolve tick_preserves call_preserves : preserves.
Lemma read_preserves h : preserves P (read h).
Proof. unfold read. preserves. Qed.
#[local] Hint Resolve read_preserves : preserves.
Lemma eff_fold_preserves {S A} (f : S -> A -> io S) l s :
  (forall s x, preserves P (f s x)) -> preserves P (eff_fold f l s).
Proof. intros Hf. revert s. induction l as [|x l IH]; intros s; cbn [eff_fold]; preserves; auto. Qed.
Lemma documents_preserves : preserves P documents.
Proof. unfold documents. preserves. apply eff_fold_preserves. intros. preserves. Qed.
Lemma snapshots_preserves : preserves P snapshots.
Proof. unfold snapshots. apply eff_fold_preserves. intros. preserves. Qed.
Lemma load_journal_preserves : preserves P load_journal.
Proof. unfold load_journal. preserves. Qed.
Lemma status_of_preserves : preserves P status_of.
Proof. unfold status_of. apply preserves_bind; [apply load_journal_preserves|]. intros j. preserves. Qed.
End Ticks.

(** The part of a program that leaves no trace. *)
Definition quiet {A} (c : io A) : Prop := forall t, preserves (fun w => w_trace w = t) c.
Lemma quiet_run {A} (c : io A) w r w' : quiet c -> c w = (r, w') -> w_trace w' = w_trace w.
Proof. intros Hc H. by apply (preserves_run _ _ _ _ _ (Hc (w_trace w)) eq_refl H). Qed.
Lemma call_quiet {A} (f : nat -> res A) : quiet (call f).
Proof. intros t. by apply call_preserves. Qed.
Lemma documents_quiet : quiet documents.
Proof. intros t. by apply documents_preserves. Qed.
Lemma snapshots_quiet : quiet snapshots.
Proof. intros t. by apply snapshots_preserves. Qed.

Lemma effect_run {A} (f : nat -> res A) e w r w' :
  effect f e w = (r, w') -> w_trace w' = e (is_ok r) :: w_trace w.
Proof. unfold effect, tick, log, eff_modify, eff_lift, mbind, eff_bind. by intros [= <- <-]. Qed.

Lemma eff_fold_keys {W B} (f : string -> eff W B) l acc s docs s' :
  eff_fold (fun acc h => d ← f h; mret (acc ++ [(h, d)])%list) l acc s = (Ok docs, s') -> docs.*1 = (acc.*1 ++ l)%list.
Proof.
  revert acc s. induction l as [|h l IH]; intros acc s; cbn [eff_fold].
  - intros [= <- _]. by rewrite app_nil_r.
  - intros (acc' & u & (d & v & _ & [= <- _])%eff_bind_Ok & H)%eff_bind_Ok.
    apply IH in H. rewrite H, fmap_app, <-app_assoc. done.
Qed.

(** What a fence that passes has seen. *)
Record fence_ok (j : journal) (docs : list (string * document)) (snaps : list (string * snapshot)) : Prop := {
  fo_hosts : docs.*1 = mf_hosts m;
  fo_documents : Forall (fun hd => fence_document j hd = Ok tt) docs;
  fo_snapshots : Forall (fun hs => fence_snapshot j hs = Ok tt) snaps }.

Lemma foldM_res_unit {A} (f : A -> res unit) l u : foldM_res (fun _ x => f x) l u = Ok tt -> Forall (fun x => f x = Ok tt) l.
Proof.
  revert u. induction l as [|x l IH]; intros u; cbn [foldM_res]; [constructor|].
  intros ([] & Hx & H)%res_bind_Ok. constructor; [done|]. by eapply IH.
Qed.

Lemma fence_run j w r w' :
  fence j w = (r, w') ->
  match r with
  | Ok snaps => exists docs, w_trace w' = EFence docs snaps :: w_trace w /\ fence_ok j docs snaps
  | Raise _ => w_trace w' = w_trace w
  end.
Proof.
  unfold fence. intros H.
  apply eff_bind_cases in H as [(source & w1 & H1 & H)|(e & H & ->)]; [|by apply quiet_run in H; [|apply call_quiet]].
  apply quiet_run in H1; [|apply call_quiet].
  apply eff_lift_cases in H as [([] & _ & H)|(e & _ & -> & ->)]; [|done].
  apply eff_bind_cases in H as [(docs & w2 & H2 & H)|(e & H & ->)]; [|by apply quiet_run in H; [rewrite H|apply documents_quiet]].
  pose proof H2 as Hdocs. apply quiet_run in H2; [|apply documents_quiet].
  apply eff_lift_cases in H as [([] & Hfd & H)|(e & _ & -> & ->)]; [|congruence].
  apply eff_bind_cases in H as [(snaps & w3 & H3 & H)|(e & H & ->)]; [|apply quiet_run in H; [congruence|apply snapshots_quiet]].
  apply quiet_run in H3; [|apply snapshots_quiet].
  apply eff_lift_cases in H as [([] & Hfs & H)|(e & _ & -> & ->)]; [|congruence].
  injection H as <- <-. exists docs. cbn [w_trace]. split; [congruence|].
  split; [|by apply foldM_res_unit in Hfd|by apply foldM_res_unit in Hfs].
  unfold documents in Hdocs. apply eff_bind_Ok in Hdocs as (u & v & _ & Hd). by apply eff_fold_keys in Hd.
Qed.

(** A saved journal is in the trace, and it was valid. *)
Definition saves (j : journal) (e : event) : Prop :=
  exists old new, e = EWrite (mf_journal_host m) old new /\
    d_operations new = Some (dset (mf_id m) (RJournal j) (default [] (d_operations old))).

Lemma writer_run h transform w w' :
  writer h transform w = (Ok tt, w') ->
  exists old new, transform old = Ok new /\ w_trace w' = EWrite h old new :: w_trace w.
Proof.
  unfold writer. intros (n & w1 & [= <- <-] & H)%eff_bind_Ok.
  change ((eff_get ≫= ?k) ?w) with (k w w) in H. cbv beta in H.
  destruct (or_write o (w_tick w)) as [|e|e]; [|done|].
  - apply eff_bind_Ok in H as (old & w2 & [= Hd <-] & H). apply eff_bind_Ok in H as (new & w3 & [= Hn <-] & H).
    apply eff_bind_Ok in H as (u & w4 & [= _ <-] & H). cbn in H. injection H as <-. by exists old, new.
  - apply eff_bind_Ok in H as (old & w2 & [= Hd <-] & H). apply eff_bind_Ok in H as (new & w3 & [= Hn <-] & H).
    apply eff_bind_Ok in H as (u & w4 & [= _ <-] & H). by cbn in H.
Qed.

Lemma save_run j w w' :
  save j w = (Ok tt, w') -> validate_journal j = Ok tt /\ exists e, saves j e /\ w_trace w' = e :: w_trace w.
Proof.
  unfold save. intros (u & w1 & [= _ <-] & H)%eff_bind_Ok. apply eff_bind_Ok in H as ([] & w2 & [= Hv <-] & H).
  apply eff_bind_Ok in H as (u2 & w3 & H3 & H). apply quiet_run in H3; [|apply call_quiet].
  apply eff_bind_Ok in H as (source & w4 & H4 & H). apply quiet_run in H4; [|apply call_quiet].
  apply eff_bind_Ok in H as (u3 & w5 & [= _ <-] & H). apply writer_run in H as (old & new & Ht & Htr).
  split; [done|]. exists (EWrite (mf_journal_host m) old new). split; [|congruence]. exists old, new. split; [done|].
  unfold save_transform in Ht. repeat (apply res_bind_Ok in Ht as (? & _ & Ht)). by injection Ht as <-.
Qed.

(** ** What may happen, and when *)

(** Every document that the fence read holds the prepared content. *)
Definition fenced (j0 : journal) (docs : list (string * document)) : Prop :=
  docs.*1 = mf_hosts m /\
  Forall (fun hd => exists f, fingerprint (d_content hd.2) = Ok f /\ after_digest j0 hd.1 = Ok f) docs.

(** A valid journal in this phase was made durable. *)
Definition recorded (j0 : journal) (p : string) (t : list event) : Prop :=
  exists e j, e ∈ t /\ saves j e /\ progress j0 j /\ j_phase j = p /\ validate_journal j = Ok tt.

(** A node adopts only behind its own check and a fence that saw all prepared
    documents; a grant is published only after the adoption was recorded. *)
Definition justified (j0 : journal) (e : event) (t : list event) : Prop :=
  match e with
  | ERuntime h Adopt c rev _ =>
      exists docs snaps t', t = EFence docs snaps :: ERuntime h Check_ c rev true :: t' /\ fenced j0 docs /\ after_of j0 h = Ok c
  | EPublish _ _ _ _ _ => mf_action m <> Revoke -> recorded j0 "runtime-adopted" t
  | _ => True
  end.

Lemma recorded_cons j0 p e t : recorded j0 p t -> recorded j0 p (e :: t).
Proof. intros (e' & j & Hin & H). exists e', j. split; [by right|done]. Qed.

Lemma fence_fenced j0 j docs snaps :
  progress j0 j -> mf_hosts m ⊆ j_written j -> fence_ok j docs snaps -> fenced j0 docs.
Proof.
  intros Hp Hw [Hh Hd _]. split; [done|]. rewrite Forall_forall in Hd |- *. intros [h d] Hin. specialize (Hd _ Hin).
  unfold fence_document in Hd. assert (mem h (j_written j) = true) as Hm.
  { apply mem_true, Hw. rewrite <-Hh. apply (list_elem_of_fmap_2 fst _ (h, d)) in Hin. exact Hin. }
  rewrite Hm in Hd. apply res_bind_Ok in Hd as (allowed & Ha & Hd). apply res_bind_Ok in Ha as (a & Ha & [= <-]).
  apply res_bind_Ok in Hd as (f & Hf & Hd). apply raise_if_Ok, negb_false_iff, mem_true, list_elem_of_singleton in Hd. subst f.
  exists a. split; [done|]. by rewrite <-(progress_after_digest _ _ _ Hp).
Qed.

Lemma validated_written j : validate_journal j = Ok tt -> j_phase j <> "prepared" -> mf_hosts m ⊆ j_written j.
Proof.
  unfold validate_journal. intros H Hp. repeat (apply res_bind_Ok in H as (? & _ & H)).
  apply raise_if_Ok in H. do 4 apply orb_false_iff in H as [H _].
  rewrite bool_decide_eq_false_2 in H by done. cbn [negb andb] in H. apply negb_false_iff in H.
  intros h Hh. rewrite same_set_true in H. by apply H.
Qed.

Lemma runtime_run j h md w r w' :
  runtime j h md w = (r, w') ->
  (exists c, after_of j h = Ok c /\ w_trace w' = ERuntime h md c (j_revocation j) (is_ok r) :: w_trace w) \/ (w' = w /\ is_ok r = false).
Proof.
  unfold runtime. intros [(c & Hc & H)|(e & _ & -> & ->)]%eff_lift_cases; [|by right].
  left. exists c. split; [done|]. by apply effect_run in H.
Qed.

Lemma canaries_revoke j h : validate_journal j = Ok tt -> h ∈ keys (j_canaries j) -> mf_action m = Revoke.
Proof.
  unfold validate_journal. intros H Hin. do 3 (apply res_bind_Ok in H as (? & ? & H)). apply res_bind_Ok in H as (? & Hg & H).
  destruct (decide (mf_action m = Revoke)) as [|Hn]; [done|]. exfalso.
  apply raise_if_Ok in Hg. apply orb_false_iff in Hg as [_ Hg]. apply negb_false_iff in Hg.
  rewrite bool_decide_eq_false_2 in Hg by done. rewrite same_set_true in Hg. by apply Hg, not_elem_of_nil in Hin.
Qed.

(** ** An invariant of every run *)

Section Invariant.
Context (j0 : journal) (Hvalid : validate_journal j0 = Ok tt) (P : world -> Prop).
Context (Htick : forall w, P w -> P (World (or_others o (w_tick w) (w_docs w)) (w_trace w) (S (w_tick w)))).
Context (Hlog : forall e w, is_write e = false -> justified j0 e (w_trace w) -> P w ->
  P (World (w_docs w) (e :: w_trace w) (w_tick w))).
Context (Hwrite : forall w h old new, P w -> dget h (w_docs w) = Some old -> admits j0 h old new ->
  P (World (dset h new (w_docs w)) (EWrite h old new :: w_trace w) (w_tick w))).
#[local] Hint Resolve tick_preserves call_preserves read_preserves documents_preserves snapshots_preserves : preserves.

(** An effect that needs no justification. *)
Definition harmless (e : event) : bool :=
  match e with EWrite _ _ _ | ERuntime _ Adopt _ _ _ | EPublish _ _ _ _ _ => false | _ => true end.
Lemma harmless_log e w : harmless e = true -> P w -> P (World (w_docs w) (e :: w_trace w) (w_tick w)).
Proof. intros He. apply Hlog; destruct e as [| |? []| | | | |]; try done. Qed.
Lemma effect_holds {A} (f : nat -> res A) e :
  (forall b w, P w -> P (World (w_docs w) (e b :: w_trace w) (w_tick w))) -> preserves P (effect f e).
Proof.
  intros He. unfold effect. apply preserves_bind; [by apply tick_preserves|]. intros n.
  apply preserves_bind; [intros w Hw; by apply He|]. intros _. apply preserves_lift.
Qed.
Lemma effect_preserves {A} (f : nat -> res A) e : (forall b, harmless (e b) = true) -> preserves P (effect f e).
Proof. intros He. apply effect_holds. intros b w. by apply harmless_log. Qed.

Lemma fence_preserves j : preserves P (fence j).
Proof. unfold fence. preserves. intros w Hw. by apply harmless_log. Qed.
Lemma route_preserves h t p r : preserves P (read_route h t p r).
Proof. by apply effect_preserves. Qed.
Lemma routes_preserves h : preserves P (effect (or_routes o) (ERoutes h)).
Proof. by apply effect_preserves. Qed.
Lemma runtime_preserves j h md : md <> Adopt -> preserves P (runtime j h md).
Proof. intros Hmd. unfold runtime. preserves. apply effect_preserves. by destruct md. Qed.
Lemma probe_preserves h l : preserves P (probe h l).
Proof. unfold probe. preserves. by apply effect_preserves. Qed.
Lemma deliver_preserves j : preserves P (deliver j).
Proof. unfold deliver. preserves. by apply effect_preserves. Qed.
(** A publication, where it is allowed. *)
Lemma publish_preserves h t e d :
  (forall w, P w -> mf_action m <> Revoke -> recorded j0 "runtime-adopted" (w_trace w)) -> preserves P (publish h t e d).
Proof. intros Hr. apply effect_holds. intros b w Hw. apply Hlog; [done| |done]. intros Ha. by apply Hr. Qed.
Lemma publish_revoking h t e d : mf_action m = Revoke -> preserves P (publish h t e d).
Proof. intros Hr. by apply publish_preserves. Qed.
#[local] Hint Resolve fence_preserves route_preserves routes_preserves probe_preserves deliver_preserves : preserves.
#[local] Hint Extern 1 (preserves _ (publish _ _ _ _)) => apply publish_revoking; assumption : preserves.
#[local] Hint Extern 1 (preserves _ (runtime _ _ _)) => apply runtime_preserves; discriminate : preserves.

(** The writer, for a transform that only makes admitted publications. *)
Lemma writer_preserves h transform :
  (forall old new, transform old = Ok new -> admits j0 h old new) -> preserves P (writer h transform).
Proof.
  intros Ht. unfold writer. apply preserves_bind; [by apply tick_preserves|]. intros n w Hw.
  change ((eff_get ≫= ?k) w) with (k w w). cbv beta.
  destruct (or_write o n) as [|e|e]; [|done|]; unfold mbind at 1, eff_bind at 1, eff_lift at 1;
    (destruct (dget h (w_docs w)) as [old|] eqn:Hd; [|done]); cbn [of_option];
    unfold mbind at 1, eff_bind at 1, eff_lift at 1; (destruct (transform old) as [new|] eqn:Hn; [|done]);
    unfold mbind at 1, eff_bind at 1, eff_lift at 1; (destruct (raise_if _ _); [|done]);
    cbn; apply Hwrite; auto.
Qed.
Lemma save_preserves j : progress j0 j -> preserves P (save j).
Proof.
  intros Hp. unfold save. apply preserves_lift_bind. intros _ _. apply preserves_lift_bind. intros [] Hv. preserves.
  apply writer_preserves. intros old new Hs. unfold save_transform in Hs.
  apply res_bind_Ok in Hs as (b & Hb & Hs). apply res_bind_Ok in Hs as (a' & Ha & Hs). apply res_bind_Ok in Hs as (f & Hf & Hs).
  apply raise_if_seq_Ok in Hs as [Hm Hs]. apply res_bind_Ok in Hs as (same & _ & Hs). apply raise_if_seq_Ok in Hs as [_ [= <-]].
  apply negb_false_iff, mem_true in Hm. rewrite (progress_before _ _ _ Hp) in Hb. rewrite (progress_after_digest _ _ _ Hp) in Ha.
  split; [exists f; split; [done|]; set_solver|]. left. split; [done|]. split; [done|]. by exists j.
Qed.

(** *** Steps that keep the invariant and an assertion on the journal *)

Definition keeps (I : journal -> Prop) (c : io journal) : Prop := holds P c (fun r w => P w /\ forall j, r = Ok j -> I j).

Lemma keeps_ret (I : journal -> Prop) j : I j -> keeps I (mret j).
Proof. intros Hj. apply holds_ret. intros w Hw. split; [done|]. by intros ? [= <-]. Qed.
Lemma keeps_bind {A} (I : journal -> Prop) (c : io A) (k : A -> io journal) :
  preserves P c -> (forall a, keeps I (k a)) -> keeps I (c ≫= k).
Proof.
  intros Hc Hk. apply (holds_bind _ _ _ (fun _ => P)); [|exact Hk]. intros w Hw. specialize (Hc w Hw).
  destruct (c w) as [[]]; simpl in *; [done|]. by split.
Qed.
Lemma keeps_lift {A} (I : journal -> Prop) (r : res A) (k : A -> io journal) :
  (forall a, r = Ok a -> keeps I (k a)) -> keeps I (eff_lift r ≫= k).
Proof. intros Hk. apply holds_lift_bind; [exact Hk|]. intros e w _ Hw. by split. Qed.
Lemma keeps_seq (J I : journal -> Prop) (c : io journal) (k : journal -> io journal) :
  keeps J c -> (forall j, J j -> keeps I (k j)) -> keeps I (c ≫= k).
Proof.
  intros Hc Hk. apply (holds_bind _ _ _ (fun j w => P w /\ J j)).
  - intros w Hw. specialize (Hc w Hw). destruct (c w) as [[j|e] t]; simpl in *; destruct Hc as [Ht Hj]; [auto|by split].
  - intros j w [Hw Hj]. by apply (Hk j Hj).
Qed.
Lemma keeps_save (I : journal -> Prop) j : progress j0 j -> (validate_journal j = Ok tt -> I j) -> keeps I (save j ;; mret j).
Proof.
  intros Hp Hi w Hw. pose proof (save_preserves j Hp w Hw) as Hs. unfold mbind, eff_bind.
  destruct (save j w) as [[[]|e] w'] eqn:Hr; cbn in *; [|by split]. split; [done|]. intros ? [= <-]. apply Hi. by apply save_run in Hr as [? _].
Qed.
Lemma keeps_fold {A} (I : journal -> Prop) (f : journal -> A -> io journal) l j :
  (forall j x, x ∈ l -> I j -> keeps I (f j x)) -> I j -> keeps I (eff_fold f l j).
Proof.
  revert j. induction l as [|x l IH]; intros j Hf Hj; cbn [eff_fold]; [by apply keeps_ret|].
  apply (keeps_seq I); [apply Hf; [left|done]|]. intros j' Hj'. apply IH; [|done]. intros. apply Hf; [by right|done].
Qed.

Ltac keeps_step :=
  match goal with
  | |- keeps _ (mret _) => apply keeps_ret
  | |- keeps _ (save _ ;; mret _) => apply keeps_save; [|intros _]
  | |- keeps _ (mbind _ (eff_lift _)) => apply keeps_lift; intros ? ?
  | |- keeps _ (mbind _ _) => apply keeps_bind; [solve [preserves; eauto with preserves]|intros ?]
  | |- keeps _ (if ?b then _ else _) => destruct b
  | |- keeps _ (let _ := _ in _) => cbv zeta
  end.
Ltac keeps := repeat keeps_step; try done.

Lemma canary_step_keeps j h : h ∈ keys (j_canaries j0) -> progress j0 j -> keeps (progress j0) (canary_step j h).
Proof.
  intros Hin Hj. pose proof (canaries_revoke _ _ Hvalid Hin) as Hr. unfold canary_step. apply keeps_lift. intros c Hc%of_option_Ok.
  assert (progress j0 (set_canary h (Canary (c_token c) (c_document c) true (c_cleanup_started c) (c_cleaned c)) j)).
  { etrans; [exact Hj|]. eapply progress_canary; [exact Hc|]. by repeat split. }
  keeps.
Qed.
Lemma write_step_keeps j h : progress j0 j -> keeps (progress j0) (write_step j h).
Proof.
  intros Hj. unfold write_step. apply keeps_lift. intros candidate Hc. apply (keeps_seq (progress j0)).
  - destruct (mem h (j_written j)); [by apply keeps_ret|]. apply keeps_bind.
    + apply writer_preserves. intros old new Ht. unfold write_transform in Ht.
      apply res_bind_Ok in Ht as (f & Hf & Ht). apply res_bind_Ok in Ht as (b & Hb & Ht). apply res_bind_Ok in Ht as (a & Ha & Ht).
      apply raise_if_seq_Ok in Ht as [Hm [= <-]]. apply negb_false_iff, mem_true in Hm.
      rewrite (progress_before _ _ _ Hj) in Hb. rewrite (progress_after _ _ _ Hj) in Hc.
      split; [|by right]. exists f. split; [done|]. unfold after_digest. rewrite Hc. cbn [res_bind]. set_solver.
    + intros _. cbv zeta. assert (progress j0 (add_written h j)) by (etrans; [exact Hj|apply progress_written]). keeps.
  - intros j' Hj'. keeps.
Qed.

(** Every document was written. *)
Definition all_written (j : journal) : Prop := progress j0 j /\ mf_hosts m ⊆ j_written j.
Lemma all_written_grows j j' : all_written j -> progress j j' -> all_written j'.
Proof. intros [Hp Hw] Hj. split; [by etrans|]. etrans; [exact Hw|]. apply Hj. Qed.

Lemma authority_phase_keeps j : progress j0 j -> keeps all_written (authority_phase j).
Proof.
  intros Hj. unfold authority_phase. apply (keeps_seq (progress j0)).
  { apply keeps_fold; [|done]. intros j' h Hh Hj'. apply canary_step_keeps; [|done]. by rewrite <-(pr_keys _ _ Hj). }
  intros j1 Hj1. apply (keeps_seq (progress j0)).
  { apply keeps_fold; [|done]. intros j' h _ Hj'. by apply write_step_keeps. }
  intros j2 Hj2. cbv zeta. assert (progress j0 (set_phase "authority-written" j2)) as Hp by (etrans; [exact Hj2|by apply progress_phase]).
  apply keeps_save; [done|]. intros Hv. split; [done|]. by apply validated_written.
Qed.

Lemma adopt_preserves j h c t docs snaps w r w' :
  P w -> progress j0 j -> w_trace w = EFence docs snaps :: ERuntime h Check_ c (j_revocation j) true :: t -> fenced j0 docs ->
  after_of j h = Ok c -> runtime j h Adopt w = (r, w') -> P w'.
Proof.
  intros Hw Hj Ht Hf Hc H. unfold runtime in H. apply eff_lift_cases in H as [(c' & Hc' & H)|(e & _ & _ & ->)]; [|done].
  assert (c' = c) as -> by congruence. unfold effect, tick, log, eff_modify, eff_lift, mbind, eff_bind in H. injection H as <- <-.
  change (P (World (w_docs (World (or_others o (w_tick w) (w_docs w)) (w_trace w) (S (w_tick w))))
    (ERuntime h Adopt c (j_revocation j) (is_ok (or_runtime o (w_tick w))) :: w_trace w) (S (w_tick w)))).
  apply (Hlog (ERuntime h Adopt c (j_revocation j) (is_ok (or_runtime o (w_tick w))))
    (World (or_others o (w_tick w) (w_docs w)) (w_trace w) (S (w_tick w)))); [done| |by apply Htick].
  exists docs, snaps, t. split; [done|]. split; [done|]. by rewrite <-(progress_after _ _ _ Hj).
Qed.

Lemma adopt_step_keeps j h : all_written j -> keeps all_written (adopt_step j h).
Proof.
  intros Hj. unfold adopt_step. destruct (mem h (j_adopted j)); [by apply keeps_ret|]. intros w Hw.
  cbv beta. match goal with |- P (snd ?x) /\ _ => destruct x as [r w'] eqn:H end. cbn [fst snd].
  apply eff_bind_cases in H as [(u1 & w1 & H1 & H)|(e & H & ->)].
  2: { split; [|done]. exact (preserves_run P _ _ _ _ (runtime_preserves j h Check_ ltac:(discriminate)) Hw H). }
  assert (P w1) as Hw1 by (exact (preserves_run P _ _ _ _ (runtime_preserves j h Check_ ltac:(discriminate)) Hw H1)).
  apply runtime_run in H1 as [(c & Hc & T1)|[_ T1]]; [|done]. cbn [is_ok] in T1.
  apply eff_bind_cases in H as [(snaps & w2 & H2 & H)|(e & H & ->)].
  2: { split; [|done]. exact (preserves_run P _ _ _ _ (fence_preserves j) Hw1 H). }
  assert (P w2) as Hw2 by (exact (preserves_run P _ _ _ _ (fence_preserves j) Hw1 H2)).
  apply fence_run in H2 as (docs & T2 & Hf). rewrite T1 in T2. destruct Hj as [Hp Hall].
  pose proof (fence_fenced _ _ _ _ Hp Hall Hf) as Hfen.
  apply eff_bind_cases in H as [(u3 & w3 & H3 & H)|(e & H & ->)].
  2: { split; [|done]. by eapply adopt_preserves. }
  assert (P w3) as Hw3 by (by eapply adopt_preserves).
  assert (all_written (add_adopted h j)) as Ha by (eapply all_written_grows; [by split|apply progress_adopted]).
  assert (keeps all_written (fence j ;; match dget h (j_profiles j) with Some profiles => probe h profiles | None => mret tt end ;;
    (let j := add_adopted h j in save j ;; mret j))) as Hk.
  { apply keeps_bind; [preserves|]. intros _. apply keeps_bind; [preserves|]. intros _. cbv zeta. apply keeps_save; [apply Ha|done]. }
  specialize (Hk w3 Hw3). cbv beta zeta in Hk. rewrite H in Hk. exact Hk.
Qed.
Lemma runtime_phase_keeps j affected : all_written j -> keeps all_written (runtime_phase j affected).
Proof.
  intros Hj. unfold runtime_phase. apply (keeps_seq all_written).
  { apply keeps_fold; [|done]. intros j' h _ Hj'. by apply adopt_step_keeps. }
  intros j1 Hj1. cbv zeta. assert (all_written (set_phase "runtime-adopted" j1)) by (by eapply all_written_grows; [exact Hj1|by apply progress_phase]).
  apply keeps_save; [apply H|done].
Qed.

(** From here on the adoption is on record. *)
Section Publishing.
Context (I : journal -> Prop) (HI : forall j, I j -> progress j0 j) (HIgrow : forall j j', I j -> progress j j' -> I j').
Context (Hrec : forall w, P w -> mf_action m <> Revoke -> recorded j0 "runtime-adopted" (w_trace w)).
#[local] Hint Extern 1 (preserves _ (publish _ _ _ _)) => apply publish_preserves; assumption : preserves.

Lemma publish_grant_preserves h t g row : preserves P (publish_grant h t g row).
Proof. unfold publish_grant. preserves. Qed.
#[local] Hint Resolve publish_grant_preserves : preserves.
Lemma grant_step_keeps h j tg : I j -> keeps I (grant_step h j tg).
Proof.
  intros Hj. destruct tg as [t g]. unfold grant_step.
  assert (I (add_published (grant_key h t) j)) as H1 by (eapply HIgrow; [exact Hj|apply progress_published]). pose proof (HI _ H1). keeps.
Qed.
Lemma publication_phase_keeps j : I j -> keeps I (publication_phase j).
Proof.
  intros Hj. apply keeps_fold; [|done]. intros j' [h grants] _ Hj'. unfold publisher_step. apply keeps_bind; [preserves|]. intros _.
  apply keeps_fold; [|done]. intros. by apply grant_step_keeps.
Qed.
Lemma clean_step_keeps snaps j h : I j -> keeps I (clean_step snaps j h).
Proof.
  intros Hj. unfold clean_step. apply keeps_lift. intros c Hc%of_option_Ok.
  assert (I (set_canary h (Canary (c_token c) (c_document c) (c_positive c) true (c_cleaned c)) j)) as H1.
  { eapply HIgrow; [exact Hj|]. eapply progress_canary; [exact Hc|]. by repeat split. }
  keeps. apply keeps_bind; [by apply save_preserves, HI|]. intros _. cbv zeta.
  match goal with |- context [save ?x ;; mret ?x] => assert (I x) as H2 end.
  { eapply HIgrow; [exact H1|]. eapply progress_canary; [cbn; by rewrite dget_dset, decide_True|]. by repeat split. }
  pose proof (HI _ H2). keeps.
Qed.
Lemma verify_hosts_preserves j l : preserves P (verify_hosts j l).
Proof. unfold verify_hosts. apply eff_fold_preserves. intros. preserves. Qed.
Lemma probe_hosts_preserves j : preserves P (probe_hosts j).
Proof. unfold probe_hosts. apply eff_fold_preserves. intros. preserves. Qed.
#[local] Hint Resolve verify_hosts_preserves probe_hosts_preserves : preserves.
Lemma confirmation_phase_keeps j affected : I j -> keeps I (confirmation_phase j affected).
Proof.
  intros Hj. unfold confirmation_phase. keeps. apply (keeps_seq I).
  { apply keeps_fold; [|done]. intros. by apply clean_step_keeps. }
  intros j1 Hj1. apply keeps_bind; [preserves|]. intros _. apply keeps_bind; [preserves|]. intros final. apply keeps_lift. intros _ _.
  cbv zeta. assert (I (set_phase "complete" j1)) as H1 by (eapply HIgrow; [exact Hj1|by apply progress_phase]). pose proof (HI _ H1). keeps.
Qed.
End Publishing.
End Invariant.

(** ** Invariants of the whole run *)

Record stable (j0 : journal) (P : world -> Prop) : Prop := {
  st_tick : forall w, P w -> P (World (or_others o (w_tick w) (w_docs w)) (w_trace w) (S (w_tick w)));
  st_log : forall e w, is_write e = false -> justified j0 e (w_trace w) -> P w -> P (World (w_docs w) (e :: w_trace w) (w_tick w));
  st_write : forall w h old new, P w -> dget h (w_docs w) = Some old -> admits j0 h old new ->
    P (World (dset h new (w_docs w)) (EWrite h old new :: w_trace w) (w_tick w)) }.

Lemma stable_recorded j0 p P : stable j0 P -> stable j0 (fun w => P w /\ recorded j0 p (w_trace w)).
Proof.
  intros [Ht Hl Hw]. split.
  - intros w [Hp Hr]. split; [by apply Ht|done].
  - intros e w He Hj [Hp Hr]. split; [by apply Hl|by apply recorded_cons].
  - intros w h old new [Hp Hr] Hd Ha. split; [by apply Hw|by apply recorded_cons].
Qed.

Lemma runtime_phase_recorded j0 j affected w j' w' :
  runtime_phase j affected w = (Ok j', w') -> progress j0 j' -> recorded j0 "runtime-adopted" (w_trace w').
Proof.
  unfold runtime_phase. intros (j1 & w1 & _ & H)%eff_bind_Ok Hp. cbv zeta in H.
  apply eff_bind_Ok in H as ([] & w2 & H & [= <- <-]). apply save_run in H as (Hv & e & Hs & Ht).
  exists e, (set_phase "runtime-adopted" j1). rewrite Ht. split; [left|]. done.
Qed.

Lemma resume_stable j0 P : validate_journal j0 = Ok tt -> stable j0 P -> keeps P (progress j0) (resume j0).
Proof.
  intros Hv Hst. pose proof Hst as [Ht Hl Hw]. unfold resume.
  apply keeps_bind; [by apply call_preserves|]. intros _. apply keeps_bind; [by eapply fence_preserves|]. intros _.
  apply (keeps_seq P (all_written j0)); [by apply authority_phase_keeps|]. intros j1 H1. apply keeps_lift. intros affected _.
  intros w HPw. pose proof (runtime_phase_keeps j0 Hv P Ht Hl Hw j1 affected H1 w HPw) as Hr.
  unfold mbind, eff_bind.
  destruct (runtime_phase j1 affected w) as [[j2|e] w2] eqn:Hrun; cbn [fst snd] in Hr; [|by split; [apply Hr|]]. destruct Hr as [HP2 Hj2].
  destruct (Hj2 j2 eq_refl) as [Hp2 _]. pose proof (runtime_phase_recorded j0 _ _ _ _ _ Hrun Hp2) as Hrec.
  pose proof (stable_recorded j0 "runtime-adopted" P Hst) as [Ht' Hl' Hw'].
  assert (keeps (fun w => P w /\ recorded j0 "runtime-adopted" (w_trace w)) (progress j0)
    (j ← publication_phase j2; confirmation_phase j affected)) as Hk.
  { assert (forall j j', progress j0 j -> progress j j' -> progress j0 j') by (by intros ? ? ? ?; etrans).
    apply (keeps_seq _ (progress j0)); [apply publication_phase_keeps with j0; try done; by intros ? []|].
    intros j3 H3. apply confirmation_phase_keeps with j0; try done. by intros ? []. }
  specialize (Hk w2 (conj HP2 Hrec)). unfold mbind, eff_bind in Hk. cbn in Hk |- *. tauto.
Qed.

(** The record of the operation that is stored. *)
Definition stored (docs : list (string * document)) : option record :=
  d ← dget (mf_journal_host m) docs; dget (mf_id m) (default [] (d_operations d)).

Lemma load_journal_run w r w' :
  load_journal w = (r, w') ->
  w' = World (or_others o (w_tick w) (w_docs w)) (w_trace w) (S (w_tick w)) /\
  forall j, r = Ok j -> validate_journal j = Ok tt /\ stored (w_docs w') = Some (RJournal j).
Proof.
  unfold load_journal, read, call, tick, eff_get, eff_lift, mbind, eff_bind, stored. cbn.
  destruct (or_read o (w_tick w)) as [u|e]; [|intros [= <- <-]; by split].
  destruct (dget (mf_journal_host m) _) as [d|] eqn:Hd; cbn; [|intros [= <- <-]; by split].
  destruct (dget (mf_id m) _) as [[j|v]|] eqn:Hm; [|intros [= <- <-]; by split|intros [= <- <-]; by split].
  destruct (raise_if _ _); [|intros [= <- <-]; by split]. destruct (validate_journal j) as [[]|] eqn:Hv; [|intros [= <- <-]; by split].
  intros [= <- <-]. split; [done|]. intros ? [= <-]. cbn. rewrite Hd. cbn. by rewrite Hm.
Qed.

(** [run] keeps every stable assertion from the moment the journal is loaded. *)
Lemma run_stable j0 P w w1 r w' :
  load_journal w = (Ok j0, w1) -> stable j0 P -> P w1 -> run w = (r, w') -> P w'.
Proof.
  intros Hl Hst Hw1 H. destruct (load_journal_run _ _ _ Hl) as [_ Hv]. specialize (Hv j0 eq_refl) as [Hv _].
  unfold run in H. apply eff_bind_cases in H as [(j & w2 & Hl' & H)|(e & Hl' & _)]; [|congruence].
  assert (j = j0) as -> by congruence. assert (w2 = w1) as -> by congruence.
  pose proof (resume_stable j0 P Hv Hst w1 Hw1) as Hr.
  apply eff_bind_cases in H as [(j' & w3 & H3 & H)|(e & H3 & _)]; rewrite H3 in Hr; cbn in Hr; [|apply Hr].
  eapply preserves_run; [apply status_of_preserves, Hst|apply Hr|exact H].
Qed.

(** What the outside must leave alone for the progress to be durable. *)
Definition others_leave_record : Prop := forall n docs, stored (or_others o n docs) = stored docs.

Definition writes_admitted (j0 : journal) (t : list event) : Prop := forall h old new, EWrite h old new ∈ t -> admits j0 h old new.
Definition events_justified (j0 : journal) (t : list event) : Prop :=
  forall newer e older, t = (newer ++ e :: older)%list -> justified j0 e older.

Lemma stable_writes j0 : stable j0 (fun w => writes_admitted j0 (w_trace w)).
Proof.
  split; cbn; [done| |].
  - intros e w He _ H h old new [<-|Hin]%elem_of_cons; [done|by apply H].
  - intros w h old new H _ Ha h' o' n' [[= -> -> ->]|Hin]%elem_of_cons; [done|by apply H].
Qed.
Lemma stable_justified j0 : stable j0 (fun w => events_justified j0 (w_trace w)).
Proof.
  split; cbn; [done| |].
  - intros e w _ Hj H [|x newer] e' older; cbn; intros Heq; injection Heq; [by intros <- <-|]. intros Ht _. by eapply H.
  - intros w h old new H _ _ [|x newer] e' older; cbn; intros Heq; injection Heq; [by intros <- <-|]. intros Ht _. by eapply H.
Qed.
Lemma stable_stored j0 : others_leave_record ->
  stable j0 (fun w => exists j, stored (w_docs w) = Some (RJournal j) /\ progress j0 j /\ validate_journal j = Ok tt).
Proof.
  intros Ho. split; cbn [w_docs w_trace w_tick]; [intros w; by rewrite Ho|by intros|].
  intros w h old new (j & Hs & Hp & Hv) Hd [_ [(-> & _ & j' & Hn & Hp' & Hv')|[_ Hn]]].
  - exists j'. split; [|done]. unfold stored. rewrite dget_dset, decide_True by done. cbn. rewrite Hn. cbn. by rewrite dget_dset, decide_True.
  - exists j. split; [|done]. unfold stored in *. rewrite dget_dset. case_decide as He; [|done]. subst h. cbn. rewrite Hn.
    rewrite Hd in Hs. exact Hs.
Qed.

(** ** What a run that returns has confirmed *)

Lemma stable_suffix j0 t : stable j0 (fun w => t `suffix_of` w_trace w).
Proof. split; cbn; [done| |]; intros; by apply suffix_cons_r. Qed.
Lemma stable_true j0 : stable j0 (fun _ => True).
Proof. by split. Qed.
Lemma suffix_elem {A} (x : A) t t' : t `suffix_of` t' -> x ∈ t -> x ∈ t'.
Proof. intros [k ->] Hx. apply elem_of_app. by right. Qed.

(** A loop of effects, each of which leaves a successful event. *)
Lemma effects_run {A} (f : A -> io unit) (R : A -> event -> Prop) l w w' :
  (forall x w r w', f x w = (r, w') -> w_trace w `suffix_of` w_trace w' /\ forall u, r = Ok u -> exists e, e ∈ w_trace w' /\ R x e) ->
  eff_fold (fun _ x => f x) l tt w = (Ok tt, w') ->
  w_trace w `suffix_of` w_trace w' /\ forall x, x ∈ l -> exists e, e ∈ w_trace w' /\ R x e.
Proof.
  intros Hf. revert w. induction l as [|x l IH]; intros w; cbn [eff_fold].
  - intros [= <-]. split; [done|]. by intros x Hx%not_elem_of_nil.
  - intros ([] & w1 & H1 & H)%eff_bind_Ok. destruct (Hf _ _ _ _ H1) as [S1 E1]. destruct (IH _ H) as [S2 E2].
    split; [by etrans|]. intros y [->|Hy]%elem_of_cons; [|by apply E2].
    destruct (E1 tt eq_refl) as (e & He & HR). exists e. split; [by eapply suffix_elem|done].
Qed.

Definition verified (j : journal) (h : string) (e : event) : Prop :=
  exists c, after_of j h = Ok c /\ e = ERuntime h Verify c (j_revocation j) true.
Lemma verify_hosts_run j l w w' :
  verify_hosts j l w = (Ok tt, w') ->
  w_trace w `suffix_of` w_trace w' /\ forall h, h ∈ l -> exists e, e ∈ w_trace w' /\ verified j h e.
Proof.
  apply effects_run. intros h u r v H. apply runtime_run in H as [(c & Hc & ->)|[-> Hr]].
  - split; [by apply suffix_cons_r|]. intros [] ->. eexists. split; [left|]. by exists c.
  - split; [done|]. by intros [] ->.
Qed.
Lemma probe_hosts_run j w w' :
  probe_hosts j w = (Ok tt, w') ->
  w_trace w `suffix_of` w_trace w' /\ forall hp, hp ∈ j_profiles j -> exists e, e ∈ w_trace w' /\ e = EProbe hp.1 hp.2 true.
Proof.
  apply effects_run. intros hp u r v H. unfold probe in H. apply eff_lift_cases in H as [(x & _ & H)|(e & _ & -> & ->)]; [|by split].
  apply effect_run in H. rewrite H. split; [by apply suffix_cons_r|]. intros [] ->. eexists. by split; [left|].
Qed.
Lemma deliver_run j w w' :
  deliver j w = (Ok tt, w') ->
  w_trace w `suffix_of` w_trace w' /\ forall a, j_artifact j = Some a -> exists bytes, un64 (VStr a) = Ok bytes /\ EOutput (mf_output m) bytes true ∈ w_trace w'.
Proof.
  unfold deliver. destruct (j_artifact j) as [a|]; [|by intros [= <-]].
  intros (bytes & w1 & [= Hb <-] & H)%eff_bind_Ok. apply effect_run in H. rewrite H. split; [by apply suffix_cons_r|].
  intros ? [= <-]. exists bytes. split; [done|]. left.
Qed.

Lemma runtime_hosts_progress j j' : progress j j' -> runtime_hosts j' = runtime_hosts j.
Proof.
  intros Hp. unfold runtime_hosts. case_bool_decide; [done|]. rewrite (pr_profiles _ _ Hp).
  enough (forall l, mapM_res (fun h => let* c := changed_host j' h in Ok (h, c)) l = mapM_res (fun h => let* c := changed_host j h in Ok (h, c)) l) as Hm
    by (by rewrite Hm).
  intros l. induction l as [|h l IH]; [done|]. cbn [mapM_res]. rewrite IH. unfold changed_host.
  by rewrite (progress_before _ _ _ Hp), (progress_after_digest _ _ _ Hp).
Qed.

Lemma host_order_elem h l : h ∈ host_order l <-> h ∈ l.
Proof. unfold host_order. rewrite merge_sort_Permutation. by rewrite elem_of_remove_dups. Qed.

(** The evidence behind a completed operation. *)
Record confirmed (j0 : journal) (t : list event) (final : list (string * snapshot)) : Prop := {
  cf_runtime : forall affected h, runtime_hosts j0 = Ok affected -> h ∈ affected -> exists e, e ∈ t /\ verified j0 h e;
  cf_probes : forall h profiles, (h, profiles) ∈ j_profiles j0 -> EProbe h profiles true ∈ t;
  cf_output : forall a, j_artifact j0 = Some a -> exists bytes, un64 (VStr a) = Ok bytes /\ EOutput (mf_output m) bytes true ∈ t;
  cf_grants : forall h token g, (h, (token, g)) ∈ all_grants j0 -> exists docs snaps row,
    EFence docs snaps ∈ t /\ snapshot_row snaps h token = Ok (Some row) /\ gr_document row = g_after g /\ gr_revoked row = revoking;
  cf_revoked : mf_action m = Revoke -> forall h c, dget h (j_canaries j0) = Some c -> exists s, dget h final = Some s /\
    dget (sha_text (c_token c)) (sn_rows s) = None /\
    forall token, token ∈ keys (grants_of j0 h) -> exists row, dget token (sn_rows s) = Some row /\ gr_revoked row = true }.

Lemma confirm_grant_Ok snaps h token g :
  confirm_grant snaps (h, (token, g)) = Ok tt ->
  exists row, snapshot_row snaps h token = Ok (Some row) /\ gr_document row = g_after g /\ gr_revoked row = revoking.
Proof.
  unfold confirm_grant. cbn [fst snd]. intros (row & Hr & H)%res_bind_Ok. apply raise_if_Ok, negb_false_iff in H.
  destruct row as [row|]; [|done]. cbn [grant_confirmed] in H. apply andb_true_iff in H as [H1 H2].
  exists row. split; [done|]. apply bool_decide_eq_true in H1. by apply Bool.eqb_prop in H2.
Qed.

Lemma revoked_finally_Ok j final h :
  revoked_finally j final h = Ok tt ->
  exists s c, dget h final = Some s /\ dget h (j_canaries j) = Some c /\ dget (sha_text (c_token c)) (sn_rows s) = None /\
    forall token, token ∈ keys (grants_of j h) -> exists row, dget token (sn_rows s) = Some row /\ gr_revoked row = true.
Proof.
  unfold revoked_finally. intros (s & Hs%of_option_Ok & H)%res_bind_Ok. apply res_bind_Ok in H as (c & Hc%of_option_Ok & H).
  apply raise_if_seq_Ok in H as [Hk H]. apply raise_if_Ok, existsb_false in H. rewrite Forall_forall in H.
  exists s, c. split; [done|]. split; [done|]. split.
  - unfold has_key in Hk. apply mem_false in Hk. destruct (dget _ (sn_rows s)) eqn:Hd; [|done]. exfalso. apply Hk, dget_is_Some. by eexists.
  - intros token Ht. specialize (H _ Ht). apply negb_false_iff in H. destruct (dget token (sn_rows s)) as [row|]; [|done]. by exists row.
Qed.

Definition finished (j0 jc : journal) (t : list event) : Prop :=
  exists docs final e older, t = e :: EFence docs final :: older /\ saves jc e /\ progress j0 jc /\
    j_phase jc = "complete" /\ validate_journal jc = Ok tt /\ fenced j0 docs /\ confirmed j0 older final.

Lemma recorded_suffix j0 p t t' : t `suffix_of` t' -> recorded j0 p t -> recorded j0 p t'.
Proof. intros Hs (e & j & Hin & H). exists e, j. split; [by eapply suffix_elem|done]. Qed.

(** The clean-up of the canaries only adds to the trace. *)
Lemma clean_run j0 j snaps l w j' w' :
  validate_journal j0 = Ok tt -> all_written j0 j -> recorded j0 "runtime-adopted" (w_trace w) ->
  eff_fold (clean_step snaps) l j w = (Ok j', w') -> w_trace w `suffix_of` w_trace w' /\ all_written j0 j'.
Proof.
  intros Hv Hj Hrec H. assert (w_trace w `suffix_of` w_trace w) as Hrefl by done.
  pose proof (stable_recorded j0 "runtime-adopted" _ (stable_suffix j0 (w_trace w))) as [Ht Hl Hw].
  pose proof (keeps_fold (fun v => w_trace w `suffix_of` w_trace v /\ recorded j0 "runtime-adopted" (w_trace v))
    (all_written j0) (clean_step snaps) l j) as Hk.
  specialize (Hk ltac:(intros; apply clean_step_keeps with j0; try done; [by intros ? []|by apply all_written_grows|by intros ? []]) Hj w
    (conj Hrefl Hrec)).
  rewrite H in Hk. cbn in Hk. destruct Hk as [[Hs _] Hj']. split; [done|by apply Hj'].
Qed.

Lemma confirmed_older j0 j older docs1 snaps t1 t2 t3 final :
  progress j0 j ->
  (forall affected h, runtime_hosts j0 = Ok affected -> h ∈ affected -> exists e, e ∈ t2 /\ verified j h e) -> t2 `suffix_of` t3 ->
  (forall hp, hp ∈ j_profiles j -> exists e, e ∈ t3 /\ e = EProbe hp.1 hp.2 true) ->
  (forall a, j_artifact j = Some a -> exists bytes, un64 (VStr a) = Ok bytes /\ EOutput (mf_output m) bytes true ∈ t1) -> t1 `suffix_of` t2 ->
  EFence docs1 snaps :: t3 `suffix_of` older ->
  foldM_res (fun _ htg => confirm_grant snaps htg) (all_grants j) tt = Ok tt ->
  (mf_action m = Revoke -> forall h c, dget h (j_canaries j0) = Some c -> exists s, dget h final = Some s /\
    dget (sha_text (c_token c)) (sn_rows s) = None /\
    forall token, token ∈ keys (grants_of j0 h) -> exists row, dget token (sn_rows s) = Some row /\ gr_revoked row = true) ->
  confirmed j0 older final.
Proof.
  intros Hp E2 S3 E3 E1 S2 S5 Hconf Hrev.
  assert (t3 `suffix_of` older) as S4 by (etrans; [by apply suffix_cons_r|exact S5]).
  split; [| | | |exact Hrev].
  - intros affected h Haff Hh. destruct (E2 affected h Haff Hh) as (e & He & c & Hc & ->).
    eexists. split; [eapply suffix_elem; [etrans; [exact S3|exact S4]|exact He]|]. exists c.
    rewrite <-(progress_after _ _ _ Hp). split; [done|]. by rewrite (pr_revocation _ _ Hp).
  - intros h profiles Hin. rewrite <-(pr_profiles _ _ Hp) in Hin. destruct (E3 _ Hin) as (e & He & ->). by eapply suffix_elem.
  - intros a Ha. rewrite <-(pr_artifact _ _ Hp) in Ha. destruct (E1 a Ha) as (bytes & Hb & Ho). exists bytes. split; [done|].
    eapply suffix_elem; [|exact Ho]. etrans; [exact S2|]. by etrans.
  - intros h token g Hin. assert (all_grants j0 = all_grants j) as Hg by (unfold all_grants; by rewrite (pr_grants _ _ Hp)).
    rewrite Hg in Hin. apply foldM_res_unit in Hconf. rewrite Forall_forall in Hconf.
    destruct (confirm_grant_Ok _ _ _ _ (Hconf _ Hin)) as (row & Hr & Hd & Hk).
    exists docs1, snaps, row. split; [eapply suffix_elem; [exact S5|left]|done].
Qed.

Lemma revoked_finally_progress j0 j final u :
  progress j0 j ->
  (if revoking then foldM_res (fun _ h => revoked_finally j final h) (keys (j_canaries j)) tt else Ok tt) = Ok u ->
  mf_action m = Revoke -> forall h c, dget h (j_canaries j0) = Some c -> exists s, dget h final = Some s /\
    dget (sha_text (c_token c)) (sn_rows s) = None /\
    forall token, token ∈ keys (grants_of j0 h) -> exists row, dget token (sn_rows s) = Some row /\ gr_revoked row = true.
Proof.
  intros Hp H Hr h c Hc. unfold revoking in H. rewrite bool_decide_eq_true_2 in H by done. destruct u.
  apply foldM_res_unit in H. rewrite Forall_forall in H.
  assert (h ∈ keys (j_canaries j)) as Hin by (rewrite (pr_keys _ _ Hp); apply dget_is_Some; by eexists).
  destruct (revoked_finally_Ok _ _ _ (H h Hin)) as (s & c' & Hs & Hc' & Hn & Ht).
  destruct (pr_canaries _ _ Hp h c Hc) as (c'' & Hc'' & Htok & _). assert (c'' = c') as -> by congruence.
  exists s. split; [done|]. split; [by rewrite <-Htok|]. unfold grants_of in *. by rewrite <-(pr_grants _ _ Hp).
Qed.

Lemma confirmation_run j0 j affected w jc w' :
  validate_journal j0 = Ok tt -> all_written j0 j -> runtime_hosts j0 = Ok affected -> recorded j0 "runtime-adopted" (w_trace w) ->
  confirmation_phase j affected w = (Ok jc, w') -> finished j0 jc (w_trace w').
Proof.
  intros Hv0 Hj Haff Hrec. pose proof Hj as [Hp Hall]. unfold confirmation_phase.
  intros ([] & w1 & H1 & H)%eff_bind_Ok. apply eff_bind_Ok in H as ([] & w2 & H2 & H). apply eff_bind_Ok in H as ([] & w3 & H3 & H).
  apply eff_bind_Ok in H as (snaps & w4 & H4 & H). apply eff_bind_Ok in H as ([] & w4' & [= Hconf <-] & H).
  apply eff_bind_Ok in H as (j5 & w5 & H5 & H). apply eff_bind_Ok in H as (u & w6 & H6 & H).
  apply eff_bind_Ok in H as (final & w7 & H7 & H). apply eff_bind_Ok in H as (u' & w7' & [= Hrev <-] & H). cbv zeta in H.
  apply eff_bind_Ok in H as ([] & w8 & H8 & [= <- <-]).
  apply deliver_run in H1 as [S1 E1]. apply verify_hosts_run in H2 as [S2 E2]. apply probe_hosts_run in H3 as [S3 E3].
  apply fence_run in H4 as (docs1 & T4 & F4). apply quiet_run in H6; [|apply call_quiet].
  apply fence_run in H7 as (docs & T7 & F7). apply save_run in H8 as (Hv & e & Hs & T8).
  assert (w_trace w `suffix_of` w_trace w4) as S4.
  { rewrite T4. apply suffix_cons_r. etrans; [exact S1|]. by etrans. }
  apply clean_run with (j0 := j0) in H5 as [S5 [P5 A5]]; [|done|done|by eapply recorded_suffix].
  exists docs, final, e, (w_trace w6). split; [congruence|]. split; [done|].
  split; [etrans; [exact P5|by apply progress_phase]|]. split; [done|]. split; [done|].
  split; [by eapply fence_fenced|]. rewrite H6.
  eapply confirmed_older; [exact Hp| |exact S3|exact E3|exact E1|exact S2|rewrite <-T4; exact S5|exact Hconf|].
  - intros affected' h Ha Hh. assert (affected' = affected) as -> by congruence. apply E2. by apply host_order_elem.
  - by eapply revoked_finally_progress.
Qed.

Lemma resume_run j0 w jc w' :
  validate_journal j0 = Ok tt -> resume j0 w = (Ok jc, w') -> finished j0 jc (w_trace w').
Proof.
  intros Hv H. pose proof (stable_true j0) as [Ht Hl Hw]. unfold resume in H.
  apply eff_bind_Ok in H as (u & w1 & _ & H). apply eff_bind_Ok in H as (s & w2 & _ & H).
  apply eff_bind_Ok in H as (j1 & w3 & H3 & H). apply eff_bind_Ok in H as (affected & w3' & [= Haff <-] & H).
  apply eff_bind_Ok in H as (j2 & w4 & H4 & H). apply eff_bind_Ok in H as (j3 & w5 & H5 & H).
  assert (all_written j0 j1) as A1.
  { pose proof (authority_phase_keeps j0 Hv _ Ht Hl Hw j0 ltac:(done) w2 I) as Hk. rewrite H3 in Hk. by apply Hk. }
  assert (all_written j0 j2) as A2.
  { pose proof (runtime_phase_keeps j0 Hv _ Ht Hl Hw j1 affected A1 w3 I) as Hk. rewrite H4 in Hk. by apply Hk. }
  pose proof (runtime_phase_recorded j0 _ _ _ _ _ H4 (proj1 A2)) as Hrec.
  pose proof (stable_recorded j0 "runtime-adopted" _ (stable_true j0)) as [Ht' Hl' Hw'].
  assert (all_written j0 j3 /\ recorded j0 "runtime-adopted" (w_trace w5)) as [A3 R3].
  { assert (keeps (fun v => True /\ recorded j0 "runtime-adopted" (w_trace v)) (all_written j0) (publication_phase j2)) as Hk.
    { apply publication_phase_keeps with j0; try done; [by intros ? []|by apply all_written_grows|by intros ? []]. }
    specialize (Hk w4 (conj I Hrec)). rewrite H5 in Hk. cbn in Hk. destruct Hk as [[_ ?] Hj]. split; [by apply Hj|done]. }
  eapply confirmation_run; [done|exact A3| |exact R3|exact H].
  by rewrite <-(runtime_hosts_progress _ _ (proj1 A1)).
Qed.

(** * Properties *)

(** C12: Nobody's change is overwritten.  However a run ends (returning, refused,
    failing at any call, before or after a publication took place) and whatever
    others did to the documents meanwhile, every document it published replaced
    either the content that was there when the operation was prepared or the
    content the operation prepared for that host; and what it published is either
    exactly that prepared content with the operation records of the document
    untouched, or, on the journal host, the same content with a valid journal of
    this operation that continues the loaded one. *)
Theorem publications_admitted j0 w w1 r w' :
  load_journal w = (Ok j0, w1) -> w_trace w = [] -> run w = (r, w') ->
  forall h old new, EWrite h old new ∈ w_trace w' -> admits j0 h old new.
Proof.
  intros Hl Ht H. destruct (load_journal_run _ _ _ Hl) as [-> _].
  apply (run_stable j0 (fun w => writes_admitted j0 (w_trace w)) _ _ _ _ Hl (stable_writes j0)) in H; [exact H|].
  cbn. rewrite Ht. by intros h old new ?%not_elem_of_nil.
Qed.

(** C11: Effects come in the order of the protocol, however the run ends.  Before a
    node adopts its prepared document, the check of that adoption on the same node
    passed, and then a fence read every document of the fleet and found exactly the
    prepared content in each; and a grant of an issue or a refresh is published
    only when a valid journal with every adoption had been made durable before. *)
Theorem effects_ordered j0 w w1 r w' :
  load_journal w = (Ok j0, w1) -> w_trace w = [] -> run w = (r, w') ->
  forall newer e older, w_trace w' = (newer ++ e :: older)%list -> justified j0 e older.
Proof.
  intros Hl Ht H. destruct (load_journal_run _ _ _ Hl) as [-> _].
  apply (run_stable j0 (fun w => events_justified j0 (w_trace w)) _ _ _ _ Hl (stable_justified j0)) in H; [exact H|].
  cbn. rewrite Ht. intros newer e older Hn. by destruct newer.
Qed.

(** C10: A run that returns has seen the completion with its own eyes, whatever
    earlier runs did.  The last thing it did was to record a valid journal in the
    phase complete, right after a fence found the prepared content in every
    document; before, in this run, every affected node verified its prepared
    document, every credential profile passed its probe, the recipient's artifact
    was delivered, and for every grant a snapshot showed the prepared document,
    revoked exactly if the operation revokes; and at the last fence of a
    revocation the canary was gone and every grant of the device revoked. *)
Theorem run_confirmed j0 w w1 st w' :
  load_journal w = (Ok j0, w1) -> run w = (Ok st, w') -> exists jc, finished j0 jc (w_trace w').
Proof.
  intros Hl H. destruct (load_journal_run _ _ _ Hl) as [_ Hv]. destruct (Hv j0 eq_refl) as [Hvalid _].
  unfold run in H. apply eff_bind_Ok in H as (j & w2 & Hl' & H). assert (j = j0) as -> by congruence. assert (w2 = w1) as -> by congruence.
  apply eff_bind_Ok in H as (jc & w3 & H3 & H). exists jc. apply resume_run in H3; [|done].
  apply quiet_run in H; [by rewrite H|]. intros t. by apply status_of_preserves.
Qed.
End Lifecycle.

Section Attempts.
Context (sha256_hex : list Z -> string) (float_repr : pyfloat -> list ascii).
Context (json_loads : (list (string * value) -> res value) -> list Z -> res value).
Context (schema_ok too_large : journal -> bool) (m : manifest).
Notation run := (run sha256_hex float_repr json_loads schema_ok too_large m).

(** One run, from what an earlier one left, against any outside. *)
Definition attempt (w w' : world) : Prop := exists o r, others_leave_record m o /\ run o w = (r, w').

(** C13: Progress is durable.  Through any number of runs, each of which may fail or
    be interrupted at any call, and as long as others leave the operation's record
    alone, the journal host holds a valid journal of the same prepared intent whose
    written, adopted and published sets and canary flags contain those of the
    journal at the start.  This is not said of the phase, which a rerun takes back to
    'authority-written' even after 'complete'; but it does not become 'prepared'
    again. *)
Theorem progress_durable j0 w w' :
  rtc attempt w w' -> stored m (w_docs w) = Some (RJournal j0) ->
  validate_journal sha256_hex float_repr schema_ok m j0 = Ok tt ->
  exists j, stored m (w_docs w') = Some (RJournal j) /\ progress j0 j /\ validate_journal sha256_hex float_repr schema_ok m j = Ok tt.
Proof.
  intros H. revert j0. induction H as [w|w w1 w2 (o & r & Ho & H) _ IH]; intros j0 Hs Hv; [exists j0; split; [done|]; split; [apply progress_preorder|done]|].
  assert (exists j, stored m (w_docs w1) = Some (RJournal j) /\ progress j0 j /\
    validate_journal sha256_hex float_repr schema_ok m j = Ok tt) as (j1 & Hs1 & Hp1 & Hv1).
  { destruct (load_journal sha256_hex float_repr schema_ok m o w) as [[j|e] v] eqn:Hl.
    - destruct (load_journal_run _ _ _ _ _ _ _ _ Hl) as [-> Hj]. destruct (Hj j eq_refl) as [Hvj Hsj]. cbn [w_docs] in Hsj.
      rewrite Ho, Hs in Hsj. injection Hsj as ->.
      eapply (run_stable _ _ _ _ _ _ _ _ _ _ _ _ _ Hl (stable_stored _ _ _ _ _ _ Ho)); [|exact H].
      exists j. cbn [w_docs]. rewrite Ho. split; [done|]. split; [apply progress_preorder|done].
    - unfold DeviceLifecycle.run in H. apply eff_bind_cases in H as [(j & u & Hl' & _)|(e' & Hl' & _)]; [congruence|].
      assert (w1 = v) as -> by congruence. destruct (load_journal_run _ _ _ _ _ _ _ _ Hl) as [-> _].
      exists j0. cbn [w_docs]. rewrite Ho. split; [done|]. split; [apply progress_preorder|done]. }
  destruct (IH j1 Hs1 Hv1) as (j2 & Hs2 & Hp2 & Hv2). exists j2. split; [done|]. split; [|done]. exact (PreOrder_Transitive (PreOrder := progress_preorder) _ _ _ Hp1 Hp2).
Qed.
End Attempts.

(** * A sample operation

    A refresh on two nodes: node [a] has the journal, a publisher, a changed
    document, a credential profile and one grant; node [b] is unchanged. *)

Definition sample_hex (z : Z) : list ascii :=
  [nth (Z.to_nat (z / 16)) (chars "0123456789abcdef") "0"%char; nth (Z.to_nat (z mod 16)) (chars "0123456789abcdef") "0"%char].
(** An injective stand-in for SHA-256 on short inputs. *)
Definition sample_sha (l : list Z) : string := of_chars (take 64 (mjoin (sample_hex <$> l) ++ replicate 64 "0"%char)).
Definition bytes_of (s : string) : list Z := ord <$> chars s.
Definition sample_json (hook : list (string * value) -> res value) (l : list Z) : res value :=
  if bool_decide (l = bytes_of "{}") then Ok (VDict []) else
  Ok (VDict [("schema_version", VInt 1); ("client", VStr "phone"); ("expires", VStr ""); ("payload_b64", VStr (b64 (bytes_of "{}")))]).

Definition old_a : dict := [("x", VInt 1)].
Definition new_a : dict := [("x", VInt 2)].
Definition only_b : dict := [("y", VInt 1)].
Definition digest_of (c : dict) : string := match fingerprint sample_sha (fun _ => []) c with Ok s => s | Raise _ => "" end.
Definition sample_manifest : manifest := Manifest "op" "mf" Refresh "phone" "a" ["a"; "b"] ["a"] false "".
Definition sample_token : string := of_chars (replicate 64 "f"%char).
Definition sample_profiles : list value := [VDict [("id", VStr "xray-0")]].
Definition prepared : journal :=
  Journal "mf" "prepared" Refresh "phone" (VStr "rev") [("a", digest_of old_a); ("b", digest_of only_b)] [("a", new_a); ("b", only_b)]
    [("a", sample_profiles)] [("a", [(sample_token, Grant (Some (b64 (bytes_of "g0"))) (b64 (bytes_of "g1")))])] [] [] [] None [] VNone.
Definition prepared_world : world :=
  World [("a", Document old_a (Some [("op", RJournal prepared)])); ("b", Document only_b None)] [] 0.

Definition sample_answer (text : string) : value :=
  VDict [("schema_version", VInt 1); ("active_bootstrap_count", VInt 0);
    ("documents", VList [VDict [("token_hash", VStr sample_token); ("document_sha256", VStr (sample_sha (bytes_of text)));
      ("document_b64", VStr (b64 (bytes_of text))); ("revoked", VBool false); ("expired", VBool false)]])].
Definition sample_probe : value :=
  VDict [("control", VStr "passed"); ("cleanup", VStr "confirmed"); ("profiles", VList
    [VDict [("id", VStr "xray-0"); ("state", VStr "accepted"); ("control_ok", VBool true); ("setup_ok", VBool true); ("cleanup_ok", VBool true)]])].
(** The grant changes at tick [n]; the publication of a document at tick [k] is lost. *)
Definition sample_oracle (n k : nat) : oracle :=
  Oracle (fun _ d => d) (fun _ => Ok tt) (fun _ => Ok (VStr "rev")) (fun _ => Ok tt) (fun _ => Ok tt)
    (fun i => if (i =? k)%nat then Uncertain (Exn OSError "fsync") else Written) (fun _ => Ok tt)
    (fun i => Ok (sample_answer (if (i <? n)%nat then "g0" else "g1")))
    (fun _ => Ok (VDict [("document_sha256", VStr (sample_sha (bytes_of "g1")))]))
    (fun _ => Ok tt) (fun _ => Ok sample_probe) (fun _ => Ok tt) (fun _ => Ok tt) (fun _ => Ok tt).
Definition sample_load (n k : nat) (w : world) : res journal * world :=
  load_journal sample_sha (fun _ => []) (fun _ => true) sample_manifest (sample_oracle n k) w.
Definition sample_run (n k : nat) (w : world) : res status * world :=
  run sample_sha (fun _ => []) sample_json (fun _ => true) (fun _ => false) sample_manifest (sample_oracle n k) w.
Definition complete_status : status := Status "complete" 2 1 1 1 false.
(** One run without trouble; one whose record of the adoption is written but not
    confirmed; and the run that picks that one up. *)
Definition done_world : world := (sample_run 65 1000 prepared_world).2.
Definition torn_world : world := (sample_run 1000 51 prepared_world).2.
Definition resumed_world : world := (sample_run 90 1000 torn_world).2.

Example sample_done : (sample_run 65 1000 prepared_world).1 = Ok complete_status.
Proof. by vm_compute. Qed.
Example sample_torn : (sample_run 1000 51 prepared_world).1 = Raise (Exn OSError "fsync").
Proof. by vm_compute. Qed.
Definition is_publish (e : event) : bool := match e with EPublish _ _ _ _ _ => true | _ => false end.
Example sample_published : existsb is_publish (w_trace done_world) = true.
Proof. by vm_compute. Qed.
(** The resumed run completes the operation and adopts nothing a second time. *)
Definition is_adoption (e : event) : bool := match e with ERuntime _ Adopt _ _ _ => true | _ => false end.
Example sample_resumed : (sample_run 90 1000 torn_world).1 = Ok complete_status /\ length (List.filter is_adoption (w_trace resumed_world)) = 1%nat.
Proof. by vm_compute. Qed.

(** A rerun of the complete operation that loses the confirmation of its first
    record: the operation is open again. *)
Example sample_reopened :
  match stored sample_manifest (w_docs done_world), stored sample_manifest (w_docs (sample_run 0 104 done_world).2) with
  | Some (RJournal j), Some (RJournal j') => j_phase j = "complete" /\ j_phase j' = "authority-written"
  | _, _ => False
  end.
Proof. by vm_compute. Qed.

Lemma publications_admitted_witness :
  exists old new, w_trace torn_world !! 0%nat = Some (EWrite "a" old new) /\
    admits sample_sha (fun _ => []) (fun _ => true) sample_manifest prepared "a" old new.
Proof.
  eexists _, _. split; [vm_compute; reflexivity|].
  apply (publications_admitted sample_sha (fun _ => []) sample_json (fun _ => true) (fun _ => false) sample_manifest (sample_oracle 1000 51)
    prepared prepared_world (sample_load 1000 51 prepared_world).2 (Raise (Exn OSError "fsync")) torn_world);
    [by vm_compute|reflexivity|by vm_compute|apply (list_elem_of_lookup_2 _ 0); by vm_compute].
Defined.

Lemma effects_ordered_witness :
  justified sample_sha (fun _ => []) (fun _ => true) sample_manifest prepared
    (ERuntime "a" Adopt new_a VNone true) (drop 14 (w_trace done_world)).
Proof.
  apply (effects_ordered sample_sha (fun _ => []) sample_json (fun _ => true) (fun _ => false) sample_manifest (sample_oracle 65 1000)
    prepared prepared_world (sample_load 65 1000 prepared_world).2 (Ok complete_status) done_world) with (newer := take 13 (w_trace done_world));
    [by vm_compute|reflexivity|by vm_compute|by vm_compute].
Defined.

Lemma run_confirmed_witness :
  exists jc, finished sample_sha (fun _ => []) (fun _ => true) sample_manifest prepared jc (w_trace done_world).
Proof.
  apply (run_confirmed sample_sha (fun _ => []) sample_json (fun _ => true) (fun _ => false) sample_manifest (sample_oracle 65 1000)
    prepared prepared_world (sample_load 65 1000 prepared_world).2 complete_status done_world); by vm_compute.
Defined.

(** Through the torn run and the one that resumes it. *)
Lemma progress_durable_witness :
  exists j, stored sample_manifest (w_docs resumed_world) = Some (RJournal j) /\ progress prepared j /\
    validate_journal sample_sha (fun _ => []) (fun _ => true) sample_manifest j = Ok tt.
Proof.
  apply (progress_durable sample_sha (fun _ => []) sample_json (fun _ => true) (fun _ => false) sample_manifest prepared prepared_world resumed_world);
    [|by vm_compute|by vm_compute].
  apply (rtc_l _ _ torn_world); [|apply rtc_once].
  - exists (sample_oracle 1000 51), (Raise (Exn OSError "fsync")). split; [intros n docs; reflexivity|by vm_compute].
  - exists (sample_oracle 90 1000), (Ok complete_status). split; [intros n docs; reflexivity|by vm_compute].
Defined.
