(* ===== verification/DeviceInspect.v ===== *)
(** * The review of a device operation

    [inspect] of [scripts/device_lifecycle.py]: what the operator approves before an
    issue, a refresh or a revocation is prepared.  It reads every document and every
    snapshot of the fleet, looks for the device with [discover], and refuses an
    operation that the fleet is not ready for; the approval is the digest of
    everything it saw. *)

From stdpp Require Import sorting.
From S2P Require Import Prelude PyValue PyStr DeviceBinding DeviceCredentials DevicePublication DeviceLifecycle.
#[local] Open Scope string_scope.
#[local] Open Scope Z_scope.
#[local] Notation dict := (list (string * value)) (only parsing).
#[local] Notation found := (list (string * Z)) (only parsing).

(** The review, without the manifest's own fields. *)
Record review := Review { rv_source : value; rv_nodes : list (string * list string); rv_grants : list (string * nat); rv_approval : string }.

Section Inspect.
Context (sha256_hex : list Z -> string) (float_repr : pyfloat -> list ascii).
Context (json_loads : (list (string * value) -> res value) -> list Z -> res value).
(** The manifest as a document, and the hosts of its delivery; whether the output of
    the delivery is admitted. *)
Context (m : manifest) (manifest_value : value) (delivery_hosts : list string).
Context (o : oracle) (or_admit : nat -> res unit).
Notation io := (eff world).
Notation encoded := (encoded float_repr).
Notation sha := (sha sha256_hex).
Notation fingerprint := (fingerprint sha256_hex float_repr).
Notation row_client := (row_client json_loads).
Notation rows := (list (string * grant_row)) (only parsing).

(** [{token: row for token, row in snapshot['rows'].items() if ...}] *)
Definition device_rows (s : snapshot) : res rows :=
  let* marked := mapM_res (fun tr : string * grant_row =>
    let* client := row_client tr.2 in Ok (tr, bool_decide (client = mf_device m))) (sn_rows s) in
  Ok (filter (fun p => p.2 = true) marked).*1.
Definition active_row (r : grant_row) : bool := negb (gr_revoked r) && negb (gr_expired r).
Definition any_found {A} (l : list (string * list A)) : bool := existsb (fun hx => negb (bool_decide (length hx.2 = 0%nat))) l.

(** The registry entry that a delivery host needs for a refresh. *)
Definition delivery_ready (docs : list (string * document)) (h : string) : res unit :=
  let* d := of_option (dget h docs) (Exn KeyError h) in
  let* entry := get (get_default (d_content d) "client_registry" (VDict [])) (mf_device m) in
  if negb (bool_decide (mf_action m = Refresh)) then Ok tt else
  let refuse := Raise (pending "refresh-requires-active-device-authority-on-every-delivery-host") in
  match entry with
  | VDict e => let* active := in_set (field e "status") (VStr <$> ACTIVE) in if active then Ok tt else refuse
  | _ => refuse
  end.
(** [record.get('phase') != 'complete'] *)
Definition unfinished (r : record) : res bool :=
  match r with
  | RJournal j => Ok (negb (bool_decide (j_phase j = "complete")))
  | ROther v => let* p := get v "phase" in Ok (negb (py_eq p (VStr "complete")))
  end.
Definition operations_complete (hd : string * document) : res unit :=
  foldM_res (fun _ kr => let* u := unfinished kr.2 in
    raise_if u (pending "resume-existing-device-operation-first")) (default [] (d_operations hd.2)) tt.

Definition row_value (tr : string * grant_row) : value :=
  VDict [("token_hash", VStr tr.1); ("document_sha256", VStr (gr_digest tr.2)); ("document_b64", VStr (gr_document tr.2));
    ("revoked", VBool (gr_revoked tr.2)); ("expired", VBool (gr_expired tr.2))].
Definition snapshot_value (s : snapshot) : value :=
  VDict [("rows", VDict ((fun tr => (tr.1, row_value tr)) <$> sn_rows s)); ("bootstrap", VInt (sn_bootstrap s))].
Definition approval (docs : list (string * document)) (snaps : list (string * snapshot)) (source : value) : res string :=
  let* prints := mapM_res (fun hd : string * document => let* f := fingerprint (d_content hd.2) in Ok (hd.1, VStr f)) docs in
  let* b := encoded (VDict [("manifest", manifest_value); ("documents", VDict prints);
    ("snapshots", VDict (prod_map id snapshot_value <$> snaps)); ("source", source)]) in
  Ok (sha b).

Definition on_each {A B} (f : A -> res B) (l : list (string * A)) : res (list (string * B)) :=
  mapM_res (fun hx : string * A => let* y := f hx.2 in Ok (hx.1, y)) l.

(** What [inspect] decides from what it saw. *)
Definition decide_review (source : value) (docs : list (string * document)) (snaps : list (string * snapshot)) :
    res (list (string * rows) * review) :=
  let issuing := bool_decide (mf_action m = Issue) in
  let revoking := bool_decide (mf_action m = Revoke) in
  let refreshing := bool_decide (mf_action m = Refresh) in
  let* seen := on_each (fun d => discover (d_content d) (mf_device m)) docs in
  raise_if (issuing && any_found seen) (pending "device-already-exists-in-fleet") ;;;
  let* grants := on_each device_rows snaps in
  raise_if (negb issuing && negb (any_found seen) && negb (revoking && any_found grants)) (pending "device-not-found-in-fleet") ;;;
  raise_if (existsb (fun hs : string * snapshot => negb (sn_bootstrap hs.2 =? 0)) snaps)
    (pending "drain-active-bootstrap-grants-before-device-operation") ;;;
  raise_if (refreshing && negb (mf_native m) && negb (existsb (fun hg : string * rows => existsb (fun tr => active_row tr.2) hg.2) grants))
    (pending "device-has-no-active-grant-to-refresh") ;;;
  raise_if ((issuing || mf_native m) && any_found grants) (pending "device-has-existing-published-grants") ;;;
  (if issuing || refreshing then foldM_res (fun _ h => delivery_ready docs h) delivery_hosts tt else Ok tt) ;;;
  foldM_res (fun _ hd => operations_complete hd) docs tt ;;;
  let* digest := approval docs snaps source in
  Ok (grants, Review source ((fun hf : string * found => (hf.1, merge_sort str_le (keys hf.2))) <$> seen)
                            (prod_map id length <$> grants) digest).

(** [inspect] *)
Definition inspect : io (list (string * document) * list (string * snapshot) * list (string * rows) * review) :=
  call o (or_scope o) ;;
  source ← call o (or_source o);
  (if bool_decide (mf_action m = Issue) || mf_native m then call o or_admit else mret tt) ;;
  docs ← documents m o;
  snaps ← snapshots sha256_hex json_loads m o;
  '(grants, rv) ← eff_lift (decide_review source docs snaps);
  mret (docs, snaps, grants, rv).

(** ** What an approval means *)

(** A row of some collection of the document names the device; or its registry
    has an entry for it. *)
Definition listed (name : string) (doc : dict) : Prop :=
  exists l c rows row, collections doc = Ok l /\ c ∈ l /\ get c.1.2 c.2 = Ok rows /\ row ∈ list_of rows /\ named_row name row = true.
Definition somewhere (name : string) (doc : dict) : Prop := listed name doc \/ exists entry, registry_entry doc name = Some entry.
Definition nowhere (name : string) (doc : dict) : Prop := ~ listed name doc /\ registry_entry doc name = None.

Lemma discover_step_found name kind block fld s s' : discover_step name kind block fld s = Ok s' ->
  exists rows, get block fld = Ok rows /\ s' = match matching name rows with [] => s | m => dset kind (default 0 (dget kind s) + Z.of_nat (length m)) s end.
Proof. unfold discover_step. intros (rows & Hg & (_ & _ & ->)%count_rows_Ok)%res_bind_Ok. by exists rows. Qed.

Lemma dset_not_nil {A} k (v : A) d : dset k v d <> [].
Proof. destruct d as [|[k0 v0] d]; cbn; [done|by case_decide]. Qed.

Lemma matching_nil name rows : matching name rows = [] <-> forall row, row ∈ list_of rows -> named_row name row = false.
Proof.
  unfold matching. split.
  - intros Hm row Hin. destruct (named_row name row) eqn:Hn; [|done].
    assert (row ∈ filter (fun row => named_row name row = true) (list_of rows)) as Hf by by apply list_elem_of_filter.
    rewrite Hm in Hf. by apply not_elem_of_nil in Hf.
  - intros H. destruct (filter _ (list_of rows)) as [|row ms] eqn:Hm; [done|].
    assert (row ∈ filter (fun row => named_row name row = true) (list_of rows)) as [Hn Hin]%list_elem_of_filter by (rewrite Hm; left).
    by rewrite (H row Hin) in Hn.
Qed.

(** A pass finds something exactly where a row of the device is. *)
Lemma discover_fold_found name l s s' : foldM_res (step_on (discover_step name)) l s = Ok s' ->
  (s' = s /\ forall c rows row, c ∈ l -> get c.1.2 c.2 = Ok rows -> row ∈ list_of rows -> named_row name row = false) \/
  (s' <> [] /\ exists c rows row, c ∈ l /\ get c.1.2 c.2 = Ok rows /\ row ∈ list_of rows /\ named_row name row = true).
Proof.
  revert s. induction l as [|c l IH]; intros s; cbn [foldM_res]; [intros [= <-]; left; split; [done|]; by intros c rows row ?%not_elem_of_nil|].
  intros (s1 & (rows & Hg & Hs)%discover_step_found & H)%res_bind_Ok. apply IH in H as [[-> H]|(Hne & c' & rows' & row & Hin & H)].
  - destruct (matching name rows) as [|row ms] eqn:Hm.
    + left. split; [done|]. intros c' rows' row [->|Hin]%elem_of_cons; [|by apply H].
      intros Hg'. assert (rows' = rows) as -> by congruence. by apply matching_nil.
    + right. split; [rewrite Hs; apply dset_not_nil|]. exists c, rows, row.
      assert (row ∈ matching name rows) as [Hn Hin]%list_elem_of_filter by (rewrite Hm; left). split; [left|done].
  - right. split; [done|]. exists c', rows', row. split; [by right|done].
Qed.

Lemma discover_found doc name kinds : discover doc name = Ok kinds ->
  (kinds = [] -> nowhere name doc) /\ (kinds <> [] -> somewhere name doc).
Proof.
  intros (_ & l & s1 & Hl & Hf & (-> & _ & _)%registry_count_Ok)%discover_Ok.
  apply discover_fold_found in Hf. unfold nowhere, somewhere, listed. destruct (registry_entry doc name) as [entry|] eqn:He.
  - split; [|intros _; right; by exists entry]. intros Hk. by apply dset_not_nil in Hk.
  - destruct Hf as [[-> Hno]|(Hne & c & rows & row & Hin & H)]; split; intros Hk; try done.
    + split; [|done]. intros (l' & c & rows & row & Hl' & Hin & Hg & Hrow & Hn).
      assert (l' = l) as -> by congruence. by rewrite (Hno c rows row) in Hn.
    + left. by exists l, c, rows, row.
Qed.

Lemma on_each_elem {A B} (f : A -> res B) l k : on_each f l = Ok k ->
  (forall h x, (h, x) ∈ l -> exists y, f x = Ok y /\ (h, y) ∈ k) /\ (forall h y, (h, y) ∈ k -> exists x, f x = Ok y /\ (h, x) ∈ l).
Proof.
  unfold on_each. intros H%mapM_res_Ok. split.
  - intros h x [i Hi]%list_elem_of_lookup. eapply Forall2_lookup_l in H as ([h' y] & Hy & Hf); [|exact Hi].
    apply res_bind_Ok in Hf as (y' & Hf & [= <- <-]). exists y'. split; [done|]. by eapply list_elem_of_lookup_2.
  - intros h y [i Hi]%list_elem_of_lookup. eapply Forall2_lookup_r in H as ([h' x] & Hx & Hf); [|exact Hi].
    apply res_bind_Ok in Hf as (y' & Hf & [= <- <-]). exists x. split; [done|]. by eapply list_elem_of_lookup_2.
Qed.

Lemma any_found_true {A} (l : list (string * list A)) : any_found l = true <-> exists h x, (h, x) ∈ l /\ x <> [].
Proof.
  unfold any_found. rewrite existsb_true, Exists_exists. split.
  - intros ([h x] & Hin & H). exists h, x. split; [done|]. intros ->. by rewrite bool_decide_eq_true_2 in H.
  - intros (h & x & Hin & Hx). exists (h, x). split; [done|]. cbn. rewrite bool_decide_eq_false_2; [done|]. by destruct x.
Qed.
Lemma any_found_false {A} (l : list (string * list A)) : any_found l = false -> forall h x, (h, x) ∈ l -> x = [].
Proof.
  intros H h x Hin. destruct x as [|y x]; [done|]. assert (any_found l = true) as Ht by (apply any_found_true; by exists h, (y :: x)). congruence.
Qed.

Lemma device_rows_elem s rows : device_rows s = Ok rows ->
  forall tr, tr ∈ rows <-> tr ∈ sn_rows s /\ row_client tr.2 = Ok (mf_device m).
Proof.
  unfold device_rows. intros (marked & H & [= <-])%res_bind_Ok tr. apply mapM_res_Ok in H. rewrite list_elem_of_fmap. split.
  - intros ([x b] & -> & [Hb Hin]%list_elem_of_filter). cbn in *. subst b. apply list_elem_of_lookup in Hin as [i Hi].
    eapply Forall2_lookup_r in H as (y & Hy & Hf); [|exact Hi]. apply res_bind_Ok in Hf as (c & Hc & [= <- Hb]).
    split; [by eapply list_elem_of_lookup_2|]. apply bool_decide_eq_true in Hb as <-. done.
  - intros [[i Hi]%list_elem_of_lookup Hc]. eapply Forall2_lookup_l in H as ([y b] & Hy & Hf); [|exact Hi].
    rewrite Hc in Hf. cbn in Hf. rewrite bool_decide_eq_true_2 in Hf by done. injection Hf as <- <-.
    exists (tr, true). split; [done|]. apply list_elem_of_filter. split; [done|]. by eapply list_elem_of_lookup_2.
Qed.

(** The fleet that an approval of each action requires. *)
Definition device_row (snaps : list (string * snapshot)) (tr : string * grant_row) : Prop :=
  exists h s, (h, s) ∈ snaps /\ tr ∈ sn_rows s /\ row_client tr.2 = Ok (mf_device m).
Definition holds_credentials (docs : list (string * document)) : Prop :=
  exists h d, (h, d) ∈ docs /\ somewhere (mf_device m) (d_content d).
Definition registered_on (docs : list (string * document)) (h : string) : Prop :=
  exists d e status, dget h docs = Some d /\ get (get_default (d_content d) "client_registry" (VDict [])) (mf_device m) = Ok (VDict e) /\
    field e "status" = VStr status /\ status ∈ ACTIVE.
Definition action_ready (docs : list (string * document)) (snaps : list (string * snapshot)) : Prop :=
  match mf_action m with
  | Issue => (forall h d, (h, d) ∈ docs -> nowhere (mf_device m) (d_content d)) /\ forall tr, ~ device_row snaps tr
  | Refresh => holds_credentials docs /\ (forall h, h ∈ delivery_hosts -> registered_on docs h) /\
      if mf_native m then forall tr, ~ device_row snaps tr else exists tr, device_row snaps tr /\ active_row tr.2 = true
  | Revoke => holds_credentials docs \/ exists tr, device_row snaps tr
  end.
Definition record_complete (r : record) : Prop :=
  match r with RJournal j => j_phase j = "complete" | ROther v => exists d, v = VDict d /\ dget "phase" d = Some (VStr "complete") end.
Record cleared (docs : list (string * document)) (snaps : list (string * snapshot)) : Prop := {
  cl_bootstrap : forall h s, (h, s) ∈ snaps -> sn_bootstrap s = 0;
  cl_operations : forall h d k r, (h, d) ∈ docs -> (k, r) ∈ default [] (d_operations d) -> record_complete r;
  cl_action : action_ready docs snaps }.

Lemma found_credentials docs seen : on_each (fun d => discover (d_content d) (mf_device m)) docs = Ok seen ->
  any_found seen = true -> holds_credentials docs.
Proof.
  intros Hs (h & kinds & Hin & Hk)%any_found_true. apply (proj2 (on_each_elem _ _ _ Hs)) in Hin as (d & Hd & Hin).
  exists h, d. split; [done|]. by apply (discover_found _ _ _ Hd).
Qed.
Lemma not_found docs seen : on_each (fun d => discover (d_content d) (mf_device m)) docs = Ok seen ->
  any_found seen = false -> forall h d, (h, d) ∈ docs -> nowhere (mf_device m) (d_content d).
Proof.
  intros Hs Hf h d Hin. apply (proj1 (on_each_elem _ _ _ Hs)) in Hin as (kinds & Hd & Hin).
  apply (discover_found _ _ _ Hd). by apply (any_found_false _ Hf h).
Qed.
Lemma grants_rows snaps grants : on_each device_rows snaps = Ok grants ->
  forall tr, device_row snaps tr <-> exists h rows, (h, rows) ∈ grants /\ tr ∈ rows.
Proof.
  intros [H1 H2]%on_each_elem tr. split.
  - intros (h & s & Hin & Htr). apply H1 in Hin as (rows & Hr & Hin). exists h, rows. split; [done|]. by apply (device_rows_elem _ _ Hr).
  - intros (h & rows & Hin & Htr). apply H2 in Hin as (s & Hr & Hin). exists h, s. split; [done|]. by apply (device_rows_elem _ _ Hr).
Qed.
Lemma no_grants snaps grants : on_each device_rows snaps = Ok grants -> any_found grants = false -> forall tr, ~ device_row snaps tr.
Proof. intros Hg Hf tr (h & rows & Hin & Htr)%(grants_rows _ _ Hg). rewrite (any_found_false _ Hf _ _ Hin) in Htr. by apply not_elem_of_nil in Htr. Qed.

Lemma delivery_ready_Ok docs h : mf_action m = Refresh -> delivery_ready docs h = Ok tt -> registered_on docs h.
Proof.
  intros Ha. unfold delivery_ready. intros (d & Hd%of_option_Ok & (entry & He & H)%res_bind_Ok)%res_bind_Ok.
  rewrite bool_decide_eq_true_2 in H by done. cbn [negb] in H. destruct entry as [| | | | | |e]; try done.
  apply res_bind_Ok in H as (active & Hs & H). destruct active; [|done]. unfold in_set in Hs.
  destruct (hashable _); [|done]. apply Ok_inj in Hs. apply existsb_true, Exists_exists in Hs as (v & (x & -> & Hx)%list_elem_of_fmap & Hv).
  apply py_eq_str in Hv. by exists d, e, x.
Qed.

Lemma unfinished_complete r : unfinished r = Ok false -> record_complete r.
Proof.
  unfold unfinished, record_complete. destruct r as [j|v].
  - intros [= H]. by apply negb_false_iff, bool_decide_eq_true in H.
  - intros (p & Hp & [= H])%res_bind_Ok. apply negb_false_iff, py_eq_str in H. subst p.
    destruct v as [| | | | | |d]; try done. exists d. split; [done|]. injection Hp as Hp. by destruct (dget "phase" d) as [x|]; cbn in Hp; [subst x|].
Qed.
Lemma operations_complete_Ok h d k r : operations_complete (h, d) = Ok tt -> (k, r) ∈ default [] (d_operations d) -> record_complete r.
Proof.
  unfold operations_complete. intros H%foldM_res_unit Hin. rewrite Forall_forall in H. specialize (H _ Hin). cbn [snd] in H.
  apply res_bind_Ok in H as (u & Hu & ->%raise_if_Ok). by apply unfinished_complete.
Qed.

(** The approval spelled out. *)
Definition approves (docs : list (string * document)) (snaps : list (string * snapshot)) (source : value) (digest : string) : Prop :=
  exists prints b, Forall2 (fun (hd : string * document) (hp : string * value) => hp.1 = hd.1 /\
      exists f, fingerprint (d_content hd.2) = Ok f /\ hp.2 = VStr f) docs prints /\
    encoded (VDict [("manifest", manifest_value); ("documents", VDict prints);
      ("snapshots", VDict (prod_map id snapshot_value <$> snaps)); ("source", source)]) = Ok b /\ digest = sha b.
Lemma approval_Ok docs snaps source digest : approval docs snaps source = Ok digest -> approves docs snaps source digest.
Proof.
  unfold approval. intros (prints & Hp & (b & Hb & [= <-])%res_bind_Ok)%res_bind_Ok. exists prints, b. split; [|done].
  apply mapM_res_Ok in Hp. eapply Forall2_impl; [exact Hp|]. intros [h d] hp (f & Hf & [= <-])%res_bind_Ok. split; [done|]. by exists f.
Qed.

Lemma action_is a b :
  bool_decide (a = b) = match a, b with Issue, Issue | Refresh, Refresh | Revoke, Revoke => true | _, _ => false end.
Proof. destruct a, b; (by rewrite bool_decide_eq_true_2) || by rewrite bool_decide_eq_false_2. Qed.

Lemma decide_review_Ok source docs snaps grants rv : decide_review source docs snaps = Ok (grants, rv) ->
  cleared docs snaps /\ approves docs snaps source (rv_approval rv) /\ rv_source rv = source.
Proof.
  unfold decide_review. intros (seen & Hseen & H)%res_bind_Ok. apply raise_if_seq_Ok in H as [H1 H].
  apply res_bind_Ok in H as (gr & Hgr & H). rewrite !raise_if_seq_Ok in H. destruct H as (H2 & H3 & H4 & H5 & H).
  apply res_bind_Ok in H as ([] & H6 & H). apply res_bind_Ok in H as ([] & H7 & H). apply res_bind_Ok in H as (digest & H8 & [= -> <-]).
  apply approval_Ok in H8. split; [|done]. split.
  - intros h s Hin. apply existsb_false in H3. rewrite Forall_forall in H3. specialize (H3 _ Hin). cbn in H3.
    apply negb_false_iff in H3. lia.
  - intros h d k r Hin. apply foldM_res_unit in H7. rewrite Forall_forall in H7. by apply (operations_complete_Ok h), H7.
  - unfold action_ready. rewrite !action_is in *. destruct (mf_action m) eqn:Ha; cbn in *.
    + split; [by eapply not_found|by eapply no_grants].
    + rewrite andb_true_r in H2. apply negb_false_iff in H2. split; [by eapply found_credentials|]. split.
      * intros h Hin. apply foldM_res_unit in H6. rewrite Forall_forall in H6. by apply delivery_ready_Ok, H6.
      * destruct (mf_native m); cbn in *; [by eapply no_grants|]. apply negb_false_iff, existsb_true, Exists_exists in H4 as ([h rows] & Hin & Hr).
        apply existsb_true, Exists_exists in Hr as (tr & Htr & Hact). exists tr. split; [|done]. apply (grants_rows _ _ Hgr). by exists h, rows.
    + destruct (any_found seen) eqn:Hs; [left; by eapply found_credentials|]. cbn in H2. apply negb_false_iff, any_found_true in H2 as (h & rows & Hin & Hr).
      right. destruct rows as [|tr rows]; [done|]. exists tr. apply (grants_rows _ _ Hgr). exists h, (tr :: rows). split; [done|]. left.
Qed.

End Inspect.

(** ** A sample review

    A refresh of a phone that has a credential and a grant on node [a]; and its
    revocation refused while another operation is in progress. *)

Definition phone_a : dict :=
  [("xray", VDict [("clients", VList [VDict [("name", VStr "phone")]])]); ("client_registry", VDict [("phone", VDict [("status", VStr "active")])])].
Definition phone_world (operations : option (list (string * record))) : world :=
  World [("a", Document phone_a operations); ("b", Document only_b None)] [] 0.
Definition sample_inspect (w : world) : res (list (string * document) * list (string * snapshot) * list (string * list (string * grant_row)) * review) * world :=
  inspect sample_sha (fun _ => []) sample_json sample_manifest (VStr "manifest") ["a"] (sample_oracle 1000 1000) (fun _ => Ok tt) w.
Definition sample_review : list (string * document) * list (string * snapshot) * list (string * list (string * grant_row)) * review :=
  match (sample_inspect (phone_world None)).1 with Ok r => r | Raise _ => ([], [], [], Review VNone [] [] "") end.

Example sample_nodes : rv_nodes sample_review.2 = [("a", ["registry"; "xray"]); ("b", [])] /\ rv_grants sample_review.2 = [("a", 1%nat)].
Proof. by vm_compute. Qed.
Example sample_resume_first : (sample_inspect (phone_world (Some [("other", RJournal prepared)]))).1 = Raise (pending "resume-existing-device-operation-first").
Proof. by vm_compute. Qed.

