(* ===== verification/LivenessConfig.v ===== *)
(** * The protocol liveness configuration

    [scripts/protocol-liveness.py]: the configuration document once the
    [jsonschema] package admitted it against [contract/protocol-liveness.schema.json]
    (a closed schema, so a record; an optional field is an [option]; an integer
    written as a float with zero fraction is not modelled), its semantic checks
    and the probe deadline ([probe_deadline] of [scripts/liveness_generation.py]). *)

From S2P Require Import Prelude PyValue PyStr Regex IPAddr Url.
From stdpp Require Import sorting.
#[local] Open Scope string_scope.
#[local] Open Scope Z_scope.

Record policy := Policy {
  policy_id : string; required_profiles : list string; pol_min_failed : option Z }.

Record target := Target {
  target_alias : string; address_sha256 : string; deployable_digest : string; target_applied_at : Z }.

Record sentinel := Sentinel {
  sentinel_id : string; sentinel_policy : string; vantage : string; declared : target; has_awg_target : bool }.

Record config := Config {
  probe_url : string; cfg_probe_timeout : option Z; cfg_stale_after : option Z;
  cfg_interval : option Z; cfg_failure_threshold : option Z; cfg_otp_ttl : option Z;
  expected_runtime : list (string * string);
  policies : list policy; sentinels : list sentinel }.

Definition PROFILES : list string := ["p0-reality"; "p1-xhttp"; "p2-hysteria2"; "p2-amneziawg"].

(** [config.get(key, default)] *)
Definition probe_timeout_seconds (c : config) : Z := default 15 (cfg_probe_timeout c).
Definition stale_after_seconds (c : config) : Z := default 120 (cfg_stale_after c).
Definition evaluation_interval_seconds (c : config) : Z := default 120 (cfg_interval c).
Definition min_failed_vantages (p : policy) : Z := default 2 (pol_min_failed p).

(** What the schema says of the fields the code relies on. *)
Record schema_ok (c : config) : Prop := {
  so_profiles : Forall (fun p => NoDup (required_profiles p) /\ required_profiles p <> [] /\
                          forall x, x ∈ required_profiles p -> x ∈ PROFILES) (policies c);
  so_quorum : Forall (fun p => 1 <= min_failed_vantages p) (policies c);
  so_timeout : 1 <= probe_timeout_seconds c <= 60;
  so_stale : 30 <= stale_after_seconds c;
  so_interval : 30 <= evaluation_interval_seconds c;
  so_vantage : Forall (fun s => vantage s ∈ ["external"; "filtered"]) (sentinels c);
  so_applied : Forall (fun s => 1 <= target_applied_at (declared s)) (sentinels c)
}.

Definition RUNTIME_KEYS : list string := ["awg"; "awg_toolchain"; "sing_box"; "xray"].

(** The set, listed in the order [sorted] gives it. *)
Definition required_runtime (p : policy) : list string :=
  let needs x := mem x (required_profiles p) in
  filter (fun k =>
    (if mem k ["awg"; "awg_toolchain"] then needs "p2-amneziawg"
     else if mem k ["sing_box"] then needs "p2-hysteria2"
     else needs "p0-reality" || needs "p1-xhttp") = true) RUNTIME_KEYS.

(** ** [semantic_errors] *)

Definition count_str (x : string) (l : list string) : nat := length (filter (fun y => y = x) l).

(** [sorted(value for value, count in Counter(values).items() if count > 1)] *)
Definition duplicates (l : list string) : list string :=
  merge_sort str_le (filter (fun x => (1 < count_str x l)%nat) (remove_dups l)).

Definition duplicate_errors (c : config) : list string :=
  ((fun v => "duplicate policy id: " +:+ v) <$> duplicates (policy_id <$> policies c))
  ++ ((fun v => "duplicate sentinel id: " +:+ v) <$> duplicates (sentinel_id <$> sentinels c)).

(** [next((p for p in policies if p.get("id") == policy_id), …)] *)
Definition find_policy (c : config) (id : string) : option policy :=
  head (filter (fun p => policy_id p = id) (policies c)).

Definition sentinel_errors (c : config) (s : sentinel) : list string :=
  flag (negb (mem (sentinel_policy s) (policy_id <$> policies c)))
    ("sentinel " +:+ sentinel_id s +:+ " references unknown policy: " +:+ sentinel_policy s)
  ++ flag (mem "p2-amneziawg" (default [] (required_profiles <$> find_policy c (sentinel_policy s))) && negb (has_awg_target s))
    ("sentinel " +:+ sentinel_id s +:+ ": migration required: explicit awg_target provider/environment/instance").

Section Semantics.
(** The NFKC check of an authority outside ASCII. *)
Context (netloc_ok : string -> bool).

(** An HTTPS host name on port 443, without credentials or fragment; the character
    test of the code is on code points, and a byte at most 32 is one. *)
Definition awg_probe_url (s : string) : bool :=
  negb (any_char (fun ch => ord ch <=? 32) s)
  && match urlsplit netloc_ok s with
     | None => false
     | Some u =>
         bool_decide (u_scheme u = "https")
         && match hostname u with
            | None => false
            | Some h =>
                negb (contains_char ":" h)
                && match url_port u with
                   | Some port => bool_decide (port = None \/ port = Some 443)
                   | None => false
                   end
                && negb (has_userinfo u) && bool_decide (u_fragment u = "")
                && match ip_address h with Some _ => false | None => true end
            end
     end.

Definition assigned (c : config) (id : string) : Z :=
  Z.of_nat (count_str id (sentinel_policy <$> sentinels c)).

(** A pin that is missing or empty. *)
Definition unpinned (c : config) (key : string) : bool :=
  negb (truthy (VStr (default "" (dget key (expected_runtime c))))).

Definition policy_errors (c : config) (p : policy) : list string :=
  let required := required_profiles p in
  flag (assigned c (policy_id p) <? min_failed_vantages p)
    ("policy " +:+ policy_id p +:+ " quorum " +:+ str_of_Z (min_failed_vantages p)
     +:+ " exceeds assigned sentinels " +:+ str_of_Z (assigned c (policy_id p)))
  ++ mjoin ((fun key => flag (unpinned c key) ("migration required: expected_runtime." +:+ key +:+ " pin"))
              <$> filter (fun key => key ∉ ["xray"; "awg_toolchain"]) (required_runtime p))
  ++ flag ((mem "p0-reality" required || mem "p1-xhttp" required) && unpinned c "xray")
       "migration required: expected_runtime.xray pin for REALITY/XHTTP"
  ++ (if mem "p2-amneziawg" required then
        flag (unpinned c "awg_toolchain") "migration required: expected_runtime.awg_toolchain source-input digest"
        ++ flag (negb (awg_probe_url (probe_url c)))
             "AWG probe requires a dual-stack HTTPS hostname on port 443 without credentials or fragment"
      else []).

Definition semantic_errors (c : config) : list string :=
  duplicate_errors c ++ mjoin (sentinel_errors c <$> sentinels c) ++ mjoin (policy_errors c <$> policies c).

Definition config_error : exn := Exn ConfigError "".

(** [validate_config] after the schema. *)
Definition validate_config (c : config) : res config :=
  raise_if (negb (bool_decide (semantic_errors c = []))) config_error ;;; Ok c.
End Semantics.

(** ** Deadlines *)

Definition generation_error : exn := Exn GenerationError "probe-deadline-invalid".

(** [probe_deadline] on a list of strings. *)
Definition probe_deadline (timeout : Z) (required : list string) : res Z :=
  raise_if (negb ((1 <=? timeout) && (timeout <=? 60)) || bool_decide (required = [])
            || existsb (fun p => negb (mem p PROFILES)) required || negb (nodup_str required)) generation_error ;;;
  Ok (timeout * (1 + Z.of_nat (length required)) + 240).

Definition stop_iteration : exn := Exn StopIteration "".

Definition remote_probe_deadline (c : config) (s : sentinel) : res Z :=
  let* p := of_option (find_policy c (sentinel_policy s)) stop_iteration in
  let* d := probe_deadline (probe_timeout_seconds c) (required_profiles p) in Ok (d + 20).

(** ** What the checks establish *)

Lemma duplicates_nil l : duplicates l = [] -> NoDup l.
Proof.
  unfold duplicates. intros H. assert (forall x, x ∈ l -> count_str x l = 1%nat) as Hc.
  { intros x Hx. destruct (decide (1 < count_str x l)%nat) as [Hlt|Hge].
    - assert (x ∈ @nil string) as Hn; [|by apply not_elem_of_nil in Hn]. rewrite <-H, (merge_sort_Permutation str_le).
      apply list_elem_of_filter. by rewrite elem_of_remove_dups.
    - assert (x ∈ filter (fun y => y = x) l) as Hf by (by apply list_elem_of_filter). unfold count_str in *.
      destruct (filter (fun y => y = x) l); [by apply not_elem_of_nil in Hf|simpl in *; lia]. }
  clear H. induction l as [|x l IH]; [constructor|]. constructor.
  - intros Hx. specialize (Hc x (list_elem_of_here _ _)). unfold count_str in Hc. rewrite filter_cons_True in Hc by done.
    simpl in Hc. assert (x ∈ filter (fun y => y = x) l) as Hf by (by apply list_elem_of_filter).
    destruct (filter _ l); [by apply not_elem_of_nil in Hf|simpl in Hc; lia].
  - apply IH. intros y Hy. specialize (Hc y (list_elem_of_further _ _ _ Hy)). unfold count_str in *.
    rewrite filter_cons in Hc. case_decide as Hxy; [|done]. subst. simpl in Hc.
    assert (y ∈ filter (fun z => z = y) l) as Hf by (by apply list_elem_of_filter).
    destruct (filter _ l); [by apply not_elem_of_nil in Hf|simpl in Hc; lia].
Qed.

Lemma find_policy_Some c id p : find_policy c id = Some p -> p ∈ policies c /\ policy_id p = id.
Proof.
  unfold find_policy. intros H. apply head_Some_elem_of, list_elem_of_filter in H. tauto.
Qed.

Lemma find_policy_is_Some c id : id ∈ policy_id <$> policies c -> is_Some (find_policy c id).
Proof.
  intros (p & -> & Hp)%list_elem_of_fmap. unfold find_policy.
  destruct (filter _ _) as [|q l] eqn:Hf; [|by eexists].
  assert (p ∈ filter (fun q => policy_id q = policy_id p) (policies c)) as H by (by apply list_elem_of_filter).
  rewrite Hf in H. by apply not_elem_of_nil in H.
Qed.

(** A configuration [validate_config] admits. *)
Record config_wf (c : config) : Prop := {
  cw_policies : NoDup (policy_id <$> policies c);
  cw_sentinels : NoDup (sentinel_id <$> sentinels c);
  cw_bound : forall s, s ∈ sentinels c -> exists p, find_policy c (sentinel_policy s) = Some p;
  cw_quorum : forall p, p ∈ policies c -> min_failed_vantages p <= assigned c (policy_id p);
  cw_pinned : forall p key, p ∈ policies c -> key ∈ required_runtime p ->
    exists v, dget key (expected_runtime c) = Some v /\ v <> ""
}.

Lemma unpinned_false c key : unpinned c key = false -> exists v, dget key (expected_runtime c) = Some v /\ v <> "".
Proof.
  unfold unpinned. intros H. apply negb_false_iff in H. cbn [truthy] in H. apply negb_true_iff in H. bprop.
  destruct (dget key (expected_runtime c)) as [v|]; [by exists v|done].
Qed.

Lemma required_runtime_elem p key :
  key ∈ required_runtime p ->
  key ∈ ["awg"; "sing_box"]
  \/ key = "awg_toolchain" /\ mem "p2-amneziawg" (required_profiles p) = true
  \/ key = "xray" /\ mem "p0-reality" (required_profiles p) || mem "p1-xhttp" (required_profiles p) = true.
Proof.
  intros [H Hk]%list_elem_of_filter. unfold RUNTIME_KEYS in Hk. set_unfold in Hk.
  destruct Hk as [->|[->|[->|[->|[]]]]]; [left; set_solver|right; left|left; set_solver|right; right]; split; try done.
Qed.

Lemma validate_config_wf netloc_ok c : semantic_errors netloc_ok c = [] -> config_wf c.
Proof.
  unfold semantic_errors, duplicate_errors. intros H. rewrite !app_nil, !mjoin_fmap_nil in H.
  destruct H as ((Hp%fmap_nil_inv & Hs%fmap_nil_inv) & Hsn & Hpol). rewrite Forall_forall in Hsn; rewrite Forall_forall in Hpol. split.
  - by apply duplicates_nil.
  - by apply duplicates_nil.
  - intros s Hs'. specialize (Hsn s Hs'). unfold sentinel_errors in Hsn.
    apply app_nil in Hsn as [Hf%flag_nil _]. apply negb_false_iff, mem_true in Hf.
    by apply find_policy_is_Some in Hf.
  - intros p Hp'. specialize (Hpol p Hp'). unfold policy_errors in Hpol. apply app_nil in Hpol as [Hf%flag_nil _]. lia.
  - intros p key Hp' Hk. specialize (Hpol p Hp'). unfold policy_errors in Hpol.
    rewrite !app_nil, mjoin_fmap_nil, flag_nil, Forall_forall in Hpol. destruct Hpol as (_ & H1 & H2 & H3).
    apply unpinned_false. pose proof (required_runtime_elem p key Hk) as [Hin|[[-> Hm]|[-> Hm]]].
    + apply (flag_nil _ ("migration required: expected_runtime." +:+ key +:+ " pin")), H1.
      apply list_elem_of_filter. split; [|done]. set_unfold. intros [->|[->|[]]]; naive_solver.
    + rewrite Hm in H3. by apply app_nil in H3 as [?%flag_nil _].
    + rewrite Hm in H2. apply flag_nil in H2. done.
Qed.

Lemma remote_probe_deadline_total c s :
  schema_ok c -> config_wf c -> s ∈ sentinels c ->
  exists p, find_policy c (sentinel_policy s) = Some p /\
    remote_probe_deadline c s = Ok (probe_timeout_seconds c * (1 + Z.of_nat (length (required_profiles p))) + 260).
Proof.
  intros Hs Hc Hin. destruct (cw_bound _ Hc s Hin) as [p Hp]. exists p. split; [done|].
  unfold remote_probe_deadline. rewrite Hp. cbn [of_option res_bind].
  apply find_policy_Some in Hp as [Hp _]. pose proof (so_profiles _ Hs) as Hprof.
  rewrite Forall_forall in Hprof. destruct (Hprof p Hp) as (Hnd & Hne & Hin'). pose proof (so_timeout _ Hs).
  unfold probe_deadline.
  replace (_ || _ || _ || _) with false; [cbn; f_equal; lia|]. symmetry. rewrite !orb_false_iff. split_and!.
  - apply negb_false_iff, andb_true_iff. lia.
  - by apply bool_decide_eq_false.
  - apply existsb_false, Forall_forall. intros x Hx. by apply negb_false_iff, mem_true, Hin'.
  - by apply negb_false_iff, nodup_str_true.
Qed.
