(* ===== verification/LivenessReport.v ===== *)
(** * Sentinel liveness reports

    [scripts/protocol-liveness.py], [validate_report]: the report of a sentinel is
    admitted, refused with a reason (the code returns the pair of [None] and the
    message), or the check itself raises.  [json.loads] is a parameter, as are the
    decimal digits outside ASCII that [\d] matches (as UTF-8 encodings). *)

From S2P Require Import Prelude PyValue PyStr Regex LivenessConfig.
From stdpp Require Import sorting.
#[local] Open Scope string_scope.
#[local] Open Scope Z_scope.

(** ** Checks that return early *)

Inductive check (A : Type) :=
| Pass (a : A)
| Refuse (why : string)
| Crash (e : exn).
Arguments Pass {A} a.
Arguments Refuse {A} why.
Arguments Crash {A} e.

#[global] Instance check_ret : MRet check := fun A a => Pass a.
#[global] Instance check_bind : MBind check := fun A B k m =>
  match m with Pass a => k a | Refuse why => Refuse why | Crash e => Crash e end.

Definition refuse_if (b : bool) (why : string) : check unit := if b then Refuse why else Pass tt.
Definition on_res {A} (m : res A) : check A := match m with Ok a => Pass a | Raise e => Crash e end.

Fixpoint fold_check {A S} (f : S -> A -> check S) (l : list A) (s : S) : check S :=
  match l with [] => Pass s | x :: l => s ← f s x; fold_check f l s end.

Lemma check_bind_Pass {A B} (m : check A) (k : A -> check B) b :
  (m ≫= k) = Pass b <-> exists a, m = Pass a /\ k a = Pass b.
Proof. destruct m; cbn; split; try done; try (by intros (? & ? & ?)); eauto. by intros (? & [= ->] & ?). Qed.

Lemma check_bind_Crash {A B} (m : check A) (k : A -> check B) e :
  (m ≫= k) = Crash e <-> m = Crash e \/ exists a, m = Pass a /\ k a = Crash e.
Proof.
  destruct m; cbn; split; try done; try (by intros [?|(? & ? & ?)]); eauto.
  - by intros [?|(? & [= ->] & ?)].
  - intros [= ->]. by left.
  - by intros [[= ->]|(? & ? & ?)].
Qed.

Lemma refuse_if_Pass b why u : refuse_if b why = Pass u <-> b = false.
Proof. by destruct b, u. Qed.
Lemma refuse_if_Crash b why e : refuse_if b why <> Crash e.
Proof. by destruct b. Qed.
Lemma on_res_Pass {A} (m : res A) a : on_res m = Pass a <-> m = Ok a.
Proof. destruct m; split; cbn; congruence. Qed.
Lemma on_res_Crash {A} (m : res A) e : on_res m = Crash e <-> m = Raise e.
Proof. destruct m; split; cbn; congruence. Qed.

(** [pass_inv H]: decompose [H : m = Pass a] through binds and guards. *)
Ltac pass_step H :=
  lazymatch type of H with
  | (refuse_if _ _ ≫= _) = Pass _ =>
      let u := fresh "u" in let Hg := fresh "Hg" in
      apply check_bind_Pass in H as (u & Hg & H); apply refuse_if_Pass in Hg; clear u
  | (_ ≫= _) = Pass _ =>
      let a := fresh "a" in let Ha := fresh "Ha" in
      apply check_bind_Pass in H as (a & Ha & H)
  | refuse_if _ _ = Pass _ => apply refuse_if_Pass in H
  | on_res _ = Pass _ => apply on_res_Pass in H
  | Pass _ = Pass _ => injection H as H
  | mret _ = Pass _ => injection H as H
  end.
Ltac pass_inv H := repeat pass_step H.

(** ** The report *)

Notation dict := (list (string * value)) (only parsing).

Definition VERDICTS : list string := ["ok"; "throttled"; "blocked"; "unknown"; "error"].
Definition ALIVE : list string := ["ok"; "throttled"].
Definition PROVENANCE_KEYS : list string :=
  ["controller_revision"; "runner_sha256"; "client_generation_id"; "public_profile_digest"; "vantage"].
Definition TARGET_IDENTITY_KEYS : list string :=
  ["inventory_alias"; "public_service_address_sha256"; "deployable_digest"; "applied_at";
   "required_profiles"; "source_revision"; "runner_sha256"; "public_profile_digest"].

(** [x in {…}] for a [str] [x] *)
Definition str_in (v : value) (l : list string) : bool := is_str v && mem (str_of v) l.
(** [isinstance(v, str)] and the whole of it matches. *)
Definition str_fullmatch (r : re) (v : value) : bool := is_str v && fullmatch r (str_of v).

Definition hex (n : nat) : re := RClsRep is_hex_lower n n.
Definition ALIAS : re := RCat (RCls is_alnum) (RClsRep (fun c => is_alnum c || one_of "_.-" c) 0 63).
(** [str(UUID(s)) == s]: the canonical spelling. *)
Definition UUID : re :=
  RCat (hex 8) (RCat (RLit "-") (RCat (hex 4) (RCat (RLit "-") (RCat (hex 4) (RCat (RLit "-")
    (RCat (hex 4) (RCat (RLit "-") (hex 12)))))))).

Section Report.
Context (loads : string -> res value) (wide_digits : list string).

Definition DIGIT : re := foldr (fun d r => RAlt (RLit d) r) (RCls is_digit) wide_digits.
(** [(?:\d+\.\d+\.\d+(?:[-+][A-Za-z0-9.-]+)?|missing|unknown)] *)
Definition RUNTIME : re :=
  RAlt (RCat (RPlus DIGIT) (RCat (RLit ".") (RCat (RPlus DIGIT) (RCat (RLit ".") (RCat (RPlus DIGIT)
         (ROpt (RCat (RCls (one_of "-+")) (RPlus (RCls (fun c => is_alnum c || one_of ".-" c))))))))))
       (RAlt (RLit "missing") (RLit "unknown")).

Definition check_provenance (refuse : bool -> string -> check unit) (s : sentinel) (provenance : value) : check dict :=
  refuse (negb (is_dict provenance) || negb (same_set (keys (dict_of provenance)) PROVENANCE_KEYS)) "invalid provenance" ;;
  let p := dict_of provenance in
  refuse (negb (str_fullmatch (hex 40) (field p "controller_revision")
                && str_fullmatch (hex 64) (field p "runner_sha256")
                && str_fullmatch (hex 64) (field p "public_profile_digest"))) "invalid provenance" ;;
  refuse (negb (str_fullmatch UUID (field p "client_generation_id"))) "invalid provenance" ;;
  refuse (negb (str_in (field p "vantage") ["external"; "filtered"])
          || negb (py_eq (field p "vantage") (VStr (vantage s)))) "provenance vantage mismatch" ;;
  mret p.

(** The mapping a sentinel declares as its target. *)
Definition target_dict (t : target) : dict :=
  [("inventory_alias", VStr (target_alias t)); ("public_service_address_sha256", VStr (address_sha256 t));
   ("deployable_digest", VStr (deployable_digest t)); ("applied_at", VInt (target_applied_at t))].

Definition check_target (refuse : bool -> string -> check unit) (s : sentinel) (p : policy)
    (observed_at : Z) (provenance : dict) (target : value) : check unit :=
  let required := VList (VStr <$> merge_sort str_le (required_profiles p)) in
  refuse (negb (is_dict target) || negb (same_set (keys (dict_of target)) TARGET_IDENTITY_KEYS)) "invalid target identity" ;;
  let t := dict_of target in
  refuse (existsb (fun kv => negb (py_eq (field t kv.1) kv.2)) (target_dict (declared s))) "target identity mismatch" ;;
  refuse (negb (py_eq (field t "required_profiles") required)
          || negb (py_eq (field t "source_revision") (field provenance "controller_revision"))
          || negb (py_eq (field t "runner_sha256") (field provenance "runner_sha256"))
          || negb (py_eq (field t "public_profile_digest") (field provenance "public_profile_digest"))
          || negb (type_is_int (field t "applied_at"))
          || (int_of (field t "applied_at") <? 1)
          || (observed_at <? int_of (field t "applied_at"))
          || negb (str_fullmatch ALIAS (field t "inventory_alias"))
          || existsb (fun k => negb (str_fullmatch (hex 64) (field t k)))
               ["public_service_address_sha256"; "deployable_digest"; "runner_sha256"; "public_profile_digest"]
          || negb (str_fullmatch (hex 40) (field t "source_revision"))) "invalid target identity".

Definition check_runtime (refuse : bool -> string -> check unit) (c : config) (p : policy) (runtime : value) : check unit :=
  let r := dict_of runtime in
  refuse (negb (is_dict runtime) || negb (subset (keys r) RUNTIME_KEYS)
          || existsb (fun kv => negb (str_fullmatch (if bool_decide (kv.1 = "awg_toolchain") then hex 64 else RUNTIME) kv.2)) r)
    "invalid runtime evidence" ;;
  fold_check (fun _ key =>
    refuse (negb (py_eq (field r key) (default VNone (VStr <$> dget key (expected_runtime c))))
            || negb (mem key (keys r))) (key +:+ " runtime mismatch")) (required_runtime p) tt.

(** ** Profiles *)

(** One item of [family_results]; testing membership of a set hashes the verdict. *)
Definition family_bad (item : value) : res bool :=
  if negb (is_dict item) then Ok true else
  let* alive := in_set (field (dict_of item) "verdict") (VStr <$> ALIVE) in
  Ok (negb alive || negb (py_eq (field (dict_of item) "payload_transport") (VStr "tcp-https"))).

(** [any(f(x) for x in l)] *)
Fixpoint any_res {A} (f : A -> res bool) (l : list A) : res bool :=
  match l with [] => Ok false | x :: l => let* b := f x in if b then Ok true else any_res f l end.

Definition families_bad (families : value) : res bool :=
  if negb (is_dict families) || negb (same_set (keys (dict_of families)) ["ipv4"; "ipv6"]) then Ok true
  else any_res family_bad (dict_of families).*2.

Definition variant_step (refuse : bool -> string -> check unit) (ids : list Z) (variant : value) : check (list Z) :=
  let v := dict_of variant in
  refuse (negb (is_dict variant)) "invalid endpoint variant evidence" ;;
  refuse (negb (type_is_int (field v "variant")) || (int_of (field v "variant") <? 1)
          || bool_decide (int_of (field v "variant") ∈ ids)
          || negb (str_in (field v "verdict") VERDICTS)) "invalid endpoint variant evidence" ;;
  mret (int_of (field v "variant") :: ids).

Definition variant_verdict (v : value) : string := str_of (field (dict_of v) "verdict").

(** The best verdict of some variants. *)
Definition best_verdict (l : list string) : option string :=
  head (filter (fun v => v ∈ l) ["ok"; "throttled"; "error"; "unknown"; "blocked"]).

Definition check_variants (refuse : bool -> string -> check unit) (verdict : string) (variants : value) : check unit :=
  if is_none variants then mret tt else
  refuse (negb (is_list variants) || negb (truthy variants)) "invalid endpoint variant evidence" ;;
  fold_check (variant_step refuse) (list_of variants) [] ;;
  expected ← on_res (of_option (best_verdict (variant_verdict <$> list_of variants)) stop_iteration);
  refuse (negb (bool_decide (verdict = expected))) "inconsistent endpoint variant verdict".

Definition profile_step (refuse : bool -> string -> check unit) (seen : list string) (profile : value) : check (list string) :=
  refuse (negb (is_dict profile)) "invalid profile result" ;;
  let d := dict_of profile in
  refuse (negb (str_in (field d "profile") PROFILES) || negb (str_in (field d "verdict") VERDICTS)
          || mem (str_of (field d "profile")) seen) "invalid profile result" ;;
  let name := str_of (field d "profile") in
  let verdict := str_of (field d "verdict") in
  let awg := bool_decide (name = "p2-amneziawg") in
  let alive := mem verdict ALIVE in
  let transport := get_default d "payload_transport" (VStr "unknown") in
  let family := get_default d "target_address_family" (VStr "unknown") in
  refuse (negb (str_in transport ["tcp-https"; "unknown"])
          || (py_eq transport (VStr "unknown") && negb (bool_decide (verdict = "error")))) "invalid payload transport evidence" ;;
  refuse (negb (str_in family (if awg then ["dualstack"; "unknown"] else ["unknown"]))) "invalid target address family evidence" ;;
  refuse (negb (is_bool (field d "dns_through_tunnel")) || negb (is_bool (field d "authenticated_handshake")))
    "invalid positive proof evidence" ;;
  refuse (alive && (negb (bool_of (field d "dns_through_tunnel")) || negb (bool_of (field d "authenticated_handshake"))))
    "missing positive proof evidence" ;;
  bad ← (if awg && alive then
           if negb (py_eq family (VStr "dualstack")) then mret true else on_res (families_bad (field d "family_results"))
         else mret false);
  refuse bad "missing dual-stack family proof" ;;
  refuse (has_key "fresh_handshake" d && (negb awg || negb (is_bool (field d "fresh_handshake")))) "invalid handshake evidence" ;;
  refuse (awg && alive && (negb (py_eq family (VStr "dualstack"))
                           || negb (is_bool (field d "fresh_handshake") && bool_of (field d "fresh_handshake"))))
    "missing authenticated AWG evidence" ;;
  let variants := field d "variants" in
  refuse (negb awg && negb (bool_decide (verdict = "error")) && negb (truthy variants)) "missing endpoint variant evidence" ;;
  check_variants refuse verdict variants ;;
  mret (seen ++ [name])%list.

(** ** [validate_report] *)

Definition refuse_for (s : sentinel) (b : bool) (why : string) : check unit :=
  refuse_if b (sentinel_id s +:+ ": " +:+ why).

Definition validate_report (raw : string) (s : sentinel) (c : config) (now : Z) : check dict :=
  let refuse := refuse_for s in
  refuse (65536 <? py_len raw) "malformed report" ;;
  report ← (match loads raw with
            | Ok v => Pass v
            | Raise e => if caught [ValueError; TypeError; RecursionError] e
                         then Refuse (sentinel_id s +:+ ": malformed report") else Crash e
            end);
  let d := dict_of report in
  refuse (negb (is_dict report) || negb (type_is_int (field d "schema_version"))
          || negb (int_of (field d "schema_version") =? 2)) "unsupported report schema" ;;
  refuse (negb (py_eq (field d "sentinel") (VStr (sentinel_id s)))) "sentinel identity mismatch" ;;
  let observed_at := int_of (field d "observed_at") in
  refuse (negb (type_is_int (field d "observed_at"))
          || negb ((now - stale_after_seconds c <=? observed_at) && (observed_at <=? now))) "stale report" ;;
  refuse (negb (is_dict (field d "control"))
          || negb (str_in (field (dict_of (field d "control")) "verdict") VERDICTS)) "invalid control verdict" ;;
  provenance ← check_provenance refuse s (field d "provenance");
  p ← on_res (of_option (find_policy c (sentinel_policy s)) stop_iteration);
  check_target refuse s p observed_at provenance (field d "target_identity") ;;
  check_runtime refuse c p (field d "runtime") ;;
  refuse (negb (is_list (field d "profiles"))) "invalid profile result" ;;
  seen ← fold_check (profile_step refuse) (list_of (field d "profiles")) [];
  refuse (negb (same_set seen (required_profiles p))) "profile set mismatch" ;;
  mret d.
End Report.

(** ** What an admitted report proves *)

(** A variant with its number and verdict. *)
Definition variant_ok (v : value) (n : Z) (verdict : string) : Prop :=
  exists d, v = VDict d /\ field d "variant" = VInt n /\ 1 <= n /\
    field d "verdict" = VStr verdict /\ verdict ∈ VERDICTS.

Definition variants_ok (variants : value) (verdict : string) : Prop :=
  exists l ids vs, variants = VList l /\ Forall3 variant_ok l ids vs /\ NoDup ids /\ best_verdict vs = Some verdict.

(** The evidence that an address family of AmneziaWG carried traffic. *)
Definition family_alive (families : value) (family : string) : Prop :=
  exists f d v, families = VDict f /\ dget family f = Some (VDict d) /\
    field d "verdict" = VStr v /\ v ∈ ALIVE /\ field d "payload_transport" = VStr "tcp-https".

Record profile_ok (d : dict) (name verdict : string) : Prop := {
  po_name : field d "profile" = VStr name /\ name ∈ PROFILES;
  po_verdict : field d "verdict" = VStr verdict /\ verdict ∈ VERDICTS;
  po_tested : exists dns handshake, field d "dns_through_tunnel" = VBool dns /\ field d "authenticated_handshake" = VBool handshake;
  po_alive : verdict ∈ ALIVE ->
    field d "payload_transport" = VStr "tcp-https" /\
    field d "dns_through_tunnel" = VBool true /\ field d "authenticated_handshake" = VBool true;
  po_awg : name = "p2-amneziawg" -> verdict ∈ ALIVE ->
    field d "target_address_family" = VStr "dualstack" /\ field d "fresh_handshake" = VBool true /\
    family_alive (field d "family_results") "ipv4" /\ family_alive (field d "family_results") "ipv6";
  po_variants : field d "variants" = VNone /\ (name = "p2-amneziawg" \/ verdict = "error")
    \/ variants_ok (field d "variants") verdict
}.

(** A value [v] is the profile result [x]: name and verdict. *)
Definition is_profile (v : value) (x : string * string) : Prop := exists d, v = VDict d /\ profile_ok d x.1 x.2.

Record report_ok (s : sentinel) (c : config) (p : policy) (now : Z) (d : dict) (results : list (string * string)) : Prop := {
  ro_sentinel : field d "schema_version" = VInt 2 /\ field d "sentinel" = VStr (sentinel_id s);
  ro_fresh : exists t, field d "observed_at" = VInt t /\ now - stale_after_seconds c <= t <= now /\
    1 <= target_applied_at (declared s) <= t;
  ro_control : exists k v, field d "control" = VDict k /\ field k "verdict" = VStr v /\ v ∈ VERDICTS;
  ro_target : exists t, field d "target_identity" = VDict t /\
    forall k v, (k, v) ∈ target_dict (declared s) -> field t k = v;
  ro_provenance : exists q t, field d "provenance" = VDict q /\ field d "target_identity" = VDict t /\
    field q "vantage" = VStr (vantage s) /\ field t "source_revision" = field q "controller_revision" /\
    field t "runner_sha256" = field q "runner_sha256" /\ field t "public_profile_digest" = field q "public_profile_digest" /\
    (exists u, field q "client_generation_id" = VStr u /\ fullmatch UUID u = true) /\
    (forall k, k ∈ ["controller_revision"; "runner_sha256"; "public_profile_digest"] -> exists x, field q k = VStr x) /\
    field t "required_profiles" = VList (VStr <$> merge_sort str_le (required_profiles p));
  ro_runtime : exists r, field d "runtime" = VDict r /\
    forall key, key ∈ required_runtime p ->
      exists pin, dget key (expected_runtime c) = Some pin /\ dget key r = Some (VStr pin);
  ro_profiles : exists l, field d "profiles" = VList l /\ Forall2 is_profile l results /\
    NoDup results.*1 /\ forall x, x ∈ results.*1 <-> x ∈ required_profiles p
}.

(** ** Soundness *)

Lemma fold_check_ind {A S} (P : list A -> S -> Prop) (f : S -> A -> check S) l s r :
  P [] s ->
  (forall d x s s', P d s -> f s x = Pass s' -> P (d ++ [x])%list s') ->
  fold_check f l s = Pass r -> P l r.
Proof.
  intros H0 Hstep. change l with ([] ++ l)%list at 2. revert H0.
  generalize (@nil A) as d. revert s. induction l as [|x l IH]; intros s d Hd; cbn [fold_check].
  - intros [= <-]. by rewrite app_nil_r.
  - intros (s' & Hs & Hf)%check_bind_Pass. replace (d ++ x :: l)%list with ((d ++ [x]) ++ l)%list by (by rewrite <-app_assoc).
    eapply IH; [by eapply Hstep|done].
Qed.

Lemma str_in_true v l : str_in v l = true <-> exists x, v = VStr x /\ x ∈ l.
Proof.
  unfold str_in. rewrite andb_true_iff, is_str_true, mem_true. split.
  - intros [[x ->] Hx]. by exists x.
  - intros (x & -> & Hx). eauto.
Qed.

Lemma str_fullmatch_true r v : str_fullmatch r v = true <-> exists x, v = VStr x /\ fullmatch r x = true.
Proof.
  unfold str_fullmatch. rewrite andb_true_iff, is_str_true. split.
  - intros [[x ->] Hx]. by exists x.
  - intros (x & -> & Hx). eauto.
Qed.

Lemma py_eq_strs v l : py_eq v (VList (VStr <$> l)) = true -> v = VList (VStr <$> l).
Proof.
  destruct v as [| | |[| |]|t|k|d]; try done. intros H. f_equal.
  revert k H. induction l as [|x l IH]; intros [|y k] H; try done.
  change (py_eq y (VStr x) && py_eq (VList k) (VList (VStr <$> l)) = true) in H.
  apply andb_true_iff in H as [Hy%py_eq_str Hk]. csimpl. f_equal; [done|]. by apply IH.
Qed.

Lemma get_default_other d k v dflt : get_default d k dflt = v -> v <> dflt -> field d k = v.
Proof. unfold get_default, field. destruct (dget k d); [done|]. simpl. congruence. Qed.

Lemma is_bool_true v : is_bool v = true <-> v = VBool (bool_of v).
Proof. destruct v; split; try done. Qed.

Section Sound.
Context (refuse : bool -> string -> check unit).
Hypothesis (Hrefuse : forall b why u, refuse b why = Pass u <-> b = false).

Lemma refuse_bind {A} b why (m : check A) a : (refuse b why ;; m) = Pass a <-> b = false /\ m = Pass a.
Proof.
  rewrite check_bind_Pass. setoid_rewrite Hrefuse. split; [by intros (? & ? & ?)|]. intros [? ?]. by exists tt.
Qed.

Lemma family_bad_false item :
  family_bad item = Ok false ->
  exists d v, item = VDict d /\ field d "verdict" = VStr v /\ v ∈ ALIVE /\ field d "payload_transport" = VStr "tcp-https".
Proof.
  unfold family_bad. destruct (is_dict item) eqn:Hd; [|done]. apply is_dict_true in Hd as [d ->]. cbn [negb dict_of].
  intros (b & Hb & H)%res_bind_Ok. apply Ok_inj in H. bprop. subst b. apply py_eq_str in H0.
  unfold in_set in Hb. destruct (hashable _); [|done]. apply Ok_inj in Hb.
  apply existsb_true, Exists_exists in Hb as (w & (v & -> & Hv)%list_elem_of_fmap & Hw%py_eq_str). by exists d, v.
Qed.

Lemma any_res_false {A} (f : A -> res bool) l : any_res f l = Ok false <-> Forall (fun x => f x = Ok false) l.
Proof.
  induction l as [|x l IH]; [split; [constructor|done]|]. cbn [any_res]. rewrite res_bind_Ok, Forall_cons, <-IH. split.
  - by intros ([] & Hx & H).
  - intros [Hx Hl]. by exists false.
Qed.

Lemma families_bad_false families :
  families_bad families = Ok false -> family_alive families "ipv4" /\ family_alive families "ipv6".
Proof.
  unfold families_bad. destruct (is_dict families) eqn:Hd; [|done]. apply is_dict_true in Hd as [f ->]. cbn [negb dict_of orb].
  destruct (same_set _ _) eqn:Hk; [|done]. cbn [negb]. rewrite any_res_false, Forall_forall. intros Ha.
  assert (forall k, k ∈ ["ipv4"; "ipv6"] -> family_alive (VDict f) k) as H; [|by split; apply H; set_solver].
  intros k Hin. pose proof (proj1 (same_set_true _ _) Hk k) as Hkk. apply Hkk, dget_is_Some in Hin as [item Hitem].
  destruct (family_bad_false item) as (d & v & -> & Hv).
  { apply Ha, list_elem_of_fmap. exists (k, item). split; [done|]. by apply dget_Some_elem. }
  by exists f, d, v.
Qed.
Lemma variant_step_Pass ids v ids' :
  variant_step refuse ids v = Pass ids' ->
  exists n, ids' = n :: ids /\ n ∉ ids /\ variant_ok v n (variant_verdict v).
Proof.
  unfold variant_step. intros H. rewrite !refuse_bind in H. destruct H as (Hd & H & Hr). injection Hr as <-.
  apply negb_false_iff, is_dict_true in Hd as [d ->]. cbn [dict_of] in *.
  rewrite !orb_false_iff, !negb_false_iff in H. destruct H as (((Ht & Hpos) & Hnew) & Hv). bprop.
  apply type_is_int_true in Ht as [n Hn]. apply str_in_true in Hv as (x & Hx & Hin).
  rewrite Hn in *. cbn [int_of] in *. exists n. split_and!; [done|done|]. exists d. unfold variant_verdict. cbn [dict_of].
  rewrite Hx. split_and!; [done|done|lia|done|done].
Qed.

Lemma variants_fold l ids :
  fold_check (variant_step refuse) l [] = Pass ids ->
  Forall3 variant_ok l (rev ids) (variant_verdict <$> l) /\ NoDup ids.
Proof.
  apply (fold_check_ind (fun d ids => Forall3 variant_ok d (rev ids) (variant_verdict <$> d) /\ NoDup ids)).
  - split; constructor.
  - intros d x seen seen' [Hf Hn] (n & -> & Hfresh & Hv)%variant_step_Pass. rewrite fmap_app. cbn [rev]. split; [|by constructor].
    apply Forall3_app; [done|]. repeat constructor. done.
Qed.

Lemma check_variants_Pass verdict variants u :
  check_variants refuse verdict variants = Pass u -> variants = VNone \/ variants_ok variants verdict.
Proof.
  unfold check_variants. destruct (is_none variants) eqn:Hn; [destruct variants; try done; by left|].
  rewrite refuse_bind. intros [Hl H]. right. apply orb_false_iff in Hl as [Hl _]. apply negb_false_iff, is_list_true in Hl as [l ->].
  cbn [list_of] in H. apply check_bind_Pass in H as (ids & Hf & H). apply variants_fold in Hf as [Hf Hnd].
  apply check_bind_Pass in H as (e & He & H). apply on_res_Pass, of_option_Ok in He. apply Hrefuse in H. bprop. subst e.
  exists l, (rev ids), (variant_verdict <$> l). split_and!; [done|done| |done].
  by rewrite <-Permutation_rev.
Qed.

Lemma profile_step_Pass seen v seen' :
  profile_step refuse seen v = Pass seen' ->
  exists name verdict, is_profile v (name, verdict) /\ name ∉ seen /\ seen' = (seen ++ [name])%list.
Proof.
  unfold profile_step. rewrite !refuse_bind. intros (Hd & Hname & Htr & Hfam & Hbool & Halive & H).
  apply negb_false_iff, is_dict_true in Hd as [d ->]. cbn [dict_of] in *.
  rewrite !orb_false_iff, !negb_false_iff in Hname. destruct Hname as ((Hname & Hverdict) & Hnew).
  apply str_in_true in Hname as (name & Hname & Hpn). apply str_in_true in Hverdict as (verdict & Hverdict & Hv).
  rewrite Hname, Hverdict in *. cbn [str_of] in *. apply mem_false in Hnew.
  apply check_bind_Pass in H as (bad & Hbad & H). rewrite !refuse_bind in H.
  destruct H as (-> & Hfresh & Hawg & Hne & H). apply check_bind_Pass in H as (u & Hvar & H). injection H as <-.
  exists name, verdict. split_and!; [|done|done]. exists d. split; [done|]. cbn [fst snd].
  apply check_variants_Pass in Hvar. split; [done|done|..].
  - apply orb_false_iff in Hbool as [Hdb%negb_false_iff Hhb%negb_false_iff]. apply is_bool_true in Hdb, Hhb. eauto.
  - intros Hal. pose proof (proj2 (mem_true _ _) Hal) as Hm. rewrite Hm in Halive. cbn [andb] in Halive.
    rewrite !orb_false_iff, !negb_false_iff in *. destruct Halive as [Hda Hha], Hbool as [Hdb Hhb], Htr as [Htr Hun].
    apply is_bool_true in Hdb, Hhb. rewrite Hdb, Hhb, Hda, Hha. split; [|done].
    apply str_in_true in Htr as (x & Hx & Hin). apply (get_default_other _ _ _ (VStr "unknown")); [|done].
    rewrite Hx in *. rewrite bool_decide_false in Hun by (intros ->; set_solver).
    rewrite andb_true_r in Hun. set_unfold in Hin. destruct Hin as [->|[->|[]]]; done.
  - intros -> Hal. pose proof (proj2 (mem_true _ _) Hal) as Hm. rewrite Hm, bool_decide_true in * by done. cbn [andb negb] in *.
    destruct (py_eq (get_default d "target_address_family" _) _) eqn:Hf; [|done]. apply py_eq_str in Hf.
    cbn [negb orb] in *. apply on_res_Pass, families_bad_false in Hbad.
    apply negb_false_iff, andb_true_iff in Hawg as [Hb Ht]. apply is_bool_true in Hb. rewrite Hb, Ht.
    split_and!; try tauto. by apply (get_default_other _ _ _ (VStr "unknown")).
  - destruct Hvar as [Hvar|Hvar]; [left|by right]. split; [done|]. rewrite Hvar in Hne. cbn [truthy negb] in Hne.
    rewrite andb_true_r, andb_false_iff, !negb_false_iff in Hne. by destruct Hne; bprop; [left|right].
Qed.

Lemma profiles_fold l seen :
  fold_check (profile_step refuse) l [] = Pass seen ->
  exists results, Forall2 is_profile l results /\ results.*1 = seen /\ NoDup seen.
Proof.
  apply (fold_check_ind (fun d seen => exists results, Forall2 is_profile d results /\ results.*1 = seen /\ NoDup seen)).
  - exists []. split_and!; constructor.
  - intros d v s s' (rs & Hrs & <- & Hnd) (name & verdict & Hp & Hnew & ->)%profile_step_Pass.
    exists (rs ++ [(name, verdict)])%list. rewrite fmap_app. split_and!; [|done|].
    + apply Forall2_app; [done|]. by repeat constructor.
    + apply NoDup_app. split_and!; [done| |apply NoDup_singleton]. intros x Hx ->%list_elem_of_singleton. done.
Qed.

Lemma check_provenance_Pass s v q :
  check_provenance refuse s v = Pass q ->
  v = VDict q /\ field q "vantage" = VStr (vantage s) /\
  (exists u, field q "client_generation_id" = VStr u /\ fullmatch UUID u = true) /\
  (forall k, k ∈ ["controller_revision"; "runner_sha256"; "public_profile_digest"] -> exists x, field q k = VStr x).
Proof.
  unfold check_provenance. rewrite !refuse_bind, !orb_false_iff, !negb_false_iff, !andb_true_iff, !str_fullmatch_true.
  intros ([Hd _] & [[Hc Hr] Hp] & Hu & [_ Hv] & H). injection H as <-. apply is_dict_true in Hd as [d ->]. cbn [dict_of] in *.
  apply py_eq_str in Hv. split_and!; [done|done|done|]. intros k Hk. set_unfold in Hk. naive_solver.
Qed.

Lemma py_eq_const_str v w : (exists x, w = VStr x) -> py_eq v w = true -> v = w.
Proof. by intros [x ->] ?%py_eq_str. Qed.

Lemma check_target_Pass s p observed q v u :
  (forall k, k ∈ ["controller_revision"; "runner_sha256"; "public_profile_digest"] -> exists x, field q k = VStr x) ->
  check_target refuse s p observed q v = Pass u ->
  exists t, v = VDict t /\ (forall k w, (k, w) ∈ target_dict (declared s) -> field t k = w) /\
    1 <= target_applied_at (declared s) <= observed /\
    field t "source_revision" = field q "controller_revision" /\
    field t "runner_sha256" = field q "runner_sha256" /\ field t "public_profile_digest" = field q "public_profile_digest" /\
    field t "required_profiles" = VList (VStr <$> merge_sort str_le (required_profiles p)).
Proof.
  intros Hq. unfold check_target. rewrite !refuse_bind. intros (Hd & Hm & H).
  apply Hrefuse in H. rewrite !orb_false_iff, !negb_false_iff in *.
  destruct Hd as [[t ->]%is_dict_true _]. cbn [dict_of] in *.
  destruct H as (((((((((Hrp & Hsr) & Hrs) & Hpd) & Hty) & H1) & Ho) & _) & _) & _).
  apply existsb_false in Hm. rewrite Forall_forall in Hm. apply type_is_int_true in Hty as [z Hz].
  assert (forall k w, (k, w) ∈ target_dict (declared s) -> field t k = w) as Hdecl.
  { intros k w Hkw. specialize (Hm (k, w) Hkw). cbn [fst snd] in Hm. apply negb_false_iff in Hm.
    unfold target_dict in Hkw. set_unfold in Hkw.
    destruct Hkw as [[= -> ->]|[[= -> ->]|[[= -> ->]|[[= -> ->]|[]]]]]; try by apply py_eq_str.
    rewrite Hz, py_eq_int in Hm. apply Z.eqb_eq in Hm. by rewrite Hz, Hm. }
  exists t. pose proof (Hdecl "applied_at" (VInt (target_applied_at (declared s)))) as Happ.
  rewrite Happ in *|- by (unfold target_dict; set_solver). cbn [int_of] in *. bprop. split_and!; try done.
  - apply py_eq_const_str; [apply Hq; set_solver|done].
  - apply py_eq_const_str; [apply Hq; set_solver|done].
  - apply py_eq_const_str; [apply Hq; set_solver|done].
  - by apply py_eq_strs.
Qed.

Lemma check_runtime_Pass wide_digits c p v u :
  check_runtime wide_digits refuse c p v = Pass u ->
  exists r, v = VDict r /\ forall key, key ∈ required_runtime p ->
    exists pin, dget key (expected_runtime c) = Some pin /\ dget key r = Some (VStr pin).
Proof.
  unfold check_runtime. rewrite refuse_bind, !orb_false_iff, !negb_false_iff. intros (([Hd _] & Hs) & H).
  apply is_dict_true in Hd as [r ->]. cbn [dict_of] in *. exists r. split; [done|].
  apply existsb_false in Hs. rewrite Forall_forall in Hs.
  set (holds := fun (l : list string) (_ : unit) => forall key, key ∈ l ->
    exists pin, dget key (expected_runtime c) = Some pin /\ dget key r = Some (VStr pin)).
  apply (fold_check_ind holds) in H; unfold holds in *; [done|by intros ? ?%not_elem_of_nil|].
  intros d key [] [] Hind Hstep k [Hk| ->%list_elem_of_singleton]%elem_of_app; [by apply Hind|].
  apply Hrefuse, orb_false_iff in Hstep as [He Hm]. apply negb_false_iff in He, Hm.
  apply mem_true, dget_is_Some in Hm as [w Hw]. specialize (Hs (key, w) (dget_Some_elem _ _ _ Hw)). cbn [fst snd] in Hs.
  apply negb_false_iff, str_fullmatch_true in Hs as (x & -> & _). unfold field in He. rewrite Hw in He.
  destruct (dget key (expected_runtime c)) as [pin|]; cbn in He; [|done]. apply bool_decide_eq_true in He. subst. by exists pin.
Qed.
End Sound.

(** ** What the check can raise *)

Lemma fold_check_Crash {A S} (f : S -> A -> check S) l s e :
  fold_check f l s = Crash e -> exists x s', x ∈ l /\ f s' x = Crash e.
Proof.
  revert s. induction l as [|x l IH]; intros s; [done|]. cbn [fold_check].
  intros [H|(s' & _ & H)]%check_bind_Crash; [exists x, s; split; [left|done]|].
  apply IH in H as (y & s2 & Hy & H). exists y, s2. split; [by right|done].
Qed.

(** A family result of an AmneziaWG profile whose verdict cannot be hashed. *)
Definition unhashable_family (profile : value) : Prop :=
  exists d f k item, profile = VDict d /\ field d "profile" = VStr "p2-amneziawg" /\
    field d "family_results" = VDict f /\ (k, VDict item) ∈ f /\ hashable (field item "verdict") = false.

Section Raises.
Context (refuse : bool -> string -> check unit).
Hypothesis (Hpass : forall b why u, refuse b why = Pass u <-> b = false).
Hypothesis (Hcrash : forall b why e, refuse b why <> Crash e).

Lemma refuse_bind_Crash {A} b why (m : check A) e : (refuse b why ;; m) = Crash e <-> b = false /\ m = Crash e.
Proof.
  rewrite check_bind_Crash. setoid_rewrite Hpass. split.
  - intros [H|(u & ? & ?)]; [by apply Hcrash in H|done].
  - intros [? ?]. right. by exists tt.
Qed.

Lemma family_bad_Raise item e :
  family_bad item = Raise e -> exn_class e = TypeError /\ exists d, item = VDict d /\ hashable (field d "verdict") = false.
Proof.
  unfold family_bad. destruct (is_dict item) eqn:Hd; [|done]. apply is_dict_true in Hd as [d ->]. cbn [negb dict_of].
  unfold in_set. destruct (hashable _) eqn:Hh; [done|]. intros [= <-]. split; [done|]. by exists d.
Qed.

Lemma any_res_Raise {A} (f : A -> res bool) l e : any_res f l = Raise e -> exists x, x ∈ l /\ f x = Raise e.
Proof.
  induction l as [|x l IH]; [done|]. cbn [any_res]. intros [H|([] & _ & H)]%res_bind_Raise.
  - exists x. split; [left|done].
  - done.
  - apply IH in H as (y & Hy & H). exists y. split; [by right|done].
Qed.

Lemma families_bad_Raise families e :
  families_bad families = Raise e ->
  exn_class e = TypeError /\ exists f k item, families = VDict f /\ (k, VDict item) ∈ f /\ hashable (field item "verdict") = false.
Proof.
  unfold families_bad. destruct (is_dict families) eqn:Hd; [|done]. apply is_dict_true in Hd as [f ->]. cbn [negb dict_of orb].
  destruct (same_set _ _); [|done]. cbn [negb]. intros (item & Hin & H)%any_res_Raise.
  apply family_bad_Raise in H as (He & d & -> & Hh). apply list_elem_of_fmap in Hin as ([k v] & Hv & Hin). cbn in Hv. subst v.
  split; [done|]. by exists f, k, d.
Qed.

Lemma best_verdict_Some l : l <> [] -> Forall (fun v => v ∈ VERDICTS) l -> is_Some (best_verdict l).
Proof.
  destruct l as [|v l]; [done|]. intros _ [Hv _]%Forall_cons. unfold best_verdict.
  assert (v ∈ filter (fun w => w ∈ v :: l) ["ok"; "throttled"; "error"; "unknown"; "blocked"]) as Hin.
  { apply list_elem_of_filter. split; [left|]. unfold VERDICTS in Hv. set_unfold in Hv. set_solver. }
  destruct (filter _ _); [by apply not_elem_of_nil in Hin|by eexists].
Qed.

Lemma check_variants_Crash verdict variants e : check_variants refuse verdict variants <> Crash e.
Proof.
  unfold check_variants. destruct (is_none variants); [done|]. rewrite refuse_bind_Crash.
  rewrite orb_false_iff, !negb_false_iff. intros [[[l ->]%is_list_true Hl] H]. cbn [list_of truthy] in *.
  apply check_bind_Crash in H as [H|(ids & Hf & H)].
  - apply fold_check_Crash in H as (v & is_ & _ & H). unfold variant_step in H. rewrite !refuse_bind_Crash in H. by destruct H as (_ & _ & ?).
  - apply variants_fold in Hf as [Hf _]; [|done]. apply check_bind_Crash in H as [H|(v & _ & H)]; [|by apply Hcrash in H].
    apply on_res_Crash in H. assert (is_Some (best_verdict (variant_verdict <$> l))) as [b Hb]; [|by rewrite Hb in H].
    apply best_verdict_Some.
    + by destruct l.
    + clear -Hf. induction Hf as [|v n x l0 ids0 vs0 Hv _ IH] using Forall3_ind; constructor; [|done].
      by destruct Hv as (d & _ & _ & _ & _ & ?).
Qed.

Lemma profile_step_Crash seen v e :
  profile_step refuse seen v = Crash e -> exn_class e = TypeError /\ unhashable_family v.
Proof.
  unfold profile_step. rewrite !refuse_bind_Crash. intros (Hd & Hname & _ & _ & _ & _ & H).
  apply negb_false_iff, is_dict_true in Hd as [d ->]. cbn [dict_of] in *.
  apply check_bind_Crash in H as [H|(bad & _ & H)].
  - destruct (bool_decide (str_of (field d "profile") = "p2-amneziawg")) eqn:Hn; [|done]. destruct (mem _ ALIVE); [|done].
    cbn [andb] in H. destruct (negb _); [done|]. apply on_res_Crash, families_bad_Raise in H as (He & f & k & item & Hf & Hin & Hh).
    split; [done|]. exists d, f, k, item. rewrite !orb_false_iff, !negb_false_iff in Hname.
    destruct Hname as ((Hname & _) & _). apply bool_decide_eq_true in Hn. apply str_in_true in Hname as (x & Hx & _). rewrite Hx in *. cbn [str_of] in *. by subst x.
  - rewrite !refuse_bind_Crash in H. destruct H as (_ & _ & _ & _ & H).
    apply check_bind_Crash in H as [H|(u & _ & H)]; [by apply check_variants_Crash in H|done].
Qed.

Lemma check_provenance_Crash s v e : check_provenance refuse s v <> Crash e.
Proof. unfold check_provenance. rewrite !refuse_bind_Crash. by intros (_ & _ & _ & _ & ?). Qed.

Lemma check_target_Crash s p t q v e : check_target refuse s p t q v <> Crash e.
Proof. unfold check_target. rewrite !refuse_bind_Crash. intros (_ & _ & H). by apply Hcrash in H. Qed.

Lemma check_runtime_Crash wide_digits c p v e : check_runtime wide_digits refuse c p v <> Crash e.
Proof.
  unfold check_runtime. rewrite refuse_bind_Crash. intros (_ & H). apply fold_check_Crash in H as (key & u & _ & H).
  by apply Hcrash in H.
Qed.
End Raises.

Section Admission.
Context (loads : string -> res value) (wide_digits : list string).
Notation validate_report := (validate_report loads wide_digits).

Lemma validate_report_Pass raw s c now d :
  validate_report raw s c now = Pass d ->
  loads raw = Ok (VDict d) /\
  exists p results, find_policy c (sentinel_policy s) = Some p /\ report_ok s c p now d results.
Proof.
  unfold LivenessReport.validate_report. cbv zeta.
  pose proof (fun b why u => refuse_if_Pass b (sentinel_id s +:+ ": " +:+ why) u) as Hr.
  change (forall b why u, refuse_for s b why = Pass u <-> b = false) in Hr. revert Hr.
  generalize (refuse_for s) as refuse. intros refuse Hr.
rewrite (refuse_bind refuse Hr). intros (_ & H). apply check_bind_Pass in H as (v & Hload & H).
  destruct (loads raw) as [v'|e]; [injection Hload as ->|by destruct (caught _ _)].
  rewrite !(refuse_bind refuse Hr) in H. destruct H as (Hd & Hid & Hfresh & Hctl & H).
  rewrite !orb_false_iff, !negb_false_iff in *. destruct Hd as [[[d' ->]%is_dict_true Hty] H2]. cbn [dict_of] in *.
  apply type_is_int_true in Hty as [z Hz]. rewrite Hz in H2. cbn [int_of] in H2. bprop. subst z.
  apply py_eq_str in Hid. destruct Hfresh as [Hty Hfresh]. apply type_is_int_true in Hty as [t Ht].
  rewrite Ht in *. cbn [int_of] in *. bprop. destruct Hctl as [[k Hk]%is_dict_true Hctl].
  rewrite Hk in Hctl. apply str_in_true in Hctl as (cv & Hcv & Hcin).
  apply check_bind_Pass in H as (q & Hq & H). apply check_provenance_Pass in Hq as (Hq & Hvan & Hgen & Hstrs); [|done].
  apply check_bind_Pass in H as (p & Hp & H). apply on_res_Pass, of_option_Ok in Hp.
  apply check_bind_Pass in H as (u1 & Htgt & H). apply check_target_Pass in Htgt as (tg & Htg & Hdecl & Happ & Hsr & Hrs & Hpd & Hreq); [|done..].
  apply check_bind_Pass in H as (u2 & Hrt & H). apply check_runtime_Pass in Hrt as (r & Hrt & Hpins); [|done].
  rewrite (refuse_bind refuse Hr) in H. destruct H as (Hl & H). apply negb_false_iff, is_list_true in Hl as [l Hl].
  rewrite Hl in H. cbn [list_of] in H. apply check_bind_Pass in H as (seen & Hf & H).
  apply profiles_fold in Hf as (results & Hprofs & <- & Hnd); [|done].
  rewrite (refuse_bind refuse Hr) in H. destruct H as (Hset & H). injection H as <-.
  apply negb_false_iff in Hset. rewrite same_set_true in Hset. split; [done|]. exists p, results. split; [done|].
  cbn [dict_of] in *. split; [done|by exists t|by exists k, cv|by exists tg|exists q, tg; by split_and!|by exists r|by exists l].
Qed.

Lemma validate_report_Crash raw s c now e :
  (forall t x, loads t = Raise x -> caught [ValueError; TypeError; RecursionError] x = true) ->
  is_Some (find_policy c (sentinel_policy s)) -> validate_report raw s c now = Crash e ->
  exn_class e = TypeError /\ exists d l profile, loads raw = Ok (VDict d) /\ field d "profiles" = VList l /\
    profile ∈ l /\ unhashable_family profile.
Proof.
  intros Hloads [p Hp]. unfold LivenessReport.validate_report. cbv zeta.
  pose proof (fun b why u => refuse_if_Pass b (sentinel_id s +:+ ": " +:+ why) u) as Hr.
  change (forall b why u, refuse_for s b why = Pass u <-> b = false) in Hr.
  assert (forall b why x, refuse_for s b why <> Crash x) as Hc by (intros; apply refuse_if_Crash). revert Hr Hc.
  generalize (refuse_for s) as refuse. intros refuse Hr Hc. pose proof (@refuse_bind_Crash refuse Hr Hc) as Hb.
  rewrite Hb. intros (_ & H). apply check_bind_Crash in H as [H|(v & Hload & H)].
  { destruct (loads raw) as [|x] eqn:Hx; [done|]. by rewrite (Hloads _ _ Hx) in H. }
  destruct (loads raw) as [v'|x]; [injection Hload as ->|by destruct (caught _ _)].
  rewrite !Hb in H. destruct H as (Hd & _ & _ & _ & H). rewrite !orb_false_iff, !negb_false_iff in Hd.
  destruct Hd as [[[d ->]%is_dict_true _] _]. cbn [dict_of] in *.
  apply check_bind_Crash in H as [H|(q & _ & H)]; [by apply check_provenance_Crash in H|].
  apply check_bind_Crash in H as [H|(p' & _ & H)]; [by rewrite Hp in H|].
  apply check_bind_Crash in H as [H|(u & _ & H)]; [by apply check_target_Crash in H|].
  apply check_bind_Crash in H as [H|(u' & _ & H)]; [by apply check_runtime_Crash in H|].
  rewrite Hb in H. destruct H as (Hl & H). apply negb_false_iff, is_list_true in Hl as [l Hl]. rewrite Hl in H.
  cbn [list_of] in H. apply check_bind_Crash in H as [H|(seen & _ & H)].
  - apply fold_check_Crash in H as (profile & seen & Hin & H). apply profile_step_Crash in H as [He Hu]; [|done..].
    split; [done|]. by exists d, l, profile.
  - rewrite Hb in H. by destruct H as [_ H].
Qed.
End Admission.

(** ** Properties *)

Section Properties.
Context (loads : string -> res value) (wide_digits : list string).

(** C34: a report that [validate_report] admits is what it claims to be: the text
    is the report of this sentinel, no older than the configured age and not older
    than the deployment it was bound to; its target is the declared one and it
    was probed by the generation its provenance names; every required runtime is
    the pinned one; and it holds exactly one result for every required profile,
    where a working profile shows an authenticated handshake, DNS and HTTPS
    through the tunnel, for AmneziaWG on both address families and with a fresh
    handshake, and where the verdict is the best of its endpoint variants. *)
Theorem report_admitted raw s c now d :
  validate_report loads wide_digits raw s c now = Pass d ->
  loads raw = Ok (VDict d) /\
  exists p results, find_policy c (sentinel_policy s) = Some p /\ report_ok s c p now d results.
Proof. apply validate_report_Pass. Qed.

(** C40: Apart from one case, checking a report never raises, whatever the sentinel
    sent: it is admitted or refused with a reason.  The exception is a list or a
    mapping as the verdict of an AmneziaWG address family, which the code looks up
    in a set: that is an uncaught [TypeError]. *)
Theorem report_check_total raw s c now e :
  (forall t x, loads t = Raise x -> caught [ValueError; TypeError; RecursionError] x = true) ->
  config_wf c -> s ∈ sentinels c ->
  validate_report loads wide_digits raw s c now = Crash e ->
  exn_class e = TypeError /\ exists d l profile, loads raw = Ok (VDict d) /\ field d "profiles" = VList l /\
    profile ∈ l /\ unhashable_family profile.
Proof.
  intros Hl Hc Hs. destruct (cw_bound _ Hc s Hs) as [p Hp]. apply validate_report_Crash; [done|by exists p].
Qed.
End Properties.

Definition hex40 : string := "0123456789abcdef0123456789abcdef01234567".
Definition hex64 : string := "0123456789abcdef0123456789abcdef0123456789abcdef0123456789abcdef".

Definition sample_policy : policy := Policy "eu" ["p2-amneziawg"; "p0-reality"] (Some 1).
Definition sample_target : target := Target "ams1" hex64 hex64 1000.
Definition sample_sentinel : sentinel := Sentinel "s1" "eu" "external" sample_target true.
Definition sample_config : config :=
  Config "https://probe.example.org/x" None (Some 60) None None None
    [("awg", "1.0.0"); ("awg_toolchain", hex64); ("xray", "26.1.1")] [sample_policy] [sample_sentinel].

Definition sample_family (verdict : value) : value :=
  VDict [("verdict", verdict); ("payload_transport", VStr "tcp-https")].
Definition sample_awg (ipv6 : value) : value :=
  VDict [("profile", VStr "p2-amneziawg"); ("verdict", VStr "ok"); ("payload_transport", VStr "tcp-https");
         ("target_address_family", VStr "dualstack"); ("dns_through_tunnel", VBool true);
         ("authenticated_handshake", VBool true); ("fresh_handshake", VBool true);
         ("family_results", VDict [("ipv4", sample_family (VStr "ok")); ("ipv6", sample_family ipv6)])].
Definition sample_variant (n : Z) (verdict : string) : value := VDict [("variant", VInt n); ("verdict", VStr verdict)].
Definition sample_reality (verdicts : list value) : value :=
  VDict [("profile", VStr "p0-reality"); ("verdict", VStr "ok"); ("payload_transport", VStr "tcp-https");
         ("dns_through_tunnel", VBool true); ("authenticated_handshake", VBool true); ("variants", VList verdicts)].

Definition sample_report (observed_at : Z) (profiles : list value) : dict :=
  [("schema_version", VInt 2); ("sentinel", VStr "s1"); ("observed_at", VInt observed_at);
   ("control", VDict [("verdict", VStr "ok")]);
   ("provenance", VDict [("controller_revision", VStr hex40); ("runner_sha256", VStr hex64);
      ("client_generation_id", VStr "01234567-89ab-cdef-0123-456789abcdef"); ("public_profile_digest", VStr hex64);
      ("vantage", VStr "external")]);
   ("target_identity", VDict (target_dict sample_target ++
      [("required_profiles", VList [VStr "p0-reality"; VStr "p2-amneziawg"]); ("source_revision", VStr hex40);
       ("runner_sha256", VStr hex64); ("public_profile_digest", VStr hex64)])%list);
   ("runtime", VDict [("awg", VStr "1.0.0"); ("awg_toolchain", VStr hex64); ("xray", VStr "26.1.1")]);
   ("profiles", VList profiles)].

Definition good_profiles : list value :=
  [sample_reality [sample_variant 1 "ok"; sample_variant 2 "blocked"]; sample_awg (VStr "ok")].
Definition crash_profiles : list value := [sample_reality [sample_variant 1 "ok"]; sample_awg (VList [])].

Example sample_stale :
  validate_report (fun _ => Ok (VDict (sample_report 1939 good_profiles))) [] "" sample_sentinel sample_config 2000
    = Refuse "s1: stale report".
Proof. vm_compute. reflexivity. Qed.
Example sample_wrong_verdict :
  validate_report (fun _ => Ok (VDict (sample_report 1990 [sample_reality [sample_variant 1 "blocked"]; sample_awg (VStr "ok")])))
    [] "" sample_sentinel sample_config 2000 = Refuse "s1: inconsistent endpoint variant verdict".
Proof. vm_compute. reflexivity. Qed.

Lemma report_admitted_witness :
  (fun _ : string => Ok (VDict (sample_report 1990 good_profiles))) "" = Ok (VDict (sample_report 1990 good_profiles)) /\
  exists p results, find_policy sample_config "eu" = Some p /\
    report_ok sample_sentinel sample_config p 2000 (sample_report 1990 good_profiles) results.
Proof.
  apply (report_admitted (fun _ => Ok (VDict (sample_report 1990 good_profiles))) [] "" sample_sentinel sample_config 2000).
  vm_compute. reflexivity.
Defined.

Lemma report_check_total_witness :
  exn_class (Exn TypeError "unhashable") = TypeError /\
  exists d l profile, (fun _ : string => Ok (VDict (sample_report 1990 crash_profiles))) "" = Ok (VDict d) /\
    field d "profiles" = VList l /\ profile ∈ l /\ unhashable_family profile.
Proof.
  apply (report_check_total (fun _ => Ok (VDict (sample_report 1990 crash_profiles))) [] "" sample_sentinel sample_config 2000).
  - discriminate.
  - apply (validate_config_wf (fun _ => true)). vm_compute. reflexivity.
  - left.
  - vm_compute. reflexivity.
Defined.
