(* ===== verification/LivenessDecision.v ===== *)
(** * The rotation decision

    [scripts/protocol-liveness.py]: [aggregate] over the admitted reports, the
    evaluation [main] makes of the answers of the sentinels, with the executor that
    one of them may be bound to ([verify_report_binding] of
    [scripts/disposable_liveness_executor.py]). *)

From S2P Require Import Prelude PyValue PyStr LivenessConfig LivenessReport.
From stdpp Require Import sorting.
#[local] Open Scope string_scope.
#[local] Open Scope Z_scope.

(** [{key(x): x for x in l}] *)
Definition dict_by {A} (key : A -> string) (l : list A) : list (string * A) :=
  foldl (fun d x => dset (key x) x d) [] l.

Definition key_error (k : string) : exn := Exn KeyError k.

(** ** One report *)

(** What the loop body adds: a failed vantage of its policy, degradation, an
    indeterminate report, and the evidence. *)
Record summary := Summary {
  sm_policy : string; sm_blocked : bool; sm_degraded : bool; sm_indeterminate : bool; sm_evidence : value }.

(** [{item["profile"]: item …}], of an admitted report, whose names are strings. *)
Definition profile_results (report : dict) : res (list (string * value)) :=
  let* l := index (VDict report) "profiles" in
  let* named := mapM_res (fun item => let* name := index item "profile" in Ok (str_of name, item)) (list_of l) in
  Ok (foldl (fun d kv => dset kv.1 kv.2 d) [] named).

(** [item.get("variants") or []] *)
Definition variants_of (item : value) : res (list value) :=
  let* v := get item "variants" in Ok (if truthy v then list_of v else []).

Definition variant_evidence (v : value) : res value :=
  let* n := index v "variant" in let* verdict := index v "verdict" in
  Ok (VDict [("variant", n); ("verdict", verdict)]).

Definition observation (name : string) (item verdict : value) : res value :=
  let* transport := get_or item "payload_transport" (VStr "unknown") in
  let* family := get_or item "target_address_family" (VStr "unknown") in
  let* dns := index item "dns_through_tunnel" in
  let* handshake := index item "authenticated_handshake" in
  let* fresh :=
    (if bool_decide (name = "p2-amneziawg") then
       let* alive := in_set verdict (VStr <$> ALIVE) in
       if alive then let* f := get item "fresh_handshake" in Ok (is_bool f && bool_of f) else Ok false
     else Ok false) in
  Ok (VDict ([("payload_transport", transport); ("target_address_family", family); ("dns_through_tunnel", dns);
              ("authenticated_handshake", handshake)] ++ (if fresh : bool then [("fresh_handshake", VBool true)] else []))%list).

Definition evidence (id : string) (p : policy) (report : dict) (results : list (string * value)) (control : value) : res value :=
  let at_ k d := of_option (dget k d) (key_error k) in
  let required := required_profiles p in
  let* endpoint := mapM_res (fun name =>
    let* item := at_ name results in let* vs := variants_of item in
    let* es := mapM_res variant_evidence vs in Ok (name, es)) required in
  let endpoint := (fun kv => (kv.1, VList kv.2)) <$> filter (fun kv : string * list value => kv.2 <> []) endpoint in
  let* profiles := mapM_res (fun name => let* item := at_ name results in
    let* v := index item "verdict" in Ok (name, v)) required in
  let* observed := index (VDict report) "observed_at" in
  let* runtime := index (VDict report) "runtime" in
  let* provenance := index (VDict report) "provenance" in
  let* prov := mapM_res (fun key => let* v := index provenance key in Ok (key, v)) (merge_sort str_le PROVENANCE_KEYS) in
  let* target := index (VDict report) "target_identity" in
  let* observations := mapM_res (fun name => let* item := at_ name results in
    let* v := index item "verdict" in let* o := observation name item v in Ok (name, o)) required in
  Ok (VDict ([("sentinel", VStr id); ("policy", VStr (policy_id p)); ("control", control); ("profiles", VDict profiles);
              ("observed_at", observed);
              ("runtime", VDict ((fun key => (key, field (dict_of runtime) key))
                                   <$> filter (fun key => key ∈ keys (dict_of runtime)) RUNTIME_KEYS));
              ("provenance", VDict prov); ("target_identity", target); ("profile_observations", VDict observations)]
             ++ match endpoint with [] => [] | _ => [("endpoint_variants", VDict endpoint)] end)%list).

(** [any(variant["verdict"] != "ok" for variant in variants)] *)
Definition variant_not_ok (v : value) : res bool :=
  let* verdict := index v "verdict" in Ok (negb (py_eq verdict (VStr "ok"))).

Definition report_summary (c : config) (id : string) (report : dict) : res summary :=
  let* s := of_option (dget id (dict_by sentinel_id (sentinels c))) (key_error id) in
  let* p := of_option (dget (sentinel_policy s) (dict_by policy_id (policies c))) (key_error (sentinel_policy s)) in
  let* results := profile_results report in
  let* control := index (VDict report) "control" in
  let* control := index control "verdict" in
  let* control_alive := in_set control (VStr <$> ALIVE) in
  let* items := mapM_res (fun name => of_option (dget name results) (key_error name)) (required_profiles p) in
  let* verdicts := mapM_res (fun item => index item "verdict") items in
  let blocked := control_alive && forallb (fun v => py_eq v (VStr "blocked")) verdicts in
  let* impaired := any_res (fun v => in_set v [VStr "blocked"; VStr "throttled"]) verdicts in
  let* variant_failed := any_res (fun item => let* vs := variants_of item in any_res variant_not_ok vs) items in
  let* unclear := (if control_alive then any_res (fun v => in_set v [VStr "unknown"; VStr "error"]) verdicts else Ok true) in
  let* e := evidence id p report results control in
  Ok (Summary (policy_id p) blocked (impaired || variant_failed) unclear e).

(** ** All reports *)

Record payload := Payload {
  evaluated_at : Z; decision : string; candidate_policies : list string;
  failed_vantages : list (string * Z); monitoring_errors : list string; all_evidence : list value }.

Definition by_id (a b : string * dict) : Prop := str_le a.1 b.1.
#[export] Instance by_id_dec : RelDecision by_id.
Proof. intros a b. unfold by_id. apply _. Defined.
Definition by_key (a b : string * Z) : Prop := str_le a.1 b.1.
#[export] Instance by_key_dec : RelDecision by_key.
Proof. intros a b. unfold by_key. apply _. Defined.

(** [failed_by_policy[policy["id"]] += 1] *)
Definition tally (counts : list (string * Z)) (sm : summary) : list (string * Z) :=
  if sm_blocked sm then dset (sm_policy sm) (default 0 (dget (sm_policy sm) counts) + 1) counts else counts.

Definition quorum_met (c : config) (entry : string * Z) : res bool :=
  let* p := of_option (dget entry.1 (dict_by policy_id (policies c))) (key_error entry.1) in
  Ok (min_failed_vantages p <=? entry.2).

Fixpoint filter_res {A} (f : A -> res bool) (l : list A) : res (list A) :=
  match l with [] => Ok [] | x :: l => let* b := f x in let* l := filter_res f l in Ok (if b : bool then x :: l else l) end.

Definition indeterminate_error (id : string) : string := id +:+ ": indeterminate protocol evidence".

Definition aggregate (c : config) (reports : list (string * dict)) (errors : list string) (now : Z) : res payload :=
  let* sums := mapM_res (fun r : string * dict => let* sm := report_summary c r.1 r.2 in Ok (r.1, sm)) (merge_sort by_id reports) in
  let failed := foldl tally [] sums.*2 in
  let degraded := existsb sm_degraded sums.*2 in
  let errors := (errors ++ ((fun r => indeterminate_error r.1) <$> filter (fun r : string * summary => sm_indeterminate r.2 = true) sums))%list in
  let* candidates := filter_res (quorum_met c) failed in
  let candidates := merge_sort str_le candidates.*1 in
  let d := if negb (bool_decide (candidates = [])) then "rotation_candidate"
           else if negb (bool_decide (errors = [])) then "unknown"
           else if degraded then "degraded" else "healthy" in
  Ok (Payload now d candidates (merge_sort by_key failed) (merge_sort str_le (remove_dups errors)) (sm_evidence <$> sums.*2)).

(** ** The evaluation *)

(** *** The executor binding *)

Definition BINDING_FIELDS : list string :=
  ["schema_version"; "kind"; "executor_id"; "profile"; "executor_manifest_sha256"; "cleanup_manifest_sha256"; "config_sha256";
   "sentinel"; "client"; "generation_id"; "provenance"; "target_identity"].

(** The sentinel of [load_bound_executor], and what is read when a report is
    verified: the binding, and the digests of the manifest and configuration files;
    nothing when a private file is refused ([ExecutorError]). *)
Record executor := Executor { ex_sentinel : string; ex_files : res (option (dict * string * string)) }.

(** [verify_report_binding]: nothing for an [ExecutorError]. *)
Definition verify_report_binding (sha256 : string -> string) (x : executor) (report : dict) : res (option value) :=
  let* files := ex_files x in
  match files with
  | None => Ok None
  | Some (binding, manifest_sha, config_sha) =>
      let f := field binding in
      let differs k := negb (py_eq (field report k) (f k)) in
      if negb (same_set (keys binding) BINDING_FIELDS) || negb (py_eq (f "schema_version") (VInt 1))
         || negb (py_eq (f "kind") (VStr "colima-systemd")) || negb (py_eq (f "executor_manifest_sha256") (VStr manifest_sha))
         || negb (py_eq (f "config_sha256") (VStr config_sha)) || differs "sentinel" || differs "provenance" || differs "target_identity"
      then Ok None else
      let* generation := get (get_default report "provenance" (VDict [])) "client_generation_id" in
      if negb (py_eq generation (f "generation_id")) then Ok None else
      match f "executor_id" with
      | VStr id =>
          raise_if (negb (is_ascii id)) (Exn UnicodeError "executor_id") ;;;
          Ok (Some (VDict [("kind", VStr "colima-systemd"); ("executor_id_sha256", VStr (sha256 id));
                           ("manifest_sha256", f "executor_manifest_sha256")]))
      | _ => Raise (Exn AttributeError "encode")
      end
  end.

Section Evaluate.
Context (loads : string -> res value) (wide_digits : list string).
Context (sha256 : string -> string) (bound : option executor).

(** The executor, when the sentinel is the bound one. *)
Definition executor_of (id : string) : option executor :=
  x ← bound; if bool_decide (ex_sentinel x = id) then Some x else None.

(** [validate_report], and for the bound sentinel [verify_report_binding]. *)
Definition admit_report (raw : string) (s : sentinel) (c : config) (now : Z) : check dict :=
  match validate_report loads wide_digits raw s c now, executor_of (sentinel_id s) with
  | Pass d, Some x =>
      match verify_report_binding sha256 x d with
      | Ok (Some _) => Pass d
      | Ok None => Refuse (sentinel_id s +:+ ": executor binding mismatch")
      | Raise e => Crash e
      end
  | v, _ => v
  end.

(** [item["executor"] = report["_executor"]]; the value that was verified. *)
Definition attach_executor (reports : list (string * dict)) (item : value) : res value :=
  let* id := index item "sentinel" in
  match executor_of (str_of id) with
  | None => Ok item
  | Some x =>
      let* report := of_option (dget (str_of id) reports) (key_error (str_of id)) in
      let* v := verify_report_binding sha256 x report in
      Ok (match v with Some v => VDict (dset "executor" v (dict_of item)) | None => item end)
  end.

(** What a sentinel answered: the text of its report, or why there is none; the
    answers come in the order the pulls complete. *)
Definition answer : Type := string * (string + string).

Definition take_answer (st : list (string * string) * list string) (a : answer) : list (string * string) * list string :=
  match a.2 with
  | inl raw => (dset a.1 raw st.1, st.2)
  | inr why => (st.1, st.2 ++ [a.1 +:+ ": " +:+ why])%list
  end.

Definition take_report (c : config) (now : Z) (st : list (string * dict) * list string) (r : string * string) :
    res (list (string * dict) * list string) :=
  let* s := of_option (dget r.1 (dict_by sentinel_id (sentinels c))) (key_error r.1) in
  match admit_report r.2 s c now with
  | Pass d => Ok (dset r.1 d st.1, st.2)
  | Refuse why => Ok (st.1, st.2 ++ [why])%list
  | Crash e => Raise e
  end.

(** [now] and [at_] are two readings of the clock. *)
Definition evaluate (c : config) (answers : list answer) (now at_ : Z) : res payload :=
  let '(raw_reports, errors) := foldl take_answer ([], []) answers in
  let* st := foldM_res (take_report c now) raw_reports ([], errors) in
  let* pay := aggregate c st.1 st.2 at_ in
  let* items := mapM_res (attach_executor st.1) (all_evidence pay) in
  Ok (Payload (evaluated_at pay) (decision pay) (candidate_policies pay) (failed_vantages pay) (monitoring_errors pay) items).
End Evaluate.

(** ** What a report says, read off the document *)

Definition control_verdict (d : dict) : string := str_of (field (dict_of (field d "control")) "verdict").
Definition result_of (item : value) : string * string :=
  (str_of (field (dict_of item) "profile"), str_of (field (dict_of item) "verdict")).
Definition results_of (d : dict) : list (string * string) := result_of <$> list_of (field d "profiles").
Definition variant_verdicts (item : value) : list string := variant_verdict <$> list_of (field (dict_of item) "variants").

(** The control works and every profile is blocked. *)
Definition says_blocked (d : dict) : bool :=
  mem (control_verdict d) ALIVE && forallb (fun x => bool_decide (x.2 = "blocked")) (results_of d).
(** A profile is blocked or throttled, or a variant is not well. *)
Definition says_degraded (d : dict) : bool :=
  existsb (fun x => mem x.2 ["blocked"; "throttled"]) (results_of d)
  || existsb (fun item => existsb (fun v => negb (bool_decide (v = "ok"))) (variant_verdicts item)) (list_of (field d "profiles")).
(** The control does not work, or a profile is unknown or in error. *)
Definition says_unclear (d : dict) : bool :=
  negb (mem (control_verdict d) ALIVE) || existsb (fun x => mem x.2 ["unknown"; "error"]) (results_of d).

(** A report of a sentinel of the configuration that [validate_report] admitted. *)
Definition admitted (c : config) (now : Z) (r : string * dict) (s : sentinel) (p : policy) : Prop :=
  s ∈ sentinels c /\ r.1 = sentinel_id s /\ find_policy c (sentinel_policy s) = Some p /\
  exists results, report_ok s c p now r.2 results.

(** ** Dictionaries from lists, and loops that do not raise *)

Lemma foldl_dset {A} (l d : list (string * A)) :
  NoDup ((d ++ l).*1)%list -> foldl (fun d kv => dset kv.1 kv.2 d) d l = (d ++ l)%list.
Proof.
  revert d. induction l as [|[k v] l IH]; intros d; [by rewrite app_nil_r|].
  intros Hnd. cbn [foldl fst snd]. rewrite dset_fresh.
  - rewrite IH; rewrite <-app_assoc; done.
  - rewrite fmap_app in Hnd. apply NoDup_app in Hnd as (_ & Hd & _). intros Hk. apply (Hd k Hk). left.
Qed.

Lemma foldl_dset_nil {A} (l : list (string * A)) : NoDup l.*1 -> foldl (fun d kv => dset kv.1 kv.2 d) [] l = l.
Proof. apply (foldl_dset l []). Qed.

Lemma dict_by_pairs {A} (key : A -> string) (l : list A) :
  NoDup (key <$> l) -> dict_by key l = (fun x => (key x, x)) <$> l.
Proof.
  intros Hnd. unfold dict_by. rewrite <-(foldl_dset_nil ((fun x => (key x, x)) <$> l)).
  - generalize (@nil (string * A)) as d. clear Hnd. induction l as [|x l IH]; intros d; [done|]. csimpl. apply IH.
  - by rewrite <-list_fmap_compose.
Qed.

Lemma dict_by_lookup {A} (key : A -> string) (l : list A) x :
  NoDup (key <$> l) -> x ∈ l -> dget (key x) (dict_by key l) = Some x.
Proof.
  intros Hnd Hx. rewrite dict_by_pairs by done. apply dget_nodup.
  - unfold keys. by rewrite <-list_fmap_compose.
  - apply list_elem_of_fmap. by exists x.
Qed.

Lemma mapM_res_fmap {A B} (f : A -> res B) (g : A -> B) l :
  (forall x, x ∈ l -> f x = Ok (g x)) -> mapM_res f l = Ok (g <$> l).
Proof.
  induction l as [|x l IH]; [done|]. intros H. cbn [mapM_res]. rewrite H by left. cbn [res_bind].
  rewrite IH; [done|]. intros y Hy. apply H. by right.
Qed.

Lemma mapM_res_total {A B} (f : A -> res B) l :
  (forall x, x ∈ l -> exists y, f x = Ok y) -> exists k, mapM_res f l = Ok k.
Proof.
  induction l as [|x l IH]; [by exists []|]. intros H. cbn [mapM_res]. destruct (H x) as [y ->]; [left|].
  destruct IH as [k Hk]; [intros z Hz; apply H; by right|]. cbn [res_bind]. rewrite Hk. by eexists.
Qed.

Lemma bind_mapM_total {A B C} (f : A -> res B) l (k : list B -> res C) :
  (forall x, x ∈ l -> exists y, f x = Ok y) -> (forall ys, exists e, k ys = Ok e) ->
  exists e, res_bind (mapM_res f l) k = Ok e.
Proof. intros Hf Hk. destruct (mapM_res_total f l Hf) as [ys ->]. apply Hk. Qed.

Lemma any_res_existsb {A} (f : A -> res bool) (g : A -> bool) l :
  (forall x, x ∈ l -> f x = Ok (g x)) -> any_res f l = Ok (existsb g l).
Proof.
  induction l as [|x l IH]; [done|]. intros H. cbn [any_res existsb]. rewrite H by left. cbn [res_bind].
  rewrite IH; [by destruct (g x)|]. intros y Hy. apply H. by right.
Qed.

Lemma in_set_strs v l : in_set (VStr v) (VStr <$> l) = Ok (mem v l).
Proof.
  unfold in_set. cbn [hashable]. f_equal. apply eq_iff_eq_true. rewrite existsb_true, Exists_exists, mem_true. split.
  - intros (w & (x & -> & Hx)%list_elem_of_fmap & Hw%py_eq_str). by injection Hw as ->.
  - intros Hv. exists (VStr v). split; [apply list_elem_of_fmap; by exists v|]. by apply py_eq_str.
Qed.

Lemma existsb_same {A} (f : A -> bool) l k : (forall x, x ∈ l <-> x ∈ k) -> existsb f l = existsb f k.
Proof.
  intros H. apply eq_iff_eq_true. rewrite !existsb_true, !Exists_exists. by setoid_rewrite H.
Qed.
Lemma forallb_same {A} (f : A -> bool) l k : (forall x, x ∈ l <-> x ∈ k) -> forallb f l = forallb f k.
Proof.
  intros H. apply eq_iff_eq_true. rewrite !forallb_true, !Forall_forall. by setoid_rewrite H.
Qed.
Lemma existsb_fmap {A B} (f : B -> bool) (g : A -> B) l : existsb f (g <$> l) = existsb (fun x => f (g x)) l.
Proof. induction l as [|x l IH]; [done|]. csimpl. by rewrite IH. Qed.
Lemma forallb_fmap {A B} (f : B -> bool) (g : A -> B) l : forallb f (g <$> l) = forallb (fun x => f (g x)) l.
Proof. induction l as [|x l IH]; [done|]. csimpl. by rewrite IH. Qed.
Lemma existsb_ext_in {A} (f g : A -> bool) l : (forall x, x ∈ l -> f x = g x) -> existsb f l = existsb g l.
Proof.
  induction l as [|x l IH]; [done|]. intros H. cbn [existsb]. rewrite H by left. f_equal. apply IH. intros y Hy. apply H. by right.
Qed.

(** ** The summary of an admitted report *)

Section Summary.
Context (c : config) (now : Z) (id : string) (d : dict) (s : sentinel) (p : policy) (results : list (string * string)).
Context (Hwf : config_wf c) (Hs : s ∈ sentinels c) (Hid : id = sentinel_id s) (Hp : find_policy c (sentinel_policy s) = Some p).
Context (Hok : report_ok s c p now d results).

Lemma result_of_profile v x : is_profile v x -> result_of v = x.
Proof.
  destruct x as [name verdict]. intros (pd & -> & Hpd). unfold result_of. cbn [dict_of].
  destruct (po_name _ _ _ Hpd) as [Hn _], (po_verdict _ _ _ Hpd) as [Hv _]. cbn [fst snd] in *. by rewrite Hn, Hv.
Qed.

Lemma profiles_list : exists l, field d "profiles" = VList l /\ Forall2 is_profile l results /\ results = result_of <$> l /\
  results_of d = results /\ NoDup results.*1 /\ forall x, x ∈ results.*1 <-> x ∈ required_profiles p.
Proof.
  destruct (ro_profiles _ _ _ _ _ _ Hok) as (l & Hl & Hf & Hnd & Hset).
  assert (results = result_of <$> l) as Hr.
  { clear -Hf. induction Hf as [|v x l rs Hv _ IH]; [done|]. csimpl. f_equal; [|done]. symmetry. by apply result_of_profile. }
  exists l. split_and!; try done. unfold results_of. rewrite Hl. by cbn [list_of].
Qed.

Lemma field_index k v : field d k = v -> v <> VNone -> index (VDict d) k = Ok v.
Proof. unfold field, index. destruct (dget k d) as [w|]; cbn; [by intros -> | by intros <-]. Qed.

Definition named_items (l : list value) : list (string * value) := (fun item => ((result_of item).1, item)) <$> l.

Lemma named_keys l : (named_items l).*1 = (result_of <$> l).*1.
Proof. unfold named_items. by rewrite <-!list_fmap_compose. Qed.

Lemma index_profile v x : is_profile v x -> index v "profile" = Ok (VStr x.1) /\ index v "verdict" = Ok (VStr x.2).
Proof.
  intros (pd & -> & Hpd). destruct (po_name _ _ _ Hpd) as [Hn _], (po_verdict _ _ _ Hpd) as [Hv _].
  unfold field in Hn, Hv. cbn [index]. destruct (dget "profile" pd); [|done]. destruct (dget "verdict" pd); [|done].
  cbn in *. by subst.
Qed.

Lemma profile_results_eq l :
  field d "profiles" = VList l -> Forall2 is_profile l results -> NoDup (result_of <$> l).*1 ->
  profile_results d = Ok (named_items l).
Proof.
  intros Hl Hf Hnd. unfold profile_results. rewrite (field_index "profiles" (VList l)) by done. cbn [res_bind list_of].
  rewrite (mapM_res_fmap _ (fun item => ((result_of item).1, item))).
  - cbn [res_bind]. f_equal. apply foldl_dset_nil. by rewrite named_keys.
  - intros v Hv. eapply list_elem_of_lookup in Hv as [i Hi]. eapply Forall2_lookup_l in Hf as (x & _ & Hx); [|done].
    destruct (index_profile v x Hx) as [-> _]. cbn [res_bind str_of]. by rewrite (result_of_profile v x Hx).
Qed.

(** The item of a required profile. *)
Lemma lookup_item l name :
  field d "profiles" = VList l -> Forall2 is_profile l results -> NoDup (result_of <$> l).*1 -> results = result_of <$> l ->
  name ∈ results.*1 -> exists pd verdict, VDict pd ∈ l /\ (name, verdict) ∈ results /\
    dget name (named_items l) = Some (VDict pd) /\ profile_ok pd name verdict.
Proof.
  intros Hl Hf Hnd Hr ([n verdict] & -> & Hin)%list_elem_of_fmap. cbn [fst].
  pose proof Hin as Hin'. apply list_elem_of_lookup in Hin' as [i Hi].
  pose proof (Forall2_lookup_r _ _ _ _ _ Hf Hi) as (v & Hv & Hx). pose proof (result_of_profile _ _ Hx) as Hres.
  destruct Hx as (pd & -> & Hpd). apply list_elem_of_lookup_2 in Hv. exists pd, verdict. split_and!; [done|done| |done].
  apply dget_nodup.
  - unfold keys. by rewrite named_keys.
  - apply list_elem_of_fmap. exists (VDict pd). by rewrite Hres.
Qed.

Lemma item_variants pd name verdict :
  profile_ok pd name verdict ->
  variants_of (VDict pd) = Ok (list_of (field pd "variants")) /\
  Forall (fun v => exists n w, variant_ok v n w) (list_of (field pd "variants")).
Proof.
  intros Hpd. unfold variants_of. cbn [get res_bind]. fold (field pd "variants").
  destruct (po_variants _ _ _ Hpd) as [[-> _]|(l & ids & vs & -> & Hf & _ & _)]; [done|]. cbn [list_of]. split.
  - by destruct l.
  - clear -Hf. induction Hf as [|v n x l ids vs Hv _ IH] using Forall3_ind; constructor; [|done]. by exists n, x.
Qed.

Lemma variant_verdict_index v n w : variant_ok v n w ->
  index v "verdict" = Ok (VStr w) /\ index v "variant" = Ok (VInt n) /\ variant_verdict v = w.
Proof.
  intros (vd & -> & Hn & _ & Hw & _). unfold variant_verdict. cbn [dict_of]. rewrite Hw. unfold field in *.
  cbn [index]. destruct (dget "verdict" vd); [|done]. destruct (dget "variant" vd); [|done]. cbn in *. by subst.
Qed.

Definition item_of (l : list value) (name : string) : value := default VNone (dget name (named_items l)).

Lemma items_elem l :
  field d "profiles" = VList l -> Forall2 is_profile l results -> NoDup (result_of <$> l).*1 -> results = result_of <$> l ->
  (forall x, x ∈ results.*1 <-> x ∈ required_profiles p) ->
  mapM_res (fun name => of_option (dget name (named_items l)) (key_error name)) (required_profiles p)
    = Ok (item_of l <$> required_profiles p) /\
  forall item, item ∈ item_of l <$> required_profiles p <-> item ∈ l.
Proof.
  intros Hl Hf Hnd Hr Hset. split.
  - apply mapM_res_fmap. intros name Hn. apply Hset in Hn.
    destruct (lookup_item l name) as (pd & v & _ & _ & Hg & _); try done. unfold item_of. by rewrite Hg.
  - intros item. rewrite list_elem_of_fmap. split.
    + intros (name & -> & Hn). apply Hset in Hn.
      destruct (lookup_item l name) as (pd & v & Hin & _ & Hg & _); try done. unfold item_of. by rewrite Hg.
    + intros Hin. exists (result_of item).1. split.
      * unfold item_of. rewrite (dget_nodup _ item); [done|unfold keys; by rewrite named_keys|].
        apply list_elem_of_fmap. by exists item.
      * apply Hset. rewrite Hr. apply list_elem_of_fmap. exists (result_of item). split; [done|].
        apply list_elem_of_fmap. by exists item.
Qed.
Lemma observation_total pd name verdict :
  profile_ok pd name verdict -> exists o, observation name (VDict pd) (VStr verdict) = Ok o.
Proof.
  intros Hpd. destruct (po_tested _ _ _ Hpd) as (a & b & Ha & Hb). unfold observation. cbn [get_or res_bind].
  assert (forall k z, field pd k = VBool z -> index (VDict pd) k = Ok (VBool z)) as Hidx.
  { intros k z. unfold field, index. destruct (dget k pd); cbn; congruence. }
  rewrite (Hidx _ _ Ha), (Hidx _ _ Hb). cbn [res_bind]. case_bool_decide; [|by eexists].
  rewrite in_set_strs. cbn [res_bind]. destruct (mem verdict ALIVE); cbn; by eexists.
Qed.

Lemma evidence_total l control :
  field d "profiles" = VList l -> Forall2 is_profile l results -> NoDup (result_of <$> l).*1 -> results = result_of <$> l ->
  (forall x, x ∈ results.*1 <-> x ∈ required_profiles p) ->
  exists e, evidence id p d (named_items l) control = Ok e.
Proof.
  intros Hl Hf Hnd Hr Hset.
  assert (forall name, name ∈ required_profiles p -> exists pd v, dget name (named_items l) = Some (VDict pd) /\ profile_ok pd name v /\
            index (VDict pd) "verdict" = Ok (VStr v)) as Hitem.
  { intros name Hn. apply Hset in Hn. destruct (lookup_item l name) as (pd & v & _ & _ & Hg & Hpd); try done.
    exists pd, v. split_and!; [done|done|]. apply (index_profile _ (name, v)). by exists pd. }
  unfold evidence. cbv zeta.
  apply bind_mapM_total; [|intros ep].
  { intros name Hn. destruct (Hitem name Hn) as (pd & v & -> & Hpd & _). cbn [of_option res_bind].
    destruct (item_variants _ _ _ Hpd) as [-> Hvs]. cbn [res_bind].
    apply bind_mapM_total; [|by eexists].
    intros w Hw. rewrite Forall_forall in Hvs. destruct (Hvs w Hw) as (n & x & Hx).
    apply variant_verdict_index in Hx as (H1 & H2 & _). unfold variant_evidence. rewrite H2. cbn. rewrite H1. by eexists. }
  apply bind_mapM_total; [|intros ps].
  { intros name Hn. destruct (Hitem name Hn) as (pd & v & -> & Hpd & Hv). cbn [of_option res_bind]. rewrite Hv. by eexists. }
  destruct (ro_fresh _ _ _ _ _ _ Hok) as (t & Ht & _). rewrite (field_index _ _ Ht) by done. cbn [res_bind].
  destruct (ro_runtime _ _ _ _ _ _ Hok) as (r & Hrt & _). rewrite (field_index _ _ Hrt) by done. cbn [res_bind].
  destruct (ro_provenance _ _ _ _ _ _ Hok) as (q & tg & Hq & Htg & Hvan & _ & _ & _ & (u & Hu & _) & Hstr & _).
  rewrite (field_index _ _ Hq) by done. cbn [res_bind].
  apply bind_mapM_total; [|intros pv].
  { intros key Hkey. rewrite merge_sort_Permutation in Hkey. assert (exists x, field q key = VStr x) as [x Hx].
    { unfold PROVENANCE_KEYS in Hkey. rewrite !elem_of_cons in Hkey.
      destruct Hkey as [->|[->|[->|[->|[->|[]%not_elem_of_nil]]]]]; eauto; apply Hstr; set_solver. }
    unfold field in Hx. cbn [index]. destruct (dget key q); [by eexists|done]. }
  rewrite (field_index _ _ Htg) by done. cbn [res_bind].
  apply bind_mapM_total; [|by eexists].
  intros name Hn. destruct (Hitem name Hn) as (pd & v & -> & Hpd & Hv). cbn [of_option res_bind]. rewrite Hv. cbn [res_bind].
  destruct (observation_total _ _ _ Hpd) as [o ->]. by eexists.
Qed.

Lemma control_ok : exists k, field d "control" = VDict k /\ index (VDict k) "verdict" = Ok (VStr (control_verdict d)).
Proof.
  destruct (ro_control _ _ _ _ _ _ Hok) as (k & v & Hk & Hv & _). exists k. split; [done|].
  unfold control_verdict. rewrite Hk. cbn [dict_of]. rewrite Hv. unfold field in Hv. cbn [index].
  destruct (dget "verdict" k); [|done]. cbn in *. by subst.
Qed.

Lemma any_verdict ks (items l : list value) :
  (forall x, x ∈ items <-> x ∈ l) ->
  any_res (fun v => in_set v (VStr <$> ks)) ((fun item => VStr (result_of item).2) <$> items)
    = Ok (existsb (fun x => mem x.2 ks) (result_of <$> l)).
Proof.
  intros H. rewrite (any_res_existsb _ (fun v => mem (str_of v) ks)).
  - f_equal. rewrite !existsb_fmap. by apply existsb_same.
  - intros v (item & -> & _)%list_elem_of_fmap. by rewrite in_set_strs.
Qed.

Lemma all_verdicts (items l : list value) :
  (forall x, x ∈ items <-> x ∈ l) ->
  forallb (fun v => py_eq v (VStr "blocked")) ((fun item => VStr (result_of item).2) <$> items)
    = forallb (fun x => bool_decide (x.2 = "blocked")) (result_of <$> l).
Proof. intros H. rewrite !forallb_fmap. by apply forallb_same. Qed.

Lemma any_variant (items l : list value) :
  (forall x, x ∈ items <-> x ∈ l) -> Forall2 is_profile l results ->
  any_res (fun item => let* vs := variants_of item in any_res variant_not_ok vs) items
    = Ok (existsb (fun item => existsb (fun v => negb (bool_decide (v = "ok"))) (variant_verdicts item)) l).
Proof.
  intros H Hf. rewrite (any_res_existsb _ (fun item => existsb (fun v => negb (bool_decide (v = "ok"))) (variant_verdicts item))).
  - f_equal. by apply existsb_same.
  - intros item Hi%H. apply list_elem_of_lookup in Hi as [i Hi]. eapply Forall2_lookup_l in Hf as ([name verdict] & _ & Hx); [|done].
    destruct Hx as (pd & -> & Hpd). destruct (item_variants _ _ _ Hpd) as [-> Hvs]. cbn [res_bind]. rewrite Forall_forall in Hvs.
    unfold variant_verdicts. cbn [dict_of]. rewrite existsb_fmap. apply any_res_existsb.
    intros v Hv. destruct (Hvs v Hv) as (n & w & Hw). destruct (variant_verdict_index _ _ _ Hw) as (H1 & _ & H2).
    unfold variant_not_ok. rewrite H1, H2. done.
Qed.

Lemma summary_exact :
  exists e, report_summary c id d = Ok (Summary (policy_id p) (says_blocked d) (says_degraded d) (says_unclear d) e).
Proof.
  destruct profiles_list as (l & Hl & Hf & Hr & Hres & Hnd & Hset). rewrite Hr in Hnd.
  pose proof (find_policy_Some _ _ _ Hp) as [Hpin Hpid]. destruct control_ok as (k & Hk & Hkv).
  destruct (items_elem l Hl Hf Hnd Hr Hset) as [Hitems Helem].
  assert (Hindex : forall item, item ∈ item_of l <$> required_profiles p -> index item "verdict" = Ok (VStr (result_of item).2)).
  { intros item Hi%Helem. apply list_elem_of_lookup in Hi as [i Hi]. eapply Forall2_lookup_l in Hf as (x & _ & Hx); [|done].
    rewrite (result_of_profile _ _ Hx). by apply (index_profile _ _ Hx). }
  unfold report_summary. rewrite Hid, (dict_by_lookup sentinel_id _ s (cw_sentinels _ Hwf) Hs). cbn [of_option res_bind].
  rewrite <-Hpid, (dict_by_lookup policy_id _ p (cw_policies _ Hwf) Hpin). cbn [of_option res_bind].
  rewrite (profile_results_eq l) by done. cbn [res_bind]. rewrite (field_index _ _ Hk) by done. cbn [res_bind].
  rewrite Hkv. cbn [res_bind]. rewrite in_set_strs. cbn [res_bind]. rewrite Hitems. cbn [res_bind].
  rewrite (mapM_res_fmap _ (fun item => VStr (result_of item).2)) by done. cbn [res_bind].
  change [VStr "blocked"; VStr "throttled"] with (VStr <$> ["blocked"; "throttled"]).
  change [VStr "unknown"; VStr "error"] with (VStr <$> ["unknown"; "error"]).
  rewrite !(any_verdict _ _ l Helem), (all_verdicts _ l Helem), (any_variant _ l Helem Hf).
  destruct (evidence_total l (VStr (control_verdict d))) as [e He]; try done. rewrite Hid in He. exists e.
  unfold says_blocked, says_degraded, says_unclear. rewrite Hres, Hl, <-Hr. cbn [res_bind list_of].
  destruct (mem (control_verdict d) ALIVE); cbn [res_bind andb negb orb]; by rewrite He.
Qed.
End Summary.

(** ** Counting failed vantages *)

(** The policy of a sentinel, by its identifier. *)
Definition vantage_policy (c : config) (id : string) : option string :=
  sentinel_policy <$> dget id (dict_by sentinel_id (sentinels c)).

Definition failed_at (c : config) (pid : string) (r : string * dict) : Prop :=
  vantage_policy c r.1 = Some pid /\ says_blocked r.2 = true.
#[export] Instance failed_at_dec c pid r : Decision (failed_at c pid r).
Proof. unfold failed_at. apply _. Defined.

(** Enough reports of distinct sentinels of a policy say that it is blocked. *)
Definition quorum_failed (c : config) (reports : list (string * dict)) (pid : string) : Prop :=
  exists p, p ∈ policies c /\ policy_id p = pid /\
    min_failed_vantages p <= Z.of_nat (length (filter (failed_at c pid) reports)).

Definition counts (pid : string) (sm : summary) : Prop := sm_policy sm = pid /\ sm_blocked sm = true.
#[export] Instance counts_dec pid sm : Decision (counts pid sm).
Proof. unfold counts. apply _. Defined.

Lemma keys_dset {A} k (v : A) d : NoDup (keys d) -> NoDup (keys (dset k v d)) /\ forall x, x ∈ keys (dset k v d) <-> x = k \/ x ∈ keys d.
Proof.
  unfold keys. induction d as [|[k' v'] d IH]; csimpl.
  - intros _. split; [apply NoDup_singleton|]. set_solver.
  - intros [Hk Hd]%NoDup_cons. destruct (IH Hd) as [IH1 IH2]. case_decide as Hkk; csimpl.
    + subst. split; [by constructor|]. set_solver.
    + split; [constructor; [rewrite IH2; set_solver|done]|]. intros x. rewrite !elem_of_cons, IH2. tauto.
Qed.

Lemma tally_count sms cs pid :
  dget pid (foldl tally cs sms) =
  match length (filter (counts pid) sms) with
  | O => dget pid cs
  | n => Some (default 0 (dget pid cs) + Z.of_nat n)
  end.
Proof.
  revert cs. induction sms as [|sm sms IH]; intros cs; [done|]. cbn [foldl]. rewrite IH. unfold tally. rewrite filter_cons.
  destruct (decide (counts pid sm)) as [[<- Hb]|Hn].
  - rewrite Hb, dget_dset, decide_True by done. cbn [length]. destruct (length _) eqn:Hl; simpl; f_equal; lia.
  - destruct (sm_blocked sm) eqn:Hb; [|done]. rewrite dget_dset, decide_False; [done|]. intros ->. by apply Hn.
Qed.

Lemma tally_nodup sms cs : NoDup (keys cs) -> NoDup (keys (foldl tally cs sms)).
Proof.
  revert cs. induction sms as [|sm sms IH]; intros cs Hcs; [done|]. cbn [foldl]. apply IH.
  unfold tally. destruct (sm_blocked sm); [by apply keys_dset|done].
Qed.

Lemma filter_res_filter {A} (f : A -> res bool) (g : A -> bool) l :
  (forall x, x ∈ l -> f x = Ok (g x)) -> filter_res f l = Ok (filter (fun x => g x = true) l).
Proof.
  induction l as [|x l IH]; [done|]. intros H. cbn [filter_res]. rewrite H by left. cbn [res_bind].
  rewrite IH by (intros y Hy; apply H; by right). cbn [res_bind]. f_equal. rewrite filter_cons.
  destruct (g x) eqn:Hg; [by rewrite decide_True|by rewrite decide_False].
Qed.

Section Aggregate.
Context (c : config) (Hschema : schema_ok c) (Hwf : config_wf c) (now : Z).

Lemma vantage_policy_of s : s ∈ sentinels c -> vantage_policy c (sentinel_id s) = Some (sentinel_policy s).
Proof. intros Hs. unfold vantage_policy. by rewrite (dict_by_lookup sentinel_id _ s (cw_sentinels _ Hwf) Hs). Qed.

(** The summaries of admitted reports, without their evidence. *)
Definition sums_up (r : string * dict) (x : string * summary) : Prop :=
  x.1 = r.1 /\ vantage_policy c r.1 = Some (sm_policy x.2) /\ sm_blocked x.2 = says_blocked r.2 /\
  sm_degraded x.2 = says_degraded r.2 /\ sm_indeterminate x.2 = says_unclear r.2 /\
  exists p, p ∈ policies c /\ policy_id p = sm_policy x.2.

Lemma summaries_exist reports :
  Forall (fun r => exists s p, admitted c now r s p) reports ->
  exists sums, mapM_res (fun r : string * dict => let* sm := report_summary c r.1 r.2 in Ok (r.1, sm)) reports = Ok sums /\
    Forall2 sums_up reports sums.
Proof.
  induction 1 as [|r reports (s & p & Hs & Hid & Hp & results & Hok) _ IH]; [by exists []|].
  destruct IH as (sums & Hm & Hf). destruct (summary_exact c now r.1 r.2 s p results Hwf Hs Hid Hp Hok) as [e He].
  eexists (_ :: sums). cbn [mapM_res]. rewrite He. cbn [res_bind]. rewrite Hm. cbn [res_bind]. split; [reflexivity|].
  constructor; [|done]. apply find_policy_Some in Hp as [Hpin Hpid]. unfold sums_up. cbn [fst snd sm_policy sm_blocked sm_degraded sm_indeterminate].
  rewrite Hid, vantage_policy_of, Hpid by done. split_and!; try done. by exists p.
Qed.

Lemma failed_length reports sums pid :
  Forall2 sums_up reports sums -> length (filter (counts pid) sums.*2) = length (filter (failed_at c pid) reports).
Proof.
  induction 1 as [|r [id sm] reports sums (Hid & Hpol & Hb & _) _ IH]; [done|]. csimpl. cbn [snd] in *.
  assert (counts pid sm <-> failed_at c pid r) as Hiff.
  { unfold counts, failed_at. rewrite Hpol, <-Hb. naive_solver. }
  rewrite !filter_cons. destruct (decide (counts pid sm)) as [H|H]; rewrite Hiff in H.
  - rewrite decide_True by done. cbn [length]. by rewrite IH.
  - by rewrite decide_False.
Qed.

(** A report says that its vantage point is well. *)
Definition says_well (d : dict) : Prop := says_degraded d = false /\ says_unclear d = false.

Lemma well_not_blocked r s p : admitted c now r s p -> says_well r.2 -> says_blocked r.2 = false.
Proof.
  intros (Hs & Hid & Hp & results & Hok) [Hd _]. unfold says_blocked. apply andb_false_iff. right.
  destruct (profiles_list c now r.2 s p results Hok) as (l & Hl & _ & Hr & Hres & _ & Hset).
  apply find_policy_Some in Hp as [Hpin _]. pose proof (so_profiles _ Hschema) as Hprof. rewrite Forall_forall in Hprof.
  destruct (Hprof p Hpin) as (_ & Hne & _). unfold says_degraded in Hd. apply orb_false_iff in Hd as [Hd _]. rewrite Hres in *.
  destruct results as [|[name verdict] results].
  - destruct (required_profiles p) as [|x rp]; [done|]. exfalso. apply (not_elem_of_nil x), Hset. left.
  - cbn [existsb forallb snd] in *. apply orb_false_iff in Hd as [Hd _]. apply mem_false in Hd.
    rewrite bool_decide_false by (intros ->; set_solver). done.
Qed.

Lemma failed_pos reports p pid :
  p ∈ policies c -> min_failed_vantages p <= Z.of_nat (length (filter (failed_at c pid) reports)) ->
  (0 < length (filter (failed_at c pid) reports))%nat.
Proof.
  intros Hp Hm. pose proof (so_quorum _ Hschema) as Hq. rewrite Forall_forall in Hq. specialize (Hq p Hp). lia.
Qed.

(** The keys of the tally are policies of the configuration. *)
Lemma candidates_eq reports sums :
  Forall2 sums_up reports sums ->
  exists l, filter_res (quorum_met c) (foldl tally [] sums.*2) = Ok l /\ forall pid, pid ∈ l.*1 <-> quorum_failed c reports pid.
Proof.
  intros Hf. set (failed := foldl tally [] sums.*2).
  assert (Hget : forall pid, dget pid failed = match length (filter (failed_at c pid) reports) with O => None | n => Some (Z.of_nat n) end).
  { intros pid. unfold failed. rewrite tally_count, (failed_length reports) by done. by destruct (length _). }
  assert (Hnd : NoDup (keys failed)) by (apply tally_nodup; constructor).
  assert (Hpol : forall e, e ∈ failed -> exists p, p ∈ policies c /\ policy_id p = e.1).
  { intros [pid n] Hin. apply (dget_nodup _ _ _ Hnd) in Hin. rewrite Hget in Hin.
    destruct (filter (failed_at c pid) reports) as [|r rs] eqn:Hfil; [done|].
    assert (r ∈ filter (failed_at c pid) reports) as Hr by (rewrite Hfil; left).
    apply list_elem_of_filter in Hr as [[Hv _] Hr]. apply list_elem_of_lookup in Hr as [i Hi].
    eapply Forall2_lookup_l in Hf as (x & _ & Hx); [|done]. destruct Hx as (_ & Hv' & _ & _ & _ & p & Hp & Hpid).
    exists p. split; [done|]. cbn [fst]. congruence. }
  rewrite (filter_res_filter _ (fun e => match dget e.1 (dict_by policy_id (policies c)) with
                                      | Some p => min_failed_vantages p <=? e.2 | None => false end)).
  2: { intros e He. destruct (Hpol e He) as (p & Hp & Hpid). unfold quorum_met.
       by rewrite <-Hpid, (dict_by_lookup policy_id _ p (cw_policies _ Hwf) Hp). }
  eexists. split; [reflexivity|]. intros pid. rewrite list_elem_of_fmap. split.
  - intros ([pid' n] & -> & [Hq Hin]%list_elem_of_filter). cbn [fst snd] in *. destruct (Hpol _ Hin) as (p & Hp & Hpid). cbn [fst] in Hpid.
    rewrite <-Hpid, (dict_by_lookup policy_id _ p (cw_policies _ Hwf) Hp) in Hq. apply (dget_nodup _ _ _ Hnd) in Hin. rewrite Hget in Hin.
    exists p. split_and!; [done|done|]. apply Z.leb_le in Hq. etrans; [exact Hq|].
    destruct (length _); [done|]. by injection Hin as <-.
  - intros (p & Hp & <- & Hm). pose proof (failed_pos reports p _ Hp Hm) as Hpos. exists (policy_id p, Z.of_nat (length (filter (failed_at c (policy_id p)) reports))).
    split; [done|]. apply list_elem_of_filter. cbn [fst snd]. rewrite (dict_by_lookup policy_id _ p (cw_policies _ Hwf) Hp).
    split; [lia|]. apply dget_Some_elem. rewrite Hget. by destruct (length _); [lia|].
Qed.

Lemma quorum_failed_perm reports reports' pid : reports ≡ₚ reports' -> quorum_failed c reports pid -> quorum_failed c reports' pid.
Proof. intros Hp (p & ? & ? & ?). exists p. by rewrite <-Hp. Qed.

Lemma unclear_nil reports sums :
  Forall2 sums_up reports sums ->
  (filter (fun r : string * summary => sm_indeterminate r.2 = true) sums = [] <-> Forall (fun r => says_unclear r.2 = false) reports) /\
  (existsb sm_degraded sums.*2 = false <-> Forall (fun r => says_degraded r.2 = false) reports).
Proof.
  induction 1 as [|r x reports sums (_ & _ & _ & Hd & Hu & _) _ [IH1 IH2]]; [split; split; done|]. csimpl. rewrite !Forall_cons. split.
  - rewrite filter_cons, <-IH1, <-Hu. destruct (sm_indeterminate x.2); [rewrite decide_True by done|rewrite decide_False by done]; naive_solver.
  - cbn [existsb]. rewrite orb_false_iff, <-IH2, <-Hd. naive_solver.
Qed.

Lemma no_candidates (l : list (string * Z)) : merge_sort str_le l.*1 = [] <-> forall pid, pid ∉ l.*1.
Proof.
  pose proof (merge_sort_Permutation str_le l.*1) as H. split.
  - intros Hn pid. rewrite <-H, Hn. apply not_elem_of_nil.
  - intros Hn. destruct (merge_sort str_le l.*1) as [|x k]; [done|]. exfalso. apply (Hn x). rewrite <-H. left.
Qed.

Lemma decision_chain (q e d : bool) (dec : string) :
  dec = (if q then "rotation_candidate" else if e then "unknown" else if d then "degraded" else "healthy") ->
  (dec = "rotation_candidate" <-> q = true) /\ (dec = "unknown" <-> q = false /\ e = true) /\
  (dec = "healthy" <-> q = false /\ e = false /\ d = false).
Proof. intros ->. destruct q, e, d; split_and!; split; try done; intros (? & ? & ?) || intros (? & ?); done. Qed.

Lemma aggregate_exact reports errors at_ :
  Forall (fun r => exists s p, admitted c now r s p) reports ->
  exists pay, aggregate c reports errors at_ = Ok pay /\
    (forall pid, pid ∈ candidate_policies pay <-> quorum_failed c reports pid) /\
    (decision pay = "rotation_candidate" <-> exists pid, quorum_failed c reports pid) /\
    (decision pay = "unknown" <-> (forall pid, ~ quorum_failed c reports pid) /\
       (errors <> [] \/ Exists (fun r => says_unclear r.2 = true) reports)) /\
    (decision pay = "healthy" <-> errors = [] /\ Forall (fun r => says_well r.2) reports).
Proof.
  intros Hadm. pose proof (merge_sort_Permutation by_id reports) as Hperm.
  assert (Forall (fun r => exists s p, admitted c now r s p) (merge_sort by_id reports)) as Hadm' by (by rewrite Hperm).
  destruct (summaries_exist _ Hadm') as (sums & Hsums & Hf). destruct (candidates_eq _ _ Hf) as (l & Hl & Hcand).
  destruct (unclear_nil _ _ Hf) as [Hunclear Hdeg]. setoid_rewrite Hperm in Hunclear. setoid_rewrite Hperm in Hdeg.
  assert (forall pid, pid ∈ l.*1 <-> quorum_failed c reports pid) as Hc.
  { intros pid. rewrite Hcand. split; apply quorum_failed_perm; [done|by symmetry]. } clear Hcand.
  assert (Forall (fun r => says_well r.2) reports -> forall pid, ~ quorum_failed c reports pid) as Hwell.
  { intros Hw pid (p & Hp & <- & Hm). apply failed_pos in Hm; [|done]. rewrite Forall_forall in Hw, Hadm.
    destruct (filter (failed_at c (policy_id p)) reports) as [|r rs] eqn:Hfil; [simpl in Hm; lia|].
    assert (r ∈ filter (failed_at c (policy_id p)) reports) as Hr by (rewrite Hfil; left).
    apply list_elem_of_filter in Hr as [[_ Hb] Hr]. destruct (Hadm r Hr) as (s & q & Ha).
    rewrite (well_not_blocked r s q Ha (Hw r Hr)) in Hb. done. }
  assert (Forall (fun r => says_well r.2) reports <->
          Forall (fun r => says_unclear r.2 = false) reports /\ Forall (fun r => says_degraded r.2 = false) reports) as Hsplit.
  { rewrite <-Forall_and. apply Forall_iff. intros r. unfold says_well. tauto. }
  assert (Exists (fun r => says_unclear r.2 = true) reports <-> ~ Forall (fun r => says_unclear r.2 = false) reports) as Hex.
  { split.
    - intros (r & Hr & Hu)%Exists_exists Hall. rewrite Forall_forall in Hall. by rewrite (Hall r Hr) in Hu.
    - intros Hn. apply not_Forall_Exists in Hn; [|apply _]. eapply Exists_impl; [exact Hn|].
      intros r Hr. by apply not_false_iff_true. }
  unfold aggregate. rewrite Hsums. cbn [res_bind]. rewrite Hl. cbn [res_bind]. eexists. split; [reflexivity|].
  cbn [candidate_policies decision]. split; [intros pid; by rewrite merge_sort_Permutation, Hc|].
  edestruct decision_chain as (H1 & H2 & H3); [reflexivity|]. rewrite H1, H2, H3. clear H1 H2 H3.
  pose proof (no_candidates l) as Hn. setoid_rewrite Hc in Hn.
  rewrite !negb_true_iff, !negb_false_iff, !bool_decide_eq_true, !bool_decide_eq_false, !Hn, Hdeg, app_nil, Hex.
  assert ((fun r : string * summary => indeterminate_error r.1) <$> filter (fun r : string * summary => sm_indeterminate r.2 = true) sums = []
          <-> Forall (fun r => says_unclear r.2 = false) reports) as -> by (rewrite <-Hunclear; split; [apply fmap_nil_inv|by intros ->]).
  split_and!.
  - split; [|by intros [pid Hq] Hno; eapply Hno]. intros Hno. destruct (merge_sort str_le l.*1) as [|pid k] eqn:Hm.
    + exfalso. apply Hno. apply Hn. done.
    + exists pid. apply Hc. rewrite <-(merge_sort_Permutation str_le l.*1), Hm. left.
  - destruct (decide (errors = [])), (decide (Forall (fun r => says_unclear r.2 = false) reports)); naive_solver.
  - rewrite Hsplit in *. split; [naive_solver|]. intros [He Hw]. split_and!; try naive_solver.
Qed.
End Aggregate.

(** ** The evaluation of all answers *)

Section Evaluation.
Context (loads : string -> res value) (wide_digits : list string) (sha256 : string -> string) (bound : option executor).
Notation admit_report := (admit_report loads wide_digits sha256 bound).
Notation take_report := (take_report loads wide_digits sha256 bound).
Context (c : config) (Hschema : schema_ok c) (Hwf : config_wf c) (now : Z).

Lemma admit_report_Pass raw s d : admit_report raw s c now = Pass d ->
  validate_report loads wide_digits raw s c now = Pass d /\
  forall x, bound = Some x -> ex_sentinel x = sentinel_id s -> exists v, verify_report_binding sha256 x d = Ok (Some v).
Proof.
  unfold LivenessDecision.admit_report, executor_of. destruct (validate_report _ _ _ _ _ _) as [d'|w|e]; [|by repeat case_match..].
  destruct bound as [x|]; cbn; [|by intros [= ->]]. case_bool_decide as Hx; [|intros [= ->]; by split; [|intros ? [= <-]]].
  destruct (verify_report_binding sha256 x d') as [[v|]|e] eqn:Hv; [|done..]. intros [= ->]. split; [done|]. intros ? [= <-] _. by exists v.
Qed.

(** The admitted report of a sentinel; for the bound sentinel, one that agrees with
    the binding. *)
Definition delivers (answers : list answer) (s : sentinel) (d : dict) : Prop :=
  exists raw, (sentinel_id s, inl raw) ∈ answers /\ admit_report raw s c now = Pass d.

Definition raw_of (a : answer) : option (string * string) := match a.2 with inl raw => Some (a.1, raw) | inr _ => None end.
Definition error_of (a : answer) : option string := match a.2 with inl _ => None | inr why => Some (a.1 +:+ ": " +:+ why) end.

Lemma omap_keys answers id : id ∈ (omap raw_of answers).*1 -> id ∈ answers.*1.
Proof.
  rewrite !list_elem_of_fmap. intros ([k raw] & -> & ([k' [r|w]] & Ha & Hr)%list_elem_of_omap); [|done].
  injection Hr as -> ->. by exists (k, inl raw).
Qed.

Lemma take_answers answers rs es :
  NoDup (rs.*1 ++ answers.*1)%list ->
  foldl take_answer (rs, es) answers = (rs ++ omap raw_of answers, es ++ omap error_of answers)%list.
Proof.
  revert rs es. induction answers as [|[id [raw|why]] answers IH]; intros rs es Hnd; [by rewrite !app_nil_r| |].
  - cbn [foldl]. unfold take_answer at 2. cbn [fst snd]. rewrite dset_fresh.
    + rewrite IH; [by rewrite <-app_assoc|]. rewrite fmap_app, <-app_assoc. exact Hnd.
    + apply NoDup_app in Hnd as (_ & Hd & _). intros Hk. apply (Hd id Hk). left.
  - cbn [foldl]. unfold take_answer at 2. cbn [fst snd]. rewrite IH; [by rewrite <-app_assoc|].
    csimpl in Hnd. rewrite <-Permutation_middle in Hnd. by apply NoDup_cons in Hnd as [_ Hnd].
Qed.

Lemma omap_nodup answers : NoDup answers.*1 -> NoDup (omap raw_of answers).*1.
Proof.
  induction answers as [|[id [raw|why]] answers IH]; [done| |]; csimpl; intros [Hid Hnd]%NoDup_cons; [|by apply IH].
  constructor; [|by apply IH]. intros H. by apply Hid, omap_keys.
Qed.

(** What the loop over the raw reports has taken. *)
Record taken (es : list string) (raws : list (string * string)) (st : list (string * dict) * list string) : Prop := {
  tk_nodup : NoDup st.1.*1;
  tk_reports : forall id d, (id, d) ∈ st.1 <-> exists s raw, s ∈ sentinels c /\ id = sentinel_id s /\ (id, raw) ∈ raws /\
                 admit_report raw s c now = Pass d;
  tk_errors : st.2 = [] <-> es = [] /\ forall id raw, (id, raw) ∈ raws -> exists s d, s ∈ sentinels c /\ id = sentinel_id s /\
                 admit_report raw s c now = Pass d
}.

Lemma sentinel_unique s s' : s ∈ sentinels c -> s' ∈ sentinels c -> sentinel_id s = sentinel_id s' -> s = s'.
Proof.
  intros Hs Hs' He. pose proof (dict_by_lookup sentinel_id _ s (cw_sentinels _ Hwf) Hs) as H.
  rewrite He, (dict_by_lookup sentinel_id _ s' (cw_sentinels _ Hwf) Hs') in H. by injection H as ->.
Qed.

Lemma sentinel_of id s : dget id (dict_by sentinel_id (sentinels c)) = Some s -> s ∈ sentinels c /\ id = sentinel_id s.
Proof.
  rewrite dict_by_pairs by apply (cw_sentinels _ Hwf). intros H%dget_Some_elem.
  apply list_elem_of_fmap in H as (s' & [= -> ->] & Hs). done.
Qed.

Lemma take_step es d0 r st st' :
  taken es d0 st -> r.1 ∉ d0.*1 -> take_report c now st r = Ok st' -> taken es (d0 ++ [r])%list st'.
Proof.
  intros [Hnd Hrep Herr] Hfresh. unfold take_report. intros (s & Hs & H)%res_bind_Ok.
  apply of_option_Ok, sentinel_of in Hs as [Hs Hid]. destruct r as [id raw]. cbn [fst snd] in *.
  assert (forall s', s' ∈ sentinels c -> id = sentinel_id s' -> s' = s) as Huniq.
  { intros s' Hs' He. apply sentinel_unique; congruence. }
  assert (Hnew : id ∉ st.1.*1).
  { intros ([id' d] & -> & Hin)%list_elem_of_fmap. apply Hrep in Hin as (s' & raw' & _ & _ & Hin & _).
    apply Hfresh, list_elem_of_fmap. by exists (id', raw'). }
  destruct (admit_report raw s c now) as [d|why|e] eqn:Hv; [injection H as <-| injection H as <-|done].
  - split; cbn [fst snd].
    + rewrite dset_fresh by done. rewrite fmap_app. apply NoDup_app. split_and!; [done| |apply NoDup_singleton].
      by intros x Hx ->%list_elem_of_singleton.
    + intros id' d'. rewrite dset_fresh, elem_of_app, Hrep, list_elem_of_singleton by done. setoid_rewrite elem_of_app.
      setoid_rewrite list_elem_of_singleton. split.
      * intros [(s' & raw' & ? & ? & ? & ?)|[= -> ->]]; [by exists s', raw'; eauto|]. exists s, raw. eauto.
      * intros (s' & raw' & Hs' & He & [Hin|[= -> ->]] & Hp); [left; by exists s', raw'|]. right.
        rewrite (Huniq s' Hs' He) in Hp. congruence.
    + rewrite Herr. setoid_rewrite elem_of_app. setoid_rewrite list_elem_of_singleton. split.
      * intros [He Hall]. split; [done|]. intros id' raw' [Hin|[= -> ->]]; [by apply Hall|]. by exists s, d.
      * intros [He Hall]. split; [done|]. intros id' raw' Hin. apply Hall. by left.
  - split; cbn [fst snd]; [done| |].
    + intros id' d'. rewrite Hrep. setoid_rewrite elem_of_app. setoid_rewrite list_elem_of_singleton. split.
      * intros (s' & raw' & ? & ? & ? & ?). exists s', raw'. eauto.
      * intros (s' & raw' & Hs' & He & [Hin|[= -> ->]] & Hp); [by exists s', raw'|]. rewrite (Huniq s' Hs' He) in Hp. congruence.
    + split; [by intros [_ [=]]%app_nil|]. intros [_ Hall]. destruct (Hall id raw) as (s' & d' & Hs' & He & Hp).
      { apply elem_of_app. right. by apply list_elem_of_singleton. }
      rewrite (Huniq s' Hs' He) in Hp. congruence.
Qed.

Lemma take_reports es raws st :
  NoDup raws.*1 -> foldM_res (take_report c now) raws ([], es) = Ok st -> taken es raws st.
Proof.
  intros Hnd H. revert Hnd. pattern raws, st. eapply foldM_res_ind; [|..|exact H].
  - intros _. split; cbn [fst snd]; [constructor| |].
    + intros id d. split; [by intros ?%not_elem_of_nil|]. by intros (? & ? & _ & _ & ?%not_elem_of_nil & _).
    + split; [|by intros []]. intros ->. split; [done|]. by intros ? ? ?%not_elem_of_nil.
  - intros d0 r s s' IH Hstep Hnd. rewrite fmap_app in Hnd. apply NoDup_app in Hnd as (Hnd & Hd & _).
    apply (take_step es d0 r s); [by apply IH| |done]. intros Hr. apply (Hd _ Hr). left.
Qed.

Lemma taken_admitted es raws st :
  taken es raws st -> Forall (fun r => exists s p, admitted c now r s p) st.1.
Proof.
  intros Ht. apply Forall_forall. intros [id d] (s & raw & Hs & Hid & _ & Hv)%(tk_reports _ _ _ Ht).
  apply admit_report_Pass in Hv as [Hv _]. apply validate_report_Pass in Hv as (_ & p & results & Hp & Hok). exists s, p. split_and!; [done|done|done|by exists results].
Qed.

Lemma raw_elem (answers : list answer) (id raw : string) : (id, raw) ∈ omap raw_of answers <-> (id, inl raw) ∈ answers.
Proof.
  rewrite list_elem_of_omap. split.
  - intros ([k [r|w]] & Ha & Hr); [|done]. by injection Hr as -> ->.
  - intros Ha. by exists (id, inl raw).
Qed.

Lemma taken_delivers (answers : list answer) es st s d :
  taken es (omap raw_of answers) st -> s ∈ sentinels c -> (sentinel_id s, d) ∈ st.1 <-> delivers answers s d.
Proof.
  intros Ht Hs. rewrite (tk_reports _ _ _ Ht). unfold delivers. setoid_rewrite raw_elem. split.
  - intros (s' & raw & Hs' & He & Hin & Hv). rewrite (sentinel_unique s s' Hs Hs' He). exists raw. by rewrite <-He.
  - intros (raw & Hin & Hv). by exists s, raw.
Qed.

(** Enough sentinels of a policy delivered a report that says it is blocked. *)
Definition policy_blocked (answers : list answer) (pid : string) : Prop :=
  exists p ss, p ∈ policies c /\ policy_id p = pid /\ NoDup ss /\ min_failed_vantages p <= Z.of_nat (length ss) /\
    forall s, s ∈ ss -> s ∈ sentinels c /\ sentinel_policy s = pid /\ exists d, delivers answers s d /\ says_blocked d = true.

Lemma quorum_vantages (answers : list answer) es st pid :
  taken es (omap raw_of answers) st -> quorum_failed c st.1 pid <-> policy_blocked answers pid.
Proof.
  intros Ht. set (F := filter (failed_at c pid) st.1).
  assert (forall id d, (id, d) ∈ F <-> exists s, s ∈ sentinels c /\ id = sentinel_id s /\ sentinel_policy s = pid /\
            delivers answers s d /\ says_blocked d = true) as HF.
  { intros id d. unfold F. rewrite list_elem_of_filter. unfold failed_at. cbn [fst snd]. split.
    - intros [[Hv Hb] Hin]. pose proof Hin as (s & raw & Hs & -> & _)%(tk_reports _ _ _ Ht).
      rewrite (vantage_policy_of c Hwf s Hs) in Hv. injection Hv as Hv. exists s. split_and!; try done. by apply (taken_delivers _ _ _ _ _ Ht).
    - intros (s & Hs & -> & <- & Hd & Hb). rewrite (vantage_policy_of c Hwf s Hs). split; [done|]. by apply (taken_delivers _ _ _ _ _ Ht). }
  assert (HnF : NoDup F.*1).
  { eapply sublist_NoDup; [apply (tk_nodup _ _ _ Ht)|]. apply fmap_sublist, sublist_filter. }
  split; intros (p & Hp).
  - destruct Hp as (Hp & Hpid & Hm). exists p, (filter (fun s => sentinel_id s ∈ F.*1) (sentinels c)). split_and!; [done|done| | |].
    + by apply NoDup_filter, (NoDup_fmap_1 sentinel_id), (cw_sentinels _ Hwf).
    + etrans; [exact Hm|]. fold F. apply inj_le. rewrite <-(length_fmap fst F), <-(length_fmap sentinel_id).
      apply submseteq_length, NoDup_submseteq; [done|]. intros id Hid. pose proof Hid as ([id' d] & -> & Hin)%list_elem_of_fmap.
      apply HF in Hin as (s & Hs & -> & _). apply list_elem_of_fmap. exists s. split; [done|]. by apply list_elem_of_filter.
    + intros s [Hs Hin]%list_elem_of_filter. split; [done|]. apply list_elem_of_fmap in Hs as ([id d] & He & HinF).
      apply HF in HinF as (s' & Hs' & -> & Hpol & Hd & Hb). cbn [fst] in He. rewrite (sentinel_unique s s' Hin Hs' He). eauto.
  - destruct Hp as (ss & Hp & Hpid & Hnd & Hm & Hss). exists p. split_and!; [done|done|]. fold F.
    etrans; [exact Hm|]. apply inj_le. rewrite <-(length_fmap fst F), <-(length_fmap sentinel_id ss).
    apply submseteq_length, NoDup_submseteq.
    + apply NoDup_fmap_2_strong; [|done]. intros s s' Hs Hs'. apply sentinel_unique; by apply Hss.
    + intros id (s & -> & Hs)%list_elem_of_fmap. destruct (Hss s Hs) as (Hin & Hpol & d & Hd & Hb).
      apply list_elem_of_fmap. exists (sentinel_id s, d). split; [done|]. apply HF. by exists s.
Qed.

Lemma no_errors (answers : list answer) : omap error_of answers = [] <-> forall id why, (id, inr why) ∉ answers.
Proof.
  split.
  - intros H id why Hin. apply (not_elem_of_nil (id +:+ ": " +:+ why)). rewrite <-H. apply list_elem_of_omap. by exists (id, inr why).
  - intros H. destruct (omap error_of answers) as [|w l] eqn:Hl; [done|]. exfalso.
    assert (w ∈ omap error_of answers) as Hw by (rewrite Hl; left). apply list_elem_of_omap in Hw as ([id [raw|why]] & Hin & He); [done|].
    by apply (H id why).
Qed.

Lemma healthy_vantages (answers : list answer) st :
  (forall id, id ∈ answers.*1 <-> id ∈ sentinel_id <$> sentinels c) -> NoDup answers.*1 ->
  taken (omap error_of answers) (omap raw_of answers) st ->
  st.2 = [] /\ Forall (fun r => says_well r.2) st.1 <-> forall s, s ∈ sentinels c -> exists d, delivers answers s d /\ says_well d.
Proof.
  intros Hids Hnd Ht. rewrite (tk_errors _ _ _ Ht), no_errors, Forall_forall. split.
  - intros [[Hno Hall] Hwell] s Hs. assert (sentinel_id s ∈ answers.*1) as Ha by (apply Hids, list_elem_of_fmap; by exists s).
    apply list_elem_of_fmap in Ha as ([id [raw|why]] & He & Hin); cbn [fst] in He; [|by apply Hno in Hin].
    destruct (Hall id raw) as (s' & d & Hs' & He' & Hv); [by apply raw_elem|].
    assert (s = s') as <- by (apply sentinel_unique; congruence). exists d.
    assert (delivers answers s d) as Hd by (exists raw; by rewrite He). split; [done|].
    apply (taken_delivers _ _ _ _ _ Ht) in Hd; [|done]. by apply Hwell in Hd.
  - intros H. assert (forall id a, (id, a) ∈ answers -> exists s, s ∈ sentinels c /\ id = sentinel_id s) as Hsent.
    { intros id a Hin. assert (id ∈ answers.*1) as Hi by (apply list_elem_of_fmap; by exists (id, a)).
      apply Hids, list_elem_of_fmap in Hi as (s & -> & Hs). by exists s. }
    assert (forall id a b, (id, a) ∈ answers -> (id, b) ∈ answers -> a = b) as Hfun.
    { intros id a b Ha Hb. pose proof (dget_nodup _ _ _ Hnd Ha). pose proof (dget_nodup _ _ _ Hnd Hb). congruence. }
    split; [split|].
    + intros id why Hin. destruct (Hsent _ _ Hin) as (s & Hs & ->). destruct (H s Hs) as (d & (raw & Hr & _) & _).
      by pose proof (Hfun _ _ _ Hin Hr).
    + intros id raw Hin%raw_elem. destruct (Hsent _ _ Hin) as (s & Hs & ->). destruct (H s Hs) as (d & (raw' & Hr & Hv) & _).
      pose proof (Hfun _ _ _ Hin Hr) as [= <-]. by exists s, d.
    + intros [id d] Hin. pose proof Hin as (s & raw & Hs & -> & _)%(tk_reports _ _ _ Ht).
      destruct (H s Hs) as (d' & Hd' & Hw). apply (taken_delivers _ _ _ _ _ Ht) in Hd'; [|done].
      pose proof (dget_nodup _ _ _ (tk_nodup _ _ _ Ht) Hin). pose proof (dget_nodup _ _ _ (tk_nodup _ _ _ Ht) Hd'). cbn [snd]. congruence.
Qed.

End Evaluation.

(** Two sentinels, both seeing the policy blocked, the second answering first. *)
Definition pair_policy : policy := Policy "eu" ["p2-amneziawg"; "p0-reality"] None.
Definition pair_config : config :=
  Config "https://probe.example.org/x" None (Some 60) None None None
    [("awg", "1.0.0"); ("awg_toolchain", hex64); ("xray", "26.1.1")] [pair_policy]
    [sample_sentinel; Sentinel "s2" "eu" "external" sample_target true].
Definition blocked_profile (name : string) (extra : dict) : value :=
  VDict ([("profile", VStr name); ("verdict", VStr "blocked"); ("payload_transport", VStr "tcp-https");
          ("dns_through_tunnel", VBool false); ("authenticated_handshake", VBool false)] ++ extra)%list.
Definition blocked_profiles : list value :=
  [blocked_profile "p0-reality" [("variants", VList [sample_variant 1 "blocked"])]; blocked_profile "p2-amneziawg" []].
Definition pair_loads (raw : string) : res value :=
  Ok (VDict (dset "sentinel" (VStr raw) (sample_report 1990 blocked_profiles))).
Definition pair_answers : list answer := [("s2", inl "s2"); ("s1", inl "s1")].
Definition pair_payload : res payload := evaluate pair_loads [] (fun t => t) None pair_config pair_answers 2000 2001.

Example pair_rotates :
  (let* p := pair_payload in Ok (decision p, candidate_policies p, failed_vantages p))
    = Ok ("rotation_candidate", ["eu"], [("eu", 2)]).
Proof. vm_compute. reflexivity. Qed.
Example pair_one_missing :
  (let* p := evaluate pair_loads [] (fun t => t) None pair_config [("s2", inl "s2"); ("s1", inr "ssh")] 2000 2001 in Ok (decision p, monitoring_errors p))
    = Ok ("unknown", ["s1: ssh"]).
Proof. vm_compute. reflexivity. Qed.

(** A third sentinel without an answer does not inhibit the rotation. *)
Definition trio_config : config :=
  Config "https://probe.example.org/x" None (Some 60) None None None
    [("awg", "1.0.0"); ("awg_toolchain", hex64); ("xray", "26.1.1")] [pair_policy]
    [sample_sentinel; Sentinel "s2" "eu" "external" sample_target true; Sentinel "s3" "eu" "external" sample_target true].
Example rotates_despite_error :
  (let* p := evaluate pair_loads [] (fun t => t) None trio_config [("s2", inl "s2"); ("s3", inr "ssh"); ("s1", inl "s1")] 2000 2001 in
   Ok (decision p, monitoring_errors p)) = Ok ("rotation_candidate", ["s3: ssh"]).
Proof. vm_compute. reflexivity. Qed.
(** The report of a bound sentinel whose binding file is refused does not count. *)
Example unbound_report_refused :
  (let* p := evaluate pair_loads [] (fun t => t) (Some (Executor "s1" (Ok None))) pair_config pair_answers 2000 2001 in
   Ok (decision p, monitoring_errors p)) = Ok ("unknown", ["s1: executor binding mismatch"]).
Proof. vm_compute. reflexivity. Qed.

Lemma sample_schema_ok (p : policy) (s2 : list sentinel) :
  pol_min_failed p = None -> required_profiles p = ["p2-amneziawg"; "p0-reality"] ->
  Forall (fun s => vantage s = "external" /\ declared s = sample_target) s2 ->
  schema_ok (Config "https://probe.example.org/x" None (Some 60) None None None
    [("awg", "1.0.0"); ("awg_toolchain", hex64); ("xray", "26.1.1")] [p] s2).
Proof.
  intros Hm Hr Hs. split; cbn [policies sentinels]; try (unfold probe_timeout_seconds, stale_after_seconds, evaluation_interval_seconds; cbn; lia).
  - apply Forall_singleton. rewrite Hr. split_and!; [|done|].
    + by apply (bool_decide_eq_true_1 (NoDup _)).
    + intros x Hx. unfold PROFILES. set_solver.
  - apply Forall_singleton. unfold min_failed_vantages. rewrite Hm. cbn. lia.
  - eapply Forall_impl; [exact Hs|]. intros s [-> _]. set_solver.
  - eapply Forall_impl; [exact Hs|]. intros s [_ ->]. cbn. lia.
Qed.

