(* ===== verification/LivenessStreak.v ===== *)
(** * The candidate streak

    [scripts/protocol-liveness.py], [record_state]: how often in a row the same
    rotation candidate was confirmed, kept in an advisory state file between
    evaluations.  The file is read as [previous_text] (its parsed JSON or the
    exception); the digest of the configuration file is an argument; writing is
    by replacement. *)

From S2P Require Import Prelude PyValue PyStr LivenessConfig LivenessReport LivenessDecision.
#[local] Open Scope string_scope.
#[local] Open Scope Z_scope.

Notation dict := (list (string * value)) (only parsing).

(** [interval - min(15, interval // 8)], at least 1 *)
Definition minimum_spacing (c : config) : Z :=
  let interval := evaluation_interval_seconds c in Z.max 1 (interval - Z.min 15 (interval / 8)).

Section Record_state.
(** Float addition, which only a state file written by something else meets. *)
Context (float_succ : pyfloat -> pyfloat).

(** [v + 1] *)
Definition succ (v : value) : res value :=
  match v with
  | VInt _ | VBool _ => Ok (VInt (int_of v + 1))
  | VFloat f => Ok (VFloat (float_succ f))
  | _ => Raise (Exn TypeError "+")
  end.

Definition state_dict (c : config) (hash : string) (p : payload) (streak accepted_at : value) : dict :=
  [("schema_version", VInt 1); ("candidate_streak", streak);
   ("failure_threshold", VInt (default 3 (cfg_failure_threshold c))); ("otp_ttl_seconds", VInt (default 3600 (cfg_otp_ttl c)));
   ("config_sha256", VStr hash); ("candidate_policies", VList (VStr <$> candidate_policies p));
   ("evaluated_at", VInt (evaluated_at p)); ("last_candidate_evaluated_at", accepted_at)].

(** The new state; the code also adds it to the payload it prints. *)
Definition record_state (previous_text : res value) (c : config) (hash : string) (p : payload) : res dict :=
  let* previous := try_except previous_text [OSError; JSONDecodeError] (fun _ => Ok (VDict [])) in
  let* h := get previous "config_sha256" in
  let* same_candidate :=
    (if py_eq h (VStr hash) then
       let* cands := get previous "candidate_policies" in Ok (py_eq cands (VList (VStr <$> candidate_policies p)))
     else Ok false) in
  let interval := evaluation_interval_seconds c in
  let* previous_accepted_at := get previous "last_candidate_evaluated_at" in
  let fresh := Ok (VInt 1, VInt (evaluated_at p)) in
  let* next :=
    (if bool_decide (decision p = "rotation_candidate") then
       if same_candidate && is_int previous_accepted_at then
         let elapsed := evaluated_at p - int_of previous_accepted_at in
         if (0 <=? elapsed) && (elapsed <? minimum_spacing c) then
           let* streak := get_or previous "candidate_streak" (VInt 0) in Ok (streak, previous_accepted_at)
         else if elapsed <=? interval * 2 then
           let* streak := get_or previous "candidate_streak" (VInt 0) in
           let* streak := succ streak in Ok (streak, VInt (evaluated_at p))
         else fresh
       else fresh
     else Ok (VInt 0, VNone)) in
  Ok (state_dict c hash p next.1 next.2).

(** The evaluations of a host, each with the digest of the configuration it ran
    with, on an initially missing state file; an evaluation that raises leaves it. *)
Definition record_all (c : config) (evals : list (payload * string)) : res value :=
  foldl (fun previous e => match record_state previous c e.2 e.1 with Ok d => Ok (VDict d) | Raise _ => previous end)
    (Raise (Exn OSError "")) evals.
End Record_state.

(** ** A run of confirmations

    Evaluations [run], oldest first, all of the same candidates under the same
    configuration; [k] of them were accepted, the first at [first] and the last
    at [accepted]. *)
Definition same_candidates (p : payload) (hash : string) (e : payload * string) : Prop :=
  decision e.1 = "rotation_candidate" /\ candidate_policies e.1 = candidate_policies p /\ e.2 = hash.

Section Streak.
Context (float_succ : pyfloat -> pyfloat) (c : config) (Hschema : schema_ok c).
Notation record_state := (record_state float_succ).
Notation record_all := (record_all float_succ c).

Lemma spacing_pos : 1 <= minimum_spacing c <= evaluation_interval_seconds c.
Proof.
  unfold minimum_spacing. pose proof (so_interval _ Hschema). cbv zeta.
  assert (0 <= evaluation_interval_seconds c / 8) by (apply Z.div_pos; lia). lia.
Qed.

(** The state after some evaluations, in terms of the run it counts. *)
Definition streak_of (evals : list (payload * string)) (p : payload) (hash : string) (k : Z) (accepted : option Z) : Prop :=
  match accepted with
  | None => k = 0 /\ decision p <> "rotation_candidate"
  | Some t => 1 <= k /\ decision p = "rotation_candidate" /\ exists before run first, evals = (before ++ run)%list /\
      Forall (same_candidates p hash) run /\ evaluated_at <$> head run.*1 = Some first /\ k <= Z.of_nat (length run) /\
      (k - 1) * minimum_spacing c <= t - first <= (k - 1) * (2 * evaluation_interval_seconds c) /\
      0 <= evaluated_at p - t < minimum_spacing c
  end.

Definition accepted_value (a : option Z) : value := match a with None => VNone | Some t => VInt t end.

Lemma py_eq_strs_decide l k : py_eq (VList (VStr <$> l)) (VList (VStr <$> k)) = bool_decide (l = k).
Proof.
  revert k. induction l as [|x l IH]; intros [|y k]; try done.
  change (bool_decide (x = y) && py_eq (VList (VStr <$> l)) (VList (VStr <$> k)) = bool_decide (x :: l = y :: k)).
  rewrite IH. repeat case_bool_decide; naive_solver.
Qed.

Lemma if_res_bool (b x : bool) : (if b then Ok x else Ok false) = Ok (b && x) :> res bool.
Proof. by destruct b. Qed.

Lemma state_fields h' p' streak accepted :
  let s := VDict (state_dict c h' p' streak accepted) in
  get s "config_sha256" = Ok (VStr h') /\ get s "candidate_policies" = Ok (VList (VStr <$> candidate_policies p')) /\
  get s "last_candidate_evaluated_at" = Ok accepted /\ get_or s "candidate_streak" (VInt 0) = Ok streak.
Proof. done. Qed.

(** One evaluation, on a state the code wrote. *)
Lemma record_state_own p' h' k a p hash :
  exists k2 a2, record_state (Ok (VDict (state_dict c h' p' (VInt k) (accepted_value a)))) c hash p
      = Ok (state_dict c hash p (VInt k2) (accepted_value a2)) /\
    (decision p <> "rotation_candidate" -> k2 = 0 /\ a2 = None) /\
    (decision p = "rotation_candidate" ->
       (k2 = 1 /\ a2 = Some (evaluated_at p)) \/
       exists t, h' = hash /\ candidate_policies p' = candidate_policies p /\ a = Some t /\
         let elapsed := evaluated_at p - t in
         (0 <= elapsed < minimum_spacing c /\ k2 = k /\ a2 = Some t) \/
         (~ (0 <= elapsed < minimum_spacing c) /\ elapsed <= evaluation_interval_seconds c * 2 /\ k2 = k + 1 /\ a2 = Some (evaluated_at p))).
Proof.
  destruct (state_fields h' p' (VInt k) (accepted_value a)) as (H1 & H2 & H3 & H4).
  unfold LivenessStreak.record_state. cbn [try_except res_bind]. rewrite H1, H2, H3, H4. cbn [res_bind].
  change (py_eq (VStr h') (VStr hash)) with (bool_decide (h' = hash)). rewrite py_eq_strs_decide.
  rewrite (if_res_bool (bool_decide (h' = hash))). cbn [res_bind].
  case_bool_decide as Hd; [|exists 0, None; naive_solver].
  destruct (bool_decide (h' = hash) && bool_decide (candidate_policies p' = candidate_policies p) && is_int (accepted_value a)) eqn:Hs.
  - destruct a as [t|]; [|by rewrite andb_false_r in Hs]. cbn [accepted_value int_of is_int] in *. bprop.
    destruct ((0 <=? evaluated_at p - t) && _) eqn:Hsp; [|destruct (_ <=? evaluation_interval_seconds c * 2) eqn:Hl]; cbn [res_bind succ int_of fst snd].
    + exists k, (Some t). split_and!; [done|done|]. intros _. right. exists t. split_and!; [done..|]. left. bprop. split_and!; [lia..|done|done].
    + exists (k + 1), (Some (evaluated_at p)). split_and!; [done|done|]. intros _. right. exists t. split_and!; [done..|]. right.
      apply andb_false_iff in Hsp. bprop. split_and!; [|lia|done|done]. intros []. destruct Hsp; bprop; lia.
    + exists 1, (Some (evaluated_at p)). split_and!; [done|done|]. intros _. by left.
  - cbn [res_bind]. exists 1, (Some (evaluated_at p)). split_and!; [done|done|]. intros _. by left.
Qed.

Lemma streak_fresh evals p hash :
  decision p = "rotation_candidate" -> streak_of (evals ++ [(p, hash)])%list p hash 1 (Some (evaluated_at p)).
Proof.
  intros Hd. split; [lia|]. split; [done|]. exists evals, [(p, hash)], (evaluated_at p). pose proof spacing_pos.
  split_and!; [done|by apply Forall_singleton|done|done|lia..].
Qed.

Lemma streak_step evals p' h' k a p hash k2 a2 :
  streak_of evals p' h' k a -> evaluated_at p' <= evaluated_at p ->
  (decision p <> "rotation_candidate" -> k2 = 0 /\ a2 = None) ->
  (decision p = "rotation_candidate" ->
     (k2 = 1 /\ a2 = Some (evaluated_at p)) \/
     exists t, h' = hash /\ candidate_policies p' = candidate_policies p /\ a = Some t /\
       let elapsed := evaluated_at p - t in
       (0 <= elapsed < minimum_spacing c /\ k2 = k /\ a2 = Some t) \/
       (~ (0 <= elapsed < minimum_spacing c) /\ elapsed <= evaluation_interval_seconds c * 2 /\ k2 = k + 1 /\ a2 = Some (evaluated_at p))) ->
  streak_of (evals ++ [(p, hash)])%list p hash k2 a2.
Proof.
  intros Hst Hmono Hno Hyes. destruct (decide (decision p = "rotation_candidate")) as [Hd|Hd].
  2: { destruct (Hno Hd) as [-> ->]. by split. }
  destruct (Hyes Hd) as [[-> ->]|(t & -> & Hc & -> & Hcase)]; [by apply streak_fresh|]. cbv zeta in Hcase.
  destruct Hst as (Hk & _ & before & run & first & -> & Hrun & Hfirst & Hlen & Hspan & Hage).
  assert (Forall (same_candidates p hash) (run ++ [(p, hash)])%list) as Hrun'.
  { apply Forall_app_2; [|by apply Forall_singleton]. eapply Forall_impl; [exact Hrun|]. intros e (? & ? & ?).
    split_and!; [done|congruence|done]. }
  assert (evaluated_at <$> head (run ++ [(p, hash)])%list.*1 = Some first) as Hhead by (by destruct run).
  destruct Hcase as [(He & -> & ->)|(He & Hl & -> & ->)]; (split; [lia|split; [done|]]); exists before, (run ++ [(p, hash)])%list, first;
    rewrite length_app; cbn [length]; (split_and!; [by rewrite app_assoc|done|done|lia..|idtac]).
  - nia.
  - pose proof spacing_pos. lia.
Qed.

Definition in_order (evals : list (payload * string)) : Prop :=
  ForallOrdPairs (fun e f => evaluated_at e.1 <= evaluated_at f.1) evals.

Lemma record_all_streak evals p hash :
  in_order (evals ++ [(p, hash)])%list ->
  exists k a, record_all (evals ++ [(p, hash)])%list = Ok (VDict (state_dict c hash p (VInt k) (accepted_value a))) /\
    streak_of (evals ++ [(p, hash)])%list p hash k a.
Proof.
  revert p hash. induction evals as [|[p' h'] evals IH] using rev_ind; intros p hash Hord.
  - unfold LivenessStreak.record_all. cbn [app foldl].
    destruct (decide (decision p = "rotation_candidate")) as [Hd|Hd].
    + exists 1, (Some (evaluated_at p)). split; [|by apply (streak_fresh [])].
      unfold LivenessStreak.record_state. cbn. by rewrite bool_decide_true.
    + exists 0, None. split; [|by split]. unfold LivenessStreak.record_state. cbn. by rewrite bool_decide_false.
  - unfold in_order in Hord. apply ForallOrdPairs_app in Hord as (Hord & _ & Hcross).
    destruct (IH p' h' Hord) as (k & a & Hrec & Hst). unfold LivenessStreak.record_all in *. rewrite foldl_app, Hrec. cbn [foldl fst snd].
    destruct (record_state_own p' h' k a p hash) as (k2 & a2 & -> & Hno & Hyes). exists k2, a2. split; [done|].
    eapply streak_step; [exact Hst| |done|done]. rewrite Forall_forall in Hcross.
    specialize (Hcross (p', h')). rewrite Forall_singleton in Hcross. apply Hcross. apply elem_of_app. right. left.
Qed.
End Streak.

(** C35: the streak counts spaced confirmations of one candidate.  When the clock
    does not go back, the recorded streak after any evaluations is zero unless the
    last one found a rotation candidate; and a streak of [k] is witnessed by at
    least [k] evaluations without interruption, all with these candidates and this
    configuration, that began [k - 1] minimum spacings ago or earlier: repeating an
    evaluation quickly does not advance it. *)
Theorem streak_confirmed float_succ c evals p hash :
  schema_ok c -> in_order (evals ++ [(p, hash)])%list ->
  exists d k, record_all float_succ c (evals ++ [(p, hash)])%list = Ok (VDict d) /\
    field d "candidate_streak" = VInt k /\
    (decision p <> "rotation_candidate" -> k = 0) /\
    (decision p = "rotation_candidate" -> 1 <= k /\ exists before run first,
       (evals ++ [(p, hash)] = before ++ run)%list /\ Forall (same_candidates p hash) run /\
       evaluated_at <$> head run.*1 = Some first /\ k <= Z.of_nat (length run) /\
       (k - 1) * minimum_spacing c <= evaluated_at p - first < (k - 1) * (2 * evaluation_interval_seconds c) + minimum_spacing c).
Proof.
  intros Hs Hord. destruct (record_all_streak float_succ c Hs evals p hash Hord) as (k & a & Hrec & Hst).
  exists (state_dict c hash p (VInt k) (accepted_value a)), k. split_and!; [done|done| |].
  - intros Hd. destruct a as [t|]; [by destruct Hst as (_ & ? & _)|by destruct Hst].
  - intros Hd. destruct a as [t|]; [|by destruct Hst as [_ ?]].
    destruct Hst as (Hk & _ & before & run & first & Heq & Hrun & Hfirst & Hlen & Hspan & Hage).
    split; [done|]. exists before, run, first. split_and!; try done; lia.
Qed.

Definition sample_evaluation (at_ : Z) : payload * string := (Payload at_ "rotation_candidate" ["eu"] [("eu", 2)] [] [], hex64).
Definition sample_history : list (payload * string) := ((sample_evaluation <$> [1000; 1001]) ++ [((sample_evaluation 1120).1, hex64)])%list.
Definition streak_after (evals : list (payload * string)) : res value :=
  let* s := record_all id pair_config evals in get s "candidate_streak".

Example repeated_quickly : streak_after sample_history = Ok (VInt 2).
Proof. vm_compute. reflexivity. Qed.
Example too_late : streak_after (sample_evaluation <$> [1000; 1241]) = Ok (VInt 1).
Proof. vm_compute. reflexivity. Qed.

(** With a clock that goes back every evaluation counts, spaced or not. *)
Example clock_goes_back : streak_after (sample_evaluation <$> [1002; 1001; 1000]) = Ok (VInt 3).
Proof. vm_compute. reflexivity. Qed.
(** A state file that holds JSON but not an object is not taken as missing. *)
Example malformed_state :
  record_state id (Ok (VList [])) pair_config hex64 (sample_evaluation 1000).1 = Raise (Exn AttributeError "get").
Proof. reflexivity. Qed.

Lemma streak_confirmed_witness :
  exists d k, record_all id pair_config sample_history = Ok (VDict d) /\
    field d "candidate_streak" = VInt k /\
    (decision (sample_evaluation 1120).1 <> "rotation_candidate" -> k = 0) /\
    (decision (sample_evaluation 1120).1 = "rotation_candidate" -> 1 <= k /\ exists before run first,
       sample_history = (before ++ run)%list /\ Forall (same_candidates (sample_evaluation 1120).1 hex64) run /\
       evaluated_at <$> head run.*1 = Some first /\ k <= Z.of_nat (length run) /\
       (k - 1) * minimum_spacing pair_config <= evaluated_at (sample_evaluation 1120).1 - first
         < (k - 1) * (2 * evaluation_interval_seconds pair_config) + minimum_spacing pair_config).
Proof.
  apply (streak_confirmed id pair_config (sample_evaluation <$> [1000; 1001]) (sample_evaluation 1120).1 hex64).
  - apply sample_schema_ok; [done|done|]. repeat constructor.
  - unfold in_order. repeat constructor; cbn; lia.
Defined.
