(* ===== verification/LivenessSurvivors.v ===== *)
(** * Authenticated survivors

    [scripts/fleet_rotation_liveness.py], [healthy_survivors]: which nodes of a pool
    have complete, fresh and positive witnesses.  The configuration is what reading
    and validating it gave (or the exception); the hosts are what
    [fleet_inspection.select_hosts] answers for the pool; the pull of a sentinel's
    report answers its text or nothing; SHA-256 is a parameter. *)

From S2P Require Import Prelude PyValue PyStr FleetPlan FleetRotation LivenessConfig LivenessReport LivenessDecision.
#[local] Open Scope string_scope.
#[local] Open Scope Z_scope.

Record host := Host { host_name : string; host_address : string }.

#[export] Instance target_eq_dec : EqDecision target.
Proof. solve_decision. Defined.

Section Survivors.
Context (loads : string -> res value) (wide_digits : list string) (sha256_hex : list Z -> string).

Definition utf8 (s : string) : list Z := ord <$> chars s.

(** [all(f(x) for x in l)] *)
Fixpoint all_res {A} (f : A -> res bool) (l : list A) : res bool :=
  match l with [] => Ok true | x :: l => let* b := f x in if b : bool then all_res f l else Ok false end.

Definition verdict_ok (v : value) : res bool := let* verdict := index v "verdict" in Ok (py_eq verdict (VStr "ok")).

Definition profile_positive (profile : value) : res bool :=
  let* ok := verdict_ok profile in
  if negb ok then Ok false else
  let* vs := variants_of profile in
  let* ok := all_res verdict_ok vs in
  if negb ok then Ok false else
  let* name := index profile "profile" in
  if negb (py_eq name (VStr "p2-amneziawg")) then Ok true else
  let* families := index profile "family_results" in
  all_res verdict_ok (dict_of families).*2.

Definition report_positive (d : dict) : res bool :=
  let* control := index (VDict d) "control" in
  let* verdict := index control "verdict" in
  if negb (py_eq verdict (VStr "ok")) then Ok false else
  let* profiles := index (VDict d) "profiles" in
  all_res profile_positive (list_of profiles).

(** [sentinel["id"] in positive], with the report of this sentinel. *)
Definition sentinel_positive (c : config) (answer : sentinel -> option string) (now : Z) (s : sentinel) : res bool :=
  match answer s with
  | None => Ok false
  | Some raw =>
      match validate_report loads wide_digits raw s c now with
      | Pass d => report_positive d
      | Refuse _ => Ok false
      | Crash e => Raise e
      end
  end.

(** The sentinels of each wanted alias, and the target they share. *)
Record binding := Binding { witnesses : gmap string (list sentinel); targets : gmap string target }.

Definition bind_step (addresses : list (string * string)) (b : binding) (s : sentinel) : res binding :=
  let t := declared s in let alias := target_alias t in
  match witnesses b !! alias with
  | None => Ok b
  | Some ws =>
      let* address := of_option (dget alias addresses) (key_error alias) in
      raise_if (negb (bool_decide (address_sha256 t = address))) (rotation_error "liveness-public-target-mismatch") ;;;
      raise_if (match targets b !! alias with Some u => negb (bool_decide (u = t)) | None => false end)
        (rotation_error "liveness-generation-mismatch") ;;;
      Ok (Binding (<[alias := (ws ++ [s])%list]> (witnesses b)) (<[alias := t]> (targets b)))
  end.

Definition refused_config : exn := rotation_error "liveness-configuration-refused".

(** Everything before the first pull. *)
Definition bind_witnesses (loaded : res config) (hosts : res (list host)) (nodes : list node) (excluded : list string) :
    res (config * gmap string (list sentinel)) :=
  try_except
    (let* c := loaded in
     raise_if ((100 <? Z.of_nat (length (sentinels c))) || (300 <? stale_after_seconds c))
       (rotation_error "liveness-scope-or-freshness-refused") ;;;
     let* hosts := hosts in
     raise_if (negb (bool_decide (host_name <$> hosts = inventory_alias <$> nodes))) (rotation_error "liveness-inventory-binding-mismatch") ;;;
     raise_if (negb (nodup_str (host_address <$> hosts))) (rotation_error "liveness-distinct-targets-required") ;;;
     let aliases : gset string := list_to_set (inventory_alias <$> nodes) ∖ list_to_set excluded in
     let addresses := foldl (fun d h => dset (host_name h) (sha256_hex (utf8 (host_address h))) d) [] hosts in
     let* b := foldM_res (bind_step addresses) (sentinels c) (Binding (gset_to_gmap [] aliases) ∅) in
     Ok (c, witnesses b))
    [InspectionError; ConfigError; OSError; ValueError; TypeError; KeyError; RecursionError; YAMLError]
    (fun _ => Raise refused_config).

Definition healthy_survivors (loaded : res config) (hosts : res (list host)) (nodes : list node) (excluded : list string)
    (answer : sentinel -> option string) (now : Z) : res (gset string) :=
  if bool_decide (nodes = []) then Ok ∅ else
  let* ' (c, ws) := bind_witnesses loaded hosts nodes excluded in
  let selected := mjoin ((map_to_list ws).*2) in
  if bool_decide (selected = []) then Ok ∅ else
  let* deadlines := mapM_res (remote_probe_deadline c) selected in
  let* positive := filter_res (sentinel_positive c answer now) selected in
  Ok (dom (filter (fun kv : string * list sentinel => kv.2 <> [] /\
                     Forall (fun s => sentinel_id s ∈ sentinel_id <$> positive) kv.2) ws)).
End Survivors.

(** ** Positive witnesses *)

Definition says_ok (v : value) : Prop := field (dict_of v) "verdict" = VStr "ok".

Record positive_profile (item : value) : Prop := {
  pp_verdict : says_ok item;
  pp_variants : Forall says_ok (list_of (field (dict_of item) "variants"));
  pp_families : field (dict_of item) "profile" = VStr "p2-amneziawg" ->
    Forall says_ok (dict_of (field (dict_of item) "family_results")).*2
}.

Definition positive (d : dict) : Prop :=
  says_ok (field d "control") /\ Forall positive_profile (list_of (field d "profiles")).

Lemma all_res_true {A} (f : A -> res bool) l : all_res f l = Ok true <-> Forall (fun x => f x = Ok true) l.
Proof.
  induction l as [|x l IH]; [split; [constructor|done]|]. cbn [all_res]. rewrite res_bind_Ok, Forall_cons, <-IH. split.
  - by intros ([] & Hx & H).
  - intros [Hx Hl]. by exists true.
Qed.

Lemma verdict_ok_true v : verdict_ok v = Ok true <-> says_ok v.
Proof.
  unfold verdict_ok, says_ok. rewrite res_bind_Ok. split.
  - intros (w & Hw & H). apply Ok_inj, py_eq_str in H as ->. destruct v as [| | | | | |d]; try done.
    cbn [index] in Hw. apply of_option_Ok in Hw. unfold field. cbn [dict_of]. by rewrite Hw.
  - intros H. exists (VStr "ok"). split; [|done]. destruct v as [| | | | | |d]; try done. cbn [dict_of] in H. by apply field_index.
Qed.

Lemma if_false_Ok (b : bool) (m : res bool) : (if negb b then Ok false else m) = Ok true <-> b = true /\ m = Ok true.
Proof. destruct b; cbn; naive_solver. Qed.

Lemma bind_if_Ok (m k : res bool) : (let* b := m in if negb b then Ok false else k) = Ok true <-> m = Ok true /\ k = Ok true.
Proof. destruct m as [[]|]; cbn; naive_solver. Qed.

Section Positive.
Context (loads : string -> res value) (wide_digits : list string).

Lemma profile_positive_true pd name verdict :
  profile_ok pd name verdict -> profile_positive (VDict pd) = Ok true <-> positive_profile (VDict pd).
Proof.
  intros Hpd. destruct (item_variants _ _ _ Hpd) as [Hvs _]. destruct (po_name _ _ _ Hpd) as [Hn _].
  assert (profile_positive (VDict pd) = Ok true <->
          says_ok (VDict pd) /\ Forall says_ok (list_of (field pd "variants")) /\
          (name = "p2-amneziawg" -> exists f, index (VDict pd) "family_results" = Ok f /\ Forall says_ok (dict_of f).*2)) as ->.
  { unfold profile_positive. rewrite bind_if_Ok, verdict_ok_true, Hvs. cbn [res_bind]. rewrite bind_if_Ok, all_res_true.
    rewrite (field_index _ _ _ Hn) by done. cbn [res_bind].
    assert (forall l, Forall (fun v => verdict_ok v = Ok true) l <-> Forall says_ok l) as Hall.
    { intros l. apply Forall_iff, verdict_ok_true. }
    rewrite Hall. do 2 apply and_iff_compat_l. cbn [py_eq]. case_bool_decide as Hawg; cbn [negb]; [|naive_solver].
    rewrite res_bind_Ok. setoid_rewrite all_res_true. setoid_rewrite Hall. naive_solver. }
  split.
  - intros (Hv & Hvar & Hf). split; [done|done|]. cbn [dict_of]. rewrite Hn. intros [= ->].
    destruct (Hf eq_refl) as (f & Hf' & Hall). cbn [index] in Hf'. apply of_option_Ok in Hf'. unfold field. by rewrite Hf'.
  - intros [Hv Hvar Hf]. split_and!; [done|done|]. intros ->. cbn [dict_of] in *.
    unfold says_ok in Hv. cbn [dict_of] in Hv. destruct (po_verdict _ _ _ Hpd) as [Hv' _]. rewrite Hv in Hv'. injection Hv' as <-.
    destruct (po_awg _ _ _ Hpd eq_refl) as (_ & _ & (f & item & w & Hfr & _) & _); [unfold ALIVE; left|].
    exists (VDict f). split; [by apply field_index|]. specialize (Hf Hn). by rewrite Hfr in Hf.
Qed.

Lemma report_positive_true c now s p d results :
  report_ok s c p now d results -> report_positive d = Ok true <-> positive d.
Proof.
  intros Hok. destruct (profiles_list _ _ _ _ _ _ Hok) as (l & Hl & Hf & _). destruct (ro_control _ _ _ _ _ _ Hok) as (k & v & Hk & Hv & _).
  unfold report_positive, positive, says_ok. rewrite (field_index _ _ _ Hk), (field_index _ _ _ Hl), Hk, Hl by done. cbn [res_bind dict_of list_of].
  rewrite (field_index _ _ _ Hv) by done. cbn [res_bind]. rewrite if_false_Ok, all_res_true, py_eq_str, Hv.
  apply and_iff_compat_l. rewrite !Forall_forall. split; intros H item Hi; specialize (H item Hi);
    apply list_elem_of_lookup in Hi as [i Hi]; (eapply Forall2_lookup_l in Hf as ([name verdict] & _ & (pd & Heq & Hpd)); [|exact Hi]);
    subst item; by apply (profile_positive_true pd name verdict Hpd).
Qed.

(** A sentinel whose report is admitted and positive. *)
Definition testifies (c : config) (answer : sentinel -> option string) (now : Z) (s : sentinel) : Prop :=
  exists raw d, answer s = Some raw /\ validate_report loads wide_digits raw s c now = Pass d /\ positive d.

Lemma sentinel_positive_true c answer now s :
  sentinel_positive loads wide_digits c answer now s = Ok true <-> testifies c answer now s.
Proof.
  unfold sentinel_positive, testifies. destruct (answer s) as [raw|]; [|by split; [|intros (? & ? & ? & _)]].
  destruct (validate_report loads wide_digits raw s c now) as [d|why|e] eqn:Hv.
  - pose proof Hv as (_ & p & results & _ & Hok)%validate_report_Pass. rewrite (report_positive_true _ _ _ _ _ _ Hok). split.
    + intros Hp. by exists raw, d.
    + intros (raw' & d' & [= <-] & Hv' & Hp). congruence.
  - split; [done|]. intros (raw' & d' & [= <-] & Hv' & _). congruence.
  - split; [done|]. intros (raw' & d' & [= <-] & Hv' & _). congruence.
Qed.
End Positive.

(** ** The survivors *)

Section Exact.
Context (loads : string -> res value) (wide_digits : list string) (sha256_hex : list Z -> string).

(** What the loop over the sentinels has bound. *)
Record bound (addresses : list (string * string)) (aliases : gset string) (sn : list sentinel) (b : binding) : Prop := {
  bd_dom : dom (witnesses b) = aliases;
  bd_witnesses : forall a ws, witnesses b !! a = Some ws -> ws = filter (fun s => target_alias (declared s) = a) sn;
  bd_address : forall s, s ∈ sn -> target_alias (declared s) ∈ aliases ->
    dget (target_alias (declared s)) addresses = Some (address_sha256 (declared s));
  bd_target : forall s, s ∈ sn -> target_alias (declared s) ∈ aliases -> targets b !! target_alias (declared s) = Some (declared s)
}.

Lemma bind_step_bound addresses aliases sn b s b' :
  bound addresses aliases sn b -> LivenessSurvivors.bind_step addresses b s = Ok b' -> bound addresses aliases (sn ++ [s])%list b'.
Proof.
  intros [Hdom Hws Haddr Htgt]. unfold LivenessSurvivors.bind_step. set (t := declared s). set (alias := target_alias t).
  destruct (witnesses b !! alias) as [ws|] eqn:Hw.
  - intros (address & Ha & H)%res_bind_Ok. apply of_option_Ok in Ha. apply raise_if_seq_Ok in H as [Hd H].
    apply raise_if_seq_Ok in H as [Hg H]. apply Ok_inj in H as <-. bprop.
    assert (alias ∈ aliases) as Hin by (rewrite <-Hdom; by apply elem_of_dom_2 in Hw).
    split; cbn [witnesses targets].
    + rewrite dom_insert_L, Hdom. set_solver.
    + intros a ws'. rewrite lookup_insert_Some, filter_app, filter_cons, filter_nil. intros [[<- <-]|[Hne Hl]].
      * rewrite decide_True by done. by rewrite (Hws _ _ Hw).
      * rewrite decide_False by done. rewrite app_nil_r. by apply Hws.
    + intros s' [Hs| ->%list_elem_of_singleton]%elem_of_app; [by apply Haddr|]. intros _. fold t alias. congruence.
    + intros s' [Hs| ->%list_elem_of_singleton]%elem_of_app Hin'; [|by rewrite lookup_insert_eq].
      specialize (Htgt s' Hs Hin'). destruct (decide (alias = target_alias (declared s'))) as [Heq|Hne].
      * rewrite <-Heq in *. rewrite lookup_insert_eq. rewrite Htgt in Hg. bprop. by rewrite Hg.
      * by rewrite lookup_insert_ne.
  - intros [= <-]. assert (alias ∉ aliases) as Hnin by (rewrite <-Hdom; by apply not_elem_of_dom).
    split; [done|..].
    + intros a ws' Hl. rewrite filter_app, filter_cons, filter_nil. rewrite decide_False; [rewrite app_nil_r; by apply Hws|].
      fold t alias. intros ->. congruence.
    + intros s' [Hs| ->%list_elem_of_singleton]%elem_of_app; [by apply Haddr|]. done.
    + intros s' [Hs| ->%list_elem_of_singleton]%elem_of_app; [by apply Htgt|]. done.
Qed.

Definition host_addresses (hosts : list host) : list (string * string) :=
  foldl (fun d h => dset (host_name h) (sha256_hex (utf8 (host_address h))) d) [] hosts.

Lemma host_addresses_pairs hosts :
  NoDup (host_name <$> hosts) -> host_addresses hosts = (fun h => (host_name h, sha256_hex (utf8 (host_address h)))) <$> hosts.
Proof.
  intros Hnd. rewrite <-(foldl_dset_nil ((fun h => (host_name h, sha256_hex (utf8 (host_address h)))) <$> hosts)).
  - unfold host_addresses. generalize (@nil (string * string)) as d. clear Hnd.
    induction hosts as [|h hosts IH]; intros d; [done|]. csimpl. apply IH.
  - by rewrite <-list_fmap_compose.
Qed.

Definition aliases_of (nodes : list node) (excluded : list string) : gset string :=
  list_to_set (inventory_alias <$> nodes) ∖ list_to_set excluded.

Lemma bind_witnesses_Ok loaded hosts nodes excluded c ws :
  bind_witnesses sha256_hex loaded hosts nodes excluded = Ok (c, ws) ->
  exists hs b, loaded = Ok c /\ hosts = Ok hs /\ host_name <$> hs = inventory_alias <$> nodes /\ NoDup (host_address <$> hs) /\
    ws = witnesses b /\ bound (host_addresses hs) (aliases_of nodes excluded) (sentinels c) b.
Proof.
  unfold bind_witnesses. rewrite try_raise_Ok by (intros e; by eexists). intros (c' & Hc & H)%res_bind_Ok.
  apply raise_if_seq_Ok in H as [_ H]. apply res_bind_Ok in H as (hs & Hh & H).
  apply raise_if_seq_Ok in H as [Hn H]. apply raise_if_seq_Ok in H as [Ha H].
  apply res_bind_Ok in H as (b & Hb & H). apply Ok_inj in H. injection H as -> <-.
  apply negb_false_iff, bool_decide_eq_true in Hn. apply negb_false_iff, nodup_str_true in Ha.
  exists hs, b. split_and!; try done. revert Hb. apply (foldM_res_ind (bound (host_addresses hs) (aliases_of nodes excluded))).
  - split; cbn [witnesses targets].
    + by rewrite dom_gset_to_gmap.
    + intros a l Hl. apply lookup_gset_to_gmap_Some in Hl as [_ <-]. done.
    + by intros s ?%not_elem_of_nil.
    + by intros s ?%not_elem_of_nil.
  - intros d s b0 b1 Hb Hs. by eapply bind_step_bound.
Qed.

Lemma filter_res_elem {A} (f : A -> res bool) l k : filter_res f l = Ok k -> forall x, x ∈ k <-> x ∈ l /\ f x = Ok true.
Proof.
  revert k. induction l as [|x l IH]; intros k; cbn [filter_res].
  - intros H x. apply Ok_inj in H as <-. split; [by intros ?%not_elem_of_nil|by intros [?%not_elem_of_nil _]].
  - intros (b & Hb & (k' & Hk & H)%res_bind_Ok)%res_bind_Ok y. apply Ok_inj in H as <-. specialize (IH k' Hk y).
    rewrite elem_of_cons. destruct b; [rewrite elem_of_cons|]; rewrite IH; (split; [|intros [[->|?] ?]]); try tauto.
    + intros [->|[? ?]]; tauto.
    + congruence.
Qed.

Lemma elem_of_selected (ws : gmap string (list sentinel)) s :
  s ∈ mjoin (map_to_list ws).*2 <-> exists a l, ws !! a = Some l /\ s ∈ l.
Proof.
  rewrite list_elem_of_join. setoid_rewrite list_elem_of_fmap. split.
  - intros (l & Hs & ([a l'] & -> & Hl%elem_of_map_to_list)). by exists a, l'.
  - intros (a & l & Hl & Hs). exists l. split; [done|]. exists (a, l). split; [done|]. by apply elem_of_map_to_list.
Qed.

(** A node that every one of its sentinels, and there is one, testifies for, at
    the address the inventory gives it. *)
Definition survives (c : config) (hs : list host) (answer : sentinel -> option string) (now : Z) (a : string) : Prop :=
  (exists s, s ∈ sentinels c /\ target_alias (declared s) = a) /\
  forall s, s ∈ sentinels c -> target_alias (declared s) = a ->
    testifies loads wide_digits c answer now s /\
    exists h, h ∈ hs /\ host_name h = a /\ address_sha256 (declared s) = sha256_hex (utf8 (host_address h)).

Lemma bound_address hs aliases sn b s :
  NoDup (host_name <$> hs) -> bound (host_addresses hs) aliases sn b -> s ∈ sn -> target_alias (declared s) ∈ aliases ->
  exists h, h ∈ hs /\ host_name h = target_alias (declared s) /\ address_sha256 (declared s) = sha256_hex (utf8 (host_address h)).
Proof.
  intros Hnd Hb Hs Ha. pose proof (bd_address _ _ _ _ Hb s Hs Ha) as H. rewrite host_addresses_pairs in H by done.
  apply dget_Some_elem, list_elem_of_fmap in H as (h & [= -> ->] & Hh). by exists h.
Qed.

Lemma filter_nonempty a (l : list sentinel) :
  filter (fun s => target_alias (declared s) = a) l <> [] <-> exists s, s ∈ l /\ target_alias (declared s) = a.
Proof.
  split.
  - destruct (filter _ l) as [|s k] eqn:Hf; [done|]. intros _. exists s.
    assert (s ∈ filter (fun s => target_alias (declared s) = a) l) as Hs by (rewrite Hf; left).
    apply list_elem_of_filter in Hs. tauto.
  - intros (s & Hs & Ha) Hf. apply (not_elem_of_nil s). rewrite <-Hf. by apply list_elem_of_filter.
Qed.

Lemma survivors_dom c hs b aliases answer now deadlines positive :
  config_wf c -> NoDup (host_name <$> hs) -> bound (host_addresses hs) aliases (sentinels c) b ->
  deadlines = mjoin (map_to_list (witnesses b)).*2 ->
  filter_res (sentinel_positive loads wide_digits c answer now) deadlines = Ok positive ->
  forall a, a ∈ dom (filter (fun kv : string * list sentinel => kv.2 <> [] /\
                      Forall (fun s => sentinel_id s ∈ sentinel_id <$> positive) kv.2) (witnesses b)) <->
    a ∈ aliases /\ survives c hs answer now a.
Proof.
  intros Hwf Hnd Hb -> Hpos a. rewrite elem_of_dom.
  assert (Hsel : forall s, s ∈ mjoin (map_to_list (witnesses b)).*2 -> s ∈ sentinels c).
  { intros s (a' & l & Hl & Hs)%elem_of_selected. rewrite (bd_witnesses _ _ _ _ Hb _ _ Hl) in Hs. by apply list_elem_of_filter in Hs as [_ ?]. }
  assert (Hid : forall s, s ∈ sentinels c -> sentinel_id s ∈ sentinel_id <$> positive -> testifies loads wide_digits c answer now s).
  { intros s Hs (s' & He & Hs')%list_elem_of_fmap. apply (filter_res_elem _ _ _ Hpos) in Hs' as [Hs' Ht].
    rewrite (sentinel_unique c Hwf s s' Hs (Hsel s' Hs') He). by apply sentinel_positive_true. }
  split.
  - intros [l [Hl [Hne Hall]]%map_lookup_filter_Some]. cbn [snd] in *. pose proof (bd_witnesses _ _ _ _ Hb _ _ Hl) as ->.
    assert (a ∈ aliases) as Ha by (rewrite <-(bd_dom _ _ _ _ Hb); by apply elem_of_dom_2 in Hl).
    split; [done|]. split; [by apply filter_nonempty|]. intros s Hs Hsa. rewrite Forall_forall in Hall. split.
    + apply Hid; [done|]. apply Hall. by apply list_elem_of_filter.
    + subst a. by eapply bound_address.
  - intros (Ha & Hsome & Hall). rewrite <-(bd_dom _ _ _ _ Hb) in Ha. apply elem_of_dom in Ha as [l Hl]. exists l.
    apply map_lookup_filter_Some. cbn [snd]. pose proof (bd_witnesses _ _ _ _ Hb _ _ Hl) as Hlf. split_and!; [done| |].
    + rewrite Hlf. by apply filter_nonempty.
    + apply Forall_forall. intros s Hs. pose proof Hs as Hs'. rewrite Hlf in Hs'. apply list_elem_of_filter in Hs' as [Hsa Hs'].
      apply list_elem_of_fmap. exists s. split; [done|]. apply (filter_res_elem _ _ _ Hpos). split.
      * apply elem_of_selected. by exists a, l.
      * apply sentinel_positive_true. by apply (Hall s Hs' Hsa).
Qed.

Lemma survivors_Ok loaded hosts nodes excluded answer now S :
  nodes <> [] -> NoDup (inventory_alias <$> nodes) -> (forall c, loaded = Ok c -> config_wf c) ->
  healthy_survivors loads wide_digits sha256_hex loaded hosts nodes excluded answer now = Ok S ->
  exists c hs, loaded = Ok c /\ hosts = Ok hs /\ host_name <$> hs = inventory_alias <$> nodes /\ NoDup (host_address <$> hs) /\
    forall a, a ∈ S <-> a ∈ aliases_of nodes excluded /\ survives c hs answer now a.
Proof.
  intros Hne Hnd Hwf. unfold healthy_survivors. rewrite bool_decide_false by done. intros ([c ws] & Hb & H)%res_bind_Ok.
  apply bind_witnesses_Ok in Hb as (hs & b & Hc & Hh & Hn & Ha & -> & Hb). exists c, hs. split_and!; try done.
  assert (NoDup (host_name <$> hs)) as Hnh by (by rewrite Hn).
  pose proof (fun positive => survivors_dom c hs b _ answer now _ positive (Hwf c Hc) Hnh Hb eq_refl) as Hdom.
  case_bool_decide as Hempty.
  - apply Ok_inj in H as <-. intros a. rewrite <-(Hdom []) by (by rewrite Hempty).
    rewrite elem_of_dom. split; [done|]. intros [l [Hl [Hl' _]]%map_lookup_filter_Some]. cbn [snd] in Hl'.
    destruct l as [|s l]; [done|]. exfalso. apply (not_elem_of_nil s). rewrite <-Hempty. apply elem_of_selected. exists a, (s :: l). split; [done|left].
  - apply res_bind_Ok in H as (ds & _ & H). apply res_bind_Ok in H as (positive & Hpos & H). apply Ok_inj in H as <-.
    by apply Hdom.
Qed.
End Exact.

(** The survivors are exactly the nodes with positive witnesses.  When
    [healthy_survivors] answers, the pool is bound one to one to the inventory at
    distinct addresses, and a node of the pool that is not excluded is in the
    answer exactly when it has a sentinel, all its sentinels are bound to the
    address the inventory gives it, and the report of each one is admitted and
    positive: a working control, every profile, every endpoint variant and every
    AmneziaWG address family well. *)
Theorem survivors_exact loads wide_digits sha256_hex loaded hosts nodes excluded answer now S :
  nodes <> [] -> NoDup (inventory_alias <$> nodes) -> (forall c, loaded = Ok c -> config_wf c) ->
  healthy_survivors loads wide_digits sha256_hex loaded hosts nodes excluded answer now = Ok S ->
  exists c hs, loaded = Ok c /\ hosts = Ok hs /\ host_name <$> hs = inventory_alias <$> nodes /\ NoDup (host_address <$> hs) /\
    forall a, a ∈ S <-> a ∈ aliases_of nodes excluded /\ survives loads wide_digits sha256_hex c hs answer now a.
Proof. apply survivors_Ok. Qed.

(** C33: the gate of a rotation rests on the witnesses.  When [require_health]
    lets the rotation of a host go on, and the survivors were computed by
    [healthy_survivors], at least [min_active] nodes of the pool, none of them the
    host to be replaced, each have all their sentinels testify for them. *)
Theorem gate_witnessed loads wide_digits sha256_hex p pool current_alias h loaded hosts answer now healthy :
  pool <> [] -> NoDup (inventory_alias <$> pool) -> (forall c, loaded = Ok c -> config_wf c) ->
  survivors h = healthy_survivors loads wide_digits sha256_hex loaded hosts pool [current_alias] answer now ->
  require_health sha256_hex p pool current_alias h = Ok healthy ->
  min_active p <= Z.of_nat (size healthy) /\
  exists c hs, loaded = Ok c /\ hosts = Ok hs /\ forall a, a ∈ healthy ->
    a ∈ inventory_alias <$> pool /\ a <> current_alias /\ survives loads wide_digits sha256_hex c hs answer now a.
Proof.
  intros Hne Hnd Hwf Hs. unfold require_health. intros (u1 & _ & H)%res_bind_Ok. apply res_bind_Ok in H as (S & HS & H).
  apply raise_if_seq_Ok in H as [Hg H]. apply res_bind_Ok in H as (u2 & _ & H). apply Ok_inj in H as <-.
  apply orb_false_iff in Hg as [_ Hmin]. bprop. rewrite Hs in HS. apply survivors_Ok in HS as (c & hs & Hc & Hh & _ & _ & HS); [|done..].
  split; [done|]. exists c, hs. split_and!; [done|done|]. intros a [Ha Hsv]%HS. unfold aliases_of in Ha. set_solver.
Qed.

Definition sample_hosts : list host := [Host "fsn1" "192.0.2.1"; Host "ams1" "192.0.2.2"].
Definition sample_report_loads (raw : string) : res value :=
  Ok (VDict (sample_report 1990 [sample_reality [sample_variant 1 raw]; sample_awg (VStr "ok")])).
Definition sample_survivors (raw : string) : res (gset string) :=
  healthy_survivors sample_report_loads [] (fun _ => hex64) (Ok sample_config) (Ok sample_hosts) (nodes sample_plan) ["fsn1"]
    (fun _ => Some raw) 2000.

(** The raw report here only names the verdict of the variant. *)
Example one_survivor : sample_survivors "ok" = Ok {["ams1"]}.
Proof. vm_compute. reflexivity. Qed.
Example no_survivor : sample_survivors "blocked" = Ok ∅.
Proof. vm_compute. reflexivity. Qed.
Example unbound_address :
  healthy_survivors sample_report_loads [] (fun _ => hex40) (Ok sample_config) (Ok sample_hosts) (nodes sample_plan) ["fsn1"]
    (fun _ => Some "ok") 2000 = Raise (rotation_error "liveness-public-target-mismatch").
Proof. vm_compute. reflexivity. Qed.
(** The exception of [report_check_total] is not one [healthy_survivors] catches. *)
Example survivors_crash :
  healthy_survivors (fun _ => Ok (VDict (sample_report 1990 crash_profiles))) [] (fun _ => hex64) (Ok sample_config) (Ok sample_hosts)
    (nodes sample_plan) ["fsn1"] (fun _ => Some "") 2000 = Raise (Exn TypeError "unhashable").
Proof. vm_compute. reflexivity. Qed.

Lemma sample_config_wf c : Ok sample_config = Ok c -> config_wf c.
Proof. intros H. apply Ok_inj in H as <-. apply (validate_config_wf (fun _ => true)). vm_compute. reflexivity. Qed.

Lemma survivors_exact_witness :
  exists c hs, Ok sample_config = Ok c /\ Ok sample_hosts = Ok hs /\
    host_name <$> hs = inventory_alias <$> nodes sample_plan /\ NoDup (host_address <$> hs) /\
    forall a, a ∈ ({["ams1"]} : gset string) <-> a ∈ aliases_of (nodes sample_plan) ["fsn1"] /\
      survives sample_report_loads [] (fun _ => hex64) c hs (fun _ => Some "ok") 2000 a.
Proof.
  apply (survivors_exact sample_report_loads [] (fun _ => hex64)).
  - done.
  - by apply (bool_decide_eq_true_1 (NoDup _)).
  - exact sample_config_wf.
  - exact one_survivor.
Defined.

Lemma gate_witnessed_witness :
  min_active sample_plan <= Z.of_nat (size ({["ams1"]} : gset string)) /\
  exists c hs, Ok sample_config = Ok c /\ Ok sample_hosts = Ok hs /\ forall a, a ∈ ({["ams1"]} : gset string) ->
    a ∈ inventory_alias <$> nodes sample_plan /\ a <> "fsn1" /\
    survives sample_report_loads [] (fun _ => hex64) c hs (fun _ => Some "ok") 2000 a.
Proof.
  apply (gate_witnessed sample_report_loads [] (fun _ => hex64) sample_plan (nodes sample_plan) "fsn1"
           (HealthAnswer (Ok sample_plan) (sample_survivors "ok") (Ok sample_plan))).
  - done.
  - by apply (bool_decide_eq_true_1 (NoDup _)).
  - exact sample_config_wf.
  - reflexivity.
  - vm_compute. reflexivity.
Defined.
