(* ===== verification/SilencePolicy.v ===== *)
(** * Silence gateway: policy, principals and silence requests

    [observability-silence-gateway.py]: the policy and authentication contracts
    of [GatewayServer.__init__], [owner], [unique_object] and [validate_silence]
    with [datetime.strptime] on its one format.  A clock reading is an integer
    number of ticks of [2 ^ -22] seconds, the spacing of the binary64 numbers
    between 2 ^ 30 and 2 ^ 31 (the years 2004 to 2038), so the additions and
    comparisons below are the exact ones of the source.  SHA-256 and
    [strptime] on digits outside ASCII are parameters. *)

From S2P Require Import Prelude PyValue PyStr Regex.
#[local] Open Scope string_scope.
#[local] Open Scope Z_scope.

Definition TICKS : Z := 2 ^ 22.

Definition gateway_error (m : string) : exn := Exn GatewayError m.

Definition lower_digit (c : ascii) : bool := is_lower c || is_digit c.
Definition TOKEN : re := RClsRep is_hex_lower 64 64.
Definition alias_tail (c : ascii) : bool := is_alnum c || one_of "_-" c.
Definition ALIAS : re := RCat (RCls is_alpha) (RClsRep alias_tail 0 63).
Definition owner_tail (c : ascii) : bool := lower_digit c || one_of "_-" c.
Definition OWNER : re := RCat (RCls is_lower) (RClsRep owner_tail 0 63).
Definition REASON : re :=
  RCat (RCls is_lower) (RCat (RStar (RCls lower_digit)) (RStar (RCat (RChr "-"%char) (RPlus (RCls lower_digit))))).
Definition LABELS : list string :=
  ["alertname"; "environment"; "node"; "component"; "policy"; "profile"; "vantage"; "severity"].

Definition str_matches (r : re) (v : value) : bool := match v with VStr s => fullmatch r s | _ => false end.
(** [type(v) is int and v == n] *)
Definition int_is (n : Z) (v : value) : bool := match v with VInt z => z =? n | _ => false end.
(** [set(d) == {...}] *)
Definition keys_are (names : list string) (d : list (string * value)) : bool := same_set (keys d) names.

(** ** [datetime.strptime(s, "%Y-%m-%dT%H:%M:%SZ")] *)

(** One or two digits with a value in range. *)
Definition two_digits (lo hi : Z) (l : list ascii) : option Z :=
  if forallb is_digit l && ((length l =? 1)%nat || (length l =? 2)%nat)
     && (lo <=? digits_val 10 l) && (digits_val 10 l <=? hi)
  then Some (digits_val 10 l) else None.

(** [%d] also reads a space and a digit. *)
Definition day_field (l : list ascii) : option Z :=
  match l with
  | [" "%char; c] => two_digits 1 9 [c]
  | _ => two_digits 1 31 l
  end.

Fixpoint cut (f : ascii -> bool) (l : list ascii) : option (list ascii * list ascii) :=
  match l with
  | [] => None
  | c :: l => if f c then Some ([], l) else '(h, t) ← cut f l; Some (c :: h, t)
  end.

Definition leap (y : Z) : bool := (y mod 4 =? 0) && (negb (y mod 100 =? 0) || (y mod 400 =? 0)).
Definition month_days (y m : Z) : Z :=
  if m =? 2 then if leap y then 29 else 28
  else if (m =? 4) || (m =? 6) || (m =? 9) || (m =? 11) then 30 else 31.
(** Days before the first of the month, and before the first of the year. *)
Definition days_in_year_before (y m : Z) : Z := foldr Z.add 0 (month_days y <$> seqZ 1 (m - 1)).
Definition days_before_year (y : Z) : Z := 365 * (y - 1) + (y - 1) / 4 - (y - 1) / 100 + (y - 1) / 400.
(** [datetime.toordinal], and seconds since 1970. *)
Definition ordinal (y m d : Z) : Z := days_before_year y + days_in_year_before y m + d.
Definition epoch_seconds (y mo d h mi s : Z) : Z :=
  (ordinal y mo d - 719163) * 86400 + h * 3600 + mi * 60 + s.

Definition strptime_ascii (l : list ascii) : option Z :=
  '(year, l) ← cut (one_of "-") l;
  '(month, l) ← cut (one_of "-") l;
  '(day, l) ← cut (one_of "tT") l;
  '(hour, l) ← cut (one_of ":") l;
  '(minute, l) ← cut (one_of ":") l;
  '(second, l) ← cut (one_of "zZ") l;
  if negb (forallb is_digit year && (length year =? 4)%nat && (length l =? 0)%nat) then None else
  let y := digits_val 10 year in
  mo ← two_digits 1 12 month; d ← day_field day; h ← two_digits 0 23 hour;
  mi ← two_digits 0 59 minute; s ← two_digits 0 59 second;
  if (1 <=? y) && (d <=? month_days y mo) then Some (epoch_seconds y mo d h mi s) else None.

(** ** Contracts *)

Record policy := Policy { pol_environment : string; max_ttl_seconds : Z }.
(** [owners] pairs each principal's name with the digest of its token. *)
Record authentication := Authentication { owners : list (string * string); sender_token_sha256 : string }.

Definition policy_contract (v : value) : res policy :=
  match v with
  | VDict d =>
      let env := field d "environment" in let ttl := field d "max_ttl_seconds" in
      raise_if (negb (keys_are ["schema_version"; "environment"; "max_ttl_seconds"] d)
                || negb (int_is 1 (field d "schema_version"))
                || negb (str_matches ALIAS env)
                || negb (type_is_int ttl) || (int_of ttl <? 60) || (86400 <? int_of ttl)) (gateway_error "policy-contract") ;;;
      Ok (Policy (str_of env) (int_of ttl))
  | _ => Raise (gateway_error "policy-contract")
  end.

Definition owner_row (v : value) : string * string :=
  (str_of (field (dict_of v) "owner"), str_of (field (dict_of v) "token_sha256")).

Definition authentication_contract (v : value) : res authentication :=
  match v with
  | VDict d =>
      let rows := list_of (field d "owners") in
      raise_if (negb (is_list (field d "owners")) || negb (forallb is_dict rows)) (gateway_error "authentication-contract") ;;;
      let digests := (((fun row => field (dict_of row) "token_sha256") <$> rows) ++ [field d "sender_token_sha256"])%list in
      let names := (fun row => field (dict_of row) "owner") <$> rows in
      raise_if (negb (keys_are ["schema_version"; "owners"; "sender_token_sha256"] d)
                || negb (int_is 1 (field d "schema_version"))
                || (length rows <? 1)%nat || (32 <? length rows)%nat
                || existsb (fun row => negb (keys_are ["owner"; "token_sha256"] (dict_of row))) rows
                || existsb (fun name => negb (str_matches OWNER name)) names
                || existsb (fun digest => negb (str_matches TOKEN digest)) digests
                || negb (all_distinct digests) || negb (all_distinct names)) (gateway_error "authentication-contract") ;;;
      Ok (Authentication (owner_row <$> rows) (str_of (field d "sender_token_sha256")))
  | _ => Raise (gateway_error "authentication-contract")
  end.

(** [unique_object] *)
Definition unique_object (l : list (string * value)) : res value :=
  let* d := foldM_res (fun result kv =>
    raise_if (mem kv.1 (keys result)) (gateway_error "duplicate-json-key") ;;; Ok (dset kv.1 kv.2 result)) l [] in
  Ok (VDict d).

Section Owner.
Context (sha256 : string -> string).

(** [authorization[7:]] *)
Definition bearer (authorization : string) : string := of_chars (drop 7 (chars authorization)).

(** The principal a token belongs to; [None] is the alert sender. *)
Definition owner (a : authentication) (authorization : string) : res (option string) :=
  raise_if (negb (startswith authorization "Bearer ") || negb (fullmatch TOKEN (bearer authorization)))
    (gateway_error "unauthenticated") ;;;
  let digest := sha256 (bearer authorization) in
  if bool_decide (digest = sender_token_sha256 a) then Ok None else
  match list_find (fun p => p.2 = digest) (owners a) with
  | Some (_, p) => Ok (Some p.1)
  | None => Raise (gateway_error "unauthenticated")
  end.
End Owner.

(** ** Requests *)

Section Validate.
Context (unicode_strptime : string -> option Z).

Definition strptime (s : string) : option Z :=
  if is_ascii s then strptime_ascii (chars s) else unicode_strptime s.

(** [datetime.strptime(v, ...).replace(tzinfo=UTC).timestamp()] *)
Definition instant (v : value) : res Z :=
  match v with
  | VStr s => of_option (strptime s) (Exn ValueError "strptime")
  | _ => Raise (Exn TypeError "strptime")
  end.

Definition silence_keys : list string := ["schema_version"; "reason"; "starts_at"; "ends_at"; "matchers"].

Definition scope_bad (p : policy) (matchers : value) : bool :=
  match matchers with
  | VDict m =>
      (length m <? 2)%nat || (8 <? length m)%nat || negb (subset (keys m) LABELS)
      || negb (py_eq (field m "environment") (VStr (pol_environment p)))
      || negb (has_key "node" m || has_key "policy" m)
      || existsb (fun v => negb (str_matches ALIAS v)) m.*2
  | _ => true
  end.

Definition validate_silence (request : value) (p : policy) (now : Z) : res Z :=
  let d := dict_of request in
  raise_if (negb (is_dict request) || negb (keys_are silence_keys d) || negb (int_is 1 (field d "schema_version")))
    (gateway_error "silence-shape") ;;;
  raise_if (negb (str_matches REASON (field d "reason")) || (64 <? py_len (str_of (field d "reason"))))
    (gateway_error "silence-reason") ;;;
  raise_if (scope_bad p (field d "matchers")) (gateway_error "silence-scope") ;;;
  let* ' (start, end_) := try_except
    (let* s := instant (field d "starts_at") in let* e := instant (field d "ends_at") in Ok (s, e))
    [TypeError; ValueError] (fun _ => Raise (gateway_error "silence-time")) in
  let ttl := max_ttl_seconds p * TICKS in
  raise_if (negb ((now - 60 * TICKS <=? start * TICKS) && (start * TICKS <=? now + ttl))
            || negb ((Z.max now (start * TICKS) <? end_ * TICKS) && (end_ * TICKS <=? start * TICKS + ttl)))
    (gateway_error "silence-ttl") ;;;
  Ok end_.
End Validate.

Example strptime_ex1 : strptime (fun _ => None) "2024-02-29T12:30:05Z" = Some 1709209805.
Proof. vm_compute. reflexivity. Qed.
Example strptime_ex2 : strptime (fun _ => None) "2023-02-29T12:30:05Z" = None.
Proof. vm_compute. reflexivity. Qed.
Example strptime_ex3 : strptime (fun _ => None) "1970-1-1t0:0:0z" = Some 0.
Proof. vm_compute. reflexivity. Qed.

(** ** Names and contracts *)

Definition alias_ok (s : string) : Prop := fullmatch ALIAS s = true.

Lemma owner_alias s : fullmatch OWNER s = true -> alias_ok s.
Proof.
  unfold alias_ok, fullmatch, OWNER, ALIAS. rewrite !match_chars_lang.
  intros (u & v & -> & (c & -> & Hc) & Hv). apply lang_cls_rep in Hv as [Hn Hv]. exists [c], v.
  split; [done|]. split; [exists c; split; [done|unfold is_alpha; by rewrite Hc]|]. apply lang_cls_rep. split; [done|].
  eapply Forall_impl; [exact Hv|]. intros d Hd. unfold owner_tail, lower_digit in Hd. unfold alias_tail, is_alnum, is_alpha.
  apply orb_true_iff in Hd as [[Hd|Hd]%orb_true_iff|Hd]; rewrite Hd; by rewrite ?orb_true_r.
Qed.

Record policy_wf (p : policy) : Prop := {
  pw_environment : alias_ok (pol_environment p);
  pw_ttl : 60 <= max_ttl_seconds p <= 86400 }.

Lemma policy_contract_wf v p : policy_contract v = Ok p -> policy_wf p.
Proof.
  destruct v as [| | | | | |d]; try done. cbn [policy_contract]. intros H. res_inv H. subst p. bprop.
  split; [|simpl; lia]. unfold str_matches in *. by destruct (field d "environment").
Qed.

Record authentication_wf (a : authentication) : Prop := {
  aw_names : Forall (fun p => fullmatch OWNER p.1 = true) (owners a);
  aw_distinct : NoDup (owners a).*1;
  aw_digests : NoDup ((owners a).*2 ++ [sender_token_sha256 a]);
  aw_count : (1 <= length (owners a) <= 32)%nat }.

Lemma str_matches_strs r (l : list value) :
  existsb (fun v => negb (str_matches r v)) l = false ->
  l = VStr <$> (str_of <$> l) /\ Forall (fun s => fullmatch r s = true) (str_of <$> l).
Proof.
  rewrite existsb_false. induction 1 as [|v l Hv _ [IHl IHf]]; [by split|]. bprop.
  destruct v as [| | | |s| |]; try done. csimpl. split; [by f_equal|by constructor].
Qed.

Lemma authentication_contract_wf v a : authentication_contract v = Ok a -> authentication_wf a.
Proof.
  destruct v as [| | | | | |d]; try done. cbn [authentication_contract]. intros H.
  apply raise_if_seq_Ok in H as [_ H]. apply raise_if_seq_Ok in H as [Hg H]. apply Ok_inj in H as <-.
  rewrite !orb_false_iff in Hg. destruct Hg as [[[[[[[[_ _] Hlo] Hhi] _] Hnames] Hdigests] Hdd] Hdn]. bprop.
  apply str_matches_strs in Hnames as [Hn Hnf]. apply str_matches_strs in Hdigests as [Hd _].
  rewrite Hn in Hdn. rewrite Hd in Hdd. apply all_distinct_strs in Hdn, Hdd.
  set (rows := list_of (field d "owners")) in *.
  split; simpl; rewrite <-?list_fmap_compose, ?length_fmap.
  - rewrite <-list_fmap_compose, Forall_fmap in Hnf. by rewrite Forall_fmap.
  - by rewrite <-list_fmap_compose in Hdn.
  - rewrite fmap_app, <-list_fmap_compose in Hdd. exact Hdd.
  - lia.
Qed.

(** ** Principals *)

Section OwnerSpec.
Context (sha256 : string -> string).

Definition bearer_ok (authorization : string) : Prop :=
  startswith authorization "Bearer " = true /\ fullmatch TOKEN (bearer authorization) = true.

(** With distinct digests a token names exactly the principal it was issued to,
    and the sender's token names none. *)
Lemma owner_spec a authorization :
  authentication_wf a ->
  (forall o, owner sha256 a authorization = Ok (Some o) <->
     bearer_ok authorization /\ (o, sha256 (bearer authorization)) ∈ owners a) /\
  (owner sha256 a authorization = Ok None <->
     bearer_ok authorization /\ sha256 (bearer authorization) = sender_token_sha256 a).
Proof.
  intros Ha. unfold owner, bearer_ok. pose proof (aw_digests a Ha) as Hd.
  set (digest := sha256 (bearer authorization)). apply NoDup_app in Hd as (Hd & Hs & _).
  assert (forall p, p ∈ owners a -> p.2 <> sender_token_sha256 a) as Hsend.
  { intros p Hp Heq. apply (Hs p.2); [by apply list_elem_of_fmap_2|rewrite Heq; by left]. }
  destruct (startswith authorization "Bearer "), (fullmatch TOKEN (bearer authorization)); simpl;
    try naive_solver.
  case_bool_decide as Heq.
  - split; [|split; [by split|done]]. intros o. split; [done|]. intros [_ Hin]. by destruct (Hsend _ Hin).
  - destruct (list_find _ (owners a)) as [[i p]|] eqn:Hf.
    + apply list_find_Some in Hf as (Hi & Hp & _). apply list_elem_of_lookup_2 in Hi as Hin.
      split; [|split; [done|by intros [_ ?]]]. intros o. split.
      * intros [= <-]. split; [done|]. rewrite <-Hp. by destruct p.
      * intros [_ Ho]. do 2 f_equal.
        apply list_elem_of_lookup in Ho as [j Hj].
        assert (i = j) as <-; [|rewrite Hi in Hj; by injection Hj as ->].
        eapply (NoDup_lookup _ i j p.2 Hd); rewrite list_lookup_fmap; [by rewrite Hi|by rewrite Hj, Hp].
    + apply list_find_None in Hf. rewrite Forall_forall in Hf. split; [|split; [done|by intros [_ ?]]].
      intros o. split; [done|]. intros [_ Ho]. by destruct (Hf _ Ho).
Qed.
End OwnerSpec.

(** ** What an admitted request is *)

(** Finite scope: named aliases of known labels, the environment of the policy,
    and a node or a policy. *)
Record scope_ok (p : policy) (m : list (string * value)) : Prop := {
  sc_size : (2 <= length m <= 8)%nat;
  sc_labels : forall k, k ∈ keys m -> k ∈ LABELS;
  sc_environment : dget "environment" m = Some (VStr (pol_environment p));
  sc_target : "node" ∈ keys m \/ "policy" ∈ keys m;
  sc_values : Forall (fun kv => exists s, kv.2 = VStr s /\ alias_ok s) m }.

Lemma str_matches_true r v : str_matches r v = true <-> exists s, v = VStr s /\ fullmatch r s = true.
Proof. destruct v; simpl; split; try done; try (by intros (? & [=] & _)); [eauto|by intros (? & [= <-] & ?)]. Qed.

Lemma scope_bad_false p v : scope_bad p v = false <-> exists m, v = VDict m /\ scope_ok p m.
Proof.
  split.
  - destruct v as [| | | | | |m]; try done. cbn [scope_bad]. rewrite !orb_false_iff.
    intros [[[[[Hlo Hhi] Hl] He] Ht] Hv]. exists m. split; [done|].
    apply Nat.ltb_ge in Hlo. apply Nat.ltb_ge in Hhi. apply negb_false_iff in Hl, He, Ht. apply existsb_false in Hv. split.
    + lia.
    + by apply subset_true.
    + apply py_eq_str in He. unfold field in He. destruct (dget "environment" m); simpl in He; congruence.
    + unfold has_key in Ht. by rewrite orb_true_iff, !mem_true in Ht.
    + rewrite Forall_fmap in Hv. eapply Forall_impl; [exact Hv|]. intros [k v] Hkv. simpl in *.
      apply negb_false_iff, str_matches_true in Hkv. exact Hkv.
  - intros (m & -> & [Hn Hl He Ht Hv]). cbn [scope_bad]. rewrite !orb_false_iff. split_and!.
    + apply Nat.ltb_ge. lia.
    + apply Nat.ltb_ge. lia.
    + by apply negb_false_iff, subset_true.
    + apply negb_false_iff, py_eq_str. unfold field. by rewrite He.
    + unfold has_key. by rewrite negb_false_iff, orb_true_iff, !mem_true.
    + apply existsb_false. rewrite Forall_fmap. eapply Forall_impl; [exact Hv|]. intros [k v] Hkv. simpl in *.
      by apply negb_false_iff, str_matches_true.
Qed.

Lemma field_eq d k v : field d k = v -> v <> VNone -> dget k d = Some v.
Proof. unfold field. by destruct (dget k d); simpl; intros; subst. Qed.

Lemma int_is_true n v : int_is n v = true <-> v = VInt n.
Proof. destruct v; simpl; try done. rewrite Z.eqb_eq. split; [by intros ->|by intros [= ->]]. Qed.

Section ValidateSpec.
Context (unicode_strptime : string -> option Z).

(** The silence [request] asks for: from [start] to [end_] (in seconds). *)
Record silence_ok (p : policy) (now : Z) (d : list (string * value)) (reason : string)
    (m : list (string * value)) (start end_ : Z) : Prop := {
  so_keys : forall k, k ∈ keys d <-> k ∈ silence_keys;
  so_version : dget "schema_version" d = Some (VInt 1);
  so_reason : dget "reason" d = Some (VStr reason) /\ fullmatch REASON reason = true /\ py_len reason <= 64;
  so_matchers : dget "matchers" d = Some (VDict m) /\ scope_ok p m;
  so_start : exists s, dget "starts_at" d = Some (VStr s) /\ strptime unicode_strptime s = Some start;
  so_end : exists s, dget "ends_at" d = Some (VStr s) /\ strptime unicode_strptime s = Some end_;
  so_recent : now - 60 * TICKS <= start * TICKS <= now + max_ttl_seconds p * TICKS;
  so_bounded : Z.max now (start * TICKS) < end_ * TICKS <= start * TICKS + max_ttl_seconds p * TICKS }.

Lemma strptime_instant v t : instant unicode_strptime v = Ok t <-> exists s, v = VStr s /\ strptime unicode_strptime s = Some t.
Proof.
  destruct v; simpl; try (split; [done|by intros (? & [=] & _)]).
  rewrite of_option_Ok. split; [eauto|by intros (? & [= <-] & ?)].
Qed.

(** A request becomes a silence exactly when it has the five fields, a
    categorical reason of at most 64 characters, a scope of two to eight alias
    matchers that names the gateway's own environment and a node or policy, a
    start within the last minute or the policy's horizon, and an end after now
    and within the policy's duration of the start; the result is that end. *)
Theorem validate_silence_exact p now request end_ :
  validate_silence unicode_strptime request p now = Ok end_ <->
  exists d reason m start, request = VDict d /\ silence_ok p now d reason m start end_.
Proof.
  unfold validate_silence. split.
  - intros H. apply raise_if_seq_Ok in H as [Hshape H]. apply raise_if_seq_Ok in H as [Hreason H].
    apply raise_if_seq_Ok in H as [Hscope H]. apply res_bind_Ok in H as ([start e] & Ht & H).
    apply try_raise_Ok in Ht; [|by eexists]. apply raise_if_seq_Ok in H as [Hw H]. apply Ok_inj in H as ->.
    apply res_bind_Ok in Ht as (s & Hs & Ht). apply res_bind_Ok in Ht as (e' & He & [= -> ->]).
    rewrite !orb_false_iff in Hshape. rewrite !orb_false_iff in Hreason. rewrite !orb_false_iff in Hw. destruct Hshape as [[Hd Hk] Hv], Hreason as [Hr Hrl], Hw as [Hw1 Hw2].
    destruct request as [| | | | | |d]; try done. simpl dict_of in *.
    apply negb_false_iff, int_is_true in Hv. apply negb_false_iff, str_matches_true in Hr as (reason & Hr & Hrm).
    rewrite Hr in Hrl. apply scope_bad_false in Hscope as (m & Hm & Hscope).
    apply strptime_instant in Hs as (s & Hs & Hst). apply strptime_instant in He as (s' & Hs' & Hen).
    exists d, reason, m, start. split; [done|]. apply negb_false_iff in Hk. bprop. split.
    + by apply same_set_true.
    + by apply field_eq.
    + split; [by apply field_eq|]. split; [done|]. simpl in *. lia.
    + split; [by apply field_eq|done].
    + exists s. split; [by apply field_eq|done].
    + exists s'. split; [by apply field_eq|done].
    + lia.
    + lia.
  - intros (d & reason & m & start & -> & [Hk Hv (Hr & Hrm & Hrl) (Hm & Hscope) (s & Hs & Hst) (s' & Hs' & Hen) Hw1 Hw2]).
    simpl dict_of. apply raise_if_seq_Ok. split.
    { assert (keys_are silence_keys d = true) as -> by by apply same_set_true. unfold field. by rewrite Hv. }
    apply raise_if_seq_Ok. split; [unfold field; rewrite Hr; simpl; rewrite Hrm; simpl; lia|].
    apply raise_if_seq_Ok. split; [apply scope_bad_false; unfold field; rewrite Hm; eauto|].
    unfold field. rewrite Hs, Hs'. simpl. rewrite Hst, Hen. simpl. apply raise_if_seq_Ok. split; [|done].
    rewrite orb_false_iff, !negb_false_iff, !andb_true_iff. lia.
Qed.
End ValidateSpec.
