(* ===== verification/SilenceJournal.v ===== *)
(** * Silence gateway: the journal of silences

    [SilenceJournal] of [observability-silence-gateway.py]: the state a journal
    file holds, its decoding at start, [append] with every way the publication
    can end, and [expire].

    The file is what [json.loads] makes of it ([content]) with its size and
    whether its attributes are the private ones.  [visible] is the file a
    restarted process finds, [durable] the one a power loss leaves.  Everything
    outside the program is indexed by the number of such steps taken so far: the
    clock, the outcome of a publication and the backend's answers. *)

From stdpp Require Import sorting.
From S2P Require Import Prelude PyValue PyStr Uuid Json Regex SilencePolicy.
#[local] Open Scope string_scope.
#[local] Open Scope Z_scope.

Record row := Row { row_owner : string; row_expires_at : Z; row_scope : value; row_reason : value }.
Record jstate := JState { schema_version : value; silences : list (string * row); audit : list value }.
Record file := File { private : bool; size : Z; content : res value }.

Definition id_le (a b : string * row) : Prop := str_le a.1 b.1.
#[export] Instance id_le_dec : RelDecision id_le.
Proof. intros a b. unfold id_le. apply _. Defined.
#[export] Instance id_le_total : Total id_le.
Proof. intros a b. unfold id_le. apply str_le_total. Qed.

Definition empty_journal : jstate := JState (VInt 1) [] [].
Definition MAX_BYTES : Z := 1048576.

(** ** Loading *)

Section Journal.
Context (unicode_int16 : string -> option Z) (float_repr : pyfloat -> list ascii).

(** [set(v) == {...}]: a set of a mapping's keys, a list's elements, a string's characters. *)
Definition set_is (names : list string) (v : value) : res bool :=
  match v with
  | VDict d => Ok (same_set (keys d) names)
  | VList l => let* s := py_set l in Ok (forallb is_str s && same_set (str_of <$> s) names)
  | VStr s => Ok (same_set ((fun c => of_chars [c]) <$> chars s) names)
  | _ => Raise (Exn TypeError "not iterable")
  end.

(** [pattern.fullmatch(v)] *)
Definition fullmatch_value (r : re) (v : value) : res bool :=
  match v with VStr s => Ok (fullmatch r s) | _ => Raise (Exn TypeError "expected string") end.

Definition row_keys : list string := ["owner"; "expires_at"; "scope"; "reason"].

Definition load_row (kv : string * value) : res (string * row) :=
  let* id := of_option (uuid_str unicode_int16 kv.1) (Exn ValueError "uuid") in
  raise_if (negb (bool_decide (id = kv.1))) (gateway_error "audit-entry") ;;;
  let* keys_ok := set_is row_keys kv.2 in
  raise_if (negb keys_ok) (gateway_error "audit-entry") ;;;
  let* own := index kv.2 "owner" in let* alias := fullmatch_value ALIAS own in
  raise_if (negb alias) (gateway_error "audit-entry") ;;;
  let* expires := index kv.2 "expires_at" in
  raise_if (negb (type_is_int expires)) (gateway_error "audit-entry") ;;;
  let d := dict_of kv.2 in
  Ok (kv.1, Row (str_of own) (int_of expires) (field d "scope") (field d "reason")).

Definition journal_keys : list string := ["schema_version"; "silences"; "audit"].

Definition load_value (v : value) : res jstate :=
  let* keys_ok := set_is journal_keys v in
  raise_if (negb keys_ok) (gateway_error "audit-shape") ;;;
  let* version := index v "schema_version" in
  let* rows := index v "silences" in let* entries := index v "audit" in
  raise_if (negb (py_eq version (VInt 1)) || negb (is_dict rows) || negb (is_list entries)
            || (256 <? length (dict_of rows))%nat || (1024 <? length (list_of entries))%nat) (gateway_error "audit-shape") ;;;
  let* rows := mapM_res load_row (dict_of rows) in
  Ok (JState version rows (list_of entries)).

(** [SilenceJournal.__init__], in a private directory. *)
Definition load (f : option file) : res jstate :=
  match f with
  | None => Ok empty_journal
  | Some f =>
      raise_if (negb (private f)) (gateway_error "audit-file") ;;;
      raise_if (MAX_BYTES <? size f) (gateway_error "audit-size") ;;;
      let* v := content f in load_value v
  end.

(** ** The document that is written *)

Definition row_value (r : row) : value :=
  VDict [("expires_at", VInt (row_expires_at r)); ("owner", VStr (row_owner r));
         ("reason", row_reason r); ("scope", row_scope r)].

Definition sorted_silences (s : jstate) : jstate :=
  JState (schema_version s) (merge_sort id_le (silences s)) (audit s).

(** [json.dumps(state, sort_keys=True)]: scopes and audit entries are only carried. *)
Definition document (s : jstate) : value :=
  VDict [("audit", VList (audit s)); ("schema_version", schema_version s);
         ("silences", VDict ((fun kv => (kv.1, row_value kv.2)) <$> silences (sorted_silences s)))].

Definition payload_size (s : jstate) : Z := Z.of_nat (length (dumps float_repr true (document s))) + 1.
Definition written (s : jstate) : file := File true (payload_size s) (Ok (document s)).

(** ** The world a request runs in *)

Inductive payload := Bytes (l : list Z) | Json (v : value).

Inductive event :=
| Recorded (entry : value)                                   (* durably in the journal *)
| Asked (method path : string) (body : option payload)       (* sent to Alertmanager *)
| Replied (status : Z) (content_type : string) (body : payload).

(** How a publication ends: an [OSError] before the replacement (whose
    temporary file may then be impossible to remove), or after it. *)
Inductive fault := Written | NotWritten | NotRemoved | NotSynced (kept : bool).

Inductive exchange :=
| Unreachable                                                (* OSError, HTTPException *)
| Answered (status : Z) (body : list Z).

Record world := World {
  state : jstate; visible : option file; durable : option file; steps : nat; log : list event }.

Definition note (e : event) : eff world unit :=
  eff_modify (fun w => World (state w) (visible w) (durable w) (steps w) (e :: log w)).
(** The number of the next step outside the program. *)
Definition step : eff world nat := fun w =>
  (Ok (steps w), World (state w) (visible w) (durable w) (S (steps w)) (log w)).

Context (clock : nat -> Z) (faults : nat -> fault).

Definition now : eff world Z := n ← step; mret (clock n).

(** The keyword arguments of [append], as its callers combine them. *)
Inductive change := NoChange | About (id : string) | Create (id : string) (r : row) | Remove (id : string).

Definition silence_id (c : change) : option string :=
  match c with NoChange => None | About id | Create id _ | Remove id => Some id end.

Definition owner_value (own : option string) : value := match own with Some o => VStr o | None => VNone end.

Definition entry (at_ : Z) (action result : string) (own : option string) (c : change) : value :=
  VDict ([("at", VInt at_); ("action", VStr action); ("result", VStr result); ("owner", owner_value own)]
         ++ match silence_id c with Some id => [("silence_id", VStr id)] | None => [] end
         ++ match c with Create _ r => [("scope", row_scope r); ("reason", row_reason r)] | _ => [] end)%list.

Definition changed (c : change) (s : jstate) : res (list (string * row)) :=
  match c with
  | Create id r =>
      raise_if (has_key id (silences s) || (256 <=? length (silences s))%nat) (gateway_error "audit-capacity") ;;;
      Ok (dset id r (silences s))
  | Remove id =>
      raise_if (negb (has_key id (silences s))) (Exn KeyError id) ;;;
      Ok (filter (fun kv => kv.1 <> id) (silences s))
  | _ => Ok (silences s)
  end.

(** [l[-n:]] for a positive [n] *)
Definition last_n {A} (n : nat) (l : list A) : list A := drop (length l - n) l.

(** The temporary file is written, synced and renamed over the journal, whose
    directory is then synced; only then is the new state the process's own. *)
Definition publish (s : jstate) (e : value) : eff world unit :=
  n ← step;
  match faults n return eff world unit with
  | Written => fun w => (Ok tt, World s (Some (written s)) (Some (written s)) (steps w) (Recorded e :: log w))
  | NotWritten => eff_lift (Raise (gateway_error "audit-unavailable"))
  | NotRemoved => eff_lift (Raise (Exn OSError "unlink"))
  | NotSynced kept => fun w =>
      (Raise (gateway_error "audit-unavailable"),
       World (state w) (Some (written s)) (if kept then Some (written s) else durable w) (steps w) (log w))
  end.

Definition append (action result : string) (own : option string) (c : change) : eff world unit :=
  w ← eff_get;
  t ← now;
  let e := entry (Z.quot t TICKS) action result own c in
  rows ← eff_lift (changed c (state w));
  let s := JState (schema_version (state w)) rows (last_n 1024 (audit (state w) ++ [e])) in
  eff_lift (raise_if (MAX_BYTES <? payload_size s) (gateway_error "audit-capacity")) ;;
  publish s e.

Fixpoint expire_rows (l : list (string * row)) : eff world unit :=
  match l with
  | [] => mret tt
  | (id, r) :: l =>
      t ← now;
      (if row_expires_at r * TICKS <=? t then append "expiry" "elapsed" (Some (row_owner r)) (Remove id) else mret tt) ;;
      expire_rows l
  end.

Definition expire : eff world unit := w ← eff_get; expire_rows (silences (state w)).
End Journal.

(** ** What a publication does *)

Section Spec.
Context (unicode_int16 : string -> option Z) (float_repr : pyfloat -> list ascii).
Context (clock : nat -> Z) (faults : nat -> fault).

Notation append := (append float_repr clock faults).
Notation expire_rows := (expire_rows float_repr clock faults).
Notation expire := (expire float_repr clock faults).
Notation written := (written float_repr).
Notation load := (load unicode_int16).

(** The state [append] is about to publish. *)
Definition next_state (w : world) (e : value) (rows : list (string * row)) : jstate :=
  JState (schema_version (state w)) rows (last_n 1024 (audit (state w) ++ [e])).

Definition entry_at (w : world) (action result : string) (own : option string) (c : change) : value :=
  entry (Z.quot (clock (steps w)) TICKS) action result own c.

(** The published state replaced the file, durably or not yet. *)
Definition replaced (w w' : world) (s : jstate) : Prop :=
  payload_size float_repr s <= MAX_BYTES /\ visible w' = Some (written s) /\
  (durable w' = Some (written s) \/ durable w' = durable w).

Definition appended (w w' : world) (e : value) (c : change) : Prop :=
  exists rows, changed c (state w) = Ok rows /\ state w' = next_state w e rows /\
    replaced w w' (state w') /\ durable w' = visible w' /\ log w' = Recorded e :: log w.

Definition refused (w w' : world) (e : value) (c : change) (ex : exn) : Prop :=
  (exn_class ex = GatewayError \/ exn_class ex = OSError \/ changed c (state w) = Raise ex) /\
  state w' = state w /\ log w' = log w /\
  ((visible w' = visible w /\ durable w' = durable w) \/
   exists rows, changed c (state w) = Ok rows /\ replaced w w' (next_state w e rows)).

(** An append either is wholly done, on disk and in memory, or raises and leaves
    the process's own state as it was. *)
Lemma append_cases action result own c w r w' :
  append action result own c w = (r, w') ->
  let e := entry_at w action result own c in
  (steps w < steps w')%nat /\
  match r with Ok _ => appended w w' e c | Raise ex => refused w w' e c ex end.
Proof.
  unfold append, now, step, eff_get, mbind, eff_bind, mret, eff_ret. cbn. fold (entry_at w action result own c).
  destruct (changed c (state w)) as [rows|ex] eqn:Hc; cbn.
  2: { intros [= <- <-]. split; [simpl; lia|]. split; [by auto|]. by auto. }
  fold (next_state w (entry_at w action result own c) rows).
  destruct (Z.ltb_spec MAX_BYTES (payload_size float_repr (next_state w (entry_at w action result own c) rows))) as [|Hsize]; cbn.
  { intros [= <- <-]. split; [simpl; lia|]. split; [by auto|]. by auto. }
  unfold publish, step, mbind, eff_bind. cbn.
  destruct (faults (S (steps w))) as [| | |kept]; cbn; intros [= <- <-]; (split; [simpl; lia|]).
  - exists rows. split_and!; try done. split; [done|]. split; [done|]. by left.
  - split; [by auto|]. by auto.
  - split; [by auto|]. by auto.
  - split; [by auto|]. split; [done|]. split; [done|]. right. exists rows. split; [done|].
    split; [done|]. split; [done|]. destruct kept; auto.
Qed.
(** ** The journal always reads back *)

Record journal_wf (s : jstate) : Prop := {
  jw_version : py_eq (schema_version s) (VInt 1) = true;
  jw_distinct : NoDup (keys (silences s));
  jw_count : (length (silences s) <= 256)%nat;
  jw_rows : Forall (fun kv => uuid_str unicode_int16 kv.1 = Some kv.1 /\ alias_ok (row_owner kv.2)) (silences s);
  jw_audit : (length (audit s) <= 1024)%nat }.

Lemma empty_journal_wf : journal_wf empty_journal.
Proof. split; simpl; [done|constructor|lia|constructor|lia]. Qed.

Lemma load_row_written kv :
  uuid_str unicode_int16 kv.1 = Some kv.1 -> alias_ok (row_owner kv.2) ->
  load_row unicode_int16 (kv.1, row_value kv.2) = Ok kv.
Proof.
  destruct kv as [id [own expires scope reason]]. unfold alias_ok, load_row. cbn [fst snd row_owner]. intros Hid Hown.
  rewrite Hid. cbn [of_option res_bind]. rewrite bool_decide_eq_true_2 by done.
  assert (set_is row_keys (row_value (Row own expires scope reason)) = Ok true) as -> by reflexivity.
  assert (index (row_value (Row own expires scope reason)) "owner" = Ok (VStr own)) as -> by reflexivity.
  cbn [negb raise_if res_bind fullmatch_value]. by rewrite Hown.
Qed.

Lemma sorted_silences_perm s : silences (sorted_silences s) ≡ₚ silences s.
Proof. apply merge_sort_Permutation. Qed.

Lemma sorted_silences_wf s : journal_wf s -> journal_wf (sorted_silences s).
Proof.
  intros [Hv Hd Hc Hr Ha]. pose proof (sorted_silences_perm s) as Hp. split; [done| | | |done].
  - unfold keys. by rewrite Hp.
  - by rewrite Hp.
  - by rewrite Hp.
Qed.

(** What is written is what is read, with the silences in order. *)
Lemma load_written s :
  journal_wf s -> payload_size float_repr s <= MAX_BYTES -> load (Some (written s)) = Ok (sorted_silences s).
Proof.
  intros Hs Hsize. unfold load, written. simpl private. simpl size. simpl content.
  destruct (Z.ltb_spec MAX_BYTES (payload_size float_repr s)); [lia|]. cbn [negb raise_if res_bind].
  apply sorted_silences_wf in Hs. destruct Hs as [Hv Hd Hc Hr Ha]. unfold document. set (t := sorted_silences s) in *.
  set (rows := (fun kv => (kv.1, row_value kv.2)) <$> silences t).
  change (schema_version s) with (schema_version t). change (audit s) with (audit t).
  set (v := VDict _). assert (set_is journal_keys v = Ok true) as Hk by reflexivity.
  assert (index v "schema_version" = Ok (schema_version t)) as Hi1 by reflexivity.
  assert (index v "silences" = Ok (VDict rows)) as Hi2 by reflexivity.
  assert (index v "audit" = Ok (VList (audit t))) as Hi3 by reflexivity.
  unfold load_value. rewrite Hk, Hi1, Hi2, Hi3. cbn [res_bind negb raise_if]. rewrite Hv. cbn [res_bind negb raise_if orb is_dict is_list dict_of list_of].
  assert (length rows = length (silences t)) as Hn by apply length_fmap.
  destruct (Nat.ltb_spec 256 (length rows)); [lia|]. destruct (Nat.ltb_spec 1024 (length (audit t))); [lia|].
  cbn [res_bind raise_if orb]. unfold rows.
  assert (mapM_res (load_row unicode_int16) ((fun kv => (kv.1, row_value kv.2)) <$> silences t) = Ok (silences t)) as ->.
  { apply mapM_res_Ok, Forall2_fmap_l, Forall_Forall2_diag. eapply Forall_impl; [exact Hr|].
    intros kv [Hid Hown]. by apply load_row_written. }
  by destruct t.
Qed.
(** [json.loads] makes dicts, so the keys of the file's [silences] are distinct. *)
Definition parsed (f : option file) : Prop :=
  forall g d, f = Some g -> content g = Ok (VDict d) -> NoDup (keys (dict_of (field d "silences"))).

Lemma load_row_Ok kv r :
  load_row unicode_int16 kv = Ok r -> uuid_str unicode_int16 r.1 = Some r.1 /\ alias_ok (row_owner r.2) /\ r.1 = kv.1.
Proof.
  unfold load_row. intros H. apply res_bind_Ok in H as (id & Hid & H). apply of_option_Ok in Hid.
  apply raise_if_seq_Ok in H as [Heq H]. bprop. subst id.
  apply res_bind_Ok in H as (b & _ & H). apply raise_if_seq_Ok in H as [_ H].
  apply res_bind_Ok in H as (own & _ & H). apply res_bind_Ok in H as (alias & Halias & H).
  apply raise_if_seq_Ok in H as [Ha H]. bprop. subst alias. apply res_bind_Ok in H as (ex & _ & H).
  apply raise_if_seq_Ok in H as [_ [= <-]]. simpl. split; [done|]. split; [|done].
  destruct own; try done. by apply Ok_inj in Halias.
Qed.

Lemma load_wf f s : parsed f -> load f = Ok s -> journal_wf s.
Proof.
  destruct f as [f|]; [|intros _ [= <-]; apply empty_journal_wf]. intros Hp H. unfold load in H.
  apply raise_if_seq_Ok in H as [_ H]. apply raise_if_seq_Ok in H as [_ H].
  apply res_bind_Ok in H as (v & Hc & H). specialize (Hp f). unfold load_value in H.
  apply res_bind_Ok in H as (b & _ & H). apply raise_if_seq_Ok in H as [_ H].
  apply res_bind_Ok in H as (version & _ & H). apply res_bind_Ok in H as (sil & Hsil & H).
  apply res_bind_Ok in H as (entries & _ & H). apply raise_if_seq_Ok in H as [Hg H].
  apply res_bind_Ok in H as (rows & Hrows & [= <-]). apply mapM_res_Ok in Hrows. bprop.
  destruct v as [| | | | | |d]; try done. apply of_option_Ok in Hsil. specialize (Hp d eq_refl Hc).
  unfold field in Hp. rewrite Hsil in Hp. simpl default in Hp.
  assert (keys rows = keys (dict_of sil)) as Hk.
  { unfold keys. clear -Hrows. induction Hrows as [|x y l k Hxy _ IH]; [done|]. csimpl.
    apply load_row_Ok in Hxy as (_ & _ & ->). by f_equal. }
  split; simpl; [done|by rewrite Hk| | |done].
  - apply Forall2_length in Hrows. lia.
  - clear -Hrows. induction Hrows as [|x y l k Hxy _ IH]; [constructor|]. apply load_row_Ok in Hxy as (? & ? & _).
    by constructor.
Qed.

(** ** Invariants of the world *)

Definition loadable (f : option file) : Prop := exists s, load f = Ok s /\ journal_wf s.

Record world_ok (w : world) : Prop := {
  wo_state : journal_wf (state w);
  wo_visible : loadable (visible w);
  wo_durable : loadable (durable w) }.

Definition change_ok (c : change) : Prop :=
  match c with Create id r => uuid_str unicode_int16 id = Some id /\ alias_ok (row_owner r) | _ => True end.

Lemma dset_new {A} k (v : A) d : k ∉ keys d -> dset k v d = (d ++ [(k, v)])%list.
Proof.
  induction d as [|[k' v'] d IH]; [done|]. unfold keys. csimpl. intros [Hk Hd]%not_elem_of_cons.
  rewrite decide_False by done. f_equal. by apply IH.
Qed.

Lemma keys_filter {A} (P : string * A -> Prop) `{!forall x, Decision (P x)} d : NoDup (keys d) -> NoDup (keys (filter P d)).
Proof.
  unfold keys. induction d as [|kv d IH]; [done|]. csimpl. intros [Hk Hd]%NoDup_cons. rewrite filter_cons.
  destruct (decide (P kv)); [|auto]. csimpl. apply NoDup_cons. split; [|auto].
  intros (kv' & Heq & [_ Hin]%list_elem_of_filter)%list_elem_of_fmap. apply Hk. rewrite Heq. by apply list_elem_of_fmap_2.
Qed.

Lemma next_state_wf w e c rows :
  journal_wf (state w) -> change_ok c -> changed c (state w) = Ok rows -> journal_wf (next_state w e rows).
Proof.
  intros [Hv Hd Hc Hr Ha] Hok Hrows.
  assert (NoDup (keys rows) /\ (length rows <= 256)%nat /\
    Forall (fun kv => uuid_str unicode_int16 kv.1 = Some kv.1 /\ alias_ok (row_owner kv.2)) rows) as (H1 & H2 & H3).
  { destruct c as [|id|id r|id]; cbn [changed] in Hrows; try (injection Hrows as <-; by split_and!).
    - apply raise_if_seq_Ok in Hrows as [Hg [= <-]]. apply orb_false_iff in Hg as [Hn Hl]. unfold has_key in Hn. bprop.
      apply mem_false in Hn. rewrite dset_new by done. unfold keys. rewrite fmap_app, length_app. split_and!.
      + apply NoDup_app. split_and!; [done| |apply NoDup_singleton]. by intros k Hk ->%list_elem_of_singleton.
      + simpl. lia.
      + apply Forall_app_2; [done|]. by apply Forall_singleton.
    - apply raise_if_seq_Ok in Hrows as [_ [= <-]]. split_and!; [by apply keys_filter| |by apply Forall_filter_keep].
      pose proof (length_filter (fun kv : string * row => kv.1 <> id) (silences (state w))). lia. }
  split; simpl; [done|done|done|done|]. unfold last_n. rewrite length_drop. lia.
Qed.

Lemma replaced_ok w w' e c rows :
  world_ok w -> change_ok c -> changed c (state w) = Ok rows -> replaced w w' (next_state w e rows) ->
  journal_wf (next_state w e rows) /\ loadable (visible w') /\ loadable (durable w').
Proof.
  intros [Hs _ Hd] Hok Hrows (Hsize & Hv & Hdur).
  pose proof (next_state_wf w e c rows Hs Hok Hrows) as Hn. split; [done|].
  assert (loadable (Some (written (next_state w e rows)))) as Hl.
  { eexists. split; [by apply load_written|]. by apply sorted_silences_wf. }
  split; [by rewrite Hv|]. by destruct Hdur as [->| ->].
Qed.

Lemma append_world_ok action result own c w r w' :
  append action result own c w = (r, w') -> change_ok c -> world_ok w -> world_ok w'.
Proof.
  intros H Hok Hw. apply append_cases in H as [_ H]. destruct r as [[]|ex].
  - destruct H as (rows & Hrows & Hs & Hr & Hdv & _). rewrite Hs in Hr.
    destruct (replaced_ok w w' _ c rows Hw Hok Hrows Hr) as (? & ? & ?). split; [by rewrite Hs|done|done].
  - destruct H as (_ & Hs & _ & [[Hv Hd]|(rows & Hrows & Hr)]).
    + destruct Hw. split; by rewrite ?Hs, ?Hv, ?Hd.
    + destruct (replaced_ok w w' _ c rows Hw Hok Hrows Hr) as (? & ? & ?). split; [rewrite Hs; apply Hw|done|done].
Qed.
(** ** Expiry *)

Definition recorded (e : event) : Prop := exists v, e = Recorded v.
Definition due (n : nat) (r : row) : Prop := row_expires_at r * TICKS <= clock n.

(** A pass over the rows [l] of the journal. *)
Record expiry (l : list (string * row)) (w w' : world) (r : res unit) : Prop := {
  ex_sub : forall kv, kv ∈ silences (state w') -> kv ∈ silences (state w);
  ex_others : forall kv, kv ∈ silences (state w) -> kv ∉ l -> kv ∈ silences (state w');
  ex_log : exists new, log w' = (new ++ log w)%list /\ Forall recorded new;
  ex_steps : (steps w <= steps w')%nat;
  ex_exn : forall e, r = Raise e -> exn_class e = GatewayError \/ exn_class e = OSError;
  ex_done : r = Ok tt -> forall kv, kv ∈ l -> exists n, (steps w <= n < steps w')%nat /\
    (kv ∈ silences (state w') <-> ~ due n kv.2) }.

Lemma expiry_nil w : expiry [] w w (Ok tt).
Proof.
  split; [done|done|by exists []|done|done|]. intros _ kv Hkv. by apply not_elem_of_nil in Hkv.
Qed.

Lemma keys_inj {A} (d : list (string * A)) a b : NoDup (keys d) -> a ∈ d -> b ∈ d -> a.1 = b.1 -> a = b.
Proof.
  intros Hd Ha Hb Heq. destruct a as [k v], b as [k' v']; simpl in Heq; subst k'.
  apply (dget_nodup _ _ _ Hd) in Ha, Hb. congruence.
Qed.

(** One row: the clock is read, and a row that is due is removed. *)
Lemma expire_head id row w r w' :
  NoDup (keys (silences (state w))) -> (id, row) ∈ silences (state w) ->
  (t ← now clock;
   if row_expires_at row * TICKS <=? t then append "expiry" "elapsed" (Some (row_owner row)) (Remove id) else mret tt) w = (r, w') ->
  expiry [(id, row)] w w' r /\
  (state w' = state w \/ silences (state w') = filter (fun kv => kv.1 <> id) (silences (state w))).
Proof.
  intros Hd Hin. unfold now, step, mbind, eff_bind, mret, eff_ret. cbn.
  destruct (Z.leb_spec (row_expires_at row * TICKS) (clock (steps w))) as [Hdue|Hdue].
  2: { intros [= <- <-]. split; [|by left]. split; simpl; [done|done|by exists []|lia|done|].
       intros _ kv ->%list_elem_of_singleton. exists (steps w). split; [lia|]. unfold due. simpl. split; [lia|done]. }
  intros H. apply append_cases in H as [Hs H]. simpl in Hs.
  assert (changed (Remove id) (state w) = Ok (filter (fun kv => kv.1 <> id) (silences (state w)))) as Hc.
  { cbn [changed]. unfold has_key. rewrite (proj2 (mem_true id _)); [done|].
    unfold keys. apply list_elem_of_fmap. by exists (id, row). }
  destruct r as [[]|e].
  - destruct H as (rows & Hrows & Hst & _ & _ & Hl). cbn [state] in *. rewrite Hc in Hrows. apply Ok_inj in Hrows as <-.
    rewrite Hst. cbn [next_state silences]. split; [|by right]. split; rewrite ?Hst; cbn [next_state silences].
    + by intros kv [_ ?]%list_elem_of_filter.
    + intros kv Hkv Hne. apply list_elem_of_filter. split; [|done]. intros Heq. apply Hne, list_elem_of_singleton.
      by apply (keys_inj _ _ _ Hd).
    + eexists [_]. split; [exact Hl|]. apply Forall_singleton. by eexists.
    + lia.
    + done.
    + intros _ kv ->%list_elem_of_singleton. exists (steps w). split; [lia|]. unfold due. simpl.
      split; [by intros [? _]%list_elem_of_filter|done].
  - destruct H as (Hex & Hst & Hl & _). cbn [state log] in *. split; [|by left].
    split; rewrite ?Hst; [done|done|by exists []|lia| |done].
    intros e' [= <-]. rewrite Hc in Hex. naive_solver.
Qed.

Lemma expire_rows_expiry l w r w' :
  NoDup (keys (silences (state w))) -> NoDup (keys l) -> (forall kv, kv ∈ l -> kv ∈ silences (state w)) ->
  expire_rows l w = (r, w') -> expiry l w w' r.
Proof.
  revert w. induction l as [|[id row] l IH]; intros w Hd Hl Hsub; [intros [= <- <-]; apply expiry_nil|].
  cbn [SilenceJournal.expire_rows]. intros H.
  destruct ((t ← now clock;
    if row_expires_at row * TICKS <=? t then append "expiry" "elapsed" (Some (row_owner row)) (Remove id) else mret tt) w)
    as [r1 w1] eqn:H1.
  assert ((match r1 with Ok _ => expire_rows l w1 | Raise e => (Raise e, w1) end) = (r, w')) as H2.
  { rewrite <-H. clear -H1. unfold mbind, eff_bind in *. destruct (now clock w) as [[t|e] w0]; [|by injection H1 as <- <-].
    rewrite H1. by destruct r1. }
  clear H. apply expire_head in H1 as [H1 Hst]; [|done|apply Hsub; by left].
  apply NoDup_cons in Hl as [Hid Hl].
  assert (forall kv, kv ∈ l -> kv ∉ [(id, row)]) as Hne.
  { intros kv Hkv ->%list_elem_of_singleton. apply Hid. unfold keys. apply list_elem_of_fmap. by exists (id, row). }
  destruct r1 as [[]|e].
  - assert (NoDup (keys (silences (state w1)))) as Hd1.
    { destruct Hst as [->| ->]; [done|]. by apply keys_filter. }
    assert (forall kv, kv ∈ l -> kv ∈ silences (state w1)) as Hsub1.
    { intros kv Hkv. apply (ex_others _ _ _ _ H1); [apply Hsub; by right|auto]. }
    specialize (IH w1 Hd1 Hl Hsub1 H2). destruct H1 as [Ha Hb (n1 & Hc & Hc') He Hf Hg].
    destruct IH as [Ja Jb (n2 & Jc & Jc') Je Jf Jg]. split; [by auto| | |lia|done|].
    + intros kv Hkv Hn. apply not_elem_of_cons in Hn as [Hn1 Hn2]. apply Jb; [|done]. apply Hb; [done|].
      by rewrite list_elem_of_singleton.
    + exists (n2 ++ n1)%list. split; [by rewrite <-app_assoc, <-Hc|by apply Forall_app_2].
    + intros Hok kv Hkv. apply elem_of_cons in Hkv as [->|Hkv].
      * destruct (Hg eq_refl (id, row)) as (n & Hn & Hiff); [by left|]. exists n. split; [lia|]. rewrite <-Hiff.
        split; [by apply Ja|]. intros Hk. apply Jb; [done|]. intros Hk'. by apply (Hne _ Hk'), list_elem_of_singleton.
      * destruct (Jg Hok kv Hkv) as (n & Hn & Hiff). exists n. split; [lia|done].
  - injection H2 as <- <-. destruct H1 as [Ha Hb Hc He Hf _]. split; [done| |done|done|done|done].
    intros kv Hkv Hn. apply Hb; [done|]. apply not_elem_of_cons in Hn as [Hn _]. by rewrite list_elem_of_singleton.
Qed.

(** A pass that ends has removed what was due and nothing else. *)
Lemma expire_expiry w r w' : journal_wf (state w) -> expire w = (r, w') -> expiry (silences (state w)) w w' r.
Proof. intros Hw. pose proof (jw_distinct _ Hw). by apply expire_rows_expiry. Qed.

(** Every operation of the journal keeps it readable. *)
Lemma append_preserves action result own c : change_ok c -> preserves world_ok (append action result own c).
Proof. intros Hc w Hw. destruct (append _ _ _ _ w) as [r w'] eqn:H. by apply append_world_ok in H. Qed.
Lemma step_preserves : preserves world_ok step.
Proof. by intros w [? ? ?]. Qed.
Lemma note_preserves e : preserves world_ok (note e).
Proof. by intros w [? ? ?]. Qed.
Lemma now_preserves : preserves world_ok (now clock).
Proof. by intros w [? ? ?]. Qed.

#[local] Hint Resolve append_preserves step_preserves note_preserves now_preserves : preserves.
#[local] Hint Extern 1 (change_ok _) => exact I : preserves.

Lemma expire_rows_preserves l : preserves world_ok (expire_rows l).
Proof.
  induction l as [|[id row] l IH]; [by apply preserves_ret|]. cbn [SilenceJournal.expire_rows]. preserves.
Qed.
Lemma expire_preserves : preserves world_ok expire.
Proof. unfold expire. preserves. apply expire_rows_preserves. Qed.
(** Under a clock that does not go back, an expiry pass that ends has removed
    every silence that was due when it began, and none that is not due when it
    ends. *)
Theorem expiry_exact w u w' kv :
  (forall m n, (m <= n)%nat -> clock m <= clock n) -> journal_wf (state w) -> expire w = (Ok u, w') ->
  (kv ∈ silences (state w') -> kv ∈ silences (state w) /\ ~ due (steps w) kv.2) /\
  (kv ∈ silences (state w) -> ~ due (steps w') kv.2 -> kv ∈ silences (state w')).
Proof.
  intros Hclock Hw H. destruct u. apply expire_expiry in H as [Hsub _ _ _ _ Hdone]; [|done]. specialize (Hdone eq_refl kv).
  assert (kv ∈ silences (state w) -> exists n, (steps w <= n < steps w')%nat /\
    (kv ∈ silences (state w') <-> ~ due n kv.2)) as Hd by done.
  split.
  - intros Hin. destruct (Hd (Hsub _ Hin)) as (n & Hn & Hiff). split; [by apply Hsub|]. apply Hiff in Hin.
    unfold due in *. specialize (Hclock (steps w) n ltac:(lia)). lia.
  - intros Hin Hdue. destruct (Hd Hin) as (n & Hn & Hiff). apply Hiff. unfold due in *.
    specialize (Hclock n (steps w') ltac:(lia)). lia.
Qed.

(** However a publication ends, the journal is wholly the old or wholly the
    new one.  An append that returns has its entry last in the audit, in memory,
    in the file and in the file that survives a power loss; one that raises left
    memory as it was, and each of the two files is the old one or the new one. *)
Theorem append_atomic action result own c w r w' :
  world_ok w -> change_ok c -> append action result own c w = (r, w') ->
  let e := entry_at w action result own c in
  match r with
  | Ok _ => changed c (state w) = Ok (silences (state w')) /\ last (audit (state w')) = Some e /\
      load (visible w') = Ok (sorted_silences (state w')) /\ load (durable w') = Ok (sorted_silences (state w'))
  | Raise _ => state w' = state w /\ exists rows, let new := Some (written (next_state w e rows)) in
      (visible w' = visible w \/ visible w' = new) /\ (durable w' = durable w \/ durable w' = new)
  end.
Proof.
  intros Hw Hc H. pose proof (append_world_ok _ _ _ _ _ _ _ H Hc Hw) as Hw'. apply append_cases in H as [_ H].
  cbv zeta in *. destruct r as [u|ex].
  - destruct H as (rows & Hrows & Hst & (Hsize & Hv & _) & Hd & _).
    assert (load (Some (written (state w'))) = Ok (sorted_silences (state w'))) as Hl.
    { apply load_written; [apply Hw'|done]. }
    rewrite Hd, Hv. split; [by rewrite Hrows, Hst|]. split; [|done].
    rewrite Hst. cbn [next_state audit]. unfold last_n. rewrite drop_app_le, last_snoc; [done|].
    rewrite length_app. simpl. lia.
  - destruct H as (_ & Hs & _ & [[-> ->]|(rows & _ & _ & -> & [->| ->])]); (split; [done|]);
      [exists [] | exists rows | exists rows]; auto.
Qed.
End Spec.

(** ** Witnesses *)

Definition sample_id : string := "01234567-89ab-cdef-0123-456789abcdef".
Definition sample_row (expires : Z) : row := Row "ops" expires (VDict []) (VStr "reboot").
Definition sample_journal : jstate := JState (VInt 1) [(sample_id, sample_row 10)] [].
Definition sample_world : world :=
  World sample_journal (Some (written (fun _ => []) sample_journal)) (Some (written (fun _ => []) sample_journal)) 0 [].
Definition sample_expire : res unit * world :=
  expire (fun _ => []) (fun _ => 20 * TICKS) (fun _ => Written) sample_world.

Lemma sample_journal_wf : journal_wf (fun _ => None) sample_journal.
Proof.
  split; simpl; [done|apply NoDup_singleton|lia| |lia]. apply Forall_singleton. split; [vm_compute; reflexivity|reflexivity].
Qed.

Lemma sample_world_ok : world_ok (fun _ => None) sample_world.
Proof. split; [apply sample_journal_wf| |]; (exists sample_journal; split; [vm_compute; reflexivity|apply sample_journal_wf]). Qed.

Lemma expiry_exact_witness :
  sample_expire.1 = Ok tt /\ silences (state sample_expire.2) = [] /\
  ((sample_id, sample_row 10) ∈ silences (state sample_expire.2) ->
   (sample_id, sample_row 10) ∈ silences (state sample_world) /\ ~ due (fun _ => 20 * TICKS) 0 (sample_row 10)).
Proof.
  split; [vm_compute; reflexivity|]. split; [vm_compute; reflexivity|].
  refine (proj1 (expiry_exact (fun _ => None) (fun _ => []) (fun _ => 20 * TICKS) (fun _ => Written) sample_world tt
    sample_expire.2 (sample_id, sample_row 10) _ sample_journal_wf _)).
  - intros. lia.
  - vm_compute. reflexivity.
Defined.

Definition sample_append (f : fault) : res unit * world :=
  append (fun _ => []) (fun _ => 20 * TICKS) (fun _ => f) "delete" "attempt" (Some "ops") (About sample_id) sample_world.

Lemma append_atomic_witness :
  exists w', append (fun _ => []) (fun _ => 20 * TICKS) (fun _ => Written) "delete" "attempt" (Some "ops") (About sample_id)
    sample_world = (Ok tt, w') /\
  last (audit (state w')) = Some (entry_at (fun _ => 20 * TICKS) sample_world "delete" "attempt" (Some "ops") (About sample_id)).
Proof.
  exists (sample_append Written).2. split; [vm_compute; reflexivity|].
  refine (proj1 (proj2 (append_atomic (fun _ => None) (fun _ => []) (fun _ => 20 * TICKS) (fun _ => Written) "delete" "attempt"
    (Some "ops") (About sample_id) sample_world (Ok tt) (sample_append Written).2 sample_world_ok I _))).
  vm_compute. reflexivity.
Defined.
