(* ===== verification/SilenceGateway.v ===== *)
(** * Silence gateway: the HTTP authority

    [GatewayServer], [GatewayHandler] and [AlertmanagerBackend.request] of
    [observability-silence-gateway.py]: a request is authenticated, journalled
    and only then sent on.  [parse hook] is [json.loads] with an
    [object_pairs_hook].  A reply that cannot be delivered raises after
    everything else a request does, so it is not told apart from one that can. *)

From stdpp Require Import sorting.
From S2P Require Import Prelude PyValue PyStr Uuid Json Regex ListenerCollisions SilencePolicy SilenceJournal.
#[local] Open Scope string_scope.
#[local] Open Scope Z_scope.

(** What the peer sent: [received] is the body that arrives before it closes the
    connection or, when [stalled], stops sending. *)
Record request := Request {
  command : string; path : string; headers : list (string * string); received : list Z; stalled : bool }.

(** ** Header access: [email.message.Message] *)

Definition get_all (name : string) (q : request) : list string :=
  snd <$> filter (fun h => lower h.1 = lower name) (headers q).
Definition header (name : string) (q : request) : option string := head (get_all name q).
(** [bool(self.headers.get(name))] *)
Definition header_set (name : string) (q : request) : bool :=
  match header name q with Some s => negb (bool_decide (s = "")) | None => false end.
(** [self.headers.get("Content-Length") not in (None, "0")] *)
Definition sends_body (q : request) : bool :=
  match header "Content-Length" q with Some s => negb (bool_decide (s = "0")) | None => false end.

Definition content_type (q : request) : string :=
  match header "Content-Type" q with
  | None => "text/plain"
  | Some s =>
      let t := lower (strip is_space (of_chars (partition_chars ";"%char (chars s)).1.1)) in
      if (length (filter (fun c => c = "/"%char) (chars t)) =? 1)%nat then t else "text/plain"
  end.

(** [pat in s] *)
Fixpoint contains_chars (pat l : list ascii) : bool :=
  prefix_of pat l || match l with [] => false | _ :: l => contains_chars pat l end.

Definition os_error : exn := Exn OSError "".
Definition ready_routes : list (string * string) :=
  [("GET", "/-/ready"); ("GET", "/metrics"); ("POST", "/api/v2/alerts")].
(** [route in allowed] *)
Definition allowed (q : request) (own : option string) : bool :=
  bool_decide ((command q, path q) ∈ ready_routes)
  || match own with Some _ => bool_decide ((command q, path q) = ("GET", "/api/v2/alerts")) | None => false end.

Definition silences_prefix : string := "/v1/silences/".
(** [self.path.removeprefix("/v1/silences/")] of a path with that prefix *)
Definition path_id (q : request) : string := of_chars (drop (length (chars silences_prefix)) (chars (path q))).

Definition action_of (q : request) : string :=
  if bool_decide (path q = "/v1/silences") then "create"
  else if startswith (path q) silences_prefix then "delete" else "request".

Definition item_le (a b : string * value) : Prop := str_le a.1 b.1.
#[export] Instance item_le_dec : RelDecision item_le.
Proof. intros a b. unfold item_le. apply _. Defined.

Definition silence_payload (own : string) (d : list (string * value)) : value :=
  VDict [("createdBy", VStr own); ("comment", field d "reason");
         ("startsAt", field d "starts_at"); ("endsAt", field d "ends_at");
         ("matchers", VList ((fun kv => VDict [("name", VStr kv.1); ("value", kv.2);
                                               ("isRegex", VBool false); ("isEqual", VBool true)])
                             <$> merge_sort item_le (dict_of (field d "matchers"))))].

Definition error_body (m : string) : payload := Json (VDict [("error", VStr m)]).

Section Gateway.
Context (unicode_int : string -> option Z) (unicode_int16 : string -> option Z)
  (unicode_strptime : string -> option Z) (float_repr : pyfloat -> list ascii) (sha256 : string -> string)
  (parse : (list (string * value) -> res value) -> list Z -> res value)
  (clock : nat -> Z) (faults : nat -> fault) (answers : nat -> exchange)
  (pol : policy) (auth : authentication).

Notation append := (append float_repr clock faults).
Notation expire := (expire float_repr clock faults).
Notation uuid_str := (uuid_str unicode_int16).

(** [json.loads(payload)] and with [object_pairs_hook=unique_object] *)
Definition loads (l : list Z) : res value := parse (fun pairs => Ok (VDict (dmerge [] pairs))) l.
Definition loads_unique (l : list Z) : res value := parse unique_object l.

(** [str(UUID(v))] *)
Definition uuid_value (v : value) : res string :=
  match v with
  | VStr s => of_option (uuid_str s) (Exn ValueError "uuid")
  | VNone => Raise (Exn TypeError "uuid")
  | _ => Raise (Exn AttributeError "replace")
  end.

Definition reply (status : Z) (body : payload) : eff world unit := note (Replied status "application/json" body).

Definition RESPONSE_LIMIT : Z := 262144.
Definition response (status : Z) (body : list Z) : res (list Z) :=
  let got := take (Z.to_nat (RESPONSE_LIMIT + 1)) body in
  raise_if ((RESPONSE_LIMIT <? Z.of_nat (length got)) || negb ((200 <=? status) && (status <? 300)))
    (gateway_error "backend-refused") ;;;
  Ok got.

(** [AlertmanagerBackend.request] *)
Definition backend_request (method path : string) (b : option payload) : eff world (list Z) :=
  note (Asked method path b) ;;
  n ← step;
  eff_lift match answers n with
    | Unreachable => Raise (gateway_error "backend-unavailable")
    | Answered status body => response status body
    end.

(** [GatewayHandler.body] *)
Definition read_body (limit : Z) (q : request) : res (list Z) :=
  let sizes := get_all "Content-Length" q in
  raise_if (negb (length sizes =? 1)%nat || header_set "Transfer-Encoding" q
            || negb (bool_decide (content_type q = "application/json"))) (gateway_error "request-framing") ;;;
  let* size := of_option (int_str unicode_int (default "" (head sizes))) (Exn ValueError "int") in
  raise_if ((size <? 1) || (limit <? size)) (gateway_error "request-size") ;;;
  let got := take (Z.to_nat size) (received q) in
  raise_if ((Z.of_nat (length got) <? size) && stalled q) os_error ;;;
  raise_if (negb (Z.of_nat (length got) =? size)) (gateway_error "request-size") ;;;
  Ok got.

Definition authenticate (q : request) : res (option string) :=
  raise_if (negb (length (get_all "Authorization" q) =? 1)%nat) (gateway_error "unauthenticated") ;;;
  owner sha256 auth (default "" (header "Authorization" q)).

(** ** The three kinds of request *)

(** Reads, and the alerts of the sender. *)
Definition forward (q : request) : eff world unit :=
  b ← eff_lift (if bool_decide (command q = "POST") then let* b := read_body 262144 q in Ok (Some b) else Ok None);
  eff_lift (match b with
    | Some b => let* v := loads b in raise_if (negb (is_list v)) (gateway_error "alerts-shape")
    | None => raise_if (sends_body q || header_set "Transfer-Encoding" q) (gateway_error "request-framing")
    end) ;;
  response ← backend_request (command q) (path q) (Bytes <$> b);
  note (Replied 200 (if contains_chars (chars "/api/") (chars (path q)) then "application/json" else "text/plain")
          (Bytes response)).

Definition delete_silence (q : request) (own : string) : eff world unit :=
  let id := path_id q in
  canonical ← eff_lift (of_option (uuid_str id) (Exn ValueError "uuid"));
  eff_lift (raise_if (negb (bool_decide (canonical = id)) || sends_body q || header_set "Transfer-Encoding" q)
    (gateway_error "delete-shape")) ;;
  expire ;;
  w ← eff_get;
  if match dget id (silences (state w)) with Some r => bool_decide (row_owner r = own) | None => false end then
    append "delete" "attempt" (Some own) (About id) ;;
    backend_request "DELETE" ("/api/v2/silence/" +:+ id) None ;;
    append "delete" "deleted" (Some own) (Remove id) ;;
    reply 200 (Json (VDict [("silence_id", VStr id); ("deleted", VBool true)]))
  else
    append "delete" "refused" (Some own) NoChange ;;
    reply 403 (error_body "delete-refused").

Definition create_silence (q : request) (own : string) : eff world unit :=
  request ← eff_lift (let* b := read_body 8192 q in loads_unique b);
  t ← now clock;
  expiry ← eff_lift (validate_silence unicode_strptime request pol t);
  expire ;;
  w ← eff_get;
  eff_lift (raise_if (256 <=? length (silences (state w)))%nat (gateway_error "audit-capacity")) ;;
  append "create" "attempt" (Some own) NoChange ;;
  let d := dict_of request in
  answer ← backend_request "POST" "/api/v2/silences" (Some (Json (silence_payload own d)));
  id ← eff_lift (let* result := loads answer in let* id := index result "silenceID" in uuid_value id);
  append "create" "created" (Some own) (Create id (Row own expiry (field d "matchers") (field d "reason"))) ;;
  reply 201 (Json (VDict [("silence_id", VStr id)])).

Definition route (q : request) (own : option string) : eff world unit :=
  if allowed q own then forward q else
  match own with
  | Some own =>
      if bool_decide (command q = "DELETE") && startswith (path q) silences_prefix then delete_silence q own
      else if bool_decide ((command q, path q) = ("POST", "/v1/silences")) then create_silence q own
      else append (action_of q) "route-refused" (Some own) NoChange ;; reply 403 (error_body "route-refused")
  | None => append (action_of q) "route-refused" None NoChange ;; reply 403 (error_body "route-refused")
  end.

(** Journal the refusal; when even that fails the reply is 503. *)
Definition refuse (q : request) (own : option string) (reason : string) (status : Z) : eff world unit :=
  recorded ← eff_try (append (action_of q) reason own NoChange ;; mret true) [GatewayError]
    (fun _ => reply 503 (error_body "audit-unavailable") ;; mret false);
  if recorded : bool then reply status (error_body reason) else mret tt.

Definition status_of (reason : string) : Z :=
  if bool_decide (reason = "unauthenticated") then 401 else if startswith reason "backend-" then 502 else 400.

(** [GatewayHandler.dispatch] *)
Definition dispatch (q : request) : eff world unit :=
  let own := match authenticate q with Ok own => own | Raise _ => None end in
  eff_try (own ← eff_lift (authenticate q); route q own) [GatewayError; ValueError; KeyError; TypeError]
    (fun e => if catches GatewayError (exn_class e) then refuse q own (exn_msg e) (status_of (exn_msg e))
              else refuse q own "invalid-request" 400).

(** [GatewayServer.__init__] up to the socket: the contracts, the journal that
    [f] holds, and a first expiry. *)
Definition start (pol_value auth_value : value) (host : string) (f : option file) : res (policy * authentication * (res unit * world)) :=
  let* p := policy_contract pol_value in
  let* a := authentication_contract auth_value in
  raise_if (negb (bool_decide (host = "127.0.0.1"))) (gateway_error "listen-contract") ;;;
  let* s := load unicode_int16 f in
  Ok (p, a, expire (World s f f 0 [])).

(** [GatewayServer.service_actions] *)
Definition service_actions : eff world unit := expire.
End Gateway.

(** ** Operation of the gateway *)

Section Operation.
Context (unicode_int : string -> option Z) (unicode_int16 : string -> option Z)
  (unicode_strptime : string -> option Z) (float_repr : pyfloat -> list ascii) (sha256 : string -> string)
  (parse : (list (string * value) -> res value) -> list Z -> res value)
  (clock : nat -> Z) (faults : nat -> fault) (answers : nat -> exchange)
  (pol : policy) (auth : authentication).
(** The contracts that [start] checks. *)
Hypothesis auth_wf : authentication_wf auth.

Notation append := (append float_repr clock faults).
Notation expire := (expire float_repr clock faults).
Notation world_ok := (world_ok unicode_int16).
Notation loads := (loads parse).
Notation backend_request := (backend_request answers).
Notation authenticate := (authenticate sha256 auth).
Notation dispatch := (dispatch unicode_int unicode_int16 unicode_strptime float_repr sha256 parse clock faults answers pol auth).
Notation route := (route unicode_int unicode_int16 unicode_strptime float_repr parse clock faults answers pol).
Notation forward := (forward unicode_int parse answers).
Notation delete_silence := (delete_silence unicode_int16 float_repr clock faults answers).
Notation create_silence :=
  (create_silence unicode_int unicode_int16 unicode_strptime float_repr parse clock faults answers pol).
Notation refuse := (refuse float_repr clock faults).
Notation written := (written float_repr).

Lemma uuid_value_Ok v id : uuid_value unicode_int16 v = Ok id -> uuid_str unicode_int16 id = Some id.
Proof. destruct v; try done. simpl. rewrite of_option_Ok. apply uuid_str_canonical. Qed.

Lemma authenticate_owner q o :
  authenticate q = Ok (Some o) ->
  get_all "Authorization" q <> [] /\
  (o, sha256 (bearer (default "" (header "Authorization" q)))) ∈ owners auth.
Proof.
  unfold SilenceGateway.authenticate. intros H. apply raise_if_seq_Ok in H as [Hn H]. bprop. split; [by destruct (get_all _ q)|].
  by apply owner_spec in H as [_ ?].
Qed.

Lemma principal_alias q o : authenticate q = Ok (Some o) -> alias_ok o.
Proof.
  intros H. apply authenticate_owner in H as [_ H]. pose proof (aw_names _ auth_wf) as Hn. rewrite Forall_forall in Hn.
  apply owner_alias. by apply (Hn _ H).
Qed.

(** *** The journal stays readable *)

#[local] Hint Resolve append_preserves expire_preserves step_preserves note_preserves now_preserves : preserves.
#[local] Hint Extern 1 (change_ok _ _) => exact I : preserves.

Lemma backend_preserves m p b : preserves world_ok (backend_request m p b).
Proof. unfold SilenceGateway.backend_request. preserves. Qed.
Lemma reply_preserves s b : preserves world_ok (reply s b).
Proof. apply note_preserves. Qed.
#[local] Hint Resolve backend_preserves reply_preserves : preserves.

Lemma create_preserves q o : alias_ok o -> preserves world_ok (create_silence q o).
Proof.
  intros Ho. unfold SilenceGateway.create_silence. preserves.
  apply append_preserves. split; [|done].
  repeat match goal with H : (let* _ := _ in _) = Ok _ |- _ => apply res_bind_Ok in H as (? & ? & H) end.
  by eapply uuid_value_Ok.
Qed.

Lemma dispatch_preserves q : preserves world_ok (dispatch q).
Proof.
  unfold SilenceGateway.dispatch. apply preserves_try; [|intros e; unfold SilenceGateway.refuse; preserves].
  apply preserves_lift_bind. intros own Hown. unfold SilenceGateway.route. unfold SilenceGateway.forward, SilenceGateway.delete_silence.
  destruct (allowed q own); [preserves|]. destruct own as [own|]; [|preserves].
  destruct (_ && _); [preserves|]. destruct (bool_decide _); [|preserves]. apply create_preserves. by eapply principal_alias.
Qed.
(** *** What is sent on *)

Definition entry_is (action result : string) (own : option string) (c : change) (v : value) : Prop :=
  exists t, v = entry t action result own c.

(** A body that was sent: at most [limit] bytes, the first that arrived. *)
Definition body_of (limit : Z) (q : request) (raw : list Z) : Prop :=
  raw = take (length raw) (received q) /\ Z.of_nat (length raw) <= limit.

(** What Alertmanager may be asked on behalf of [own] in a request received in
    [w0], when [h] is what happened since, latest first: its readiness and metrics;
    its alerts, by an owner; a list of alerts that was sent; a silence for an owner;
    the deletion of a silence for its owner.  Nothing else. *)
Inductive permitted (q : request) (own : option string) (w0 w : world) (h : list event) : event -> Prop :=
| permitted_read p :
    command q = "GET" -> path q = p -> p ∈ ["/-/ready"; "/metrics"] -> permitted q own w0 w h (Asked "GET" p None)
| permitted_query o :
    own = Some o -> command q = "GET" -> path q = "/api/v2/alerts" -> permitted q own w0 w h (Asked "GET" "/api/v2/alerts" None)
| permitted_alerts raw l :
    command q = "POST" -> path q = "/api/v2/alerts" -> body_of 262144 q raw -> loads raw = Ok (VList l) ->
    permitted q own w0 w h (Asked "POST" "/api/v2/alerts" (Some (Bytes raw)))
| permitted_create o n raw d reason m start end_ v :
    own = Some o -> command q = "POST" -> path q = "/v1/silences" ->
    body_of 8192 q raw -> loads_unique parse raw = Ok (VDict d) -> (steps w0 <= n < steps w)%nat ->
    silence_ok unicode_strptime pol (clock n) d reason m start end_ ->
    entry_is "create" "attempt" own NoChange v -> head h = Some (Recorded v) ->
    permitted q own w0 w h (Asked "POST" "/api/v2/silences" (Some (Json (silence_payload o d))))
| permitted_delete o id r v :
    own = Some o -> command q = "DELETE" -> path q = ("/v1/silences/" +:+ id)%string -> uuid_str unicode_int16 id = Some id ->
    (id, r) ∈ silences (state w0) -> row_owner r = o ->
    entry_is "delete" "attempt" own (About id) v -> head h = Some (Recorded v) ->
    permitted q own w0 w h (Asked "DELETE" ("/api/v2/silence/" +:+ id) None).

Lemma read_body_Ok limit q raw : read_body unicode_int limit q = Ok raw -> body_of limit q raw.
Proof.
  unfold read_body. intros H. apply raise_if_seq_Ok in H as [_ H]. apply res_bind_Ok in H as (size & _ & H).
  apply raise_if_seq_Ok in H as [H1 H]. apply raise_if_seq_Ok in H as [_ H]. apply raise_if_seq_Ok in H as [H2 [= <-]].
  apply negb_false_iff in H2. apply orb_false_iff in H1 as [H0 H1].
  set (got := take _ (received q)) in *. assert (length got = Z.to_nat size) as Hl by lia. split; [by rewrite Hl|lia].
Qed.

Lemma allowed_routes q own : allowed q own = true ->
  (command q = "GET" /\ path q ∈ ["/-/ready"; "/metrics"]) \/ (command q = "POST" /\ path q = "/api/v2/alerts") \/
  (exists o, own = Some o /\ command q = "GET" /\ path q = "/api/v2/alerts").
Proof.
  unfold allowed, ready_routes. rewrite orb_true_iff, bool_decide_eq_true, !elem_of_cons. intros [H|H].
  - destruct H as [[= -> ->]|[[= -> ->]|[[= -> ->]|?%not_elem_of_nil]]]; [left|left|right; left|done]; (split; [done|]); set_solver.
  - destruct own as [o|]; [|done]. apply bool_decide_eq_true in H as [= -> ->]. right. right. by exists o.
Qed.

(** Events of a request, latest first, before its reply. *)
Definition event_ok (q : request) (own : option string) (w0 w : world) (h : list event) (e : event) : Prop :=
  match e with
  | Recorded _ => True
  | Asked _ _ _ => authenticate q = Ok own /\ permitted q own w0 w h e
  | Replied _ _ _ => False
  end.
Fixpoint trace_ok (q : request) (own : option string) (w0 w : world) (l : list event) : Prop :=
  match l with [] => True | e :: h => event_ok q own w0 w h e /\ trace_ok q own w0 w h end.

Definition running (q : request) (own : option string) (w0 w : world) : Prop :=
  (steps w0 <= steps w)%nat /\ exists new, log w = (new ++ log w0)%list /\ trace_ok q own w0 w new.

Lemma trace_ok_later q own w0 w w' l : (steps w <= steps w')%nat -> trace_ok q own w0 w l -> trace_ok q own w0 w' l.
Proof.
  intros Hs. induction l as [|e l IH]; [done|]. intros [He Hl]. split; [|auto]. destruct e as [|m p b|]; [done| |done].
  destruct He as [Ha He]. split; [done|].
  inversion He; subst; [by apply permitted_read|by eapply permitted_query|by eapply permitted_alerts|eapply permitted_create; eauto; lia|by eapply permitted_delete].
Qed.

Lemma running_start q own w : running q own w w.
Proof. split; [done|]. by exists []. Qed.

Lemma trace_ok_recorded q own w0 w new l :
  Forall recorded new -> trace_ok q own w0 w l -> trace_ok q own w0 w (new ++ l).
Proof. intros Hnew Hl. by induction Hnew as [|e new [v ->] _ IH]. Qed.

Lemma running_events q own w0 w w' new :
  running q own w0 w -> (steps w <= steps w')%nat -> log w' = (new ++ log w)%list -> Forall recorded new ->
  running q own w0 w'.
Proof.
  intros [Hs (h & Hl & Ht)] Hs' Hl' Hnew. split; [lia|]. exists (new ++ h)%list. split; [by rewrite Hl', Hl, <-app_assoc|].
  apply trace_ok_recorded; [done|]. by eapply trace_ok_later.
Qed.

Lemma running_append q own w0 w action result o c r w' :
  running q own w0 w -> append action result o c w = (r, w') -> running q own w0 w'.
Proof.
  intros Hw H. apply append_cases in H as [Hs H]. destruct r as [u|e].
  - destruct H as (rows & _ & _ & _ & _ & Hl). eapply (running_events _ _ _ _ _ [_]); [done|lia|exact Hl|].
    apply Forall_singleton. by eexists.
  - destruct H as (_ & _ & Hl & _). by eapply (running_events _ _ _ _ _ []); [done|lia|exact Hl|].
Qed.

Lemma running_expire q own w0 w r w' :
  journal_wf unicode_int16 (state w) -> running q own w0 w -> expire w = (r, w') -> running q own w0 w'.
Proof.
  intros Hwf Hw H. apply (expire_expiry unicode_int16) in H as [_ _ (new & Hl & Hnew) Hs _ _]; [|done].
  by eapply running_events.
Qed.

Lemma running_ask q own w0 w m p b r w' :
  authenticate q = Ok own -> running q own w0 w ->
  (forall h, log w = (h ++ log w0)%list -> permitted q own w0 w h (Asked m p b)) ->
  backend_request m p b w = (r, w') ->
  running q own w0 w' /\ state w' = state w /\ visible w' = visible w /\ durable w' = durable w.
Proof.
  intros Ha [Hs (h & Hl & Ht)] Hp H.
  assert (steps w' = S (steps w) /\ log w' = Asked m p b :: log w /\
    state w' = state w /\ visible w' = visible w /\ durable w' = durable w) as (Hs' & Hl' & ?).
  { revert H. unfold SilenceGateway.backend_request, mbind, eff_bind, note, eff_modify, step, eff_lift. cbn [steps].
    generalize (match answers (steps w) with Unreachable => Raise (gateway_error "backend-unavailable")
                | Answered status body => response status body end). by intros ? [= <- <-]. }
  split; [|done]. split; [lia|]. exists (Asked m p b :: h). split; [by rewrite Hl', Hl|].
  assert (trace_ok q own w0 w (Asked m p b :: h)) as Ht' by (split; [split; [done|by apply Hp]|done]).
  eapply trace_ok_later; [|exact Ht']. lia.
Qed.
(** *** What is answered *)

(** The process's state is what both a restart and a power loss find. *)
Definition settled (w : world) : Prop :=
  visible w = Some (written (state w)) /\ durable w = Some (written (state w)).

Inductive truthful (own : option string) (w : world) : Z -> payload -> Prop :=
| truthful_created o id r :
    own = Some o -> (id, r) ∈ silences (state w) -> row_owner r = o -> settled w ->
    truthful own w 201 (Json (VDict [("silence_id", VStr id)]))
| truthful_deleted o id :
    own = Some o -> id ∉ keys (silences (state w)) -> settled w ->
    truthful own w 200 (Json (VDict [("silence_id", VStr id); ("deleted", VBool true)]))
| truthful_forwarded l : truthful own w 200 (Bytes l)
| truthful_refused s m : 400 <= s -> truthful own w s (error_body m).

Definition answered (q : request) (own : option string) (w0 w : world) : Prop :=
  exists s c b new, log w = (Replied s c b :: new ++ log w0)%list /\ (steps w0 <= steps w)%nat /\
    trace_ok q own w0 w new /\ truthful own w s b.

Definition outcome (q : request) (own : option string) (w0 : world) (r : res unit) (w : world) : Prop :=
  match r with Ok _ => answered q own w0 w | Raise _ => running q own w0 w end.

Lemma reply_outcome q own w0 w s c b r w' :
  running q own w0 w -> truthful own w s b -> note (Replied s c b) w = (r, w') -> outcome q own w0 r w'.
Proof.
  intros [Hs (new & Hl & Ht)] Hb [= <- <-]. simpl. exists s, c, b, new. simpl. split; [by rewrite Hl|]. split; [done|].
  split; [by eapply trace_ok_later; [|exact Ht]|]. destruct Hb; econstructor; eauto.
Qed.

Lemma append_settled action result o c w u w' : append action result o c w = (Ok u, w') -> settled w'.
Proof.
  intros H. apply append_cases in H as [_ (rows & _ & _ & (_ & Hv & _) & Hd & _)]. split; [done|by rewrite Hd].
Qed.

(** Journal something, then reply with an error. *)
Lemma append_reply_outcome q own w0 w action result o s m r w' :
  running q own w0 w -> 400 <= s ->
  (append action result o NoChange ;; reply s (error_body m)) w = (r, w') -> outcome q own w0 r w'.
Proof.
  intros Hw Hs H. apply eff_bind_cases in H as [(u & w1 & H1 & H)|(e & H1 & ->)].
  - eapply reply_outcome; [by eapply running_append|by constructor|exact H].
  - by eapply running_append.
Qed.

Lemma refuse_outcome q q' own w0 w o reason s r w' :
  running q own w0 w -> 400 <= s -> refuse q' o reason s w = (r, w') -> outcome q own w0 r w'.
Proof.
  intros Hw Hs. unfold SilenceGateway.refuse, eff_try. unfold mbind at 1, eff_bind at 1. unfold mbind at 1, eff_bind at 1.
  destruct (append (action_of q') reason o NoChange w) as [[u|e] w1] eqn:H1; apply (running_append _ _ _ _ _ _ _ _ _ _ Hw) in H1.
  - intros H. eapply reply_outcome; [exact H1|by constructor|exact H].
  - destruct (caught [GatewayError] e); [|by intros [= <- <-]].
    intros H. apply (reply_outcome q own w0 w1 503 "application/json" (error_body "audit-unavailable"));
      [exact H1|by apply truthful_refused|exact H].
Qed.

(** *** The three kinds of request *)

Lemma forward_outcome q own w r w' :
  authenticate q = Ok own -> allowed q own = true -> forward q w = (r, w') -> outcome q own w r w'.
Proof.
  intros Hauth Ha H. unfold SilenceGateway.forward in H. pose proof (running_start q own w) as Hw.
  apply eff_lift_cases in H as [(b & Hb & H)|(e & _ & -> & ->)]; [|done].
  apply eff_lift_cases in H as [(u & Hu & H)|(e & _ & -> & ->)]; [|done].
  assert (forall h w0, permitted q own w0 w h (Asked (command q) (path q) (Bytes <$> b))) as Hp.
  { intros h w0. apply allowed_routes in Ha as [[Hc Hp]|[[Hc Hp]|(o & Ho & Hc & Hp)]]; rewrite Hc in Hb; cbn in Hb.
    - injection Hb as <-. rewrite Hc. by apply permitted_read.
    - apply res_bind_Ok in Hb as (raw & Hraw%read_body_Ok & [= <-]). apply res_bind_Ok in Hu as (v & Hv & Hl).
      apply raise_if_Ok in Hl. bprop. apply is_list_true in Hl as [l ->]. rewrite Hc, Hp. by apply permitted_alerts with l.
    - injection Hb as <-. rewrite Hc, Hp. by apply permitted_query with o. }
  apply eff_bind_cases in H as [(l & w1 & H1 & H)|(e & H1 & ->)];
    apply (running_ask _ _ _ _ _ _ _ _ _ Hauth Hw) in H1 as (Hw1 & _); try done.
  eapply reply_outcome; [exact Hw1|constructor|exact H].
Qed.

Lemma prefix_of_drop p l : prefix_of p l = true -> l = (p ++ drop (length p) l)%list.
Proof.
  revert l. induction p as [|c p IH]; intros l; [done|]. destruct l as [|d l]; [done|]. cbn. intros [->%bool_decide_eq_true H]%andb_true_iff.
  f_equal. by apply IH.
Qed.

Lemma path_id_of q : startswith (path q) silences_prefix = true -> path q = ("/v1/silences/" +:+ path_id q)%string.
Proof.
  unfold startswith, path_id. intros H%prefix_of_drop. apply chars_inj. rewrite chars_app, chars_of_chars. exact H.
Qed.

Lemma delete_outcome q own o w r w' :
  world_ok w -> authenticate q = Ok own -> own = Some o -> command q = "DELETE" -> startswith (path q) silences_prefix = true ->
  delete_silence q o w = (r, w') -> outcome q own w r w'.
Proof.
  intros Hwf Hauth Hown Hcmd Hpath H. unfold SilenceGateway.delete_silence in H. pose proof (running_start q own w) as Hw.
  apply eff_lift_cases in H as [(id & Hid & H)|(e & _ & -> & ->)]; [|done]. apply of_option_Ok in Hid.
  apply eff_lift_cases in H as [(u & Hu & H)|(e & _ & -> & ->)]; [|done]. apply raise_if_Ok in Hu.
  rewrite !orb_false_iff in Hu. destruct Hu as [[Hu _] _]. bprop. subst id.
  set (id := path_id q) in *.
  apply eff_bind_cases in H as [(u1 & w1 & H1 & H)|(e & H1 & ->)]; [|eapply running_expire; eauto; apply Hwf].
  pose proof (running_expire _ _ _ _ _ _ (wo_state _ _ Hwf) Hw H1) as Hw1.
  pose proof (preserves_run _ _ _ _ _ (expire_preserves _ _ _ _) Hwf H1) as Hok1.
  apply (expire_expiry unicode_int16) in H1; [|apply Hwf].
  apply eff_bind_cases in H as [(w1' & w1'' & [= <- <-] & H)|(e & [=] & _)].
  destruct (dget id (silences (state w1))) as [row|] eqn:Hrow; [|by eapply append_reply_outcome in H].
  case_bool_decide as Howner; [|by eapply append_reply_outcome in H].
  assert ((id, row) ∈ silences (state w)) as Hin by (by apply (ex_sub _ _ _ _ _ H1), dget_Some_elem).
  apply eff_bind_cases in H as [(u2 & w2 & H2 & H)|(e & H2 & ->)]; [|by eapply running_append].
  pose proof (running_append _ _ _ _ _ _ _ _ _ _ Hw1 H2) as Hw2.
  pose proof (append_world_ok unicode_int16 _ _ _ _ _ _ _ _ _ _ H2 I Hok1) as Hok2.
  apply append_cases in H2 as [_ (rows & [= <-] & Hst2 & _ & _ & Hlog2)].
  assert (forall h, log w2 = (h ++ log w)%list -> permitted q own w w2 h (Asked "DELETE" ("/api/v2/silence/" +:+ id) None)) as Hp.
  { intros h Hh. apply (permitted_delete _ _ _ _ _ o id row (entry_at clock w1 "delete" "attempt" (Some o) (About id)));
      [done|done|by apply path_id_of|done|done|done|rewrite Hown; eexists; reflexivity|].
    destruct Hw1 as [_ (h1 & Hl1 & _)]. rewrite Hlog2, Hl1, app_comm_cons in Hh. apply (inj (.++ _)) in Hh. by rewrite <-Hh. }
  apply eff_bind_cases in H as [(l & w3 & H3 & H)|(e & H3 & ->)];
    apply (running_ask _ _ _ _ _ _ _ _ _ Hauth Hw2 Hp) in H3 as (Hw3 & Hst3 & _); [|done].
  apply eff_bind_cases in H as [(u4 & w4 & H4 & H)|(e & H4 & ->)]; [|exact (running_append _ _ _ _ _ _ _ _ _ _ Hw3 H4)].
  eapply reply_outcome; [exact (running_append _ _ _ _ _ _ _ _ _ _ Hw3 H4)|eapply truthful_deleted; [done| |by eapply append_settled]|exact H].
  apply append_cases in H4 as [_ (rows & Hrows & Hst4 & _)]. rewrite Hst4. simpl. cbn [changed] in Hrows.
  apply raise_if_seq_Ok in Hrows as [_ [= <-]]. unfold keys. by intros (kv & -> & [? _]%list_elem_of_filter)%list_elem_of_fmap.
Qed.
Lemma head_recorded q own w0 w w' e h :
  running q own w0 w -> log w' = Recorded e :: log w -> log w' = (h ++ log w0)%list -> head h = Some (Recorded e).
Proof. intros [_ (h1 & -> & _)] -> Hh. rewrite app_comm_cons in Hh. apply (inj (.++ _)) in Hh. by rewrite <-Hh. Qed.

Lemma create_outcome q own o w r w' :
  world_ok w -> authenticate q = Ok own -> own = Some o -> alias_ok o -> command q = "POST" -> path q = "/v1/silences" ->
  create_silence q o w = (r, w') -> outcome q own w r w'.
Proof.
  intros Hwf Hauth Hown Ho Hcmd Hpath H. unfold SilenceGateway.create_silence in H. pose proof (running_start q own w) as Hw.
  apply eff_lift_cases in H as [(v & Hv & H)|(e & _ & -> & ->)]; [|done]. apply res_bind_Ok in Hv as (raw & Hraw%read_body_Ok & Hv).
  apply eff_bind_cases in H as [(t & w1 & H1 & H)|(e & [=] & _)].
  assert (Hw1 : running q own w w1).
  { injection H1 as _ <-. eapply (running_events _ _ _ _ _ []); [done|simpl; lia|done|constructor]. }
  assert (Hok1 : world_ok w1) by (by apply (preserves_run _ _ _ _ _ (now_preserves _ clock) Hwf H1)).
  assert (t = clock (steps w) /\ steps w1 = S (steps w)) as [-> Hs1] by (by injection H1 as <- <-).
  apply eff_lift_cases in H as [(expiry & Hval & H)|(e & _ & -> & ->)]; [|done].
  apply validate_silence_exact in Hval as (d & reason & m & start & -> & Hsil). simpl dict_of in H.
  apply eff_bind_cases in H as [(u2 & w2 & H2 & H)|(e & H2 & ->)]; [|by eapply running_expire; [apply Hok1|exact Hw1|]].
  pose proof (running_expire _ _ _ _ _ _ (wo_state _ _ Hok1) Hw1 H2) as Hw2.
  pose proof (ex_steps _ _ _ _ _ (expire_expiry _ _ _ _ _ _ _ (wo_state _ _ Hok1) H2)) as Hs2.
  apply eff_bind_cases in H as [(w2' & w2'' & [= <- <-] & H)|(e & [=] & _)].
  apply eff_lift_cases in H as [(u3 & _ & H)|(e & _ & -> & ->)]; [|done].
  apply eff_bind_cases in H as [(u4 & w4 & H4 & H)|(e & H4 & ->)]; [|exact (running_append _ _ _ _ _ _ _ _ _ _ Hw2 H4)].
  pose proof (running_append _ _ _ _ _ _ _ _ _ _ Hw2 H4) as Hw4.
  apply append_cases in H4 as [Hs4 (rows & _ & _ & _ & _ & Hlog4)].
  assert (forall h, log w4 = (h ++ log w)%list ->
    permitted q own w w4 h (Asked "POST" "/api/v2/silences" (Some (Json (silence_payload o d))))) as Hp.
  { intros h Hh. eapply (permitted_create _ _ _ _ _ o (steps w)); [done|done|done|exact Hraw|exact Hv|lia|exact Hsil| |exact (head_recorded _ _ _ _ _ _ _ Hw2 Hlog4 Hh)].
    rewrite Hown. by eexists. }
  apply eff_bind_cases in H as [(l & w5 & H5 & H)|(e & H5 & ->)];
    apply (running_ask _ _ _ _ _ _ _ _ _ Hauth Hw4 Hp) in H5 as (Hw5 & _); [|done].
  apply eff_lift_cases in H as [(id & _ & H)|(e & _ & -> & ->)]; [|done].
  apply eff_bind_cases in H as [(u6 & w6 & H6 & H)|(e & H6 & ->)]; [|exact (running_append _ _ _ _ _ _ _ _ _ _ Hw5 H6)].
  eapply reply_outcome; [exact (running_append _ _ _ _ _ _ _ _ _ _ Hw5 H6)| |exact H].
  eapply truthful_created; [done| | |by eapply append_settled].
  - apply append_cases in H6 as [_ (rows' & Hrows & Hst & _)]. rewrite Hst. cbn [next_state silences]. cbn [changed] in Hrows.
    apply raise_if_seq_Ok in Hrows as [Hg [= <-]]. apply orb_false_iff in Hg as [Hg _]. apply mem_false in Hg.
    rewrite dset_new by done. apply elem_of_app. right. by apply list_elem_of_singleton.
  - done.
Qed.

Lemma route_outcome q own w r w' :
  world_ok w -> authenticate q = Ok own -> route q own w = (r, w') -> outcome q own w r w'.
Proof.
  intros Hwf Hown. pose proof (running_start q own w) as Hw. unfold SilenceGateway.route.
  destruct (allowed q own) eqn:Ha; [by apply forward_outcome|].
  destruct own as [o|]; [|intros H; by eapply append_reply_outcome in H].
  destruct (bool_decide (command q = "DELETE") && startswith (path q) silences_prefix) eqn:Hd.
  { apply andb_true_iff in Hd as [Hcmd%bool_decide_eq_true Hpath]. by apply delete_outcome. }
  destruct (bool_decide ((command q, path q) = ("POST", "/v1/silences"))) eqn:Hd'.
  - apply bool_decide_eq_true in Hd' as [= Hcmd Hpath]. apply create_outcome; [done|done|done|by eapply principal_alias|done|done].
  - intros H. by eapply append_reply_outcome in H.
Qed.

(** A request that is answered gets one reply, a truthful one, and asked
    Alertmanager only what it may; one that ends in an exception got none. *)
Lemma dispatch_outcome q w r w' :
  world_ok w -> dispatch q w = (r, w') ->
  match authenticate q with
  | Ok own => outcome q own w r w'
  | Raise _ => outcome q None w r w'
  end.
Proof.
  intros Hwf. unfold SilenceGateway.dispatch, eff_try.
  assert (forall own e w1 r w', running q own w w1 ->
    (if catches GatewayError (exn_class e) then refuse q own (exn_msg e) (status_of (exn_msg e))
     else refuse q own "invalid-request" 400) w1 = (r, w') -> outcome q own w r w') as Hrefuse.
  { intros own e w1 r1 w1' Hw. destruct (catches _ _); apply refuse_outcome; try done. unfold status_of. repeat case_match; lia. }
  destruct (authenticate q) as [own|e] eqn:Hauth.
  - change ((own ← eff_lift (Ok own); route q own) w) with (route q own w).
    destruct (route q own w) as [[u|e] w1] eqn:Hr; apply route_outcome in Hr; try done; [by intros [= <- <-]|].
    destruct (caught [GatewayError; ValueError; KeyError; TypeError] e); [by apply Hrefuse|]. by intros [= <- <-].
  - change ((own ← eff_lift (Raise e); route q own) w) with (@Raise unit e, w). cbv beta iota.
    destruct (caught [GatewayError; ValueError; KeyError; TypeError] e); [apply Hrefuse; apply running_start|]. intros [= <- <-]. apply running_start.
Qed.
(** ** The gateway over time *)

(** Requests, the service loop's expiry, and a restart from the file that a
    crash or a power loss leaves. *)
Inductive machine_step : world -> world -> Prop :=
| ms_request q r w w' : dispatch q w = (r, w') -> machine_step w w'
| ms_service r w w' : service_actions float_repr clock faults w = (r, w') -> machine_step w w'
| ms_restart w f s :
    f = visible w \/ f = durable w -> load unicode_int16 f = Ok s ->
    machine_step w (World s f f (steps w) (log w)).

Lemma machine_step_ok w w' : machine_step w w' -> world_ok w -> world_ok w'.
Proof.
  intros [q r v v' H|r v v' H|v f s Hf Hs] Hv.
  - by eapply preserves_run; [apply dispatch_preserves| |exact H].
  - by eapply preserves_run; [apply expire_preserves| |exact H].
  - destruct Hv as [_ (s1 & Hl1 & Hw1) (s2 & Hl2 & Hw2)].
    assert (journal_wf unicode_int16 s) by (destruct Hf as [->| ->]; congruence).
    split; [done|by exists s|by exists s].
Qed.

Lemma machine_ok w w' : rtc machine_step w w' -> world_ok w -> world_ok w'.
Proof. induction 1 as [|x y z Hxy _ IH]; [done|]. intros Hx. apply IH. by eapply machine_step_ok. Qed.

(** C28: from a start that reads the journal, through any requests, expiries,
    failed publications, crashes and power losses, the file that is left can be
    loaded again, so that the gateway always restarts. *)
Theorem gateway_restarts pol_value auth_value host f r w0 w :
  parsed f ->
  start unicode_int16 float_repr clock faults pol_value auth_value host f = Ok (pol, auth, (r, w0)) ->
  rtc machine_step w0 w ->
  is_ok (load unicode_int16 (visible w)) = true /\ is_ok (load unicode_int16 (durable w)) = true.
Proof.
  intros Hp Hs Hw. unfold start in Hs. apply res_bind_Ok in Hs as (p & _ & Hs). apply res_bind_Ok in Hs as (a & _ & Hs).
  apply raise_if_seq_Ok in Hs as [_ Hs]. apply res_bind_Ok in Hs as (s & Hl & [= _ _ He]).
  apply load_wf in Hl as Hwf; [|done].
  apply machine_ok in Hw as [_ (s1 & -> & _) (s2 & -> & _)]; [done|].
  eapply preserves_run; [apply expire_preserves| |exact He]. split; [done|by exists s|by exists s].
Qed.

Lemma trace_ok_in q own w0 w l pre h e : trace_ok q own w0 w l -> l = (pre ++ e :: h)%list -> event_ok q own w0 w h e.
Proof. revert l. induction pre as [|e' pre IH]; intros l Hl ->; [by destruct Hl|]. destruct Hl as [_ Hl]. by eapply IH. Qed.

(** The events of a request: those of its run, and the reply that ends it. *)
Lemma dispatch_log q w r w' :
  world_ok w -> dispatch q w = (r, w') ->
  let own := match authenticate q with Ok own => own | Raise _ => None end in
  exists new, trace_ok q own w w' new /\ (steps w <= steps w')%nat /\
    match r with
    | Ok _ => exists s c b, log w' = (Replied s c b :: new ++ log w)%list /\ truthful own w' s b
    | Raise _ => log w' = (new ++ log w)%list
    end.
Proof.
  intros Hw H. apply dispatch_outcome in H; [|done]. cbv zeta.
  destruct (authenticate q) as [own|e]; destruct r as [u|e'];
    (destruct H as (s & c & b & new & Hl & Hs & Ht & Hb) || destruct H as (Hs & new & Hl & Ht)); exists new; eauto 10.
Qed.

(** C27: whatever a request makes the gateway ask of Alertmanager, it asks for an
    authenticated principal, and it is one of five things: a GET of the readiness or
    the metrics; for an owner, a GET of the alerts; a POST of the alerts, a JSON list
    that the request sent; a POST of a silence, for an owner who sent it to
    /v1/silences, as a document validated against the policy at a reading of the
    clock during the request, right after the attempt was durably journalled; or the
    DELETE of a silence that the journal holds for the owner who asked for it by its
    identifier, right after its attempt was journalled.  In particular no request is
    forwarded to the silences of Alertmanager without policy and journal. *)
Theorem requests_authorised q w r w' before m p b after :
  world_ok w -> dispatch q w = (r, w') -> log w' = (after ++ Asked m p b :: before ++ log w)%list ->
  exists own, authenticate q = Ok own /\ permitted q own w w' before (Asked m p b).
Proof.
  intros Hw H Hl. apply dispatch_log in H as (new & Ht & _ & H); [|done].
  assert (exists pre, new = (pre ++ Asked m p b :: before)%list) as [pre ->].
  { destruct r as [u|e].
    - destruct H as (s & c & bd & Hl' & _). rewrite Hl' in Hl. destruct after as [|e after]; [done|].
      injection Hl as _ Hl. rewrite app_comm_cons, (assoc (++)) in Hl. apply (inj (.++ _)) in Hl. by exists after.
    - rewrite H, app_comm_cons, (assoc (++)) in Hl. apply (inj (.++ _)) in Hl. by exists after. }
  apply trace_ok_in with (pre := pre) (h := before) (e := Asked m p b) in Ht as [Ha Hp]; [|done].
  by eexists.
Qed.

Definition is_reply (e : event) : bool := match e with Replied _ _ _ => true | _ => false end.

Lemma trace_ok_replies q own w0 w l : trace_ok q own w0 w l -> existsb is_reply l = false.
Proof. induction l as [|e l IH]; [done|]. intros [He Hl]. by destruct e; simpl in *; [auto|auto|]. Qed.

(** C29: a request gets one reply, after everything else, or an exception ends
    it without a reply; and the reply is truthful: 201 means that the silence is
    in the journal under its owner, a deletion's 200 that it is gone from it, and
    both that memory, file and durable file agree. *)
Theorem replies_truthful q w r w' :
  world_ok w -> dispatch q w = (r, w') ->
  exists new, existsb is_reply new = false /\
    match r with
    | Ok _ => exists s c b own, log w' = (Replied s c b :: new ++ log w)%list /\ truthful own w' s b /\
        (forall o, own = Some o -> authenticate q = Ok own)
    | Raise _ => log w' = (new ++ log w)%list
    end.
Proof.
  intros Hw H. apply dispatch_log in H as (new & Ht & _ & H); [|done].
  exists new. split; [by eapply trace_ok_replies|]. destruct r as [u|e]; [|done].
  destruct H as (s & c & b & Hl & Hb). eexists s, c, b, _. split; [done|]. split; [done|].
  intros o. by destruct (authenticate q) as [own|e]; [intros ->|].
Qed.
End Operation.

(** ** Witnesses *)

Definition token (c : ascii) : string := of_chars (replicate 64 c).
Definition sample_policy : value := VDict [("schema_version", VInt 1); ("environment", VStr "prod"); ("max_ttl_seconds", VInt 3600)].
Definition sample_authentication : value :=
  VDict [("schema_version", VInt 1);
         ("owners", VList [VDict [("owner", VStr "ops"); ("token_sha256", VStr (token "a"))]]);
         ("sender_token_sha256", VStr (token "b"))].
Definition pol1 : policy := Policy "prod" 3600.
Definition auth1 : authentication := Authentication [("ops", token "a")] (token "b").
Definition sample_silence : list (string * value) :=
  [("schema_version", VInt 1); ("reason", VStr "reboot"); ("starts_at", VStr "2024-02-29T12:30:00Z");
   ("ends_at", VStr "2024-02-29T13:00:00Z");
   ("matchers", VDict [("node", VStr "n1"); ("environment", VStr "prod")])].
Definition sample_parse (hook : list (string * value) -> res value) (l : list Z) : res value :=
  match l with
  | [1] => hook sample_silence
  | [2] => hook [("silenceID", VStr sample_id)]
  | _ => Raise (Exn JSONDecodeError "")
  end.
Definition sample_request : request :=
  Request "POST" "/v1/silences"
    [("authorization", ("Bearer " +:+ token "a")%string); ("Content-Length", "1"); ("Content-Type", "application/json")] [1] false.
Definition sample_clock (_ : nat) : Z := 1709209800 * TICKS.
Definition w0 : world := World empty_journal None None 0 [].

Notation sample_dispatch :=
  (dispatch (fun _ => None) (fun _ => None) (fun _ => None) (fun _ => []) (fun s => s) sample_parse sample_clock
     (fun _ => Written) (fun _ => Answered 200 [2]) pol1 auth1).
Definition sample_result : res unit * world := sample_dispatch sample_request w0.

Lemma auth1_wf : authentication_wf auth1.
Proof. apply (authentication_contract_wf sample_authentication). vm_compute. reflexivity. Qed.

Lemma w0_ok : world_ok (fun _ => None) w0.
Proof. split; [apply empty_journal_wf| |]; (exists empty_journal; split; [done|apply empty_journal_wf]). Qed.

Lemma sample_result_run : sample_dispatch sample_request w0 = (Ok tt, sample_result.2).
Proof. vm_compute. reflexivity. Qed.

Lemma requests_authorised_witness :
  exists own, authenticate (fun s => s) auth1 sample_request = Ok own /\
    permitted (fun _ => None) (fun _ => None) sample_parse sample_clock pol1 sample_request own w0 sample_result.2
      (drop 3 (log sample_result.2)) (Asked "POST" "/api/v2/silences" (Some (Json (silence_payload "ops" sample_silence)))).
Proof.
  apply (requests_authorised (fun _ => None) (fun _ => None) (fun _ => None) (fun _ => []) (fun s => s) sample_parse sample_clock
    (fun _ => Written) (fun _ => Answered 200 [2]) pol1 auth1 auth1_wf sample_request w0 (Ok tt) sample_result.2
    _ _ _ _ (take 2 (log sample_result.2)) w0_ok sample_result_run).
  vm_compute. reflexivity.
Defined.

Lemma replies_truthful_witness :
  exists new, existsb is_reply new = false /\ exists s c b own,
    log sample_result.2 = (Replied s c b :: new ++ log w0)%list /\ truthful (fun _ => []) own sample_result.2 s b /\
    (forall o, own = Some o -> authenticate (fun s => s) auth1 sample_request = Ok own).
Proof.
  exact (replies_truthful (fun _ => None) (fun _ => None) (fun _ => None) (fun _ => []) (fun s => s) sample_parse sample_clock
    (fun _ => Written) (fun _ => Answered 200 [2]) pol1 auth1 auth1_wf sample_request w0 (Ok tt) sample_result.2
    w0_ok sample_result_run).
Defined.

Definition sample_start : res unit * world := expire (fun _ => []) sample_clock (fun _ => Written) w0.

Lemma gateway_restarts_witness :
  is_ok (load (fun _ => None) (visible sample_result.2)) = true /\
  is_ok (load (fun _ => None) (durable sample_result.2)) = true.
Proof.
  apply (gateway_restarts (fun _ => None) (fun _ => None) (fun _ => None) (fun _ => []) (fun s => s) sample_parse sample_clock
    (fun _ => Written) (fun _ => Answered 200 [2]) pol1 auth1 auth1_wf sample_policy sample_authentication "127.0.0.1" None
    (Ok tt) w0).
  - done.
  - vm_compute. reflexivity.
  - apply rtc_once. eapply ms_request. exact sample_result_run.
Defined.

(** An acknowledgement whose silence identifier is not a string: [UUID] raises an
    [AttributeError] that no handler catches, so the silence that Alertmanager
    accepted is neither answered nor journalled. *)
Definition odd_parse (hook : list (string * value) -> res value) (l : list Z) : res value :=
  match l with [2] => hook [("silenceID", VInt 5)] | _ => sample_parse hook l end.

Example odd_identifier :
  let '(r, w) := dispatch (fun _ => None) (fun _ => None) (fun _ => None) (fun _ => []) (fun s => s) odd_parse sample_clock
     (fun _ => Written) (fun _ => Answered 200 [2]) pol1 auth1 sample_request w0 in
  r = Raise (Exn AttributeError "replace") /\
  log w = [Asked "POST" "/api/v2/silences" (Some (Json (silence_payload "ops" sample_silence)));
           Recorded (entry 1709209800 "create" "attempt" (Some "ops") NoChange)].
Proof. vm_compute. split; reflexivity. Qed.
